(** * productcode.py: product codes and their bar code symbols

    A shallow embedding of [productcode.py] (ISBN, ISMN, EAN-13 and the
    five digit UPC add-on) and the properties of its construction
    pipeline: parsing, checksum resolution, the reality check, the bit
    patterns and the dispatcher [makeProductCode].

    Python values are modelled as follows.
    - [str] is a list of 8-bit characters ([pystr]); a one character
      string such as [s[0]] is a one element list.  Every key of every
      character map is ASCII, so [parse] rejects any other character
      before [upper] is ever observed.
    - [int] is [Z]; the wildcard [None] inside [self.digits] is [None] of
      [option Z].
    - a [dict] with string keys is an association list searched from the
      front; only look-up and key membership are used by the program.
    - exceptions are the constructors of [exn]; the class attribute
      [ProductCodeError.msgs], one list shared by every instance, is the
      state threaded by the monad [M]. *)

From Stdlib Require Import String Ascii DecimalString.
From Stdlib Require Import List ZArith Lia Bool.
Import ListNotations.
Local Open Scope Z_scope.

(** ** Python strings *)

Abbreviation pystr := (list ascii).

Definition str (x : string) : pystr := list_ascii_of_string x.

Definition pystr_eqb (x y : pystr) : bool :=
  if list_eq_dec ascii_dec x y then true else false.

Definition is_lower (c : ascii) : bool :=
  ((97 <=? nat_of_ascii c) && (nat_of_ascii c <=? 122))%nat.

(** [str.upper] *)
Definition upper (x : pystr) : pystr :=
  map (fun c => if is_lower c then ascii_of_nat (nat_of_ascii c - 32) else c) x.

(** ["%s" % n] for an integer [n] *)
Definition pystr_of_Z (n : Z) : pystr :=
  str (NilZero.string_of_int (Z.to_int n)).

Fixpoint prefix_b (x y : pystr) : bool :=
  match x, y with
  | [], _ => true
  | _ :: _, [] => false
  | a :: x', b :: y' => Ascii.eqb a b && prefix_b x' y'
  end.

(** [x in y] for two strings, also [re.search] of a literal *)
Fixpoint substring_b (x y : pystr) : bool :=
  prefix_b x y ||
  match y with
  | [] => false
  | _ :: y' => substring_b x y'
  end.

(** [sep.join(l)] *)
Fixpoint join (sep : pystr) (l : list pystr) : pystr :=
  match l with
  | [] => []
  | [x] => x
  | x :: l' => x ++ sep ++ join sep l'
  end.

Definition newline : pystr := [ascii_of_nat 10].

(** [re.sub("\*", c, x)]: every star of [x] is replaced by the string [c]
    (the replacement strings of the program hold no backslash). *)
Definition re_sub_star (c x : pystr) : pystr :=
  flat_map (fun ch => if Ascii.eqb ch "*" then c else [ch]) x.

(** [repr] of a string, the text of a [KeyError] *)
Definition hexdigit (n : nat) : ascii :=
  nth n (str "0123456789abcdef") "0"%char.

Definition printable (c : ascii) : bool :=
  let n := nat_of_ascii c in
  ((32 <=? n) && (n <=? 126) || (161 <=? n) && negb (n =? 173))%nat.

Definition repr_char (quote c : ascii) : pystr :=
  let n := nat_of_ascii c in
  if Ascii.eqb c "\" then str "\\"
  else if Ascii.eqb c quote then ["\"%char; c]
  else if (n =? 9)%nat then str "\t"
  else if (n =? 10)%nat then str "\n"
  else if (n =? 13)%nat then str "\r"
  else if printable c then [c]
  else str "\x" ++ [hexdigit (n / 16); hexdigit (n mod 16)].

Definition dquote : ascii := ascii_of_nat 34.

Definition repr (x : pystr) : pystr :=
  let quote :=
    if existsb (Ascii.eqb "'") x && negb (existsb (Ascii.eqb dquote) x)
    then dquote else "'"%char in
  [quote] ++ flat_map (repr_char quote) x ++ [quote].

(** ** Exceptions and the two monads *)

Inductive exn : Type :=
| ProductCodeError (msg : option pystr)
| KeyError (key : pystr)
| IndexError
| ValueError
| TypeError
| AttributeError
| ZeroDivisionError.

Inductive res (A : Type) : Type :=
| OK (a : A)
| Raise (e : exn).
Arguments OK {A} a.
Arguments Raise {A} e.

Definition rbind {A B} (r : res A) (f : A -> res B) : res B :=
  match r with
  | OK a => f a
  | Raise e => Raise e
  end.

(** The state is the class attribute [ProductCodeError.msgs]. *)
Abbreviation msgs_t := (list pystr).

Definition M (A : Type) : Type := msgs_t -> res A * msgs_t.

Definition ret {A} (a : A) : M A := fun msgs => (OK a, msgs).

Definition raise {A} (e : exn) : M A := fun msgs => (Raise e, msgs).

Definition lift {A} (r : res A) : M A := fun msgs => (r, msgs).

Definition bind {A B} (m : M A) (f : A -> M B) : M B :=
  fun msgs =>
    match m msgs with
    | (OK a, msgs') => f a msgs'
    | (Raise e, msgs') => (Raise e, msgs')
    end.

Declare Scope py_scope.
Delimit Scope py_scope with py.
Notation "x <~ e ;; k" := (rbind e (fun x => k))
  (at level 61, e at next level, right associativity) : py_scope.
Notation "x <- e ;; k" := (bind e (fun x => k))
  (at level 61, e at next level, right associativity) : py_scope.
Notation "e ;; k" := (bind e (fun _ => k))
  (at level 61, right associativity) : py_scope.
Local Open Scope py_scope.

(** [try: body / except C as e: handler e], [caught] deciding the class *)
Definition try_except {A} (body : M A) (caught : exn -> bool)
    (handler : exn -> M A) : M A :=
  fun msgs =>
    match body msgs with
    | (OK a, msgs') => (OK a, msgs')
    | (Raise e, msgs') =>
        if caught e then handler e msgs' else (Raise e, msgs')
    end.

Definition isKeyError (e : exn) : bool :=
  match e with KeyError _ => true | _ => false end.

Definition isProductCodeError (e : exn) : bool :=
  match e with ProductCodeError _ => true | _ => false end.

(** [ProductCodeError.__init__]: a true message (neither [None] nor the
    empty string) is appended to the shared list. *)
Definition ProductCodeError_init (msg : option pystr) : M exn :=
  fun msgs =>
    (OK (ProductCodeError msg),
     match msg with
     | Some ((_ :: _) as m) => msgs ++ [m]
     | _ => msgs
     end).

(** [raise ProductCodeError(msg)] *)
Definition raise_ProductCodeError {A} (msg : option pystr) : M A :=
  e <- ProductCodeError_init msg ;; raise e.

(** [ProductCodeError.__str__], the same text for every instance *)
Definition ProductCodeError_str (e : exn) : M pystr :=
  fun msgs => (OK (join newline msgs), msgs).

(** ** Sequences and dictionaries *)

(** [l[i]] *)
Definition getitem {A} (l : list A) (i : Z) : res A :=
  let n := Z.of_nat (length l) in
  let j := if i <? 0 then i + n else i in
  if (j <? 0) || (n <=? j) then Raise IndexError
  else match nth_error l (Z.to_nat j) with
       | Some a => OK a
       | None => Raise IndexError
       end.

(** [x[i]] for a string [x], a one character string *)
Definition str_getitem (x : pystr) (i : Z) : res pystr :=
  c <~ getitem x i ;; OK [c].

(** [l[lo:hi]]; [None] is an omitted bound *)
Definition slice {A} (l : list A) (lo hi : option Z) : list A :=
  let n := Z.of_nat (length l) in
  let clamp i := Z.min n (Z.max 0 (if i <? 0 then i + n else i)) in
  let a := match lo with Some i => clamp i | None => 0 end in
  let b := match hi with Some i => clamp i | None => n end in
  firstn (Z.to_nat (b - a)) (skipn (Z.to_nat a) l).

(** [l[i] = a] for an index in range *)
Fixpoint setitem {A} (l : list A) (i : nat) (a : A) : list A :=
  match l, i with
  | [], _ => []
  | _ :: l', O => a :: l'
  | b :: l', S i' => b :: setitem l' i' a
  end.

(** [range(n)] *)
Definition range (n : nat) : list Z := map Z.of_nat (seq 0 n).

Definition dict (V : Type) : Type := list (pystr * V).

Fixpoint dict_find {V} (d : dict V) (k : pystr) : option V :=
  match d with
  | [] => None
  | (k', v) :: d' => if pystr_eqb k' k then Some v else dict_find d' k
  end.

(** [d[k]] *)
Definition dict_getitem {V} (d : dict V) (k : pystr) : res V :=
  match dict_find d k with
  | Some v => OK v
  | None => Raise (KeyError k)
  end.

(** [k in d.keys()] *)
Definition dict_has_key {V} (d : dict V) (k : pystr) : bool :=
  match dict_find d k with Some _ => true | None => false end.

(** [d[k] = v] *)
Definition dict_setitem {V} (d : dict V) (k : pystr) (v : V) : dict V :=
  (k, v) :: filter (fun kv => negb (pystr_eqb (fst kv) k)) d.

(** ** The tables *)

(** The parity symbols [A="A";B="B";C="C";O="O";E="E"], kept in a module
    of their own since [O] is also the zero of [nat]. *)
Module Sym.
Definition A : pystr := str "A".
Definition B : pystr := str "B".
Definition C : pystr := str "C".
Definition O : pystr := str "O".
Definition E : pystr := str "E".
End Sym.

Definition UPCABITS : list (dict pystr) :=
  [ [(Sym.O, str "0001101"); (Sym.E, str "1110010")];
    [(Sym.O, str "0011001"); (Sym.E, str "1100110")];
    [(Sym.O, str "0010011"); (Sym.E, str "1101100")];
    [(Sym.O, str "0111101"); (Sym.E, str "1000010")];
    [(Sym.O, str "0100011"); (Sym.E, str "1011100")];
    [(Sym.O, str "0110001"); (Sym.E, str "1001110")];
    [(Sym.O, str "0101111"); (Sym.E, str "1010000")];
    [(Sym.O, str "0111011"); (Sym.E, str "1000100")];
    [(Sym.O, str "0110111"); (Sym.E, str "1001000")];
    [(Sym.O, str "0001011"); (Sym.E, str "1110100")] ].

Definition UPCAPARITY : list pystr := repeat (str "OOOOOOEEEEEE") 10.

Definition UPCEBITS : list (dict pystr) :=
  [ [(Sym.O, str "0001101"); (Sym.E, str "0100111")];
    [(Sym.O, str "0011001"); (Sym.E, str "0110011")];
    [(Sym.O, str "0010011"); (Sym.E, str "0011011")];
    [(Sym.O, str "0111101"); (Sym.E, str "0100001")];
    [(Sym.O, str "0100011"); (Sym.E, str "0011101")];
    [(Sym.O, str "0110001"); (Sym.E, str "0111001")];
    [(Sym.O, str "0101111"); (Sym.E, str "0000101")];
    [(Sym.O, str "0111011"); (Sym.E, str "0010001")];
    [(Sym.O, str "0110111"); (Sym.E, str "0001001")];
    [(Sym.O, str "0001011"); (Sym.E, str "0010111")] ].

Definition UPC5BITS : list (dict pystr) := UPCEBITS.

Definition UPC5PARITY : list pystr :=
  map str ["EEOOO"; "EOEOO"; "EOOEO"; "EOOOE"; "OEEOO";
           "OOEEO"; "OOOEE"; "OEOEO"; "OEOOE"; "OOEOE"]%string.

Definition EAN13BITS : list (dict pystr) :=
  [ [(Sym.A, str "0001101"); (Sym.B, str "0100111"); (Sym.C, str "1110010")];
    [(Sym.A, str "0011001"); (Sym.B, str "0110011"); (Sym.C, str "1100110")];
    [(Sym.A, str "0010011"); (Sym.B, str "0011011"); (Sym.C, str "1101100")];
    [(Sym.A, str "0111101"); (Sym.B, str "0100001"); (Sym.C, str "1000010")];
    [(Sym.A, str "0100011"); (Sym.B, str "0011101"); (Sym.C, str "1011100")];
    [(Sym.A, str "0110001"); (Sym.B, str "0111001"); (Sym.C, str "1001110")];
    [(Sym.A, str "0101111"); (Sym.B, str "0000101"); (Sym.C, str "1010000")];
    [(Sym.A, str "0111011"); (Sym.B, str "0010001"); (Sym.C, str "1000100")];
    [(Sym.A, str "0110111"); (Sym.B, str "0001001"); (Sym.C, str "1001000")];
    [(Sym.A, str "0001011"); (Sym.B, str "0010111"); (Sym.C, str "1110100")] ].

Definition EAN13PARITY : list pystr :=
  map (fun x => x ++ str "CCCCCC")
      (map str ["AAAAAA"; "AABABB"; "AABBAB"; "AABBBA"; "ABAABB";
                "ABBAAB"; "ABBBAA"; "ABABAB"; "ABABBA"; "ABBABA"]%string).

(** ** Character maps and [parse] *)

(** The values a character map holds: a digit, the wildcard [None], or
    the separator itself. *)
Inductive pyval : Type :=
| PyInt (n : Z)
| PyNone
| PyStr (x : pystr).

Abbreviation charmap := (dict pyval).

Definition makeCharMap (dicts : list charmap) : charmap :=
  let rval :=
    fold_left (fun rval i => dict_setitem rval (pystr_of_Z i) (PyInt i))
              (range 10) [] in
  fold_left
    (fun rval d =>
       fold_left (fun rval kv => dict_setitem rval (fst kv) (snd kv)) d rval)
    dicts rval.

(** A slot of [self.digits]: a digit or the wildcard [None]. *)
Abbreviation digit := (option Z).

(** [if type(d)==int or d==None: digits.append(d)] *)
Definition append_digit (digits : list digit) (d : pyval) : list digit :=
  match d with
  | PyInt n => digits ++ [Some n]
  | PyNone => digits ++ [None]
  | PyStr _ => digits
  end.

(** [for c in x: d = otherCharMap[c]; ...] *)
Fixpoint parse_loop (otherCharMap : charmap) (x : pystr)
    (digits : list digit) : res (list digit) :=
  match x with
  | [] => OK digits
  | c :: x' =>
      d <~ dict_getitem otherCharMap [c] ;;
      parse_loop otherCharMap x' (append_digit digits d)
  end.

Definition parse (s : pystr) (firstCharMap lastCharMap otherCharMap : charmap)
    : res (list digit) :=
  let digits := [] in
  c <~ str_getitem s 0 ;;
  d <~ dict_getitem firstCharMap c ;;
  let digits := append_digit digits d in
  digits <~ parse_loop otherCharMap (slice s (Some 1) (Some (-1))) digits ;;
  c <~ str_getitem s (-1) ;;
  d <~ dict_getitem lastCharMap c ;;
  OK (append_digit digits d).

(** ** The base class [ProductCode] *)

(** What a subclass sets on [self] before it calls
    [ProductCode.__init__]; an attribute no class of the chain defines is
    [None] (reading it raises [AttributeError]). *)
Record attrs : Type := {
  type : pystr;
  label : pystr;
  firstCharMap : charmap;
  lastCharMap : charmap;
  otherCharMap : charmap;
  weights : option (list Z);
  magic : option Z;
  int2char : Z -> M pystr
}.

Definition getattr {V} (a : option V) : M V :=
  match a with
  | Some v => ret v
  | None => raise AttributeError
  end.

(** A constructed instance.  [bits] is [None] until a subclass sets it.
    The attributes [leftDigits] and [rightDigits] of [EAN13], the decimal
    text of the two halves, are read nowhere and are left out. *)
Record instance : Type := {
  self_type : pystr;
  self_label : pystr;
  givenString : pystr;
  self_s : pystr;
  digits : list digit;
  checkDigit : digit;
  bits : option pystr
}.

Definition set_bits (o : instance) (b : pystr) : instance :=
  {| self_type := self_type o; self_label := self_label o;
     givenString := givenString o; self_s := self_s o;
     digits := digits o; checkDigit := checkDigit o; bits := Some b |}.

Definition set_s (o : instance) (x : pystr) : instance :=
  {| self_type := self_type o; self_label := self_label o;
     givenString := givenString o; self_s := x;
     digits := digits o; checkDigit := checkDigit o; bits := bits o |}.

(** [ProductCode.int2char] *)
Definition ProductCode_int2char (type : pystr) (n : Z) : M pystr :=
  let rval := pystr_of_Z n in
  if (1 <? length rval)%nat
  then raise_ProductCodeError (Some (type ++ str ": Internal error"))
  else ret rval.

(** [sum += self.digits[p]*self.weights[p]] for [p] in [ps] *)
Fixpoint remainder_loop (digits : list digit) (weights : list Z)
    (ps : list Z) (sum : Z) : res Z :=
  match ps with
  | [] => OK sum
  | p :: ps' =>
      d <~ getitem digits p ;;
      w <~ getitem weights p ;;
      match d with
      | Some n => remainder_loop digits weights ps' (sum + n * w)
      | None => Raise TypeError
      end
  end.

(** [x % m] *)
Definition pymod (x m : Z) : res Z :=
  if m =? 0 then Raise ZeroDivisionError else OK (x mod m).

Definition remainder (self : attrs) (digits : list digit) : M Z :=
  weights <- getattr (weights self) ;;
  if negb (length digits =? length weights)%nat
  then raise_ProductCodeError
         (Some (type self ++ str ": wrong number of digits"))
  else
    sum <- lift (remainder_loop digits weights (range (length digits)) 0) ;;
    magic <- getattr (magic self) ;;
    lift (pymod sum magic).

(** [digits.count(None)] *)
Definition count_None (digits : list digit) : nat :=
  length (filter (fun d => match d with None => true | Some _ => false end)
                 digits).

(** [digits.index(None)] *)
Fixpoint index_None (digits : list digit) : res nat :=
  match digits with
  | [] => Raise ValueError
  | None :: _ => OK O
  | Some _ :: digits' => i <~ index_None digits' ;; OK (S i)
  end.

(** The loop [for i in range(10)] of [resolveChecksum] over the candidates
    still to try; it returns with the first [i] that makes the remainder
    zero, and falls off its end, returning [None], when none does.  The
    list [self.digits] is updated in place at each turn, so the updated
    list is returned with the result. *)
Fixpoint resolve_loop (self : attrs) (digits : list digit) (iWild : nat)
    (candidates : list Z) : M (option Z * list digit) :=
  match candidates with
  | [] => ret (None, digits)
  | i :: candidates' =>
      let digits := setitem digits iWild (Some i) in
      r <- remainder self digits ;;
      if r =? 0 then ret (Some i, digits)
      else resolve_loop self digits iWild candidates'
  end.

Definition resolveChecksum (self : attrs) (digits : list digit)
    : M (option Z * list digit) :=
  let nWild := count_None digits in
  if (nWild =? 0)%nat then
    r <- remainder self digits ;;
    if r =? 0 then ret (None, digits)
    else raise_ProductCodeError (Some (type self ++ str ": checksum error"))
  else if (nWild =? 1)%nat then
    iWild <- lift (index_None digits) ;;
    resolve_loop self digits iWild (range 10)
  else
    raise_ProductCodeError
      (Some (type self ++ str ": too many wildcard digits.")).

(** [if b: msgs.append(msg)] *)
Definition append_if (b : bool) (msgs : list pystr) (msg : pystr)
    : list pystr :=
  if b then msgs ++ [msg] else msgs.

(** [for c in x: if not c in self.otherCharMap.keys(): msgs.append(...)] *)
Fixpoint realityCheck_loop (self : attrs) (x : pystr) (msgs : list pystr)
    : list pystr :=
  match x with
  | [] => msgs
  | c :: x' =>
      realityCheck_loop self x'
        (append_if (negb (dict_has_key (otherCharMap self) [c])) msgs
                   (type self ++ str ": Illegal character"))
  end.

Definition realityCheck (self : attrs) (digits : list digit) (s : pystr)
    : M unit :=
  let msgs := [] in
  weights <- getattr (weights self) ;;
  let msgs :=
    if (length weights <? length digits)%nat
    then msgs ++ [type self ++ str ": Too many digits"]
    else append_if (length digits <? length weights)%nat msgs
                   (type self ++ str ": Not enough digits") in
  c <- lift (str_getitem s 0) ;;
  let msgs :=
    append_if (negb (dict_has_key (firstCharMap self) c)) msgs
              (type self ++ str ": Illegal first character") in
  c <- lift (str_getitem s (-1)) ;;
  let msgs :=
    append_if (negb (dict_has_key (lastCharMap self) c)) msgs
              (type self ++ str ": Illegal final character") in
  let msgs := realityCheck_loop self (slice s (Some 1) (Some (-1))) msgs in
  let msgs :=
    append_if (substring_b (str "--") s || substring_b (str "  ") s) msgs
              (type self ++ str ": Repeated seperator") in
  match msgs with
  | [] => ret tt
  | _ :: _ => raise_ProductCodeError (Some (join newline msgs))
  end.

(** [ProductCode.__init__] *)
Definition ProductCode_init (self : attrs) (s : pystr) : M instance :=
  let givenString := s in
  let self_s := upper s in
  digits <-
    try_except
      (lift (parse s (firstCharMap self) (lastCharMap self)
                   (otherCharMap self)))
      isKeyError
      (fun m =>
         match m with
         | KeyError k =>
             raise_ProductCodeError
               (Some (type self ++ str ": " ++ repr k ++ str " invalid here"))
         | _ => raise m
         end) ;;
  r <- resolveChecksum self digits ;;
  let (i, digits) := r in
  self_s <-
    match i with
    | Some i => c <- int2char self i ;; ret (re_sub_star c self_s)
    | None => ret self_s
    end ;;
  realityCheck self digits self_s ;;
  checkDigit <- lift (getitem digits (-1)) ;;
  ret {| self_type := type self; self_label := label self;
         givenString := givenString; self_s := self_s;
         digits := digits; checkDigit := checkDigit; bits := None |}.

(** ** [UPC], [UPCA], [EAN13] *)

Definition UPC_firstCharMap : charmap := makeCharMap [[(str "*", PyNone)]].
Definition UPC_lastCharMap : charmap := makeCharMap [[(str "*", PyNone)]].
Definition UPC_otherCharMap : charmap :=
  makeCharMap [[(str "*", PyNone); (str "-", PyStr (str "-"))]].

Definition UPC_init (self : attrs) (s : pystr) : M instance :=
  ProductCode_init self s.

(** The loop of [UPC.setbits]; [self.parityPattern] and [self.bitchar] are
    passed as arguments. *)
Fixpoint setbits_loop (parityPattern : pystr) (bitchar : list (dict pystr))
    (digits : list digit) (ps : list Z) (bits : pystr) : res pystr :=
  match ps with
  | [] => OK bits
  | p :: ps' =>
      digit <~ getitem digits p ;;
      parity <~ str_getitem parityPattern p ;;
      row <~ match digit with
             | Some n => getitem bitchar n
             | None => Raise TypeError
             end ;;
      bit <~ dict_getitem row parity ;;
      setbits_loop parityPattern bitchar digits ps' (bits ++ bit)
  end.

Definition UPC_setbits (parityPattern : pystr) (bitchar : list (dict pystr))
    (digits : list digit) : res pystr :=
  setbits_loop parityPattern bitchar digits (range (length digits)) [].

Definition UPCA_init (self : attrs) (s : pystr) : M instance :=
  UPC_init self s.

(** [UPCA.setbits]: [UPC.setbits(self,self.digits[1:])] *)
Definition UPCA_setbits (parityPattern : pystr) (bitchar : list (dict pystr))
    (digits : list digit) : res pystr :=
  UPC_setbits parityPattern bitchar (slice digits (Some 1) None).

(** [UPCA] defines neither [weights] nor [magic]. *)
Definition UPCA_attrs : attrs :=
  {| type := str "UPCA"; label := [];
     firstCharMap := UPC_firstCharMap; lastCharMap := UPC_lastCharMap;
     otherCharMap := UPC_otherCharMap;
     weights := None; magic := None;
     int2char := ProductCode_int2char (str "UPCA") |}.

Definition UPCA (s : pystr) : M instance := UPCA_init UPCA_attrs s.

(** [self] as [EAN13.__init__] hands it to [UPCA.__init__]; a subclass has
    set [type] and [label] before. *)
Definition EAN13_attrs (type label : pystr) : attrs :=
  {| type := type; label := label;
     firstCharMap := UPC_firstCharMap; lastCharMap := UPC_lastCharMap;
     otherCharMap := UPC_otherCharMap;
     weights := Some ([1] ++ concat (repeat [3; 1] 6)); magic := Some 10;
     int2char := ProductCode_int2char type |}.

(** [L[i]] where [i] is a slot of [self.digits] *)
Definition getitem_digit {V} (l : list V) (i : digit) : res V :=
  match i with
  | Some n => getitem l n
  | None => Raise TypeError
  end.

(** [EAN13.__init__] *)
Definition EAN13_init (type label : pystr) (s : pystr) : M instance :=
  self <- UPCA_init (EAN13_attrs type label) s ;;
  d0 <- lift (getitem (digits self) 0) ;;
  parityPattern <- lift (getitem_digit EAN13PARITY d0) ;;
  let bitchar := EAN13BITS in
  bits <- lift (UPCA_setbits parityPattern bitchar (digits self)) ;;
  let leftBits := slice bits (Some 0) (Some 42) in
  let rightBits := slice bits (Some 42) None in
  let leftGuard := str "L0L" in
  let rightGuard := str "L0L" in
  let center := str "0L0L0" in
  ret (set_bits self
         (leftGuard ++ leftBits ++ center ++ rightBits ++ rightGuard)).

Definition EAN13 (s : pystr) : M instance :=
  EAN13_init (str "EAN13") (str "EAN13") s.

(** ** [UPC5] *)

Definition UPC5_attrs : attrs :=
  {| type := str "UPC5"; label := [];
     firstCharMap := makeCharMap [];
     lastCharMap := makeCharMap [[(str "*", PyNone)]];
     otherCharMap := makeCharMap [];
     weights := Some [3; 9; 3; 9; 3; -1]; magic := Some 10;
     int2char := ProductCode_int2char (str "UPC5") |}.

Definition UPC5 (s : pystr) : M instance :=
  let s := s ++ str "*" in
  self <- UPC_init UPC5_attrs s ;;
  let self := set_s self (slice (self_s self) None (Some 5)) in
  parityPattern <- lift (getitem_digit UPC5PARITY (checkDigit self)) ;;
  let bitchar := UPC5BITS in
  bits <- lift (UPC_setbits parityPattern bitchar
                            (slice (digits self) None (Some 5))) ;;
  let leftGuard := str "1011" in
  let delineator := str "01" in
  ret (set_bits self
         (leftGuard ++
          slice bits (Some 0) (Some 7) ++ delineator ++
          slice bits (Some 7) (Some 14) ++ delineator ++
          slice bits (Some 14) (Some 21) ++ delineator ++
          slice bits (Some 21) (Some 28) ++ delineator ++
          slice bits (Some 28) (Some 35))).

(** ** [ISBN13], [ISBN10], [ISMN], [ISMN13] *)

(** [not s[0] in p0 or not s[1] in p1 or not s[2] in p2] *)
Definition prefix_mismatch (s p0 p1 p2 : pystr) : res bool :=
  c0 <~ str_getitem s 0 ;;
  if negb (substring_b c0 p0) then OK true
  else
    c1 <~ str_getitem s 1 ;;
    if negb (substring_b c1 p1) then OK true
    else
      c2 <~ str_getitem s 2 ;;
      OK (negb (substring_b c2 p2)).

Definition ISBN13 (s : pystr) : M instance :=
  let type := str "ISBN13" in
  self <- EAN13_init type (str "ISBN") s ;;
  bad <- lift (prefix_mismatch s (str "9*") (str "7*") (str "89*")) ;;
  if bad
  then raise_ProductCodeError (Some (type ++ str ": must begin with 978 or 979"))
  else ret self.

(** [ISBN10.int2char] *)
Definition ISBN10_int2char (type : pystr) (n : Z) : M pystr :=
  let rval := if n =? 10 then str "X" else pystr_of_Z n in
  if (1 <? length rval)%nat
  then raise_ProductCodeError (Some (type ++ str ": Internal error"))
  else ret rval.

Definition ISBN10_attrs : attrs :=
  {| type := str "ISBN10"; label := str "ISBN";
     firstCharMap := makeCharMap [[(str "*", PyNone)]];
     lastCharMap :=
       makeCharMap [[(str "*", PyNone); (str "X", PyInt 10);
                     (str "x", PyInt 10)]];
     otherCharMap :=
       makeCharMap [[(str "*", PyNone); (str "-", PyStr (str "-"))]];
     (* range(10,0,-1) *)
     weights := Some [10; 9; 8; 7; 6; 5; 4; 3; 2; 1]; magic := Some 11;
     int2char := ISBN10_int2char (str "ISBN10") |}.

(** [ISBN10.as13] *)
Definition ISBN10_as13 (self : instance) : M instance :=
  let s := str "978-" ++ slice (self_s self) None (Some (-1)) ++ str "*" in
  ISBN13 s.

Definition ISBN10 (s : pystr) : M instance :=
  self <- ProductCode_init ISBN10_attrs s ;;
  o <- ISBN10_as13 self ;;
  b <- getattr (bits o) ;;
  ret (set_bits self b).

Definition ISMN13 (s : pystr) : M instance :=
  let type := str "ISMN13" in
  self <- EAN13_init type (str "ISMN") s ;;
  bad <- lift (prefix_mismatch s (str "9*") (str "7*") (str "9*")) ;;
  if bad
  then raise_ProductCodeError (Some (type ++ str ": must begin with 979"))
  else ret self.

Definition ISMN_attrs : attrs :=
  {| type := str "ISMN"; label := str "ISMN";
     firstCharMap := [(str "M", PyInt 3)];
     lastCharMap := makeCharMap [[(str "*", PyNone)]];
     otherCharMap :=
       makeCharMap [[(str "*", PyNone); (str "-", PyStr (str "-"));
                     (str " ", PyStr (str " "))]];
     weights := Some (concat (repeat [3; 1] 5)); magic := Some 10;
     int2char := ProductCode_int2char (str "ISMN") |}.

(** [ISMN.as13] *)
Definition ISMN_as13 (self : instance) : M instance :=
  let s :=
    str "979-0" ++ slice (self_s self) (Some 1) (Some (-1)) ++ str "*" in
  ISMN13 s.

Definition ISMN (s : pystr) : M instance :=
  self <- ProductCode_init ISMN_attrs s ;;
  o <- ISMN_as13 self ;;
  b <- getattr (bits o) ;;
  ret (set_bits self b).

(** ** The dispatcher *)

(** [makeProductCode(s,forceISBN13,forceISMN13)]; each [try] whose body
    returns is followed, in its handler, by the rest of the function. *)
Definition makeProductCode (s : pystr) (forceISBN13 forceISMN13 : bool)
    : M instance :=
  if forceISMN13
  then raise_ProductCodeError (Some (str "there is no ISMN13 yet."))
  else
    try_except (ISBN13 s) isProductCodeError (fun _ =>
    rval <- try_except (o <- ISBN10 s ;; ret (Some o)) isProductCodeError
                       (fun _ => ret None) ;;
    let rest :=
      try_except
        (rval <- ISMN s ;;
         if forceISMN13 then ISMN_as13 rval else ret rval)
        isProductCodeError (fun _ =>
      try_except (EAN13 s) isProductCodeError (fun _ =>
      raise_ProductCodeError None)) in
    match rval with
    | Some r =>
        if forceISBN13
        then try_except (ISBN10_as13 r) isProductCodeError (fun _ => rest)
        else ret r
    | None => rest
    end).

(** ** Accessors *)

(** [ProductCode.__repr__] *)
Definition ProductCode_repr (self : instance) : pystr :=
  let rval := self_s self in
  match self_label self with
  | [] => rval
  | _ :: _ => self_label self ++ str " " ++ rval
  end.

(** [EAN13.as13] and [ISBN13.as13] *)
Definition EAN13_as13 (self : instance) : instance := self.

(** [str(d)] for a slot of [self.digits] *)
Definition str_digit (d : digit) : pystr :=
  match d with
  | Some n => pystr_of_Z n
  | None => str "None"
  end.

(** The attributes [self.leftDigits] and [self.rightDigits] that
    [EAN13.__init__] sets last, as functions of the instance. *)
Definition EAN13_leftDigits (self : instance) : pystr :=
  join [] (map str_digit (slice (digits self) (Some 1) (Some 7))).

Definition EAN13_rightDigits (self : instance) : pystr :=
  join [] (map str_digit (slice (digits self) (Some 7) (Some 13))).

(** * Reasoning about the monad

    Every constructor acts on the shared message list in one way only: a
    [ProductCodeError] raised with a true message appends that message.
    [outcome m r] says that [m] returns or raises [r] from every state and
    leaves the list extended by what [r] emitted; [hoare m Q E] adds a
    postcondition for the value returned and one for the exception. *)

Definition emitted {A} (r : res A) : msgs_t :=
  match r with
  | Raise (ProductCodeError (Some ((_ :: _) as m))) => [m]
  | _ => []
  end.

Definition outcome {A} (m : M A) (r : res A) : Prop :=
  forall msgs, m msgs = (r, msgs ++ emitted r).

Definition post {A} (Q : A -> Prop) (E : exn -> Prop) (r : res A) : Prop :=
  match r with
  | OK a => Q a
  | Raise e => E e
  end.

Definition hoare {A} (m : M A) (Q : A -> Prop) (E : exn -> Prop) : Prop :=
  exists r, outcome m r /\ post Q E r.

(** The exceptions a constructor raises on a non-empty input: a
    [ProductCodeError] that carries a non-empty message. *)
Definition pce (e : exn) : Prop :=
  exists c m, e = ProductCodeError (Some (c :: m)).

Lemma outcome_ret {A} (a : A) : outcome (ret a) (OK a).
Proof. intros msgs. unfold ret. cbn. now rewrite app_nil_r. Qed.

Lemma outcome_lift_OK {A} (r : res A) (a : A) :
  r = OK a -> outcome (lift r) (OK a).
Proof. intros ->. intros msgs. unfold lift. cbn. now rewrite app_nil_r. Qed.

Lemma outcome_raise_PCE {A} (msg : pystr) :
  outcome (@raise_ProductCodeError A (Some msg))
          (Raise (ProductCodeError (Some msg))).
Proof.
  intros msgs. unfold raise_ProductCodeError, bind, ProductCodeError_init, raise.
  destruct msg; cbn; [now rewrite app_nil_r | reflexivity].
Qed.

Lemma outcome_bind_OK {A B} (m : M A) (f : A -> M B) a r :
  outcome m (OK a) -> outcome (f a) r -> outcome (bind m f) r.
Proof.
  intros Hm Hf msgs. unfold bind. rewrite Hm. cbn [emitted].
  rewrite app_nil_r. apply Hf.
Qed.

Lemma outcome_bind_Raise {A B} (m : M A) (f : A -> M B) e :
  outcome m (Raise e) -> outcome (bind m f) (Raise e).
Proof. intros Hm msgs. unfold bind. now rewrite Hm. Qed.

Lemma outcome_fun {A} (m : M A) r1 r2 :
  outcome m r1 -> outcome m r2 -> r1 = r2.
Proof.
  intros H1 H2. specialize (H1 []). specialize (H2 []). congruence.
Qed.

Lemma outcome_run {A} (m : M A) r msgs r' msgs' :
  outcome m r -> m msgs = (r', msgs') -> r' = r /\ msgs' = msgs ++ emitted r.
Proof. intros H Hm. rewrite H in Hm. now inversion Hm. Qed.

Lemma hoare_ret {A} (a : A) (Q : A -> Prop) E : Q a -> hoare (ret a) Q E.
Proof. intros H. exists (OK a). split; [apply outcome_ret | exact H]. Qed.

Lemma hoare_lift {A} (r : res A) (a : A) (Q : A -> Prop) E :
  r = OK a -> Q a -> hoare (lift r) Q E.
Proof.
  intros Hr H. exists (OK a). split; [now apply outcome_lift_OK | exact H].
Qed.

Lemma hoare_raise_PCE {A} (msg : pystr) (Q : A -> Prop) (E : exn -> Prop) :
  E (ProductCodeError (Some msg)) ->
  hoare (raise_ProductCodeError (Some msg)) Q E.
Proof.
  intros H. exists (Raise (ProductCodeError (Some msg))).
  split; [apply outcome_raise_PCE | exact H].
Qed.

Lemma hoare_bind {A B} (m : M A) (f : A -> M B)
    (Q : A -> Prop) (R : B -> Prop) E :
  hoare m Q E -> (forall a, Q a -> hoare (f a) R E) -> hoare (bind m f) R E.
Proof.
  intros [r [Hr Hq]] Hf. destruct r as [a | e]; cbn in Hq.
  - destruct (Hf a Hq) as [r' [Hr' Hq']]. exists r'. split; [| exact Hq'].
    eapply outcome_bind_OK; eauto.
  - exists (Raise e). split; [now apply outcome_bind_Raise | exact Hq].
Qed.

Lemma hoare_conseq {A} (m : M A) (Q Q' : A -> Prop) (E E' : exn -> Prop) :
  hoare m Q E -> (forall a, Q a -> Q' a) -> (forall e, E e -> E' e) ->
  hoare m Q' E'.
Proof.
  intros [r [Hr Hq]] HQ HE. exists r. split; [exact Hr |].
  destruct r; cbn in *; auto.
Qed.

(** What a triple says about one run. *)
Lemma hoare_OK {A} (m : M A) Q E msgs a msgs' :
  hoare m Q E -> m msgs = (OK a, msgs') ->
  Q a /\ msgs' = msgs /\ outcome m (OK a).
Proof.
  intros [r [Hr Hq]] Hm. destruct (outcome_run _ _ _ _ _ Hr Hm) as [E1 E2].
  subst r msgs'. cbn in *. now rewrite app_nil_r.
Qed.

Lemma hoare_Raise {A} (m : M A) Q E msgs e msgs' :
  hoare m Q E -> m msgs = (Raise e, msgs') ->
  E e /\ msgs' = msgs ++ emitted (@Raise A e) /\ outcome m (Raise e).
Proof.
  intros [r [Hr Hq]] Hm. destruct (outcome_run _ _ _ _ _ Hr Hm) as [E1 E2].
  subst r msgs'. cbn in *. auto.
Qed.

Lemma pce_msg (x y : pystr) : y <> [] -> pce (ProductCodeError (Some (x ++ y))).
Proof.
  intros Hy. destruct x as [| c x]; cbn.
  - destruct y as [| c y]; [congruence |]. now exists c, y.
  - now exists c, (x ++ y).
Qed.

(** * Sequences *)

Lemma getitem_middle {A} (pre : list A) (a : A) (rest : list A) :
  getitem (pre ++ a :: rest) (Z.of_nat (length pre)) = OK a.
Proof.
  unfold getitem. rewrite length_app. cbn [length].
  destruct (Z.ltb_spec (Z.of_nat (length pre)) 0) as [H | _]; [lia |].
  destruct (Z.ltb_spec (Z.of_nat (length pre)) 0) as [H | _]; [lia |].
  destruct (Z.leb_spec (Z.of_nat (length pre + S (length rest)))
                       (Z.of_nat (length pre))) as [H | _]; [lia |].
  cbn [orb]. rewrite Nat2Z.id, nth_error_app2 by lia.
  now rewrite Nat.sub_diag.
Qed.

Lemma getitem_0 {A} (a : A) (l : list A) : getitem (a :: l) 0 = OK a.
Proof. exact (getitem_middle [] a l). Qed.

Lemma getitem_last {A} (l : list A) (a : A) : getitem (l ++ [a]) (-1) = OK a.
Proof.
  unfold getitem. rewrite length_app. cbn [length].
  change (-1 <? 0) with true. cbv iota.
  destruct (Z.ltb_spec (-1 + Z.of_nat (length l + 1)) 0) as [H | _]; [lia |].
  destruct (Z.leb_spec (Z.of_nat (length l + 1))
                       (-1 + Z.of_nat (length l + 1))) as [H | _]; [lia |].
  cbn [orb].
  replace (Z.to_nat (-1 + Z.of_nat (length l + 1))) with (length l) by lia.
  rewrite nth_error_app2 by lia. now rewrite Nat.sub_diag.
Qed.

Lemma getitem_nil {A} (i : Z) : getitem (@nil A) i = Raise IndexError.
Proof.
  unfold getitem. cbn [length].
  destruct (i <? 0) eqn:Hi.
  - destruct (Z.ltb_spec (i + Z.of_nat 0) 0) as [_ | H]; [reflexivity | lia].
  - destruct (Z.ltb_spec i 0) as [H | H]; [discriminate |].
    destruct (Z.leb_spec (Z.of_nat 0) i) as [_ | H']; [reflexivity | lia].
Qed.

(** A non-empty string is one character, or a first character, an
    interior and a last character. *)
Lemma pystr_shape {A} (x : list A) :
  x = [] \/ (exists c, x = [c]) \/ exists c y d, x = c :: y ++ [d].
Proof.
  destruct x as [| c x]; [now left | right].
  destruct (exists_last (l := c :: x)) as [y [d Hy]]; [discriminate |].
  destruct y as [| c' y]; cbn in Hy.
  - left. exists d. congruence.
  - right. injection Hy as -> ->. now exists c', y, d.
Qed.

Lemma slice_interior {A} (c : A) (y : list A) (d : A) :
  slice (c :: y ++ [d]) (Some 1) (Some (-1)) = y.
Proof.
  unfold slice. cbn [length]. rewrite length_app. cbn [length].
  change (1 <? 0) with false. change (-1 <? 0) with true. cbv iota.
  set (n := Z.of_nat (S (length y + 1))).
  replace (Z.min n (Z.max 0 1)) with 1 by lia.
  replace (Z.min n (Z.max 0 (-1 + n))) with (n - 1) by lia.
  replace (Z.to_nat (n - 1 - 1)) with (length y) by lia.
  change (Z.to_nat 1) with 1%nat. cbn [skipn].
  rewrite firstn_app, Nat.sub_diag, firstn_all. cbn. apply app_nil_r.
Qed.

Lemma slice_interior_one {A} (c : A) : slice [c] (Some 1) (Some (-1)) = [].
Proof. reflexivity. Qed.

Lemma slice_but_last {A} (y : list A) (d : A) :
  slice (y ++ [d]) None (Some (-1)) = y.
Proof.
  unfold slice. rewrite length_app. cbn [length].
  change (-1 <? 0) with true. cbv iota.
  set (n := Z.of_nat (length y + 1)).
  replace (Z.min n (Z.max 0 (-1 + n))) with (n - 1) by lia.
  replace (Z.to_nat (n - 1 - 0)) with (length y) by lia.
  change (Z.to_nat 0) with 0%nat. cbn [skipn].
  rewrite firstn_app, Nat.sub_diag, firstn_all. cbn. apply app_nil_r.
Qed.

Lemma slice_tail {A} (c : A) (y : list A) : slice (c :: y) (Some 1) None = y.
Proof.
  unfold slice. cbn [length]. change (1 <? 0) with false. cbv iota.
  set (n := Z.of_nat (S (length y))).
  replace (Z.min n (Z.max 0 1)) with 1 by lia.
  replace (Z.to_nat (n - 1)) with (length y) by lia.
  change (Z.to_nat 1) with 1%nat. cbn [skipn]. apply firstn_all.
Qed.

Lemma slice_firstn {A} (l : list A) (k : nat) :
  slice l None (Some (Z.of_nat k)) = firstn k l.
Proof.
  unfold slice.
  destruct (Z.ltb_spec (Z.of_nat k) 0) as [H | _]; [lia |].
  change (Z.to_nat 0) with 0%nat. cbn [skipn]. rewrite Z.sub_0_r.
  destruct (Nat.le_gt_cases k (length l)) as [H | H].
  - f_equal. lia.
  - rewrite (firstn_all2 (n := k)) by lia.
    rewrite firstn_all2; [reflexivity | lia].
Qed.

Lemma setitem_length {A} (l : list A) i a : length (setitem l i a) = length l.
Proof.
  revert i. induction l as [| b l IH]; intros [| i]; cbn; auto.
Qed.

Lemma setitem_setitem {A} (l : list A) i a b :
  setitem (setitem l i a) i b = setitem l i b.
Proof.
  revert i. induction l as [| c l IH]; intros [| i]; cbn; auto.
  now rewrite IH.
Qed.

Lemma setitem_middle {A} (pre : list A) (a b : A) (rest : list A) :
  setitem (pre ++ a :: rest) (length pre) b = pre ++ b :: rest.
Proof. induction pre as [| c pre IH]; cbn; [reflexivity | now rewrite IH]. Qed.

Lemma range_spec (n : nat) (i : Z) : In i (range n) <-> 0 <= i < Z.of_nat n.
Proof.
  unfold range. rewrite in_map_iff. split.
  - intros [k [<- Hk]]. apply in_seq in Hk. lia.
  - intros H. exists (Z.to_nat i). split; [lia |]. apply in_seq. lia.
Qed.

(** * The checksum *)

(** [sum(digit[i]*weight[i])] over slots that are all digits *)
Fixpoint weighted_sum (digits : list digit) (weights : list Z) : Z :=
  match digits, weights with
  | Some n :: digits', w :: weights' => n * w + weighted_sum digits' weights'
  | _, _ => 0
  end.

Lemma count_None_app (x y : list digit) :
  count_None (x ++ y) = (count_None x + count_None y)%nat.
Proof. unfold count_None. now rewrite filter_app, length_app. Qed.

Lemma count_None_cons_Some n (x : list digit) :
  count_None (Some n :: x) = count_None x.
Proof. reflexivity. Qed.

Lemma count_None_cons_None (x : list digit) :
  count_None (None :: x) = S (count_None x).
Proof. reflexivity. Qed.

Lemma remainder_loop_sum (rest_d : list digit) :
  forall (rest_w : list Z) (pre_d : list digit) (pre_w : list Z) (acc : Z),
    length pre_d = length pre_w ->
    length rest_d = length rest_w ->
    count_None rest_d = 0%nat ->
    remainder_loop (pre_d ++ rest_d) (pre_w ++ rest_w)
                   (map Z.of_nat (seq (length pre_d) (length rest_d))) acc
    = OK (acc + weighted_sum rest_d rest_w).
Proof.
  induction rest_d as [| d rest_d IH]; intros rest_w pre_d pre_w acc Hp Hr Hc.
  - cbn. now rewrite Z.add_0_r.
  - destruct rest_w as [| w rest_w]; [discriminate |].
    destruct d as [n |]; [| discriminate].
    cbn [length seq map remainder_loop].
    rewrite getitem_middle. cbn [rbind].
    rewrite Hp at 1. rewrite getitem_middle. cbn [rbind].
    specialize (IH rest_w (pre_d ++ [Some n]) (pre_w ++ [w]) (acc + n * w)).
    rewrite <- !app_assoc, !length_app in IH. cbn [app length] in IH.
    rewrite Nat.add_1_r in IH. rewrite IH.
    + cbn [weighted_sum]. f_equal. lia.
    + lia.
    + cbn in Hr. lia.
    + exact Hc.
Qed.

Section Remainder.

Variable self : attrs.
Variables (w : list Z) (m : Z).
Hypothesis Hw : weights self = Some w.
Hypothesis Hm : magic self = Some m.
Hypothesis Hm0 : m <> 0.

Definition wrong_number : pystr := type self ++ str ": wrong number of digits".

Lemma remainder_OK (ds : list digit) :
  length ds = length w -> count_None ds = 0%nat ->
  outcome (remainder self ds) (OK (weighted_sum ds w mod m)).
Proof.
  intros Hl Hc. unfold remainder. rewrite Hw, Hm. cbn [getattr].
  eapply outcome_bind_OK; [apply outcome_ret |].
  destruct (Nat.eqb_spec (length ds) (length w)); [| contradiction].
  cbn [negb]. eapply outcome_bind_OK.
  - apply outcome_lift_OK. unfold range.
    exact (remainder_loop_sum ds w [] [] 0 eq_refl Hl Hc).
  - eapply outcome_bind_OK; [apply outcome_ret |].
    apply outcome_lift_OK. unfold pymod.
    destruct (Z.eqb_spec m 0); [contradiction | reflexivity].
Qed.

Lemma remainder_wrong_number (ds : list digit) :
  length ds <> length w ->
  outcome (remainder self ds)
          (Raise (ProductCodeError (Some wrong_number))).
Proof.
  intros Hl. unfold remainder. rewrite Hw. cbn [getattr].
  eapply outcome_bind_OK; [apply outcome_ret |].
  destruct (Nat.eqb_spec (length ds) (length w)); [contradiction |].
  cbn [negb]. apply outcome_raise_PCE.
Qed.

End Remainder.

(** * [parse] as one slot list per character *)

(** The slots one character contributes under a map: one digit, one
    wildcard, or nothing for a separator. *)
Definition slot (m : charmap) (c : ascii) : res (list digit) :=
  d <~ dict_getitem m [c] ;; OK (append_digit [] d).

(** The slots the interior characters [x] contribute. *)
Fixpoint slots (m : charmap) (x : pystr) : res (list digit) :=
  match x with
  | [] => OK []
  | c :: x' => a <~ slot m c ;; r <~ slots m x' ;; OK (a ++ r)
  end.

Lemma append_digit_app (acc : list digit) (d : pyval) :
  append_digit acc d = acc ++ append_digit [] d.
Proof. destruct d; cbn; auto using app_nil_r. Qed.

Lemma parse_loop_slots (m : charmap) (x : pystr) :
  forall acc, parse_loop m x acc = (r <~ slots m x ;; OK (acc ++ r)).
Proof.
  induction x as [| c x IH]; intros acc; cbn.
  - now rewrite app_nil_r.
  - unfold slot. destruct (dict_getitem m [c]) as [d | e]; cbn; [| reflexivity].
    rewrite IH, (append_digit_app acc). destruct (slots m x); cbn; [| reflexivity].
    now rewrite app_assoc.
Qed.

Lemma parse_nil (f l o : charmap) : parse [] f l o = Raise IndexError.
Proof. reflexivity. Qed.

Lemma parse_one (c : ascii) (f l o : charmap) :
  parse [c] f l o = (a <~ slot f c ;; b <~ slot l c ;; OK (a ++ b)).
Proof.
  unfold parse, str_getitem, slot. rewrite getitem_0. cbn [rbind].
  destruct (dict_getitem f [c]) as [a | e]; cbn [rbind]; [| reflexivity].
  rewrite slice_interior_one. cbn [parse_loop rbind].
  change [c] with ([] ++ [c]) at 1. rewrite getitem_last. cbn [rbind].
  destruct (dict_getitem l [c]) as [b | e]; cbn [rbind]; [| reflexivity].
  now rewrite append_digit_app.
Qed.

Lemma parse_more (c : ascii) (y : pystr) (d : ascii) (f l o : charmap) :
  parse (c :: y ++ [d]) f l o =
  (a <~ slot f c ;; r <~ slots o y ;; b <~ slot l d ;; OK (a ++ r ++ b)).
Proof.
  unfold parse, str_getitem, slot. rewrite getitem_0. cbn [rbind].
  destruct (dict_getitem f [c]) as [a | e]; cbn [rbind]; [| reflexivity].
  rewrite slice_interior, parse_loop_slots.
  destruct (slots o y) as [r | e]; cbn [rbind]; [| reflexivity].
  change (c :: y ++ [d]) with ((c :: y) ++ [d]). rewrite getitem_last.
  cbn [rbind].
  destruct (dict_getitem l [d]) as [b | e]; cbn [rbind]; [| reflexivity].
  now rewrite append_digit_app, app_assoc.
Qed.

Lemma slot_Raise (m : charmap) (c : ascii) e :
  slot m c = Raise e -> e = KeyError [c].
Proof.
  unfold slot, dict_getitem. destruct (dict_find m [c]); cbn; congruence.
Qed.

Lemma slots_Raise (m : charmap) (x : pystr) e :
  slots m x = Raise e -> exists k, e = KeyError k.
Proof.
  induction x as [| c x IH]; cbn; [discriminate |].
  destruct (slot m c) eqn:Hc; cbn.
  - destruct (slots m x); cbn; [discriminate |]. intros H. apply IH. congruence.
  - intros H. apply slot_Raise in Hc. exists [c]. congruence.
Qed.

(** On a non-empty string [parse] raises nothing but [KeyError]. *)
Lemma parse_Raise (s : pystr) (f l o : charmap) e :
  s <> [] -> parse s f l o = Raise e -> exists k, e = KeyError k.
Proof.
  intros Hs. destruct (pystr_shape s) as [-> | [[c ->] | [c [y [d ->]]]]].
  - contradiction.
  - rewrite parse_one.
    destruct (slot f c) eqn:Hf; cbn.
    + destruct (slot l c) eqn:Hl; cbn; [discriminate |].
      intros H. apply slot_Raise in Hl. exists [c]. congruence.
    + intros H. apply slot_Raise in Hf. exists [c]. congruence.
  - rewrite parse_more.
    destruct (slot f c) eqn:Hf; cbn.
    + destruct (slots o y) eqn:Ho; cbn.
      * destruct (slot l d) eqn:Hl; cbn; [discriminate |].
        intros H. apply slot_Raise in Hl. exists [d]. congruence.
      * intros H. apply slots_Raise in Ho. destruct Ho as [k ->].
        exists k. congruence.
    + intros H. apply slot_Raise in Hf. exists [c]. congruence.
Qed.

(** [parse] commutes with a change of characters [g] that changes every
    slot by [t]. *)
Section ParseMap.

Variable g : ascii -> ascii.
Variable t : digit -> digit.

Definition slot_map (m : charmap) : Prop :=
  forall c a, slot m c = OK a -> slot m (g c) = OK (map t a).

Lemma slots_map (m : charmap) (x : pystr) r :
  slot_map m -> slots m x = OK r -> slots m (map g x) = OK (map t r).
Proof.
  intros Hm. revert r. induction x as [| c x IH]; intros r; cbn.
  - intros [= <-]. reflexivity.
  - destruct (slot m c) as [a |] eqn:Hc; cbn; [| discriminate].
    destruct (slots m x) as [r' |]; cbn; [| discriminate].
    intros [= <-]. rewrite (Hm _ _ Hc), (IH _ eq_refl). cbn.
    now rewrite map_app.
Qed.

Lemma parse_map (s : pystr) (f l o : charmap) ds :
  slot_map f -> slot_map l -> slot_map o ->
  parse s f l o = OK ds -> parse (map g s) f l o = OK (map t ds).
Proof.
  intros Hf Hl Ho.
  destruct (pystr_shape s) as [-> | [[c ->] | [c [y [d ->]]]]].
  - discriminate.
  - cbn [map]. rewrite !parse_one.
    destruct (slot f c) as [a |] eqn:Ha; cbn; [| discriminate].
    destruct (slot l c) as [b |] eqn:Hb; cbn; [| discriminate].
    intros [= <-]. rewrite (Hf _ _ Ha), (Hl _ _ Hb). cbn.
    now rewrite map_app.
  - cbn [map]. rewrite map_app. cbn [map]. rewrite !parse_more.
    destruct (slot f c) as [a |] eqn:Ha; cbn; [| discriminate].
    destruct (slots o y) as [r |] eqn:Hr; cbn; [| discriminate].
    destruct (slot l d) as [b |] eqn:Hb; cbn; [| discriminate].
    intros [= <-].
    rewrite (Hf _ _ Ha), (slots_map _ _ _ Ho Hr), (Hl _ _ Hb). cbn.
    now rewrite !map_app.
Qed.

End ParseMap.

(** ** Properties of the character maps, decided by enumeration *)

Definition all_ascii : list ascii := map ascii_of_nat (seq 0 256).

Lemma all_ascii_complete (c : ascii) : In c all_ascii.
Proof.
  unfold all_ascii. apply in_map_iff. exists (nat_of_ascii c). split.
  - apply ascii_nat_embedding.
  - apply in_seq. pose proof (nat_ascii_bounded c). lia.
Qed.

Lemma forall_ascii (p : ascii -> bool) :
  forallb p all_ascii = true -> forall c, p c = true.
Proof.
  intros H c. rewrite forallb_forall in H. apply H, all_ascii_complete.
Qed.

Definition upper_char (c : ascii) : ascii :=
  if is_lower c then ascii_of_nat (nat_of_ascii c - 32) else c.

Definition star : ascii := "*"%char.

Definition same_slot (v v' : pyval) : bool :=
  match v, v' with
  | PyInt n, PyInt n' => n =? n'
  | PyNone, PyNone => true
  | PyStr _, PyStr _ => true
  | _, _ => false
  end.

(** [m] is one of the program's maps: only the star maps to the wildcard,
    a key keeps its slot when put in upper case, every digit value lies
    between 0 and [hi], and a map that knows the star knows every digit
    under its own value. *)
Definition good_char (hi : Z) (m : charmap) (c : ascii) : bool :=
  match dict_find m [c] with
  | None => true
  | Some v =>
      match v with
      | PyNone => Ascii.eqb c star
      | PyInt n => (0 <=? n) && (n <=? hi) && negb (Ascii.eqb c star)
      | PyStr _ => negb (Ascii.eqb c star)
      end
      && match dict_find m [upper_char c] with
         | Some v' => same_slot v v'
         | None => false
         end
  end.

Definition good_star (m : charmap) : bool :=
  match dict_find m [star] with
  | None => true
  | Some _ =>
      forallb (fun v => match dict_find m (pystr_of_Z v) with
                        | Some (PyInt n) => n =? v
                        | _ => false
                        end) (range 10)
  end.

Definition good_mapb (hi : Z) (m : charmap) : bool :=
  forallb (good_char hi m) all_ascii && good_star m.

Definition good_map (hi : Z) (m : charmap) : Prop := good_mapb hi m = true.

Definition digit_char (v : Z) : ascii := ascii_of_nat (48 + Z.to_nat v).

(** The character that replaces [c] when the string is put in upper case
    and its star is replaced by [r]. *)
Definition subst_char (r c : ascii) : ascii :=
  if Ascii.eqb (upper_char c) star then r else upper_char c.

(** The slot that replaces [d] when the wildcard receives [v]. *)
Definition fill (v : Z) (d : digit) : digit :=
  match d with
  | None => Some v
  | Some n => Some n
  end.

Ltac digit_cases v :=
  let H := fresh in
  assert (H : v = 0 \/ v = 1 \/ v = 2 \/ v = 3 \/ v = 4 \/
              v = 5 \/ v = 6 \/ v = 7 \/ v = 8 \/ v = 9) by lia;
  repeat (destruct H as [H | H]; [subst v |]); [.. | subst v].

Lemma pystr_of_digit (v : Z) : 0 <= v <= 9 -> pystr_of_Z v = [digit_char v].
Proof. intros Hv. digit_cases v; reflexivity. Qed.

Lemma upper_char_star (c : ascii) : upper_char c = star -> c = star.
Proof.
  revert c.
  assert (H : forallb (fun c => negb (Ascii.eqb (upper_char c) star)
                                || Ascii.eqb c star) all_ascii = true)
    by (vm_compute; reflexivity).
  intros c Hc. pose proof (forall_ascii _ H c) as Hb. cbv beta in Hb.
  rewrite Hc in Hb. cbn in Hb. now apply Ascii.eqb_eq.
Qed.

Lemma upper_char_idem (c : ascii) : upper_char (upper_char c) = upper_char c.
Proof.
  revert c.
  assert (H : forallb (fun c => Ascii.eqb (upper_char (upper_char c))
                                          (upper_char c)) all_ascii = true)
    by (vm_compute; reflexivity).
  intros c. apply Ascii.eqb_eq. exact (forall_ascii _ H c).
Qed.

Lemma upper_char_digit (v : Z) :
  0 <= v <= 9 -> upper_char (digit_char v) = digit_char v.
Proof. intros Hv. digit_cases v; reflexivity. Qed.

Lemma digit_char_star (v : Z) : 0 <= v <= 9 -> digit_char v <> star.
Proof. intros Hv. digit_cases v; discriminate. Qed.

Lemma upper_map (x : pystr) : upper x = map upper_char x.
Proof. reflexivity. Qed.

Lemma re_sub_star_map (r : ascii) (x : pystr) :
  re_sub_star [r] (upper x) = map (subst_char r) x.
Proof.
  induction x as [| c x IH]; [reflexivity |].
  change (upper (c :: x)) with (upper_char c :: upper x).
  cbn [re_sub_star flat_map map]. fold (re_sub_star [r] (upper x)).
  rewrite IH. unfold subst_char at 2, star.
  destruct (Ascii.eqb (upper_char c) "*"); reflexivity.
Qed.

Lemma subst_char_upper (v : Z) (c : ascii) :
  0 <= v <= 9 ->
  upper_char (subst_char (digit_char v) c) = subst_char (digit_char v) c.
Proof.
  intros Hv. unfold subst_char.
  destruct (Ascii.eqb (upper_char c) star);
    auto using upper_char_digit, upper_char_idem.
Qed.

Lemma subst_char_star (v : Z) (c : ascii) :
  0 <= v <= 9 -> subst_char (digit_char v) c <> star.
Proof.
  intros Hv. unfold subst_char.
  destruct (Ascii.eqb_spec (upper_char c) star); auto using digit_char_star.
Qed.

Lemma fill_resolved (v : Z) (ds : list digit) :
  count_None ds = 0%nat -> map (fill v) ds = ds.
Proof.
  induction ds as [| [n |] ds IH]; cbn; intros H; try discriminate; auto.
  f_equal. now apply IH.
Qed.

Lemma fill_wildcard (v : Z) (pre rest : list digit) :
  count_None pre = 0%nat -> count_None rest = 0%nat ->
  map (fill v) (pre ++ None :: rest) = pre ++ Some v :: rest.
Proof.
  intros Hp Hr. rewrite map_app. cbn [map fill].
  now rewrite !fill_resolved.
Qed.

Section GoodMap.

Variables (hi : Z) (m : charmap).
Hypothesis Hgood : good_map hi m.

Lemma good_find (c : ascii) (v : pyval) :
  dict_find m [c] = Some v ->
  (v = PyNone <-> c = star) /\
  (forall n, v = PyInt n -> 0 <= n <= hi) /\
  exists v', dict_find m [upper_char c] = Some v' /\ same_slot v v' = true.
Proof.
  intros Hv. unfold good_map, good_mapb in Hgood.
  apply andb_prop in Hgood. destruct Hgood as [Hall _].
  pose proof (forall_ascii _ Hall c) as Hc. unfold good_char in Hc.
  rewrite Hv in Hc. apply andb_prop in Hc. destruct Hc as [Hk Hu].
  destruct (dict_find m [upper_char c]) as [v' |]; [| discriminate].
  split; [split | split].
  - intros ->. now apply Ascii.eqb_eq.
  - intros ->. destruct v; try (now rewrite Ascii.eqb_refl in Hk); auto.
    rewrite Ascii.eqb_refl, andb_false_r in Hk. discriminate.
  - intros n ->. lia.
  - now exists v'.
Qed.

Lemma good_digits (v : Z) :
  dict_find m [star] <> None -> 0 <= v <= 9 ->
  dict_find m [digit_char v] = Some (PyInt v).
Proof.
  intros Hs Hv. unfold good_map, good_mapb in Hgood.
  apply andb_prop in Hgood. destruct Hgood as [_ Hst].
  unfold good_star in Hst. destruct (dict_find m [star]); [| congruence].
  rewrite forallb_forall in Hst. specialize (Hst v).
  rewrite pystr_of_digit in Hst by exact Hv.
  assert (Hin : In v (range 10)) by (apply range_spec; lia).
  specialize (Hst Hin).
  destruct (dict_find m [digit_char v]) as [[n | | x] |]; try discriminate.
  apply Z.eqb_eq in Hst. congruence.
Qed.

Lemma slot_inv (c : ascii) (a : list digit) :
  slot m c = OK a ->
  exists v, dict_find m [c] = Some v /\ a = append_digit [] v.
Proof.
  unfold slot, dict_getitem. destruct (dict_find m [c]) as [v |]; cbn.
  - intros [= <-]. now exists v.
  - discriminate.
Qed.

Lemma slot_of_find (c : ascii) (v : pyval) :
  dict_find m [c] = Some v -> slot m c = OK (append_digit [] v).
Proof. intros H. unfold slot, dict_getitem. now rewrite H. Qed.

Lemma same_slot_append (v v' : pyval) :
  same_slot v v' = true -> append_digit [] v' = append_digit [] v.
Proof.
  destruct v, v'; cbn; try discriminate; auto.
  intros H. apply Z.eqb_eq in H. now subst.
Qed.

(** Upper case changes no slot. *)
Lemma slot_upper : slot_map upper_char (fun d => d) m.
Proof.
  intros c a Ha. rewrite map_id.
  destruct (slot_inv _ _ Ha) as [v [Hv ->]].
  destruct (good_find _ _ Hv) as [_ [_ [v' [Hv' Hs]]]].
  rewrite (slot_of_find _ _ Hv'). f_equal. now apply same_slot_append.
Qed.

(** Upper case and the digit [v] for the star fill the wildcard. *)
Lemma slot_subst (v : Z) :
  0 <= v <= 9 -> slot_map (subst_char (digit_char v)) (fill v) m.
Proof.
  intros Hv c a Ha.
  destruct (slot_inv _ _ Ha) as [x [Hx ->]].
  destruct (good_find _ _ Hx) as [Hn [_ [x' [Hx' Hs]]]].
  unfold subst_char. destruct (Ascii.eqb_spec (upper_char c) star) as [Hc | Hc].
  - apply upper_char_star in Hc. subst c.
    assert (x = PyNone) as -> by now apply Hn.
    rewrite (slot_of_find (digit_char v) (PyInt v)); [reflexivity |].
    apply good_digits; [congruence | exact Hv].
  - rewrite (slot_of_find _ _ Hx'). f_equal.
    rewrite (same_slot_append _ _ Hs).
    destruct x; cbn; auto.
    exfalso. apply Hc. assert (c = star) as -> by now apply Hn. reflexivity.
Qed.

Lemma slot_count (c : ascii) (a : list digit) :
  slot m c = OK a ->
  count_None a = if Ascii.eqb c star then 1%nat else 0%nat.
Proof.
  intros Ha. destruct (slot_inv _ _ Ha) as [x [Hx ->]].
  destruct (good_find _ _ Hx) as [Hn _].
  destruct (Ascii.eqb_spec c star) as [Hc | Hc].
  - assert (x = PyNone) as -> by now apply Hn. reflexivity.
  - destruct x; cbn; auto. exfalso. now apply Hc, Hn.
Qed.

Lemma slot_bound (c : ascii) (a : list digit) :
  slot m c = OK a -> Forall (fun d => forall n, d = Some n -> 0 <= n <= hi) a.
Proof.
  intros Ha. destruct (slot_inv _ _ Ha) as [x [Hx ->]].
  destruct (good_find _ _ Hx) as [_ [Hb _]].
  destruct x as [k | | x]; cbn.
  - apply Forall_cons; [| apply Forall_nil]. intros n [= <-]. now apply Hb.
  - apply Forall_cons; [| apply Forall_nil]. discriminate.
  - apply Forall_nil.
Qed.

Lemma slots_count (x : pystr) (r : list digit) :
  slots m x = OK r -> count_None r = count_occ ascii_dec x star.
Proof.
  revert r. induction x as [| c x IH]; intros r; cbn [slots].
  - intros [= <-]. reflexivity.
  - destruct (slot m c) as [a |] eqn:Hc; cbn; [| discriminate].
    destruct (slots m x) as [r' |]; cbn; [| discriminate].
    intros [= <-]. rewrite count_None_app, (slot_count _ _ Hc), (IH _ eq_refl).
    cbn [count_occ].
    destruct (Ascii.eqb_spec c star), (ascii_dec c star);
      try contradiction; reflexivity.
Qed.

Lemma slots_bound (x : pystr) (r : list digit) :
  slots m x = OK r -> Forall (fun d => forall n, d = Some n -> 0 <= n <= hi) r.
Proof.
  revert r. induction x as [| c x IH]; intros r; cbn [slots].
  - intros [= <-]. constructor.
  - destruct (slot m c) as [a |] eqn:Hc; cbn; [| discriminate].
    destruct (slots m x) as [r' |]; cbn; [| discriminate].
    intros [= <-]. apply Forall_app. split; [now apply slot_bound with c | auto].
Qed.

End GoodMap.

Lemma good_UPC_firstCharMap : good_map 9 UPC_firstCharMap.
Proof. vm_compute. reflexivity. Qed.

Lemma good_UPC_lastCharMap : good_map 9 UPC_lastCharMap.
Proof. vm_compute. reflexivity. Qed.

Lemma good_UPC_otherCharMap : good_map 9 UPC_otherCharMap.
Proof. vm_compute. reflexivity. Qed.

Lemma good_UPC5_firstCharMap : good_map 9 (firstCharMap UPC5_attrs).
Proof. vm_compute. reflexivity. Qed.

Lemma good_UPC5_lastCharMap : good_map 9 (lastCharMap UPC5_attrs).
Proof. vm_compute. reflexivity. Qed.

Lemma good_UPC5_otherCharMap : good_map 9 (otherCharMap UPC5_attrs).
Proof. vm_compute. reflexivity. Qed.

Lemma good_ISBN10_firstCharMap : good_map 10 (firstCharMap ISBN10_attrs).
Proof. vm_compute. reflexivity. Qed.

Lemma good_ISBN10_lastCharMap : good_map 10 (lastCharMap ISBN10_attrs).
Proof. vm_compute. reflexivity. Qed.

Lemma good_ISBN10_otherCharMap : good_map 10 (otherCharMap ISBN10_attrs).
Proof. vm_compute. reflexivity. Qed.

Lemma good_ISMN_firstCharMap : good_map 9 (firstCharMap ISMN_attrs).
Proof. vm_compute. reflexivity. Qed.

Lemma good_ISMN_lastCharMap : good_map 9 (lastCharMap ISMN_attrs).
Proof. vm_compute. reflexivity. Qed.

Lemma good_ISMN_otherCharMap : good_map 9 (otherCharMap ISMN_attrs).
Proof. vm_compute. reflexivity. Qed.

(** * The construction pipeline of [ProductCode.__init__] *)

Lemma hoare_outcome {A} (m : M A) (Q : A -> Prop) E :
  hoare m Q E -> hoare m (fun a => Q a /\ outcome m (OK a)) E.
Proof.
  intros [r [Hr Hq]]. exists r. split; [exact Hr |].
  destruct r; cbn in *; auto.
Qed.

Lemma count_None_one (ds : list digit) :
  count_None ds = 1%nat ->
  exists pre rest,
    ds = pre ++ None :: rest /\ count_None pre = 0%nat /\
    count_None rest = 0%nat /\ index_None ds = OK (length pre).
Proof.
  induction ds as [| [n |] ds IH]; intros H.
  - discriminate.
  - rewrite count_None_cons_Some in H.
    destruct (IH H) as [pre [rest [-> [Hp [Hr Hi]]]]].
    exists (Some n :: pre), rest. cbn [index_None]. rewrite Hi. now repeat split.
  - rewrite count_None_cons_None in H. exists [], ds.
    repeat split. now injection H.
Qed.

Lemma last_cons {A} (l : list A) (a d : A) : last (a :: l) d = last l a.
Proof.
  revert a d. induction l as [| b l IH]; intros a d; [reflexivity |].
  change (last (a :: b :: l) d) with (last (b :: l) d).
  now rewrite !IH.
Qed.

Lemma nonempty_app_r {A} (x y : list A) : y <> [] -> x ++ y <> [].
Proof. intros Hy H. apply app_eq_nil in H. tauto. Qed.

Lemma join_nonempty (sep x : pystr) (l : list pystr) :
  x <> [] -> join sep (x :: l) <> [].
Proof.
  intros Hx. destruct l; cbn; [exact Hx |].
  intros H. apply app_eq_nil in H. tauto.
Qed.

Lemma pce_nonempty (x : pystr) : x <> [] -> pce (ProductCodeError (Some x)).
Proof. destruct x as [| c x]; [congruence |]. intros _. now exists c, x. Qed.

Section Pipeline.

Variable self : attrs.
Variables (w : list Z) (m : Z).
Hypothesis Hw : weights self = Some w.
Hypothesis Hm : magic self = Some m.
Hypothesis Hm0 : m <> 0.
Hypothesis Hw0 : w <> [].
Hypothesis Hi2c :
  forall v, 0 <= v <= 9 -> outcome (int2char self v) (OK (pystr_of_Z v)).

(** The remainder of a resolved sequence *)
Definition checksum (ds : list digit) : Z := weighted_sum ds w mod m.

Lemma remainder_hoare (ds : list digit) :
  count_None ds = 0%nat ->
  hoare (remainder self ds)
        (fun r => length ds = length w /\ r = checksum ds) pce.
Proof.
  intros Hc. destruct (Nat.eq_dec (length ds) (length w)) as [Hl | Hl].
  - exists (OK (checksum ds)). split; [| now split].
    now apply remainder_OK.
  - exists (Raise (ProductCodeError (Some (wrong_number self)))).
    split; [now apply remainder_wrong_number with w |].
    apply pce_msg. discriminate.
Qed.

(** How [resolveChecksum] turns the parsed slots into [self.digits]: the
    slots were all given and their checksum holds; or the one wildcard
    received the digit [v] found by the scan of 0..9; or the scan found
    no digit, and the wildcard is left at the last candidate, 9. *)
Inductive resolution (ds : list digit) : option Z -> list digit -> Prop :=
| res_given :
    count_None ds = 0%nat -> checksum ds = 0 -> resolution ds None ds
| res_found pre rest v :
    ds = pre ++ None :: rest ->
    count_None pre = 0%nat -> count_None rest = 0%nat ->
    0 <= v <= 9 -> checksum (pre ++ Some v :: rest) = 0 ->
    resolution ds (Some v) (pre ++ Some v :: rest)
| res_missed pre rest :
    ds = pre ++ None :: rest ->
    count_None pre = 0%nat -> count_None rest = 0%nat ->
    (forall v, 0 <= v <= 9 -> checksum (pre ++ Some v :: rest) <> 0) ->
    resolution ds None (pre ++ Some 9 :: rest).

Lemma resolve_loop_hoare (pre rest : list digit) (cands : list Z) :
  count_None pre = 0%nat -> count_None rest = 0%nat ->
  forall cur,
    hoare (resolve_loop self (pre ++ cur :: rest) (length pre) cands)
          (fun r =>
             (cands <> [] -> S (length pre + length rest) = length w) /\
             match find (fun v => checksum (pre ++ Some v :: rest) =? 0) cands
             with
             | Some v => r = (Some v, pre ++ Some v :: rest)
             | None => r = (None, pre ++ last (map Some cands) cur :: rest)
             end) pce.
Proof.
  intros Hp Hr. induction cands as [| i cands IH]; intros cur.
  - cbn [resolve_loop find map last]. apply hoare_ret.
    split; [intros H; now elim H | reflexivity].
  - cbn [resolve_loop find]. rewrite setitem_middle.
    eapply hoare_bind.
    + apply remainder_hoare. rewrite count_None_app, Hp.
      now rewrite count_None_cons_Some.
    + cbv beta. intros r [Hl ->].
      rewrite length_app in Hl. cbn [length] in Hl.
      destruct (checksum (pre ++ Some i :: rest) =? 0) eqn:Hz.
      * apply hoare_ret. split; [intros _; lia | reflexivity].
      * eapply hoare_conseq; [apply (IH (Some i)) | | auto].
        cbv beta. intros r [_ Hf]. split; [intros _; lia |].
        cbn [map]. now rewrite last_cons.
Qed.

Lemma resolveChecksum_hoare (ds : list digit) :
  hoare (resolveChecksum self ds)
        (fun r => length ds = length w /\ resolution ds (fst r) (snd r)) pce.
Proof.
  unfold resolveChecksum.
  destruct (Nat.eqb_spec (count_None ds) 0) as [H0 | H0].
  - eapply hoare_bind; [now apply remainder_hoare |].
    cbv beta. intros r [Hl ->].
    destruct (Z.eqb_spec (checksum ds) 0) as [Hz | Hz].
    + apply hoare_ret. split; [exact Hl | now constructor].
    + apply hoare_raise_PCE, pce_msg. discriminate.
  - destruct (Nat.eqb_spec (count_None ds) 1) as [H1 | H1].
    + destruct (count_None_one ds H1) as [pre [rest [-> [Hp [Hr Hi]]]]].
      eapply hoare_bind;
        [eapply hoare_lift with (Q := fun k => k = length pre);
         [exact Hi | reflexivity] |].
      cbv beta. intros k ->.
      eapply hoare_conseq; [now apply resolve_loop_hoare | | auto].
      cbv beta. intros [i ds'] [Hl Hf].
      assert (Hne : range 10 <> []) by discriminate.
      specialize (Hl Hne). split.
      { rewrite length_app. cbn [length]. lia. }
      cbn [fst snd].
      destruct (find _ (range 10)) as [v |] eqn:Hfind.
      * injection Hf as -> ->. apply find_some in Hfind.
        destruct Hfind as [Hin Hz]. apply range_spec in Hin.
        apply Z.eqb_eq in Hz. econstructor; eauto. lia.
      * injection Hf as -> ->. change (last (map Some (range 10)) None)
          with (Some 9). apply res_missed; auto.
        intros v Hv Hz.
        assert (Hin : In v (range 10)) by (apply range_spec; lia).
        pose proof (find_none _ _ Hfind v Hin) as Hn.
        cbv beta in Hn. apply Z.eqb_neq in Hn. apply Hn. exact Hz.
    + apply hoare_raise_PCE, pce_msg. discriminate.
Qed.

Lemma append_if_nonempty (b : bool) (msgs : list pystr) (y : pystr) :
  y <> [] -> Forall (fun z => z <> []) msgs ->
  Forall (fun z => z <> []) (append_if b msgs (type self ++ y)).
Proof.
  intros Hy H. destruct b; cbn; auto. apply Forall_app. split; auto.
  constructor; auto. now apply nonempty_app_r.
Qed.

Lemma realityCheck_loop_nonempty (x : pystr) :
  forall msgs,
    Forall (fun y => y <> []) msgs ->
    Forall (fun y => y <> []) (realityCheck_loop self x msgs).
Proof.
  induction x as [| c x IH]; intros msgs H; cbn [realityCheck_loop]; auto.
  apply IH, append_if_nonempty; [discriminate | exact H].
Qed.

Lemma realityCheck_hoare (ds : list digit) (x : pystr) :
  x <> [] -> hoare (realityCheck self ds x) (fun _ => True) pce.
Proof.
  intros Hx. unfold realityCheck. rewrite Hw. cbn [getattr].
  eapply hoare_bind;
    [apply hoare_ret with (Q := fun a => a = w); reflexivity |].
  intros ? ->.
  destruct x as [| c x]; [congruence |]. unfold str_getitem at 1.
  rewrite getitem_0. cbn [rbind].
  eapply hoare_bind;
    [eapply hoare_lift with (Q := fun _ => True); [reflexivity | exact I] |].
  intros c0 _.
  destruct (exists_last (l := c :: x)) as [y [d Hy]]; [discriminate |].
  unfold str_getitem. rewrite Hy at 1. rewrite getitem_last. cbn [rbind].
  eapply hoare_bind;
    [eapply hoare_lift with (Q := fun _ => True); [reflexivity | exact I] |].
  intros c1 _.
  match goal with
  | |- hoare (match ?l with [] => _ | _ :: _ => _ end) _ _ =>
      assert (H2 : Forall (fun y => y <> []) l); [| destruct l as [| a l']]
  end.
  - apply append_if_nonempty; [discriminate |].
    apply realityCheck_loop_nonempty.
    apply append_if_nonempty; [discriminate |].
    apply append_if_nonempty; [discriminate |].
    destruct (length w <? length ds)%nat.
    + constructor; [| constructor]. apply nonempty_app_r. discriminate.
    + apply append_if_nonempty; [discriminate | constructor].
  - now apply hoare_ret.
  - apply hoare_raise_PCE, pce_nonempty, join_nonempty.
    now inversion H2.
Qed.

(** [realityCheck] looks at the number of slots only. *)
Lemma realityCheck_length (ds ds' : list digit) (x : pystr) :
  length ds = length ds' -> realityCheck self ds x = realityCheck self ds' x.
Proof. intros H. unfold realityCheck. now rewrite H. Qed.

Definition invalid_here (k : pystr) : pystr :=
  type self ++ str ": " ++ repr k ++ str " invalid here".

Lemma parse_hoare (s : pystr) :
  s <> [] ->
  hoare
    (try_except
       (lift (parse s (firstCharMap self) (lastCharMap self)
                    (otherCharMap self)))
       isKeyError
       (fun m =>
          match m with
          | KeyError k => raise_ProductCodeError (Some (invalid_here k))
          | _ => raise m
          end))
    (fun ds => parse s (firstCharMap self) (lastCharMap self)
                     (otherCharMap self) = OK ds) pce.
Proof.
  intros Hs.
  destruct (parse s _ _ _) as [ds | e] eqn:Hp.
  - exists (OK ds). split; [| reflexivity].
    intros msgs. unfold try_except, lift. cbn. now rewrite app_nil_r.
  - destruct (parse_Raise _ _ _ _ _ Hs Hp) as [k ->].
    exists (Raise (ProductCodeError (Some (invalid_here k)))). split.
    + intros msgs. unfold try_except, lift. cbn [isKeyError].
      apply outcome_raise_PCE.
    + apply pce_msg. discriminate.
Qed.

(** What a successful [ProductCode.__init__] establishes. *)
Definition init_post (s : pystr) (o : instance) : Prop :=
  exists ds0 i,
    parse s (firstCharMap self) (lastCharMap self) (otherCharMap self)
      = OK ds0 /\
    length ds0 = length w /\
    resolution ds0 i (digits o) /\
    self_s o = match i with
               | Some v => re_sub_star (pystr_of_Z v) (upper s)
               | None => upper s
               end /\
    outcome (realityCheck self (digits o) (self_s o)) (OK tt) /\
    getitem (digits o) (-1) = OK (checkDigit o) /\
    givenString o = s /\ self_type o = type self /\
    self_label o = label self /\ bits o = None.

Lemma resolution_length ds i ds' :
  resolution ds i ds' -> length ds' = length ds.
Proof.
  intros H. destruct H; subst; auto; rewrite !length_app; reflexivity.
Qed.

Lemma resolution_Some ds v ds' : resolution ds (Some v) ds' -> 0 <= v <= 9.
Proof. intros H. now inversion H. Qed.

Lemma ProductCode_init_hoare (s : pystr) :
  s <> [] -> hoare (ProductCode_init self s) (init_post s) pce.
Proof.
  intros Hs. unfold ProductCode_init.
  eapply hoare_bind; [now apply parse_hoare |].
  cbv beta. intros ds0 Hparse.
  eapply hoare_bind; [apply resolveChecksum_hoare |].
  cbv beta. intros [i ds] [Hl Hres]. cbn [fst snd] in Hres.
  eapply hoare_bind with
    (Q := fun x => x = match i with
                       | Some v => re_sub_star (pystr_of_Z v) (upper s)
                       | None => upper s
                       end).
  { destruct i as [v |].
    - eapply hoare_bind with (Q := fun c => c = pystr_of_Z v).
      + exists (OK (pystr_of_Z v)). split; [| reflexivity].
        apply Hi2c. now apply resolution_Some in Hres.
      + cbv beta. intros c ->. now apply hoare_ret.
    - now apply hoare_ret. }
  intros x ->.
  set (x := match i with Some v => _ | None => _ end).
  assert (Hx : x <> []).
  { subst x. destruct s as [| c s]; [congruence |]. destruct i as [v |].
    - rewrite pystr_of_digit by (now apply resolution_Some in Hres).
      rewrite re_sub_star_map. discriminate.
    - discriminate. }
  eapply hoare_bind; [apply hoare_outcome, (realityCheck_hoare ds x Hx) |].
  cbv beta. intros [] [_ Hrc].
  assert (Hlen : length ds = length w)
    by (rewrite (resolution_length _ _ _ Hres); exact Hl).
  destruct (exists_last (l := ds)) as [y [d Hy]].
  { intros ->. destruct w; [congruence | discriminate]. }
  eapply hoare_bind;
    [eapply hoare_lift with (Q := fun c => c = d);
     [rewrite Hy; apply getitem_last | reflexivity] |].
  intros c ->. apply hoare_ret.
  exists ds0, i. cbn. repeat split; auto.
  rewrite Hy. apply getitem_last.
Qed.

End Pipeline.

(** * Bit patterns *)

(** The 7-symbol code of digit [n] under parity [p] in a bit table. *)
Definition bitcode (bitchar : list (dict pystr)) (n : Z) (p : ascii) : pystr :=
  match getitem bitchar n with
  | OK row => match dict_find row [p] with
              | Some b => b
              | None => []
              end
  | Raise _ => []
  end.

(** The codes of the digits [ds], each under the parity of its position. *)
Fixpoint encode (bitchar : list (dict pystr)) (ds : list digit) (pp : pystr)
    : pystr :=
  match ds, pp with
  | Some n :: ds', p :: pp' => bitcode bitchar n p ++ encode bitchar ds' pp'
  | _, _ => []
  end.

(** Every digit of [ds] has a 7-symbol code under its parity. *)
Inductive codable (bitchar : list (dict pystr)) : list digit -> pystr -> Prop :=
| codable_nil pp : codable bitchar [] pp
| codable_cons n p row b ds pp :
    getitem bitchar n = OK row -> dict_find row [p] = Some b ->
    length b = 7%nat -> codable bitchar ds pp ->
    codable bitchar (Some n :: ds) (p :: pp).

Lemma setbits_loop_encode (bitchar : list (dict pystr)) rest_d rest_p :
  codable bitchar rest_d rest_p ->
  forall pre_d pre_p acc,
    length pre_d = length pre_p ->
    setbits_loop (pre_p ++ rest_p) bitchar (pre_d ++ rest_d)
                 (map Z.of_nat (seq (length pre_d) (length rest_d))) acc
    = OK (acc ++ encode bitchar rest_d rest_p).
Proof.
  induction 1 as [pp | n p row b ds pp Hrow Hb Hlen Hc IH];
    intros pre_d pre_p acc Hpre.
  - cbn. now rewrite app_nil_r.
  - cbn [length seq map setbits_loop].
    rewrite getitem_middle. cbn [rbind]. unfold str_getitem.
    pose proof (getitem_middle pre_p p pp) as Hp. rewrite <- Hpre in Hp.
    rewrite Hp. cbn [rbind]. rewrite Hrow. cbn [rbind]. unfold dict_getitem. rewrite Hb. cbn [rbind].
    specialize (IH (pre_d ++ [Some n]) (pre_p ++ [p]) (acc ++ b)).
    rewrite <- !app_assoc, !length_app in IH. cbn [app length] in IH.
    rewrite Nat.add_1_r in IH. etransitivity; [apply IH; lia |].
    cbn [encode]. unfold bitcode. now rewrite Hrow, Hb.
Qed.

Lemma UPC_setbits_encode (bitchar : list (dict pystr)) ds pp :
  codable bitchar ds pp -> UPC_setbits pp bitchar ds = OK (encode bitchar ds pp).
Proof.
  intros H. exact (setbits_loop_encode bitchar ds pp H [] [] [] eq_refl).
Qed.

Lemma encode_length (bitchar : list (dict pystr)) ds pp :
  codable bitchar ds pp -> length (encode bitchar ds pp) = (7 * length ds)%nat.
Proof.
  induction 1 as [pp | n p row b ds pp Hrow Hb Hlen Hc IH]; [reflexivity |].
  cbn [encode length]. unfold bitcode. rewrite Hrow, Hb, length_app, IH. lia.
Qed.

Lemma codable_app (bitchar : list (dict pystr)) x px y py :
  length x = length px ->
  codable bitchar (x ++ y) (px ++ py) ->
  codable bitchar x px /\ codable bitchar y py /\
  encode bitchar (x ++ y) (px ++ py)
  = encode bitchar x px ++ encode bitchar y py.
Proof.
  revert px. induction x as [| d x IH]; intros [| p px] Hl Hc; try discriminate.
  - cbn. repeat split; auto. constructor.
  - cbn [app] in Hc. inversion Hc as [| n p' row b ds pp Hrow Hb Hlen Hc']; subst.
    destruct (IH px) as [Hx [Hy He]]; [cbn in Hl; lia | exact Hc' |].
    repeat split; auto.
    + econstructor; eauto.
    + cbn [app encode]. now rewrite He, app_assoc.
Qed.

(** The slots of a constructed code are digits between 0 and [hi]. *)
Definition decimal (hi : Z) (d : digit) : Prop :=
  exists n, d = Some n /\ 0 <= n <= hi.

Definition bounded (hi : Z) (d : digit) : Prop :=
  forall n, d = Some n -> 0 <= n <= hi.

Lemma bounded_decimal (hi : Z) (ds : list digit) :
  count_None ds = 0%nat -> Forall (bounded hi) ds -> Forall (decimal hi) ds.
Proof.
  induction ds as [| [n |] ds IH]; intros Hc Hb; try discriminate.
  - constructor.
  - inversion Hb; subst. constructor; [| now apply IH].
    exists n. split; auto.
Qed.

Lemma bounded_weaken (hi hi' : Z) (ds : list digit) :
  hi <= hi' -> Forall (bounded hi) ds -> Forall (bounded hi') ds.
Proof.
  intros Hh H. eapply Forall_impl; [| exact H].
  intros d Hd n Hn. specialize (Hd n Hn). lia.
Qed.

Lemma parse_bounded (hi : Z) (s : pystr) (f l o : charmap) ds :
  good_map hi f -> good_map hi l -> good_map hi o ->
  parse s f l o = OK ds -> Forall (bounded hi) ds.
Proof.
  intros Hf Hl Ho.
  destruct (pystr_shape s) as [-> | [[c ->] | [c [y [d ->]]]]].
  - discriminate.
  - rewrite parse_one.
    destruct (slot f c) as [a |] eqn:Ha; cbn; [| discriminate].
    destruct (slot l c) as [b |] eqn:Hb; cbn; [| discriminate].
    intros [= <-]. apply Forall_app. split.
    + exact (slot_bound hi f Hf _ _ Ha).
    + exact (slot_bound hi l Hl _ _ Hb).
  - rewrite parse_more.
    destruct (slot f c) as [a |] eqn:Ha; cbn; [| discriminate].
    destruct (slots o y) as [r |] eqn:Hr; cbn; [| discriminate].
    destruct (slot l d) as [b |] eqn:Hb; cbn; [| discriminate].
    intros [= <-]. rewrite !Forall_app. repeat split.
    + exact (slot_bound hi f Hf _ _ Ha).
    + exact (slots_bound hi o Ho _ _ Hr).
    + exact (slot_bound hi l Hl _ _ Hb).
Qed.

Lemma resolution_decimal (w : list Z) (m hi : Z) ds i ds' :
  9 <= hi -> resolution w m ds i ds' -> Forall (bounded hi) ds ->
  Forall (decimal hi) ds' /\ count_None ds' = 0%nat.
Proof.
  intros Hh Hres Hb. destruct Hres as [Hc _ | pre rest v -> Hp Hr Hv _
                                      | pre rest -> Hp Hr _].
  - split; [now apply bounded_decimal | exact Hc].
  - apply Forall_app in Hb. destruct Hb as [Hbp Hbr]. inversion Hbr; subst.
    split.
    + apply Forall_app. split; [now apply bounded_decimal |].
      constructor; [exists v; split; [reflexivity | lia] |].
      now apply bounded_decimal.
    + rewrite count_None_app, Hp, count_None_cons_Some. exact Hr.
  - apply Forall_app in Hb. destruct Hb as [Hbp Hbr]. inversion Hbr; subst.
    split.
    + apply Forall_app. split; [now apply bounded_decimal |].
      constructor; [exists 9; split; [reflexivity | lia] |].
      now apply bounded_decimal.
    + rewrite count_None_app, Hp, count_None_cons_Some. exact Hr.
Qed.

Lemma slice_from {A} (l : list A) (a : nat) :
  slice l (Some (Z.of_nat a)) None = skipn a l.
Proof.
  unfold slice. destruct (Z.ltb_spec (Z.of_nat a) 0) as [H | _]; [lia |].
  destruct (Nat.le_gt_cases a (length l)) as [H | H].
  - replace (Z.min (Z.of_nat (length l)) (Z.max 0 (Z.of_nat a)))
      with (Z.of_nat a) by lia.
    rewrite Nat2Z.id. apply firstn_all2. rewrite length_skipn. lia.
  - replace (Z.min (Z.of_nat (length l)) (Z.max 0 (Z.of_nat a)))
      with (Z.of_nat (length l)) by lia.
    rewrite Nat2Z.id, Z.sub_diag, !skipn_all2 by lia. reflexivity.
Qed.

Lemma slice_from_to {A} (l : list A) (a b : nat) :
  (a <= b)%nat ->
  slice l (Some (Z.of_nat a)) (Some (Z.of_nat b)) = firstn (b - a) (skipn a l).
Proof.
  intros Hab. unfold slice.
  destruct (Z.ltb_spec (Z.of_nat a) 0) as [H | _]; [lia |].
  destruct (Z.ltb_spec (Z.of_nat b) 0) as [H | _]; [lia |].
  destruct (Nat.le_gt_cases a (length l)) as [Ha | Ha].
  - replace (Z.min (Z.of_nat (length l)) (Z.max 0 (Z.of_nat a)))
      with (Z.of_nat a) by lia.
    rewrite Nat2Z.id.
    destruct (Nat.le_gt_cases b (length l)) as [Hb | Hb].
    + f_equal. lia.
    + rewrite (firstn_all2 (n := (b - a)%nat)) by (rewrite length_skipn; lia).
      apply firstn_all2. rewrite length_skipn. lia.
  - replace (Z.min (Z.of_nat (length l)) (Z.max 0 (Z.of_nat a)))
      with (Z.of_nat (length l)) by lia.
    rewrite Nat2Z.id, !skipn_all2 by lia. now rewrite !firstn_nil.
Qed.

Lemma getitem_In {A} (l : list A) (i : Z) (a : A) : getitem l i = OK a -> In a l.
Proof.
  unfold getitem. destruct (_ || _); [discriminate |].
  destruct (nth_error l _) eqn:H; [| discriminate].
  intros [= <-]. eapply nth_error_In; eauto.
Qed.

Lemma dict_find_In {V} (d : dict V) (k : pystr) (v : V) :
  dict_find d k = Some v -> exists k', In (k', v) d.
Proof.
  induction d as [| [k' v'] d IH]; cbn; [discriminate |].
  destruct (pystr_eqb k' k).
  - intros [= <-]. exists k'. now left.
  - intros H. destruct (IH H) as [k'' Hk]. exists k''. now right.
Qed.

(** An ordinary bar symbol, as opposed to the tall guard symbol [L]. *)
Definition binary (c : ascii) : Prop := c = "0"%char \/ c = "1"%char.

Definition binary_table (bitchar : list (dict pystr)) : Prop :=
  Forall (fun row => Forall (fun kv => Forall binary (snd kv)) row) bitchar.

Lemma bitcode_binary (bitchar : list (dict pystr)) (n : Z) (p : ascii) :
  binary_table bitchar -> Forall binary (bitcode bitchar n p).
Proof.
  intros Ht. unfold bitcode.
  destruct (getitem bitchar n) as [row |] eqn:Hrow; [| constructor].
  destruct (dict_find row [p]) as [b |] eqn:Hb; [| constructor].
  apply getitem_In in Hrow. apply dict_find_In in Hb. destruct Hb as [k Hk].
  unfold binary_table in Ht. rewrite Forall_forall in Ht.
  specialize (Ht row Hrow). rewrite Forall_forall in Ht.
  exact (Ht (k, b) Hk).
Qed.

Lemma encode_binary (bitchar : list (dict pystr)) ds pp :
  binary_table bitchar -> Forall binary (encode bitchar ds pp).
Proof.
  intros Ht. revert pp. induction ds as [| [n |] ds IH]; intros [| p pp];
    cbn [encode]; try constructor.
  apply Forall_app. split; [now apply bitcode_binary | apply IH].
Qed.

Ltac binary_table :=
  unfold binary_table; cbv;
  repeat (first [apply Forall_nil | apply Forall_cons]);
  first [left; reflexivity | right; reflexivity].

Lemma binary_EAN13BITS : binary_table EAN13BITS.
Proof. binary_table. Qed.

Lemma binary_UPC5BITS : binary_table UPC5BITS.
Proof. binary_table. Qed.

Lemma codable_decimal (bitchar : list (dict pystr)) (allowed : pystr) :
  (forall n p, 0 <= n <= 9 -> In p allowed ->
               exists row b, getitem bitchar n = OK row /\
                             dict_find row [p] = Some b /\ length b = 7%nat) ->
  forall ds pp,
    Forall (decimal 9) ds -> Forall (fun p => In p allowed) pp ->
    (length ds <= length pp)%nat -> codable bitchar ds pp.
Proof.
  intros Htab. induction ds as [| d ds IH]; intros pp Hd Hp Hl.
  - constructor.
  - destruct pp as [| p pp]; [cbn in Hl; lia |].
    inversion Hd as [| ? ? [n [-> Hn]] Hd']; subst.
    inversion Hp as [| ? ? Hin Hp']; subst.
    destruct (Htab n p Hn Hin) as [row [b [Hrow [Hb Hlen]]]].
    econstructor; eauto. apply IH; auto. cbn in Hl. lia.
Qed.

Lemma ProductCode_int2char_digit (ty : pystr) (v : Z) :
  0 <= v <= 9 -> outcome (ProductCode_int2char ty v) (OK (pystr_of_Z v)).
Proof. intros Hv. digit_cases v; apply outcome_ret. Qed.

Lemma ISBN10_int2char_digit (ty : pystr) (v : Z) :
  0 <= v <= 9 -> outcome (ISBN10_int2char ty v) (OK (pystr_of_Z v)).
Proof. intros Hv. digit_cases v; apply outcome_ret. Qed.

(** * EAN-13 and its subclasses *)

Definition EAN13_weights : list Z := [1; 3; 1; 3; 1; 3; 1; 3; 1; 3; 1; 3; 1].

Lemma EAN13PARITY_pattern (n : Z) :
  0 <= n <= 9 ->
  exists pat, getitem EAN13PARITY n = OK pat /\ length pat = 12%nat /\
              Forall (fun p => In p (str "ABC")) pat.
Proof.
  intros Hn.
  digit_cases n;
    (eexists; split; [vm_compute; reflexivity |]; split; [reflexivity |];
     repeat (apply Forall_cons;
             [first [now left | now (right; left) | now (right; right; left)] |]);
     apply Forall_nil).
Qed.

Lemma EAN13BITS_code (n : Z) (p : ascii) :
  0 <= n <= 9 -> In p (str "ABC") ->
  exists row b, getitem EAN13BITS n = OK row /\
                dict_find row [p] = Some b /\ length b = 7%nat.
Proof.
  intros Hn Hp. cbn in Hp. destruct Hp as [<- | [<- | [<- | []]]];
    digit_cases n;
    (do 2 eexists; split; [vm_compute; reflexivity |];
     split; [vm_compute; reflexivity | reflexivity]).
Qed.

(** Following the specification: left guard, the codes of digits 1..6
    under the parity pattern the leading digit selects, centre, the codes
    of digits 7..12, right guard. *)
Definition EAN13_symbol (ds : list digit) : pystr :=
  match ds with
  | Some d0 :: data =>
      let pattern := match getitem EAN13PARITY d0 with
                     | OK pat => pat
                     | Raise _ => []
                     end in
      str "L0L" ++ encode EAN13BITS (firstn 6 data) (firstn 6 pattern) ++
      str "0L0L0" ++ encode EAN13BITS (skipn 6 data) (skipn 6 pattern) ++
      str "L0L"
  | _ => []
  end.

Definition EAN13_post (ty lb s : pystr) (o : instance) : Prop :=
  exists o0,
    init_post (EAN13_attrs ty lb) EAN13_weights 10 s o0 /\
    Forall (decimal 9) (digits o0) /\ length (digits o0) = 13%nat /\
    o = set_bits o0 (EAN13_symbol (digits o0)).

Lemma EAN13_base_hoare (ty lb s : pystr) :
  s <> [] ->
  hoare (ProductCode_init (EAN13_attrs ty lb) s)
        (fun o => init_post (EAN13_attrs ty lb) EAN13_weights 10 s o /\
                  Forall (decimal 9) (digits o) /\
                  length (digits o) = 13%nat) pce.
Proof.
  intros Hs. eapply hoare_conseq.
  - apply (ProductCode_init_hoare (EAN13_attrs ty lb) EAN13_weights 10);
      try reflexivity; try discriminate; try exact Hs.
    apply ProductCode_int2char_digit.
  - cbv beta. intros o Hpost. split; [exact Hpost |].
    destruct Hpost as [ds0 [i [Hp [Hl [Hres _]]]]].
    split.
    + eapply resolution_decimal; [| exact Hres |]; [lia |].
      eapply parse_bounded; [| | | exact Hp].
      * exact good_UPC_firstCharMap.
      * exact good_UPC_lastCharMap.
      * exact good_UPC_otherCharMap.
    + rewrite (resolution_length _ _ _ _ _ Hres). exact Hl.
  - auto.
Qed.

Lemma EAN13_init_hoare (ty lb s : pystr) :
  s <> [] -> hoare (EAN13_init ty lb s) (EAN13_post ty lb s) pce.
Proof.
  intros Hs. unfold EAN13_init, UPCA_init, UPC_init.
  eapply hoare_bind; [now apply EAN13_base_hoare |].
  cbv beta. intros o [Hpost [Hdec Hlen]].
  destruct (digits o) as [| d0 data] eqn:Hds; [discriminate |].
  inversion Hdec as [| ? ? [n0 [-> Hn0]] Hdata]; subst.
  destruct (EAN13PARITY_pattern n0 Hn0) as [pat [Hpat [Hpl Hpin]]].
  rewrite getitem_0.
  eapply hoare_bind;
    [eapply hoare_lift with (Q := fun d => d = Some n0); reflexivity |].
  intros ? ->. cbn [getitem_digit].
  eapply hoare_bind;
    [eapply hoare_lift with (Q := fun p => p = pat); [exact Hpat | reflexivity] |].
  intros ? ->. unfold UPCA_setbits. rewrite slice_tail.
  assert (Hcod : codable EAN13BITS data pat).
  { apply codable_decimal with (allowed := str "ABC"); auto.
    - apply EAN13BITS_code.
    - cbn in Hlen. lia. }
  eapply hoare_bind;
    [eapply hoare_lift with (Q := fun b => b = encode EAN13BITS data pat);
     [now apply UPC_setbits_encode | reflexivity] |].
  intros ? ->. apply hoare_ret.
  exists o. rewrite Hds. repeat split; auto.
  f_equal. cbn [EAN13_symbol]. rewrite Hpat.
  rewrite <- (firstn_skipn 6 data) in Hcod.
  rewrite <- (firstn_skipn 6 pat) in Hcod.
  assert (Hl6 : length (firstn 6 data) = length (firstn 6 pat)).
  { rewrite !length_firstn. cbn in Hlen. lia. }
  destruct (codable_app _ _ _ _ _ Hl6 Hcod) as [Hleft [Hright Heq]].
  rewrite !firstn_skipn in Heq. rewrite Heq.
  pose proof (encode_length _ _ _ Hleft) as Hll.
  rewrite length_firstn in Hll.
  replace (Init.Nat.min 6 (length data)) with 6%nat in Hll
    by (cbn in Hlen; lia).
  change (Some 0) with (Some (Z.of_nat 0)).
  change (Some 42) with (Some (Z.of_nat 42)).
  rewrite slice_from_to, slice_from by lia.
  set (L := encode EAN13BITS (firstn 6 data) (firstn 6 pat)) in *.
  set (R := encode EAN13BITS (skipn 6 data) (skipn 6 pat)) in *.
  change (skipn 0 (L ++ R)) with (L ++ R).
  change (42 - 0)%nat with 42%nat.
  rewrite firstn_app, skipn_app, Hll, Nat.sub_diag.
  rewrite firstn_all2, skipn_all2 by lia.
  change (firstn 0 R) with (@nil ascii). change (skipn 0 R) with R.
  now rewrite app_nil_r.
Qed.

(** ** The checksum equation in the wildcard *)

Lemma weighted_sum_app (x y : list digit) (wx wy : list Z) :
  length x = length wx -> count_None x = 0%nat ->
  weighted_sum (x ++ y) (wx ++ wy) = weighted_sum x wx + weighted_sum y wy.
Proof.
  revert wx. induction x as [| [n |] x IH]; intros [| a wx] Hl Hc;
    try discriminate; [reflexivity |].
  cbn [app weighted_sum]. rewrite IH; [lia | cbn in Hl; lia | exact Hc].
Qed.

(** The sum is linear in the digit put in the wildcard slot. *)
Lemma weighted_sum_wildcard (pre rest : list digit) (w : list Z) (v : Z) :
  count_None pre = 0%nat ->
  S (length pre + length rest) = length w ->
  weighted_sum (pre ++ Some v :: rest) w
  = weighted_sum (pre ++ Some 0 :: rest) w + v * nth (length pre) w 0.
Proof.
  intros Hc Hl.
  destruct (skipn (length pre) w) as [| a w'] eqn:Hs.
  { apply (f_equal (@length Z)) in Hs. rewrite length_skipn in Hs.
    cbn in Hs. lia. }
  remember (firstn (length pre) w) as x eqn:Hx.
  assert (Hf : length pre = length x)
    by (subst x; rewrite length_firstn; lia).
  assert (Hw : w = x ++ a :: w')
    by (subst x; rewrite <- Hs; symmetry; apply firstn_skipn).
  rewrite Hw, !weighted_sum_app by auto.
  rewrite app_nth2 by lia. rewrite Hf, Nat.sub_diag.
  cbn [weighted_sum nth]. lia.
Qed.

(** The weights that are units modulo 10. *)
Definition units10 : list Z := [1; 3; 9; -1].

Lemma solvable10 (S a : Z) :
  In a units10 -> exists v, 0 <= v <= 9 /\ (S + v * a) mod 10 = 0.
Proof.
  intros Ha.
  assert (Hr : 0 <= S mod 10 < 10) by (apply Z.mod_pos_bound; lia).
  assert (H : exists v, 0 <= v <= 9 /\ (S mod 10 + v * a) mod 10 = 0).
  { cbn in Ha. destruct Ha as [<- | [<- | [<- | [<- | []]]]].
    - exists ((10 - S mod 10) mod 10).
      assert (S mod 10 = 0 \/ 1 <= S mod 10) as [H0 | H0] by lia.
      + rewrite H0. cbn. lia.
      + rewrite (Z.mod_small (10 - S mod 10)) by lia.
        split; [lia |]. replace (S mod 10 + (10 - S mod 10) * 1) with (1 * 10)
          by lia. apply Z.mod_mul. lia.
    - set (r := S mod 10) in *.
      assert (Hc : r = 0 \/ r = 1 \/ r = 2 \/ r = 3 \/ r = 4 \/ r = 5 \/
                   r = 6 \/ r = 7 \/ r = 8 \/ r = 9) by lia.
      destruct Hc as [-> | [-> | [-> | [-> | [-> | [-> | [-> | [-> | [-> | ->]]]]]]]]].
      + exists 0. now split.
      + exists 3. now split.
      + exists 6. now split.
      + exists 9. now split.
      + exists 2. now split.
      + exists 5. now split.
      + exists 8. now split.
      + exists 1. now split.
      + exists 4. now split.
      + exists 7. now split.
    - set (r := S mod 10) in *.
      assert (Hc : r = 0 \/ r = 1 \/ r = 2 \/ r = 3 \/ r = 4 \/ r = 5 \/
                   r = 6 \/ r = 7 \/ r = 8 \/ r = 9) by lia.
      destruct Hc as [-> | [-> | [-> | [-> | [-> | [-> | [-> | [-> | [-> | ->]]]]]]]]].
      + exists 0. now split.
      + exists 1. now split.
      + exists 2. now split.
      + exists 3. now split.
      + exists 4. now split.
      + exists 5. now split.
      + exists 6. now split.
      + exists 7. now split.
      + exists 8. now split.
      + exists 9. now split.
    - exists (S mod 10). split; [lia |].
      replace (S mod 10 + S mod 10 * -1) with 0 by lia. reflexivity. }
  destruct H as [v [Hv Hz]]. exists v. split; [exact Hv |].
  now rewrite <- Zplus_mod_idemp_l.
Qed.

(** Within 0..9 the solution is unique when no non-zero difference of two
    candidates, times the weight, is a multiple of the modulus. *)
Definition separates (m a : Z) : bool :=
  forallb (fun d => negb ((d * a) mod m =? 0) || (d =? 0))
          (map (fun k => k - 9) (range 19)).

Lemma unique_solution (m S a v v' : Z) :
  separates m a = true ->
  0 <= v <= 9 -> 0 <= v' <= 9 ->
  (S + v * a) mod m = 0 -> (S + v' * a) mod m = 0 -> v = v'.
Proof.
  intros Hsep Hv Hv' Hz Hz'.
  assert (Hd : ((v - v') * a) mod m = 0).
  { replace ((v - v') * a) with ((S + v * a) - (S + v' * a)) by lia.
    now rewrite Zminus_mod, Hz, Hz'. }
  unfold separates in Hsep. rewrite forallb_forall in Hsep.
  specialize (Hsep (v - v')). rewrite Hd in Hsep. cbn [Z.eqb negb orb] in Hsep.
  assert (Hin : In (v - v') (map (fun k => k - 9) (range 19))).
  { apply in_map_iff. exists (v - v' + 9). split; [lia |].
    apply range_spec. lia. }
  specialize (Hsep Hin). apply Z.eqb_eq in Hsep. lia.
Qed.

Lemma nth_In_units (w : list Z) (k : nat) :
  Forall (fun a => In a units10) w -> (k < length w)%nat ->
  In (nth k w 0) units10.
Proof.
  intros H Hk. rewrite Forall_forall in H. apply H, nth_In, Hk.
Qed.

(** With weights that are units modulo 10 the scan of 0..9 always finds
    its digit. *)
Lemma resolution_mod10 (w : list Z) ds i ds' :
  Forall (fun a => In a units10) w -> length ds = length w ->
  resolution w 10 ds i ds' ->
  checksum w 10 ds' = 0 /\
  (count_None ds = 0%nat /\ i = None /\ ds' = ds \/
   exists pre rest v,
     ds = pre ++ None :: rest /\ ds' = pre ++ Some v :: rest /\
     i = Some v /\ 0 <= v <= 9 /\
     count_None pre = 0%nat /\ count_None rest = 0%nat).
Proof.
  intros Hw Hl Hres. destruct Hres as [Hc Hz | pre rest v -> Hp Hr Hv Hz
                                      | pre rest -> Hp Hr Hno].
  - split; [exact Hz | left; auto].
  - split; [exact Hz | right]. exists pre, rest, v. repeat split; auto; lia.
  - exfalso. rewrite length_app in Hl. cbn [length] in Hl.
    destruct (solvable10 (weighted_sum (pre ++ Some 0 :: rest) w)
                         (nth (length pre) w 0)) as [v [Hv Hz]].
    { apply nth_In_units; [exact Hw | lia]. }
    apply (Hno v Hv). unfold checksum.
    rewrite weighted_sum_wildcard by (auto; lia). exact Hz.
Qed.

Lemma hoare_outcome_OK {A} (m : M A) (Q : A -> Prop) E (a : A) :
  hoare m Q E -> outcome m (OK a) -> Q a.
Proof.
  intros [r [Hr Hq]] Ha. rewrite (outcome_fun _ _ _ Hr Ha) in Hq. exact Hq.
Qed.

Lemma slot_length (m : charmap) (c : ascii) a :
  slot m c = OK a -> (length a <= 1)%nat.
Proof.
  unfold slot. destruct (dict_getitem m [c]) as [[n | | x] |]; cbn;
    try discriminate; intros [= <-]; cbn; lia.
Qed.

Lemma slots_length (m : charmap) (x : pystr) r :
  slots m x = OK r -> (length r <= length x)%nat.
Proof.
  revert r. induction x as [| c x IH]; intros r; cbn [slots].
  - intros [= <-]. cbn. lia.
  - destruct (slot m c) as [a |] eqn:Hc; cbn; [| discriminate].
    destruct (slots m x) as [r' |]; cbn; [| discriminate].
    intros [= <-]. rewrite length_app. apply slot_length in Hc.
    specialize (IH r' eq_refl). cbn [length]. lia.
Qed.

(** A string of one character gives two slots at most; a longer string
    gives one slot per character at most. *)
Lemma parse_length (s : pystr) (f l o : charmap) ds :
  parse s f l o = OK ds -> (3 <= length ds)%nat ->
  (length ds <= length s)%nat.
Proof.
  destruct (pystr_shape s) as [-> | [[c ->] | [c [y [d ->]]]]].
  - discriminate.
  - rewrite parse_one.
    destruct (slot f c) as [a |] eqn:Ha; cbn; [| discriminate].
    destruct (slot l c) as [b |] eqn:Hb; cbn; [| discriminate].
    intros [= <-]. rewrite length_app.
    apply slot_length in Ha. apply slot_length in Hb. lia.
  - rewrite parse_more.
    destruct (slot f c) as [a |] eqn:Ha; cbn; [| discriminate].
    destruct (slots o y) as [r |] eqn:Hr; cbn; [| discriminate].
    destruct (slot l d) as [b |] eqn:Hb; cbn; [| discriminate].
    intros [= <-] _. rewrite !length_app. cbn [length].
    apply slot_length in Ha. apply slot_length in Hb.
    apply slots_length in Hr. lia.
Qed.

(** ** The prefix check of [ISBN13] and [ISMN13] *)

(** The first three characters of [s] lie in [p0], [p1] and [p2]. *)
Definition prefix_ok (s p0 p1 p2 : pystr) : bool :=
  match s with
  | c0 :: c1 :: c2 :: _ =>
      substring_b [c0] p0 && substring_b [c1] p1 && substring_b [c2] p2
  | _ => false
  end.

Lemma prefix_mismatch_long (c0 c1 c2 : ascii) (rest p0 p1 p2 : pystr) :
  prefix_mismatch (c0 :: c1 :: c2 :: rest) p0 p1 p2
  = OK (negb (prefix_ok (c0 :: c1 :: c2 :: rest) p0 p1 p2)).
Proof.
  unfold prefix_mismatch, str_getitem, prefix_ok.
  rewrite getitem_0. cbn [rbind].
  pose proof (getitem_middle [c0] c1 (c2 :: rest)) as H1.
  pose proof (getitem_middle [c0; c1] c2 rest) as H2.
  cbn [app length] in H1, H2. change (Z.of_nat 1) with 1 in H1.
  change (Z.of_nat 2) with 2 in H2. rewrite H1, H2. cbn [rbind].
  destruct (substring_b [c0] p0), (substring_b [c1] p1),
    (substring_b [c2] p2); reflexivity.
Qed.

(** The common shape of [ISBN13.__init__] and [ISMN13.__init__]. *)
Definition prefixed (ty lb p0 p1 p2 msg s : pystr) : M instance :=
  self <- EAN13_init ty lb s ;;
  bad <- lift (prefix_mismatch s p0 p1 p2) ;;
  if bad then raise_ProductCodeError (Some (ty ++ msg)) else ret self.

Lemma ISBN13_prefixed (s : pystr) :
  ISBN13 s = prefixed (str "ISBN13") (str "ISBN") (str "9*") (str "7*")
                      (str "89*") (str ": must begin with 978 or 979") s.
Proof. reflexivity. Qed.

Lemma ISMN13_prefixed (s : pystr) :
  ISMN13 s = prefixed (str "ISMN13") (str "ISMN") (str "9*") (str "7*")
                      (str "9*") (str ": must begin with 979") s.
Proof. reflexivity. Qed.

Lemma EAN13_post_long (ty lb s : pystr) (o : instance) :
  EAN13_post ty lb s o -> exists c0 c1 c2 rest, s = c0 :: c1 :: c2 :: rest.
Proof.
  intros [o0 [[ds0 [i [Hp [Hl _]]]] _]].
  apply parse_length in Hp; [| rewrite Hl; cbn; lia].
  rewrite Hl in Hp. cbn in Hp.
  destruct s as [| c0 [| c1 [| c2 rest]]]; cbn in Hp; try lia.
  now exists c0, c1, c2, rest.
Qed.

Section Prefixed.

Variables ty lb p0 p1 p2 msg : pystr.
Hypothesis Hmsg : msg <> [].

Lemma prefixed_hoare (s : pystr) :
  s <> [] ->
  hoare (prefixed ty lb p0 p1 p2 msg s)
        (fun o => EAN13_post ty lb s o /\ prefix_ok s p0 p1 p2 = true) pce.
Proof.
  intros Hs. unfold prefixed.
  eapply hoare_bind; [now apply EAN13_init_hoare |].
  cbv beta. intros o Hpost.
  destruct (EAN13_post_long _ _ _ _ Hpost) as [c0 [c1 [c2 [rest ->]]]].
  eapply hoare_bind;
    [eapply hoare_lift with (Q := fun b => b = negb (prefix_ok _ p0 p1 p2));
     [apply prefix_mismatch_long | reflexivity] |].
  intros ? ->. destruct (prefix_ok _ p0 p1 p2); cbn [negb].
  - now apply hoare_ret.
  - now apply hoare_raise_PCE, pce_msg.
Qed.

(** The whole behaviour once [EAN13.__init__] has returned. *)
Lemma prefixed_outcome (s : pystr) (o : instance) :
  s <> [] -> outcome (EAN13_init ty lb s) (OK o) ->
  outcome (prefixed ty lb p0 p1 p2 msg s)
          (if prefix_ok s p0 p1 p2 then OK o
           else Raise (ProductCodeError (Some (ty ++ msg)))).
Proof.
  intros Hs Ho.
  pose proof (hoare_outcome_OK _ _ _ _ (EAN13_init_hoare ty lb s Hs) Ho)
    as Hpost.
  destruct (EAN13_post_long _ _ _ _ Hpost) as [c0 [c1 [c2 [rest ->]]]].
  unfold prefixed. eapply outcome_bind_OK; [exact Ho |].
  eapply outcome_bind_OK;
    [apply outcome_lift_OK, prefix_mismatch_long |].
  destruct (prefix_ok _ p0 p1 p2); cbn [negb].
  - apply outcome_ret.
  - apply outcome_raise_PCE.
Qed.

End Prefixed.

Definition ISBN13_post (s : pystr) (o : instance) : Prop :=
  EAN13_post (str "ISBN13") (str "ISBN") s o /\
  prefix_ok s (str "9*") (str "7*") (str "89*") = true.

Definition ISMN13_post (s : pystr) (o : instance) : Prop :=
  EAN13_post (str "ISMN13") (str "ISMN") s o /\
  prefix_ok s (str "9*") (str "7*") (str "9*") = true.

Lemma ISBN13_hoare (s : pystr) : s <> [] -> hoare (ISBN13 s) (ISBN13_post s) pce.
Proof.
  intros Hs. rewrite ISBN13_prefixed. apply prefixed_hoare; [discriminate | exact Hs].
Qed.

Lemma ISMN13_hoare (s : pystr) : s <> [] -> hoare (ISMN13 s) (ISMN13_post s) pce.
Proof.
  intros Hs. rewrite ISMN13_prefixed. apply prefixed_hoare; [discriminate | exact Hs].
Qed.

Lemma EAN13_hoare (s : pystr) :
  s <> [] -> hoare (EAN13 s) (EAN13_post (str "EAN13") (str "EAN13") s) pce.
Proof. intros Hs. now apply EAN13_init_hoare. Qed.

(** * ISBN-10 and ISMN *)

Definition ISBN10_weights : list Z := [10; 9; 8; 7; 6; 5; 4; 3; 2; 1].
Definition ISMN_weights : list Z := [3; 1; 3; 1; 3; 1; 3; 1; 3; 1].

(** The string [ISBN10.as13] hands to [ISBN13]. *)
Definition ISBN10_as13_string (x : pystr) : pystr :=
  str "978-" ++ slice x None (Some (-1)) ++ str "*".

(** The string [ISMN.as13] hands to [ISMN13]. *)
Definition ISMN_as13_string (x : pystr) : pystr :=
  str "979-0" ++ slice x (Some 1) (Some (-1)) ++ str "*".

Definition ISBN10_post (s : pystr) (o : instance) : Prop :=
  exists o0 o13 b,
    init_post ISBN10_attrs ISBN10_weights 11 s o0 /\
    Forall (decimal 10) (digits o0) /\
    outcome (ISBN10_as13 o0) (OK o13) /\
    ISBN13_post (ISBN10_as13_string (self_s o0)) o13 /\
    bits o13 = Some b /\ o = set_bits o0 b.

Definition ISMN_post (s : pystr) (o : instance) : Prop :=
  exists o0 o13 b,
    init_post ISMN_attrs ISMN_weights 10 s o0 /\
    Forall (decimal 9) (digits o0) /\
    outcome (ISMN_as13 o0) (OK o13) /\
    ISMN13_post (ISMN_as13_string (self_s o0)) o13 /\
    bits o13 = Some b /\ o = set_bits o0 b.

Lemma EAN13_post_bits (ty lb s : pystr) (o : instance) :
  EAN13_post ty lb s o -> exists b, bits o = Some b.
Proof. intros [o0 [_ [_ [_ ->]]]]. now eexists. Qed.

Lemma ISBN10_base_hoare (s : pystr) :
  s <> [] ->
  hoare (ProductCode_init ISBN10_attrs s)
        (fun o => init_post ISBN10_attrs ISBN10_weights 11 s o /\
                  Forall (decimal 10) (digits o)) pce.
Proof.
  intros Hs. eapply hoare_conseq.
  - apply (ProductCode_init_hoare ISBN10_attrs ISBN10_weights 11);
      try reflexivity; try discriminate; try exact Hs.
    apply ISBN10_int2char_digit.
  - cbv beta. intros o Hpost. split; [exact Hpost |].
    destruct Hpost as [ds0 [i [Hp [Hl [Hres _]]]]].
    eapply resolution_decimal; [| exact Hres |]; [lia |].
    eapply parse_bounded; [| | | exact Hp].
    + exact good_ISBN10_firstCharMap.
    + exact good_ISBN10_lastCharMap.
    + exact good_ISBN10_otherCharMap.
  - auto.
Qed.

Lemma ISBN10_hoare (s : pystr) : s <> [] -> hoare (ISBN10 s) (ISBN10_post s) pce.
Proof.
  intros Hs. unfold ISBN10.
  eapply hoare_bind; [now apply ISBN10_base_hoare |].
  cbv beta. intros o0 [Hpost Hdec].
  eapply hoare_bind.
  - apply hoare_outcome. unfold ISBN10_as13. apply ISBN13_hoare. discriminate.
  - cbv beta. intros o13 [H13 Hout].
    destruct (EAN13_post_bits _ _ _ _ (proj1 H13)) as [b Hb].
    rewrite Hb. cbn [getattr].
    eapply hoare_bind;
      [apply hoare_ret with (Q := fun x => x = b); reflexivity |].
    intros ? ->. apply hoare_ret. exists o0, o13, b. repeat split; auto.
    apply H13.
Qed.

Lemma ISMN_base_hoare (s : pystr) :
  s <> [] ->
  hoare (ProductCode_init ISMN_attrs s)
        (fun o => init_post ISMN_attrs ISMN_weights 10 s o /\
                  Forall (decimal 9) (digits o)) pce.
Proof.
  intros Hs. eapply hoare_conseq.
  - apply (ProductCode_init_hoare ISMN_attrs ISMN_weights 10);
      try reflexivity; try discriminate; try exact Hs.
    apply ProductCode_int2char_digit.
  - cbv beta. intros o Hpost. split; [exact Hpost |].
    destruct Hpost as [ds0 [i [Hp [Hl [Hres _]]]]].
    eapply resolution_decimal; [| exact Hres |]; [lia |].
    eapply parse_bounded; [| | | exact Hp].
    + exact good_ISMN_firstCharMap.
    + exact good_ISMN_lastCharMap.
    + exact good_ISMN_otherCharMap.
  - auto.
Qed.

Lemma ISMN_hoare (s : pystr) : s <> [] -> hoare (ISMN s) (ISMN_post s) pce.
Proof.
  intros Hs. unfold ISMN.
  eapply hoare_bind; [now apply ISMN_base_hoare |].
  cbv beta. intros o0 [Hpost Hdec].
  eapply hoare_bind.
  - apply hoare_outcome. unfold ISMN_as13. apply ISMN13_hoare. discriminate.
  - cbv beta. intros o13 [H13 Hout].
    destruct (EAN13_post_bits _ _ _ _ (proj1 H13)) as [b Hb].
    rewrite Hb. cbn [getattr].
    eapply hoare_bind;
      [apply hoare_ret with (Q := fun x => x = b); reflexivity |].
    intros ? ->. apply hoare_ret. exists o0, o13, b. repeat split; auto.
    apply H13.
Qed.

(** * The five digit add-on *)

Definition UPC5_weights : list Z := [3; 9; 3; 9; 3; -1].

Lemma UPC5PARITY_pattern (n : Z) :
  0 <= n <= 9 ->
  exists pat, getitem UPC5PARITY n = OK pat /\ length pat = 5%nat /\
              Forall (fun p => In p (str "OE")) pat.
Proof.
  intros Hn.
  digit_cases n;
    (eexists; split; [vm_compute; reflexivity |]; split; [reflexivity |];
     repeat (apply Forall_cons;
             [first [now left | now (right; left)] |]);
     apply Forall_nil).
Qed.

Lemma UPC5BITS_code (n : Z) (p : ascii) :
  0 <= n <= 9 -> In p (str "OE") ->
  exists row b, getitem UPC5BITS n = OK row /\
                dict_find row [p] = Some b /\ length b = 7%nat.
Proof.
  intros Hn Hp. cbn in Hp. destruct Hp as [<- | [<- | []]];
    digit_cases n;
    (do 2 eexists; split; [vm_compute; reflexivity |];
     split; [vm_compute; reflexivity | reflexivity]).
Qed.

(** Following the specification: the left guard, then the codes of the
    five printed digits under the parity pattern the check digit selects,
    joined by the delineator; no right guard. *)
Definition UPC5_symbol (ds : list digit) : pystr :=
  match ds with
  | [Some d1; Some d2; Some d3; Some d4; Some d5; Some c] =>
      match getitem UPC5PARITY c with
      | OK [p1; p2; p3; p4; p5] =>
          str "1011" ++ bitcode UPC5BITS d1 p1 ++ str "01" ++
          bitcode UPC5BITS d2 p2 ++ str "01" ++
          bitcode UPC5BITS d3 p3 ++ str "01" ++
          bitcode UPC5BITS d4 p4 ++ str "01" ++
          bitcode UPC5BITS d5 p5
      | _ => []
      end
  | _ => []
  end.

Definition UPC5_post (s : pystr) (o : instance) : Prop :=
  exists o0,
    init_post UPC5_attrs UPC5_weights 10 (s ++ str "*") o0 /\
    Forall (decimal 9) (digits o0) /\ length (digits o0) = 6%nat /\
    o = set_bits (set_s o0 (firstn 5 (self_s o0)))
                 (UPC5_symbol (digits o0)).

Lemma UPC5_base_hoare (s : pystr) :
  hoare (ProductCode_init UPC5_attrs (s ++ str "*"))
        (fun o => init_post UPC5_attrs UPC5_weights 10 (s ++ str "*") o /\
                  Forall (decimal 9) (digits o) /\
                  length (digits o) = 6%nat) pce.
Proof.
  assert (Hs : s ++ str "*" <> []) by (apply nonempty_app_r; discriminate).
  eapply hoare_conseq.
  - apply (ProductCode_init_hoare UPC5_attrs UPC5_weights 10);
      try reflexivity; try discriminate; try exact Hs.
    apply ProductCode_int2char_digit.
  - cbv beta. intros o Hpost. split; [exact Hpost |].
    destruct Hpost as [ds0 [i [Hp [Hl [Hres _]]]]]. split.
    + eapply resolution_decimal; [| exact Hres |]; [lia |].
      eapply parse_bounded; [| | | exact Hp].
      * exact good_UPC5_firstCharMap.
      * exact good_UPC5_lastCharMap.
      * exact good_UPC5_otherCharMap.
    + rewrite (resolution_length _ _ _ _ _ Hres). exact Hl.
  - auto.
Qed.

Lemma block_of_seven {A} (pre b post : list A) (k : nat) :
  length pre = k -> length b = 7%nat ->
  firstn 7 (skipn k (pre ++ b ++ post)) = b.
Proof.
  intros Hk Hb. rewrite skipn_app, Hk, Nat.sub_diag.
  rewrite skipn_all2 by lia. cbn [skipn app].
  rewrite firstn_app, Hb, Nat.sub_diag. rewrite firstn_all2 by lia.
  cbn [firstn]. apply app_nil_r.
Qed.

Lemma UPC5_hoare (s : pystr) : hoare (UPC5 s) (UPC5_post s) pce.
Proof.
  unfold UPC5, UPC_init.
  eapply hoare_bind; [apply UPC5_base_hoare |].
  cbv beta. intros o [Hpost [Hdec Hlen]].
  pose proof Hpost as [ds0 [i [_ [_ [_ [_ [_ [Hcd _]]]]]]]].
  destruct (digits o) as [| d1 [| d2 [| d3 [| d4 [| d5 [| c [| ? ?]]]]]]] eqn:Hds;
    try discriminate.
  repeat match goal with
         | H : Forall _ (_ :: _) |- _ => inversion H; clear H; subst
         end.
  repeat match goal with
         | H : decimal _ _ |- _ => destruct H as [? [-> ?]]
         end.
  match type of Hcd with
  | getitem [?a1; ?a2; ?a3; ?a4; ?a5; ?a6] _ = _ =>
      change [a1; a2; a3; a4; a5; a6] with ([a1; a2; a3; a4; a5] ++ [a6]) in Hcd
  end.
  rewrite getitem_last in Hcd. injection Hcd as Hcd.
  cbn [set_s checkDigit digits self_s]. rewrite <- Hcd, Hds.
  match goal with
  | H : 0 <= ?n <= 9 |- context [getitem_digit UPC5PARITY (Some ?n)] =>
      destruct (UPC5PARITY_pattern n H) as [pat [Hpat [Hpl Hpin]]]
  end.
  cbn [getitem_digit].
  eapply hoare_bind;
    [eapply hoare_lift with (Q := fun p => p = pat); [exact Hpat | reflexivity] |].
  intros ? ->.
  change (Some 5) with (Some (Z.of_nat 5)). rewrite !slice_firstn.
  match goal with
  | |- context [firstn 5 [?a1; ?a2; ?a3; ?a4; ?a5; ?a6]] =>
      change (firstn 5 [a1; a2; a3; a4; a5; a6]) with [a1; a2; a3; a4; a5]
  end.
  match goal with
  | |- context [UPC_setbits pat UPC5BITS ?ds] =>
      assert (Hcod : codable UPC5BITS ds pat)
  end.
  { apply codable_decimal with (allowed := str "OE"); auto.
    - apply UPC5BITS_code.
    - repeat (apply Forall_cons;
              [eexists; split; [reflexivity | assumption] |]).
      apply Forall_nil.
    - rewrite Hpl. cbn. lia. }
  eapply hoare_bind;
    [eapply hoare_lift with (Q := fun b => b = encode UPC5BITS _ pat);
     [now apply UPC_setbits_encode | reflexivity] |].
  intros ? ->. apply hoare_ret.
  exists o. rewrite Hds. repeat split; auto.
  { repeat (apply Forall_cons;
            [eexists; split; [reflexivity | assumption] |]).
    apply Forall_nil. }
  f_equal. cbn [UPC5_symbol]. rewrite Hpat.
  destruct pat as [| p1 [| p2 [| p3 [| p4 [| p5 [| ? ?]]]]]]; try discriminate.
  cbn [encode].
  repeat match goal with
         | H : codable _ (_ :: _) _ |- _ =>
             inversion H; clear H; subst
         end.
  unfold bitcode.
  repeat match goal with
         | H : getitem UPC5BITS _ = OK _ |- _ => rewrite H; clear H
         end.
  repeat match goal with
         | H : dict_find _ _ = Some _ |- _ => rewrite H; clear H
         end.
  change (Some 0) with (Some (Z.of_nat 0)).
  change (Some 7) with (Some (Z.of_nat 7)).
  change (Some 14) with (Some (Z.of_nat 14)).
  change (Some 21) with (Some (Z.of_nat 21)).
  change (Some 28) with (Some (Z.of_nat 28)).
  change (Some 35) with (Some (Z.of_nat 35)).
  rewrite !slice_from_to by lia.
  change (7 - 0)%nat with 7%nat. change (14 - 7)%nat with 7%nat.
  change (21 - 14)%nat with 7%nat. change (28 - 21)%nat with 7%nat.
  change (35 - 28)%nat with 7%nat.
  match goal with
  | |- context [skipn 0 (?b1 ++ ?b2 ++ ?b3 ++ ?b4 ++ ?b5 ++ [])] =>
      assert (E1 : firstn 7 (skipn 0 (b1 ++ b2 ++ b3 ++ b4 ++ b5 ++ [])) = b1)
        by (apply (block_of_seven [] b1 _ 0); [reflexivity | assumption]);
      assert (E2 : firstn 7 (skipn 7 (b1 ++ b2 ++ b3 ++ b4 ++ b5 ++ [])) = b2)
        by (apply (block_of_seven b1 b2 _ 7); assumption);
      assert (E3 : firstn 7 (skipn 14 (b1 ++ b2 ++ b3 ++ b4 ++ b5 ++ [])) = b3)
        by (rewrite (app_assoc b1 b2);
            apply (block_of_seven (b1 ++ b2) b3 _ 14);
            rewrite ?length_app; lia);
      assert (E4 : firstn 7 (skipn 21 (b1 ++ b2 ++ b3 ++ b4 ++ b5 ++ [])) = b4)
        by (rewrite (app_assoc b1 b2), (app_assoc (b1 ++ b2) b3);
            apply (block_of_seven ((b1 ++ b2) ++ b3) b4 _ 21);
            rewrite ?length_app; lia);
      assert (E5 : firstn 7 (skipn 28 (b1 ++ b2 ++ b3 ++ b4 ++ b5 ++ [])) = b5)
        by (rewrite (app_assoc b1 b2), (app_assoc (b1 ++ b2) b3),
              (app_assoc ((b1 ++ b2) ++ b3) b4);
            apply (block_of_seven (((b1 ++ b2) ++ b3) ++ b4) b5 _ 28);
            rewrite ?length_app; lia);
      rewrite E1, E2, E3, E4, E5
  end.
  reflexivity.
Qed.

(** * The formats *)

(** The seven classes a caller can construct. *)
Inductive format : Type :=
| F_UPCA | F_EAN13 | F_UPC5 | F_ISBN10 | F_ISBN13 | F_ISMN | F_ISMN13.

Definition construct (F : format) : pystr -> M instance :=
  match F with
  | F_UPCA => UPCA
  | F_EAN13 => EAN13
  | F_UPC5 => UPC5
  | F_ISBN10 => ISBN10
  | F_ISBN13 => ISBN13
  | F_ISMN => ISMN
  | F_ISMN13 => ISMN13
  end.

(** [self] as the class hands it to [ProductCode.__init__]. *)
Definition attrs_of (F : format) : attrs :=
  match F with
  | F_UPCA => UPCA_attrs
  | F_EAN13 => EAN13_attrs (str "EAN13") (str "EAN13")
  | F_UPC5 => UPC5_attrs
  | F_ISBN10 => ISBN10_attrs
  | F_ISBN13 => EAN13_attrs (str "ISBN13") (str "ISBN")
  | F_ISMN => ISMN_attrs
  | F_ISMN13 => EAN13_attrs (str "ISMN13") (str "ISMN")
  end.

(** The string the class hands to [ProductCode.__init__]: [UPC5] appends
    its wildcard. *)
Definition parsed_string (F : format) (s : pystr) : pystr :=
  match F with
  | F_UPC5 => s ++ str "*"
  | _ => s
  end.

(** The slots [parse] finds for the input [s] of format [F]. *)
Definition parse_slots (F : format) (s : pystr) : res (list digit) :=
  parse (parsed_string F s) (firstCharMap (attrs_of F))
        (lastCharMap (attrs_of F)) (otherCharMap (attrs_of F)).

Lemma hoare_run_OK {A} (m : M A) (Q : A -> Prop) E msgs a msgs' :
  hoare m Q E -> m msgs = (OK a, msgs') -> Q a.
Proof. intros H Hm. now destruct (hoare_OK _ _ _ _ _ _ H Hm). Qed.

Lemma ProductCode_init_nil (self : attrs) msgs :
  ProductCode_init self [] msgs = (Raise IndexError, msgs).
Proof. reflexivity. Qed.

Lemma EAN13_init_nil (ty lb : pystr) msgs :
  EAN13_init ty lb [] msgs = (Raise IndexError, msgs).
Proof. reflexivity. Qed.

(** * C1: a wildcard the scan cannot resolve is accepted *)

(** C1.  The claim: whenever construction succeeds, the digits satisfy the
    checksum equation, and no input whose equation has no solution among
    the candidates 0..9 is returned as a valid code.  The code breaks it:
    ["080442957*"] is an ISBN-10 whose check digit is X (10), which the
    scan of [range(10)] never tries; [resolveChecksum] falls off its loop
    and returns [None], the result that also stands for "no wildcard", so
    the constructor returns an instance whose wildcard slot holds the last
    candidate 9, whose string still holds the star, and whose weighted sum
    is 208, that is 10 modulo 11. *)
Theorem ISBN10_unresolved_wildcard_accepted :
  exists c,
    ISBN10 (str "080442957*") [] = (OK c, []) /\
    digits c = [Some 0; Some 8; Some 0; Some 4; Some 4; Some 2; Some 9;
                Some 5; Some 7; Some 9] /\
    self_s c = str "080442957*" /\
    weighted_sum (digits c) ISBN10_weights = 208 /\
    checksum ISBN10_weights 11 (digits c) = 10 /\
    forallb (fun v => negb (checksum ISBN10_weights 11
                              [Some 0; Some 8; Some 0; Some 4; Some 4;
                               Some 2; Some 9; Some 5; Some 7; Some v] =? 0))
            (range 10) = true /\
    checksum ISBN10_weights 11
      [Some 0; Some 8; Some 0; Some 4; Some 4; Some 2; Some 9; Some 5;
       Some 7; Some 10] = 0.
Proof.
  eexists. split; [vm_compute; reflexivity |].
  cbn [digits self_s]. repeat split; vm_compute; reflexivity.
Qed.

(** * C2: the symbol of the EAN-13 family *)

(** The bit pattern of [c] is the left guard, the codes of digits 1..6
    under the parity pattern that the leading digit selects, the centre,
    the codes of digits 7..12 and the right guard; the two halves hold 42
    ordinary symbols each, and the guard symbol [L] is not one of them. *)
Definition EAN13_family_symbol (c : instance) : Prop :=
  exists d0 data pattern,
    digits c = Some d0 :: data /\ length data = 12%nat /\
    Forall (decimal 9) (digits c) /\
    getitem EAN13PARITY d0 = OK pattern /\ length pattern = 12%nat /\
    let left := encode EAN13BITS (firstn 6 data) (firstn 6 pattern) in
    let right := encode EAN13BITS (skipn 6 data) (skipn 6 pattern) in
    bits c = Some (str "L0L" ++ left ++ str "0L0L0" ++ right ++ str "L0L") /\
    length left = 42%nat /\ length right = 42%nat /\
    Forall binary left /\ Forall binary right /\ ~ binary "L"%char.

Lemma EAN13_post_symbol (ty lb s : pystr) (c : instance) :
  EAN13_post ty lb s c -> EAN13_family_symbol c.
Proof.
  intros [o [_ [Hdec [Hlen ->]]]]. unfold EAN13_family_symbol.
  cbn [digits bits set_bits].
  destruct (digits o) as [| d0 data] eqn:Hds; [discriminate |].
  inversion Hdec as [| ? ? [n0 [-> Hn0]] Hdata]; subst.
  destruct (EAN13PARITY_pattern n0 Hn0) as [pat [Hpat [Hpl Hpin]]].
  exists n0, data, pat.
  assert (Hl12 : length data = 12%nat) by (cbn in Hlen; lia).
  assert (Hcod : codable EAN13BITS data pat).
  { apply codable_decimal with (allowed := str "ABC"); auto.
    - apply EAN13BITS_code.
    - lia. }
  rewrite <- (firstn_skipn 6 data), <- (firstn_skipn 6 pat) in Hcod.
  assert (Hl6 : length (firstn 6 data) = length (firstn 6 pat))
    by (rewrite !length_firstn; lia).
  destruct (codable_app _ _ _ _ _ Hl6 Hcod) as [Hleft [Hright _]].
  apply encode_length in Hleft, Hright.
  rewrite length_firstn in Hleft. rewrite length_skipn in Hright.
  cbn [EAN13_symbol]. rewrite Hpat. cbv zeta.
  repeat split; auto using encode_binary, binary_EAN13BITS; try lia.
  intros [H | H]; discriminate.
Qed.

(** C2.  For every successfully constructed EAN-13 family code (EAN13,
    ISBN13, ISMN13) the emitted bit pattern is ["L0L"], the 7-symbol codes
    of digits 1..6 under the parity pattern indexed by the leading digit
    (42 symbols), ["0L0L0"], the codes of digits 7..12 (42 symbols) and
    ["L0L"], where [L] is a third symbol, neither ["0"] nor ["1"]. *)
Theorem EAN13_family_bits (F : format) (s : pystr) msgs c msgs' :
  In F [F_EAN13; F_ISBN13; F_ISMN13] ->
  construct F s msgs = (OK c, msgs') ->
  EAN13_family_symbol c.
Proof.
  intros HF Hrun.
  destruct s as [| c0 s]; [destruct HF as [<- | [<- | [<- | []]]]; discriminate |].
  assert (Hs : c0 :: s <> []) by discriminate.
  destruct HF as [<- | [<- | [<- | []]]]; cbn [construct] in Hrun.
  - apply (hoare_run_OK _ _ _ _ _ _ (EAN13_hoare _ Hs)) in Hrun.
    now apply EAN13_post_symbol in Hrun.
  - apply (hoare_run_OK _ _ _ _ _ _ (ISBN13_hoare _ Hs)) in Hrun.
    destruct Hrun as [Hrun _]. now apply EAN13_post_symbol in Hrun.
  - apply (hoare_run_OK _ _ _ _ _ _ (ISMN13_hoare _ Hs)) in Hrun.
    destruct Hrun as [Hrun _]. now apply EAN13_post_symbol in Hrun.
Qed.

Definition dummy_instance : instance :=
  {| self_type := []; self_label := []; givenString := []; self_s := [];
     digits := []; checkDigit := None; bits := None |}.

(** The instance a run returns from the empty message list. *)
Definition returned (m : M instance) : instance :=
  match fst (m []) with
  | OK c => c
  | Raise _ => dummy_instance
  end.

Definition sample_ISBN13 : instance :=
  Eval vm_compute in returned (ISBN13 (str "978-0-9669553-0-9")).

Lemma EAN13_family_bits_witness : EAN13_family_symbol sample_ISBN13.
Proof.
  apply (EAN13_family_bits F_ISBN13 (str "978-0-9669553-0-9") []
                           sample_ISBN13 []).
  - right. left. reflexivity.
  - vm_compute. reflexivity.
Defined.

(** * C6: the five digit add-on *)

(** A map that knows the ten digits and nothing else. *)
Definition digits_only_char (m : charmap) (c : ascii) : bool :=
  match dict_find m [c] with
  | None => true
  | Some (PyInt n) => (0 <=? n) && (n <=? 9) && Ascii.eqb c (digit_char n)
  | Some _ => false
  end.

Definition digits_only (m : charmap) : Prop :=
  forallb (digits_only_char m) all_ascii = true.

Lemma digits_only_makeCharMap : digits_only (makeCharMap []).
Proof. vm_compute. reflexivity. Qed.

Lemma digits_only_slot (m : charmap) (c : ascii) a :
  digits_only m -> slot m c = OK a ->
  exists n, 0 <= n <= 9 /\ c = digit_char n /\ a = [Some n].
Proof.
  intros Hm Ha. pose proof (forall_ascii _ Hm c) as Hc.
  unfold digits_only_char in Hc. unfold slot, dict_getitem in Ha.
  destruct (dict_find m [c]) as [[n | | x] |]; try discriminate.
  cbn in Ha. injection Ha as <-.
  apply andb_prop in Hc. destruct Hc as [Hc He].
  apply andb_prop in Hc. destruct Hc as [H0 H9].
  apply Ascii.eqb_eq in He. exists n. repeat split; auto; lia.
Qed.

Lemma digits_only_slots (m : charmap) (x : pystr) r :
  digits_only m -> slots m x = OK r ->
  exists ns, Forall (fun n => 0 <= n <= 9) ns /\
             x = map digit_char ns /\ r = map Some ns.
Proof.
  intros Hm. revert r. induction x as [| c x IH]; intros r; cbn [slots].
  - intros [= <-]. exists []. repeat split. constructor.
  - destruct (slot m c) as [a |] eqn:Hc; cbn; [| discriminate].
    destruct (slots m x) as [r' |]; cbn; [| discriminate].
    intros [= <-].
    destruct (digits_only_slot _ _ _ Hm Hc) as [n [Hn [-> ->]]].
    destruct (IH r' eq_refl) as [ns [Hns [-> ->]]].
    exists (n :: ns). repeat split; auto.
Qed.

(** The wildcard of a sequence with one wildcard has one position. *)
Lemma wildcard_unique (pre pre' rest rest' : list digit) :
  pre ++ None :: rest = pre' ++ None :: rest' ->
  count_None pre = 0%nat -> count_None pre' = 0%nat ->
  pre = pre' /\ rest = rest'.
Proof.
  revert pre'. induction pre as [| d pre IH]; intros [| d' pre'] H Hc Hc'.
  - cbn in H. injection H as <-. auto.
  - cbn in H. injection H as <- _. discriminate.
  - cbn in H. injection H as -> _. discriminate.
  - cbn in H. injection H as <- H.
    destruct d; [| discriminate].
    destruct (IH pre' H Hc Hc') as [-> ->]. auto.
Qed.

Lemma subst_char_digit (r : ascii) (n : Z) :
  0 <= n <= 9 -> subst_char r (digit_char n) = digit_char n.
Proof.
  intros Hn. unfold subst_char. rewrite upper_char_digit by exact Hn.
  destruct (Ascii.eqb_spec (digit_char n) star) as [H | H]; [| reflexivity].
  now apply digit_char_star in H.
Qed.

Lemma UPC5_units : Forall (fun a => In a units10) UPC5_weights.
Proof. repeat constructor; cbn; tauto. Qed.

(** What the add-on [c] built from the input [s] is. *)
Definition UPC5_addon (s : pystr) (c : instance) : Prop :=
  exists d1 d2 d3 d4 d5 v p1 p2 p3 p4 p5,
    Forall (fun n => 0 <= n <= 9) [d1; d2; d3; d4; d5; v] /\
    s = map digit_char [d1; d2; d3; d4; d5] /\
    parse_slots F_UPC5 s
    = OK [Some d1; Some d2; Some d3; Some d4; Some d5; None] /\
    digits c = [Some d1; Some d2; Some d3; Some d4; Some d5; Some v] /\
    (3 * d1 + 9 * d2 + 3 * d3 + 9 * d4 + 3 * d5 + -1 * v) mod 10 = 0 /\
    checkDigit c = Some v /\
    getitem UPC5PARITY v = OK [p1; p2; p3; p4; p5] /\
    self_s c = s /\
    bits c = Some (str "1011" ++
                   bitcode UPC5BITS d1 p1 ++ str "01" ++
                   bitcode UPC5BITS d2 p2 ++ str "01" ++
                   bitcode UPC5BITS d3 p3 ++ str "01" ++
                   bitcode UPC5BITS d4 p4 ++ str "01" ++
                   bitcode UPC5BITS d5 p5) /\
    Forall (fun b => length b = 7%nat /\ Forall binary b)
           [bitcode UPC5BITS d1 p1; bitcode UPC5BITS d2 p2;
            bitcode UPC5BITS d3 p3; bitcode UPC5BITS d4 p4;
            bitcode UPC5BITS d5 p5].

Lemma UPC5_bitcode_length (n : Z) (p : ascii) :
  0 <= n <= 9 -> In p (str "OE") -> length (bitcode UPC5BITS n p) = 7%nat.
Proof.
  intros Hn Hp. destruct (UPC5BITS_code n p Hn Hp) as [row [b [Hr [Hb Hl]]]].
  unfold bitcode. now rewrite Hr, Hb.
Qed.

Lemma UPC5_post_addon (s : pystr) (c : instance) :
  UPC5_post s c -> UPC5_addon s c.
Proof.
  intros [o [Hpost [Hdec [Hlen ->]]]].
  destruct Hpost as [ds0 [i [Hp [Hl [Hres [Hs [_ [Hcd _]]]]]]]].
  assert (Hp' := Hp).
  destruct s as [| c0 y].
  { cbn [app] in Hp. change (str "*") with [star] in Hp.
    rewrite parse_one in Hp. discriminate. }
  change ((c0 :: y) ++ str "*") with (c0 :: y ++ [star]) in Hp.
  rewrite parse_more in Hp.
  destruct (slot (firstCharMap UPC5_attrs) c0) as [a |] eqn:Ha;
    cbn [rbind] in Hp; [| discriminate].
  destruct (slots (otherCharMap UPC5_attrs) y) as [r |] eqn:Hr;
    cbn [rbind] in Hp; [| discriminate].
  change (slot (lastCharMap UPC5_attrs) star) with (@OK (list digit) [None]) in Hp.
  cbn [rbind] in Hp. injection Hp as <-.
  destruct (digits_only_slot _ _ _ digits_only_makeCharMap Ha)
    as [d1 [Hd1 [-> ->]]].
  destruct (digits_only_slots _ _ _ digits_only_makeCharMap Hr)
    as [ns [Hns [-> ->]]].
  rewrite !length_app, length_map in Hl. cbn [length UPC5_weights] in Hl.
  destruct ns as [| d2 [| d3 [| d4 [| d5 [| ? ?]]]]]; cbn in Hl; try lia.
  cbn [map app] in Hres.
  inversion Hns as [| ? ? Hd2 Hns2]; subst.
  inversion Hns2 as [| ? ? Hd3 Hns3]; subst.
  inversion Hns3 as [| ? ? Hd4 Hns4]; subst.
  inversion Hns4 as [| ? ? Hd5 _]; subst.
  pose proof Hres as Hmod.
  apply resolution_mod10 in Hmod; [| exact UPC5_units | reflexivity].
  destruct Hmod
    as [Hz [[Hc0 _] | [pre [rest [v [Hds0 [Hds [-> [Hv [Hcp Hcr]]]]]]]]]];
    [discriminate |].
  change [Some d1; Some d2; Some d3; Some d4; Some d5; None]
    with ([Some d1; Some d2; Some d3; Some d4; Some d5] ++ None :: [])
    in Hds0.
  apply wildcard_unique in Hds0; [| reflexivity | exact Hcp].
  destruct Hds0 as [<- <-]. cbn [app] in Hds.
  rewrite Hds in Hcd, Hz |- *.
  change [Some d1; Some d2; Some d3; Some d4; Some d5; Some v]
    with ([Some d1; Some d2; Some d3; Some d4; Some d5] ++ [Some v]) in Hcd.
  rewrite getitem_last in Hcd. injection Hcd as Hcd.
  destruct (UPC5PARITY_pattern v Hv) as [pat [Hpat [Hpl Hpin]]].
  destruct pat as [| p1 [| p2 [| p3 [| p4 [| p5 [| ? ?]]]]]]; try discriminate.
  exists d1, d2, d3, d4, d5, v, p1, p2, p3, p4, p5.
  cbn [digits checkDigit self_s bits set_bits set_s].
  split; [repeat constructor; lia |].
  split; [reflexivity |].
  split; [exact Hp' |].
  split; [exact Hds |].
  split.
  { unfold checksum in Hz. cbn [weighted_sum UPC5_weights] in Hz.
    rewrite <- Hz. f_equal. lia. }
  split; [now symmetry |].
  split; [exact Hpat |].
  split.
  { rewrite Hs, pystr_of_digit, re_sub_star_map by exact Hv.
    change ((digit_char d1 :: map digit_char [d2; d3; d4; d5]) ++ str "*")
      with (map digit_char [d1; d2; d3; d4; d5] ++ [star]).
    rewrite map_app. cbn [map].
    rewrite !subst_char_digit by assumption. reflexivity. }
  split.
  { cbn [UPC5_symbol]. now rewrite Hpat. }
  inversion Hpin as [| ? ? H1 Hpin2]; subst.
  inversion Hpin2 as [| ? ? H2 Hpin3]; subst.
  inversion Hpin3 as [| ? ? H3 Hpin4]; subst.
  inversion Hpin4 as [| ? ? H4 Hpin5]; subst.
  inversion Hpin5 as [| ? ? H5 _]; subst.
  repeat (apply Forall_cons;
          [split; [now apply UPC5_bitcode_length
                  | apply bitcode_binary, binary_UPC5BITS] |]).
  apply Forall_nil.
Qed.

(** C6.  For every successfully constructed UPC-5 add-on the input is five
    digits; the check digit is computed by appending a wildcard sixth slot
    with weights [3,9,3,9,3,-1] modulo 10, selects the parity pattern, and
    is dropped from the output: the normalized string is the five printed
    digits and the bit pattern, ["1011"] followed by the five 7-symbol
    codes joined by ["01"], encodes no check digit and has no right
    guard. *)
Theorem UPC5_bits (s : pystr) msgs c msgs' :
  UPC5 s msgs = (OK c, msgs') -> UPC5_addon s c.
Proof.
  intros Hrun. apply (hoare_run_OK _ _ _ _ _ _ (UPC5_hoare s)) in Hrun.
  now apply UPC5_post_addon.
Qed.

Definition sample_UPC5 : instance :=
  Eval vm_compute in returned (UPC5 (str "51595")).

Lemma UPC5_bits_witness : UPC5_addon (str "51595") sample_UPC5.
Proof.
  apply (UPC5_bits (str "51595") [] sample_UPC5 []).
  vm_compute. reflexivity.
Defined.

(** * C7: two or more wildcards *)

Definition too_many (self : attrs) : pystr :=
  type self ++ str ": too many wildcard digits.".

Lemma ProductCode_init_too_many (self : attrs) (s : pystr) ds :
  parse s (firstCharMap self) (lastCharMap self) (otherCharMap self) = OK ds ->
  (2 <= count_None ds)%nat ->
  outcome (ProductCode_init self s)
          (Raise (ProductCodeError (Some (too_many self)))).
Proof.
  intros Hp Hc. unfold ProductCode_init.
  eapply outcome_bind_OK with (a := ds).
  { intros msgs. unfold try_except, lift. rewrite Hp. cbn.
    now rewrite app_nil_r. }
  apply outcome_bind_Raise. unfold resolveChecksum.
  destruct (Nat.eqb_spec (count_None ds) 0) as [H | _]; [lia |].
  destruct (Nat.eqb_spec (count_None ds) 1) as [H | _]; [lia |].
  apply outcome_raise_PCE.
Qed.

(** A string that parses to two or more wildcard slots fails with the
    too-many-wildcards error of its format, whatever its length, its
    separators or its checksum. *)
Lemma parsed_wildcards_too_many (F : format) (s : pystr) (ds : list digit)
    msgs :
  parse_slots F s = OK ds -> (2 <= count_None ds)%nat ->
  construct F s msgs
  = (Raise (ProductCodeError (Some (too_many (attrs_of F)))),
     msgs ++ [too_many (attrs_of F)]).
Proof.
  intros Hp Hc.
  pose proof (ProductCode_init_too_many _ _ _ Hp Hc) as Hinit.
  assert (Hrun : outcome (construct F s)
                   (Raise (ProductCodeError (Some (too_many (attrs_of F)))))).
  { destruct F; cbn [construct attrs_of parsed_string] in *.
    - exact Hinit.
    - unfold EAN13, EAN13_init. now apply outcome_bind_Raise.
    - unfold UPC5. now apply outcome_bind_Raise.
    - unfold ISBN10. now apply outcome_bind_Raise.
    - unfold ISBN13, EAN13_init. now do 2 apply outcome_bind_Raise.
    - unfold ISMN. now apply outcome_bind_Raise.
    - unfold ISMN13, EAN13_init. now do 2 apply outcome_bind_Raise. }
  rewrite Hrun. destruct F; reflexivity.
Qed.

(** * C10: the empty input *)

(** C10, as stated: for the empty input every constructor raises
    [IndexError].  [UPC5] does not: it appends its wildcard before
    parsing, so [parse] sees ["*"], finds the star in no first-character
    map and raises [KeyError], which the constructor turns into a
    [ProductCodeError]. *)
Lemma UPC5_empty_input :
  UPC5 [] []
  = (Raise (ProductCodeError (Some (str "UPC5: '*' invalid here"))),
     [str "UPC5: '*' invalid here"]).
Proof. vm_compute. reflexivity. Qed.

(** C10, amended.  For the empty input the constructors [UPCA], [EAN13],
    [ISBN10], [ISBN13], [ISMN] and [ISMN13], and the dispatcher called
    without [forceISMN13], raise [IndexError] and leave the message list
    as it was: nothing catches it.  [UPC5] raises the [ProductCodeError]
    of its parse failure. *)
Theorem empty_input (msgs : msgs_t) (forceISBN13 : bool) :
  UPCA [] msgs = (Raise IndexError, msgs) /\
  EAN13 [] msgs = (Raise IndexError, msgs) /\
  ISBN10 [] msgs = (Raise IndexError, msgs) /\
  ISBN13 [] msgs = (Raise IndexError, msgs) /\
  ISMN [] msgs = (Raise IndexError, msgs) /\
  ISMN13 [] msgs = (Raise IndexError, msgs) /\
  makeProductCode [] forceISBN13 false msgs = (Raise IndexError, msgs) /\
  UPC5 [] msgs
  = (Raise (ProductCodeError (Some (str "UPC5: '*' invalid here"))),
     msgs ++ [str "UPC5: '*' invalid here"]).
Proof.
  assert (Hparse : forall f l o, parse [] f l o = Raise IndexError)
    by reflexivity.
  assert (Hinit : forall self, ProductCode_init self [] msgs
                               = (Raise IndexError, msgs)).
  { intros self. unfold ProductCode_init, bind, try_except, lift.
    now rewrite Hparse. }
  repeat apply conj.
  - apply Hinit.
  - unfold EAN13, EAN13_init, UPCA_init, UPC_init, bind. now rewrite Hinit.
  - unfold ISBN10, bind. now rewrite Hinit.
  - unfold ISBN13, EAN13_init, UPCA_init, UPC_init, bind. now rewrite Hinit.
  - unfold ISMN, bind. now rewrite Hinit.
  - unfold ISMN13, EAN13_init, UPCA_init, UPC_init, bind. now rewrite Hinit.
  - unfold makeProductCode, try_except, ISBN13, EAN13_init, UPCA_init,
      UPC_init, bind. now rewrite Hinit.
  - reflexivity.
Qed.

(** * C8: the prefix of ISBN-13 and ISMN-13 *)

Lemma substring_b_char (c : ascii) (p : pystr) :
  substring_b [c] p = true -> In c p.
Proof.
  induction p as [| a p IH]; cbn [substring_b prefix_b]; [discriminate |].
  intros H. apply orb_prop in H. destruct H as [H | H].
  - apply andb_prop in H. destruct H as [H _]. apply Ascii.eqb_eq in H.
    now left.
  - right. now apply IH.
Qed.

Lemma prefix_ok_chars (s p0 p1 p2 : pystr) :
  prefix_ok s p0 p1 p2 = true ->
  exists c0 c1 c2 rest,
    s = c0 :: c1 :: c2 :: rest /\ In c0 p0 /\ In c1 p1 /\ In c2 p2.
Proof.
  destruct s as [| c0 [| c1 [| c2 rest]]]; cbn [prefix_ok]; try discriminate.
  intros H. apply andb_prop in H. destruct H as [H H2].
  apply andb_prop in H. destruct H as [H0 H1].
  exists c0, c1, c2, rest. auto using substring_b_char.
Qed.

(** C8, as stated: ISMN-13 construction succeeds only if the fourth raw
    character is ['0'].  The code checks three characters only: the input
    ["979123456789*"], whose fourth character and fourth digit are 1, is
    constructed as an ISMN-13; so is ["979-0-9669553-0-*"], the very
    string [ISMN.as13] builds, whose fourth character is the dash. *)
Lemma ISMN13_fourth_character_free :
  exists c c',
    ISMN13 (str "979123456789*") [] = (OK c, []) /\
    nth_error (str "979123456789*") 3 = Some "1"%char /\
    nth_error (digits c) 3 = Some (Some 1) /\
    ISMN13 (str "979-0-9669553-0-*") [] = (OK c', []) /\
    nth_error (str "979-0-9669553-0-*") 3 = Some "-"%char.
Proof.
  do 2 eexists. split; [vm_compute; reflexivity |].
  split; [reflexivity |]. split; [reflexivity |].
  split; [vm_compute; reflexivity | reflexivity].
Qed.

Definition ISBN13_prefix_error : pystr :=
  str "ISBN13: must begin with 978 or 979".

Definition ISMN13_prefix_error : pystr := str "ISMN13: must begin with 979".

(** C8, amended.  ISBN-13 and ISMN-13 construction succeeds only if the
    first three raw input characters match the prefix, each of them
    possibly the wildcard: 9, 7 and 8 or 9 for ISBN-13; 9, 7 and 9 for
    ISMN-13, with no condition on the fourth character.  When the rest of
    the EAN-13 construction passes and the prefix does not match, the
    constructor raises the prefix error of its class. *)
Theorem prefix_checked (s : pystr) (msgs : msgs_t) :
  (forall c msgs',
      ISBN13 s msgs = (OK c, msgs') ->
      exists c0 c1 c2 rest,
        s = c0 :: c1 :: c2 :: rest /\
        In c0 (str "9*") /\ In c1 (str "7*") /\ In c2 (str "89*")) /\
  (forall c msgs',
      ISMN13 s msgs = (OK c, msgs') ->
      exists c0 c1 c2 rest,
        s = c0 :: c1 :: c2 :: rest /\
        In c0 (str "9*") /\ In c1 (str "7*") /\ In c2 (str "9*")) /\
  (forall o msgs',
      EAN13_init (str "ISBN13") (str "ISBN") s msgs = (OK o, msgs') ->
      prefix_ok s (str "9*") (str "7*") (str "89*") = false ->
      ISBN13 s msgs
      = (Raise (ProductCodeError (Some ISBN13_prefix_error)),
         msgs ++ [ISBN13_prefix_error])) /\
  (forall o msgs',
      EAN13_init (str "ISMN13") (str "ISMN") s msgs = (OK o, msgs') ->
      prefix_ok s (str "9*") (str "7*") (str "9*") = false ->
      ISMN13 s msgs
      = (Raise (ProductCodeError (Some ISMN13_prefix_error)),
         msgs ++ [ISMN13_prefix_error])).
Proof.
  destruct s as [| c s].
  { repeat apply conj; intros ? ? H; discriminate H. }
  assert (Hs : c :: s <> []) by discriminate.
  repeat apply conj.
  - intros o msgs' Hrun.
    apply (hoare_run_OK _ _ _ _ _ _ (ISBN13_hoare _ Hs)) in Hrun.
    destruct Hrun as [_ Hok]. now apply prefix_ok_chars.
  - intros o msgs' Hrun.
    apply (hoare_run_OK _ _ _ _ _ _ (ISMN13_hoare _ Hs)) in Hrun.
    destruct Hrun as [_ Hok]. now apply prefix_ok_chars.
  - intros o msgs' Hrun Hbad.
    destruct (hoare_OK _ _ _ _ _ _ (EAN13_init_hoare _ _ _ Hs) Hrun)
      as [_ [_ Hout]].
    pose proof (prefixed_outcome (str "ISBN13") (str "ISBN") (str "9*")
                  (str "7*") (str "89*")
                  (str ": must begin with 978 or 979") _ _ Hs Hout) as H.
    rewrite Hbad in H. rewrite ISBN13_prefixed. apply H.
  - intros o msgs' Hrun Hbad.
    destruct (hoare_OK _ _ _ _ _ _ (EAN13_init_hoare _ _ _ Hs) Hrun)
      as [_ [_ Hout]].
    pose proof (prefixed_outcome (str "ISMN13") (str "ISMN") (str "9*")
                  (str "7*") (str "9*")
                  (str ": must begin with 979") _ _ Hs Hout) as H.
    rewrite Hbad in H. rewrite ISMN13_prefixed. apply H.
Qed.

Definition sample_ISMN13 : instance :=
  Eval vm_compute in returned (ISMN13 (str "979-0-9669553-0-*")).

Lemma prefix_checked_witness :
  (exists c0 c1 c2 rest,
      str "979-0-9669553-0-*" = c0 :: c1 :: c2 :: rest /\
      In c0 (str "9*") /\ In c1 (str "7*") /\ In c2 (str "9*")) /\
  ISBN13 (str "078-0-9669553-0-8") []
  = (Raise (ProductCodeError (Some ISBN13_prefix_error)),
     [ISBN13_prefix_error]).
Proof.
  split.
  - refine (proj1 (proj2 (prefix_checked (str "979-0-9669553-0-*") []))
              sample_ISMN13 [] _).
    vm_compute. reflexivity.
  - refine (proj1 (proj2 (proj2 (prefix_checked (str "078-0-9669553-0-8") [])))
              (returned (EAN13_init (str "ISBN13") (str "ISBN")
                                    (str "078-0-9669553-0-8"))) [] _ _).
    + vm_compute. reflexivity.
    + vm_compute. reflexivity.
Defined.

(** * C9: one message list for every error *)

(** A [ProductCodeError] raised by a constructor carries a non-empty
    message; any other exception passes. *)
Definition quiet (e : exn) : Prop :=
  match e with
  | ProductCodeError a => exists c m, a = Some (c :: m)
  | _ => True
  end.

Lemma pce_quiet (e : exn) : pce e -> quiet e.
Proof. intros [c [m ->]]. cbn. now exists c, m. Qed.

Lemma outcome_IndexError {A} (m : M A) :
  (forall msgs, m msgs = (Raise IndexError, msgs)) ->
  outcome m (Raise IndexError).
Proof. intros H msgs. rewrite H. cbn. now rewrite app_nil_r. Qed.

Lemma outcome_getattr_None {A B} (f : A -> M B) :
  outcome (bind (getattr None) f) (Raise AttributeError).
Proof. intros msgs. cbn. now rewrite app_nil_r. Qed.

Lemma resolveChecksum_no_weights (self : attrs) (ds : list digit) :
  weights self = None ->
  hoare (resolveChecksum self ds) (fun _ => False) quiet.
Proof.
  intros Hw. unfold resolveChecksum.
  destruct (Nat.eqb_spec (count_None ds) 0) as [H0 | H0].
  - exists (Raise AttributeError). split; [| exact I].
    apply outcome_bind_Raise. unfold remainder. rewrite Hw.
    apply outcome_getattr_None.
  - destruct (Nat.eqb_spec (count_None ds) 1) as [H1 | H1].
    + destruct (count_None_one ds H1) as [pre [rest [-> [_ [_ Hi]]]]].
      exists (Raise AttributeError). split; [| exact I].
      eapply outcome_bind_OK; [apply outcome_lift_OK, Hi |].
      cbn [range seq map resolve_loop].
      apply outcome_bind_Raise. unfold remainder. rewrite Hw.
      apply outcome_getattr_None.
    + apply hoare_raise_PCE, pce_quiet, pce_msg. discriminate.
Qed.

(** [UPCA] defines no weights: its constructor never returns. *)
Lemma UPCA_quiet (s : pystr) : hoare (UPCA s) (fun _ => False) quiet.
Proof.
  destruct s as [| c s].
  { exists (Raise IndexError). split; [| exact I].
    apply outcome_IndexError. reflexivity. }
  unfold UPCA, UPCA_init, UPC_init, ProductCode_init.
  eapply hoare_bind.
  - eapply hoare_conseq; [apply parse_hoare; discriminate | | apply pce_quiet].
    intros ds H. exact H.
  - cbv beta. intros ds _.
    eapply hoare_bind; [now apply resolveChecksum_no_weights |].
    intros r [].
Qed.

Lemma construct_quiet (F : format) (s : pystr) :
  hoare (construct F s) (fun _ => True) quiet.
Proof.
  destruct F; cbn [construct].
  - eapply hoare_conseq; [apply UPCA_quiet | auto | auto].
  - destruct s as [| c s].
    + exists (Raise IndexError). split; [| exact I].
      apply outcome_IndexError. reflexivity.
    + eapply hoare_conseq; [apply EAN13_hoare; discriminate | auto |].
      apply pce_quiet.
  - eapply hoare_conseq; [apply UPC5_hoare | auto | apply pce_quiet].
  - destruct s as [| c s].
    + exists (Raise IndexError). split; [| exact I].
      apply outcome_IndexError. reflexivity.
    + eapply hoare_conseq; [apply ISBN10_hoare; discriminate | auto |].
      apply pce_quiet.
  - destruct s as [| c s].
    + exists (Raise IndexError). split; [| exact I].
      apply outcome_IndexError. reflexivity.
    + eapply hoare_conseq; [apply ISBN13_hoare; discriminate | auto |].
      apply pce_quiet.
  - destruct s as [| c s].
    + exists (Raise IndexError). split; [| exact I].
      apply outcome_IndexError. reflexivity.
    + eapply hoare_conseq; [apply ISMN_hoare; discriminate | auto |].
      apply pce_quiet.
  - destruct s as [| c s].
    + exists (Raise IndexError). split; [| exact I].
      apply outcome_IndexError. reflexivity.
    + eapply hoare_conseq; [apply ISMN13_hoare; discriminate | auto |].
      apply pce_quiet.
Qed.

(** A failed construction appends the message of its error, and what it
    raises does not depend on the list it started from. *)
Lemma construct_error (F : format) (s : pystr) msgs a msgs' :
  construct F s msgs = (Raise (ProductCodeError a), msgs') ->
  exists m, a = Some m /\ m <> [] /\ msgs' = msgs ++ [m] /\
            forall msgs0,
              construct F s msgs0 = (Raise (ProductCodeError a), msgs0 ++ [m]).
Proof.
  intros Hrun.
  destruct (hoare_Raise _ _ _ _ _ _ (construct_quiet F s) Hrun)
    as [[c [m ->]] [-> Hout]].
  exists (c :: m). repeat split; try discriminate. intros msgs0. apply Hout.
Qed.

(** [x] occurs in [y]. *)
Definition contains (x y : pystr) : Prop := exists pre post, y = pre ++ x ++ post.

Lemma join_contains (sep : pystr) (l : list pystr) (m : pystr) :
  In m l -> contains m (join sep l).
Proof.
  induction l as [| x l IH]; [intros [] |].
  destruct l as [| y l].
  - intros [-> | []]. exists [], []. cbn. now rewrite app_nil_r.
  - intros [-> | Hin].
    + exists [], (sep ++ join sep (y :: l)). reflexivity.
    + destruct (IH Hin) as [pre [post Heq]].
      exists (x ++ sep ++ pre), post.
      change (join sep (x :: y :: l)) with (x ++ sep ++ join sep (y :: l)).
      rewrite Heq. now rewrite <- !app_assoc.
Qed.

Lemma join_length_last (sep : pystr) (l : list pystr) (x m : pystr) :
  (length (join sep ((x :: l) ++ [m])) >= length x + length sep + length m)%nat.
Proof.
  revert x. induction l as [| y l IH]; intros x.
  - cbn. rewrite !length_app. lia.
  - change (join sep ((x :: y :: l) ++ [m]))
      with (x ++ sep ++ join sep ((y :: l) ++ [m])).
    rewrite !length_app. specialize (IH y). lia.
Qed.

(** What two failed constructions leave behind: both messages are in the
    shared list, the text of the second error holds both, and the same
    construction run alone gives another text. *)
Definition interference (F2 : format) (s2 : pystr)
    (msgs0 between : msgs_t) (e1 e2 : exn) (msgs2 : msgs_t) : Prop :=
  exists m1 m2,
    e1 = ProductCodeError (Some m1) /\ e2 = ProductCodeError (Some m2) /\
    m1 <> [] /\ m2 <> [] /\
    msgs2 = msgs0 ++ [m1] ++ between ++ [m2] /\
    exists text,
      ProductCodeError_str e2 msgs2 = (OK text, msgs2) /\
      contains m1 text /\ contains m2 text /\
      construct F2 s2 [] = (Raise e2, [m2]) /\
      ProductCodeError_str e2 [m2] = (OK m2, [m2]) /\
      text <> m2.

(** C9.  The messages of [ProductCodeError] are kept in one list of the
    class: when two constructions of one process each raise such an error
    (anything may have been appended in between), the text of the second
    error holds the message of the first as well as its own, and differs
    from the text the second construction gives when run alone: the error
    text is not a function of the input. *)
Theorem shared_error_messages (F1 F2 : format) (s1 s2 : pystr)
    (msgs0 between : msgs_t) (e1 e2 : exn) (msgs1 msgs2 : msgs_t) :
  construct F1 s1 msgs0 = (Raise e1, msgs1) ->
  isProductCodeError e1 = true ->
  construct F2 s2 (msgs1 ++ between) = (Raise e2, msgs2) ->
  isProductCodeError e2 = true ->
  interference F2 s2 msgs0 between e1 e2 msgs2.
Proof.
  intros H1 He1 H2 He2.
  destruct e1 as [a1 | | | | | |]; try discriminate.
  destruct e2 as [a2 | | | | | |]; try discriminate.
  destruct (construct_error _ _ _ _ _ H1) as [m1 [-> [Hm1 [-> _]]]].
  destruct (construct_error _ _ _ _ _ H2) as [m2 [-> [Hm2 [-> Hany]]]].
  exists m1, m2. repeat split; auto.
  { now rewrite <- !app_assoc. }
  exists (join newline ((msgs0 ++ [m1]) ++ between ++ [m2])).
  repeat split.
  - unfold ProductCodeError_str. now rewrite <- !app_assoc.
  - apply join_contains. rewrite !in_app_iff. left. right. now left.
  - apply join_contains. rewrite !in_app_iff. right. right. now left.
  - apply (Hany []).
  - intros Heq. apply (f_equal (@length ascii)) in Heq.
    destruct msgs0 as [| x l].
    + cbn [app] in Heq.
      pose proof (join_length_last newline between m1 m2) as Hl.
      cbn [app] in Hl. rewrite Heq in Hl. cbn [newline length] in Hl. lia.
    + pose proof (join_length_last newline (l ++ [m1] ++ between) x m2) as Hl.
      replace ((x :: l ++ [m1] ++ between) ++ [m2])
        with (((x :: l) ++ [m1]) ++ between ++ [m2]) in Hl
        by (cbn; now rewrite <- !app_assoc).
      rewrite Heq in Hl. cbn [newline length] in Hl. lia.
Qed.

Lemma shared_error_messages_witness :
  interference F_EAN13 (str "2") [] []
    (ProductCodeError (Some (str "ISBN13: wrong number of digits")))
    (ProductCodeError (Some (str "EAN13: wrong number of digits")))
    [str "ISBN13: wrong number of digits";
     str "EAN13: wrong number of digits"].
Proof.
  apply (shared_error_messages F_ISBN13 F_EAN13 (str "1") (str "2") [] []
           _ _ [str "ISBN13: wrong number of digits"]).
  - vm_compute. reflexivity.
  - reflexivity.
  - vm_compute. reflexivity.
  - reflexivity.
Defined.

(** * C4: the dispatcher *)

(** Following the specification: the formats are tried in the order
    ISBN-13, ISBN-10 (returned in its EAN-13 form), ISMN, EAN-13; the first
    that succeeds is returned; the exception of a failed attempt is
    dropped, and when every attempt fails an error with no message of its
    own is raised.  The message list is threaded through the attempts as
    the constructors leave it. *)
Definition first_success (s : pystr) : M instance :=
  fun msgs =>
    match ISBN13 s msgs with
    | (OK c, msgs1) => (OK c, msgs1)
    | (Raise _, msgs1) =>
        match ISBN10 s msgs1 with
        | (OK c10, msgs2) => ISBN10_as13 c10 msgs2
        | (Raise _, msgs2) =>
            match ISMN s msgs2 with
            | (OK c, msgs3) => (OK c, msgs3)
            | (Raise _, msgs3) =>
                match EAN13 s msgs3 with
                | (OK c, msgs4) => (OK c, msgs4)
                | (Raise _, msgs4) => (Raise (ProductCodeError None), msgs4)
                end
            end
        end
    end.

(** One run of a constructor that raises nothing but its own errors. *)
Lemma hoare_cases {A} (m : M A) (Q : A -> Prop) (msgs : msgs_t) :
  hoare m Q pce ->
  (exists a, m msgs = (OK a, msgs) /\ Q a) \/
  (exists x, m msgs = (Raise (ProductCodeError (Some x)), msgs ++ [x])).
Proof.
  intros [r [Hr Hq]]. destruct r as [a | e]; cbn in Hq.
  - left. exists a. split; [| exact Hq]. rewrite Hr. cbn. now rewrite app_nil_r.
  - right. destruct Hq as [c [x ->]]. exists (c :: x). apply Hr.
Qed.

Lemma ISBN10_as13_again (s : pystr) (c10 : instance) :
  ISBN10_post s c10 ->
  exists c13, forall msgs, ISBN10_as13 c10 msgs = (OK c13, msgs).
Proof.
  intros [o0 [o13 [b [_ [_ [Hout [_ [_ ->]]]]]]]]. exists o13. intros msgs.
  change (ISBN10_as13 (set_bits o0 b)) with (ISBN10_as13 o0).
  rewrite Hout. cbn. now rewrite app_nil_r.
Qed.

Definition not_implemented : pystr := str "there is no ISMN13 yet.".

(** C4, as stated, for every input string: on the empty string the first
    attempt raises [IndexError], which no handler of the dispatcher
    catches; no further format is tried and no [ProductCodeError] is
    raised. *)
Lemma makeProductCode_empty_input :
  makeProductCode [] true false [] = (Raise IndexError, []).
Proof. vm_compute. reflexivity. Qed.

(** C4, amended.  For every non-empty input string the dispatcher with
    the default flags tries ISBN-13, then ISBN-10 (whose conversion by
    [as13] then succeeds), then ISMN, then EAN-13, and returns the first
    success; the exception of each failed attempt is dropped, and when
    all four fail a [ProductCodeError] without a message of its own is
    raised.  With [forceISMN13] the dispatcher fails at once with the
    not-implemented error, for every input. *)
Theorem dispatch_order (s : pystr) (msgs : msgs_t) (forceISBN13 : bool) :
  (s <> [] -> makeProductCode s true false msgs = first_success s msgs) /\
  (s <> [] ->
   forall c10 msgs',
     ISBN10 s msgs = (OK c10, msgs') ->
     exists c13, ISBN10_as13 c10 msgs' = (OK c13, msgs')) /\
  makeProductCode s forceISBN13 true msgs
  = (Raise (ProductCodeError (Some not_implemented)),
     msgs ++ [not_implemented]).
Proof.
  repeat apply conj; [| | reflexivity].
  - intros Hs. unfold makeProductCode, first_success, try_except, bind, ret.
    destruct (hoare_cases _ _ msgs (ISBN13_hoare s Hs))
      as [[c [-> _]] | [x1 ->]]; [reflexivity |].
    cbn [isProductCodeError].
    destruct (hoare_cases _ _ (msgs ++ [x1]) (ISBN10_hoare s Hs))
      as [[c10 [-> Hpost]] | [x2 ->]].
    + destruct (ISBN10_as13_again _ _ Hpost) as [c13 H13]. now rewrite !H13.
    + cbn [isProductCodeError].
      destruct (hoare_cases _ _ ((msgs ++ [x1]) ++ [x2]) (ISMN_hoare s Hs))
        as [[c [-> _]] | [x3 ->]]; [reflexivity |].
      cbn [isProductCodeError].
      destruct (hoare_cases _ _ (((msgs ++ [x1]) ++ [x2]) ++ [x3])
                            (EAN13_hoare s Hs))
        as [[c [-> _]] | [x4 ->]]; reflexivity.
  - intros Hs c10 msgs' Hrun.
    destruct (hoare_OK _ _ _ _ _ _ (ISBN10_hoare s Hs) Hrun) as [Hpost _].
    destruct (ISBN10_as13_again _ _ Hpost) as [c13 H13].
    exists c13. apply H13.
Qed.

Lemma dispatch_order_witness :
  makeProductCode (str "0-9669553-0-7") true false []
  = first_success (str "0-9669553-0-7") [].
Proof.
  apply (proj1 (dispatch_order (str "0-9669553-0-7") [] true)).
  discriminate.
Defined.

(** * The normalized string and the digits *)

Lemma count_occ_app_star (x y : pystr) :
  count_occ ascii_dec (x ++ y) star
  = (count_occ ascii_dec x star + count_occ ascii_dec y star)%nat.
Proof. apply count_occ_app. Qed.

Lemma In_star_count (x : pystr) :
  In star x <-> (0 < count_occ ascii_dec x star)%nat.
Proof. apply count_occ_In. Qed.

Section Final.

Variable self : attrs.
Variables (w : list Z) (m : Z).
Variables hf hl ho : Z.
Hypothesis Hf : good_map hf (firstCharMap self).
Hypothesis Hl : good_map hl (lastCharMap self).
Hypothesis Ho : good_map ho (otherCharMap self).

Definition parse_with (x : pystr) : res (list digit) :=
  parse x (firstCharMap self) (lastCharMap self) (otherCharMap self).

(** In a string of two characters or more, the wildcard slots are the
    stars. *)
Lemma parse_count (c : ascii) (y : pystr) (d : ascii) ds :
  parse_with (c :: y ++ [d]) = OK ds ->
  count_None ds = count_occ ascii_dec (c :: y ++ [d]) star.
Proof.
  unfold parse_with. rewrite parse_more.
  destruct (slot (firstCharMap self) c) as [a |] eqn:Ha; cbn; [| discriminate].
  destruct (slots (otherCharMap self) y) as [r |] eqn:Hr; cbn; [| discriminate].
  destruct (slot (lastCharMap self) d) as [b |] eqn:Hb; cbn; [| discriminate].
  intros [= <-].
  rewrite !count_None_app, (slot_count _ _ Hf _ _ Ha),
    (slots_count _ _ Ho _ _ Hr), (slot_count _ _ Hl _ _ Hb).
  change (c :: y ++ [d]) with ([c] ++ y ++ [d]).
  rewrite !count_occ_app_star. cbn [count_occ].
  destruct (Ascii.eqb_spec c star), (ascii_dec c star);
    destruct (Ascii.eqb_spec d star), (ascii_dec d star);
    try contradiction; lia.
Qed.

Lemma parse_upper (s : pystr) ds :
  parse_with s = OK ds -> parse_with (upper s) = OK ds.
Proof.
  intros Hp. rewrite upper_map. unfold parse_with.
  rewrite (parse_map upper_char (fun d => d) s _ _ _ ds);
    eauto using slot_upper. now rewrite map_id.
Qed.

Lemma parse_subst (s : pystr) (v : Z) ds :
  0 <= v <= 9 -> parse_with s = OK ds ->
  parse_with (re_sub_star (pystr_of_Z v) (upper s)) = OK (map (fill v) ds).
Proof.
  intros Hv Hp. rewrite pystr_of_digit, re_sub_star_map by exact Hv.
  unfold parse_with.
  apply (parse_map (subst_char (digit_char v)) (fill v)); eauto using slot_subst.
Qed.

Lemma upper_upper (s : pystr) : upper (upper s) = upper s.
Proof.
  unfold upper. rewrite map_map. apply map_ext. intros c.
  apply upper_char_idem.
Qed.

Lemma upper_subst (s : pystr) (v : Z) :
  0 <= v <= 9 ->
  upper (re_sub_star (pystr_of_Z v) (upper s))
  = re_sub_star (pystr_of_Z v) (upper s).
Proof.
  intros Hv. rewrite pystr_of_digit, re_sub_star_map by exact Hv.
  unfold upper. rewrite map_map. apply map_ext. intros c.
  now apply subst_char_upper.
Qed.

(** How the normalized string of a constructed instance parses: to the
    digits of the instance, or, when the scan found no digit, to the
    slots with their wildcard, which the instance holds as 9. *)
Inductive final_parse (o : instance) : list digit -> Prop :=
| final_resolved :
    count_None (digits o) = 0%nat -> checksum w m (digits o) = 0 ->
    final_parse o (digits o)
| final_missed pre rest :
    digits o = pre ++ Some 9 :: rest ->
    count_None pre = 0%nat -> count_None rest = 0%nat ->
    (forall v, 0 <= v <= 9 -> checksum w m (pre ++ Some v :: rest) <> 0) ->
    final_parse o (pre ++ None :: rest).

Lemma init_post_final (s : pystr) (o : instance) :
  init_post self w m s o ->
  exists ds1,
    parse_with (self_s o) = OK ds1 /\ final_parse o ds1 /\
    upper (self_s o) = self_s o /\ length (self_s o) = length s /\
    length ds1 = length w.
Proof.
  intros [ds0 [i [Hp [Hlen [Hres [Hs _]]]]]].
  fold (parse_with s) in Hp.
  remember (digits o) as dso eqn:Hdo.
  destruct Hres as [Hc Hz | pre rest v -> Hcp Hcr Hv Hz
                   | pre rest -> Hcp Hcr Hno].
  - exists ds0. rewrite Hs. repeat split.
    + now apply parse_upper.
    + rewrite Hdo in *. now constructor.
    + apply upper_upper.
    + rewrite upper_map. apply length_map.
    + exact Hlen.
  - exists (pre ++ Some v :: rest). rewrite Hs. repeat split.
    + rewrite (parse_subst _ _ _ Hv Hp). now rewrite fill_wildcard.
    + rewrite Hdo in *. constructor; [| exact Hz].
      now rewrite <- Hdo, count_None_app, Hcp, count_None_cons_Some.
    + now apply upper_subst.
    + rewrite pystr_of_digit, re_sub_star_map by exact Hv. apply length_map.
    + rewrite <- Hlen, !length_app. reflexivity.
  - exists (pre ++ None :: rest). rewrite Hs. repeat split.
    + now apply parse_upper.
    + now apply final_missed.
    + apply upper_upper.
    + rewrite upper_map. apply length_map.
    + exact Hlen.
Qed.

End Final.

(** * C5: from ISBN-10 to ISBN-13 *)

(** Every key of [f] is a key of [o] with the same slot. *)
Definition submap_char (f o : charmap) (c : ascii) : bool :=
  match dict_find f [c] with
  | None => true
  | Some v => match dict_find o [c] with
              | Some v' => same_slot v v'
              | None => false
              end
  end.

Definition submap (f o : charmap) : Prop :=
  forallb (submap_char f o) all_ascii = true.

Lemma submap_slot (f o : charmap) (c : ascii) a :
  submap f o -> slot f c = OK a -> slot o c = OK a.
Proof.
  intros Hsub Ha. pose proof (forall_ascii _ Hsub c) as Hc.
  unfold submap_char in Hc. unfold slot, dict_getitem in *.
  destruct (dict_find f [c]) as [v |]; [| discriminate].
  destruct (dict_find o [c]) as [v' |]; [| discriminate].
  cbn in *. injection Ha as <-. f_equal. now apply same_slot_append.
Qed.

Lemma submap_slots (f o : charmap) (x : pystr) r :
  submap f o -> slots f x = OK r -> slots o x = OK r.
Proof.
  intros Hsub. revert r. induction x as [| c x IH]; intros r; cbn [slots].
  - auto.
  - destruct (slot f c) as [a |] eqn:Hc; cbn; [| discriminate].
    destruct (slots f x) as [r' |]; cbn; [| discriminate].
    intros [= <-]. now rewrite (submap_slot _ _ _ _ Hsub Hc), (IH _ eq_refl).
Qed.

Lemma ISBN10_first_in_UPC_other :
  submap (firstCharMap ISBN10_attrs) UPC_otherCharMap.
Proof. vm_compute. reflexivity. Qed.

Lemma ISBN10_other_in_UPC_other :
  submap (otherCharMap ISBN10_attrs) UPC_otherCharMap.
Proof. vm_compute. reflexivity. Qed.

(** A map without separators gives one slot per character. *)
Definition one_slot (l : charmap) : Prop :=
  forallb (fun c => match dict_find l [c] with
                    | Some (PyStr _) => false
                    | _ => true
                    end) all_ascii = true.

Lemma one_slot_length (l : charmap) (c : ascii) b :
  one_slot l -> slot l c = OK b -> length b = 1%nat.
Proof.
  intros Hl Hb. pose proof (forall_ascii _ Hl c) as Hc. cbv beta in Hc.
  unfold slot, dict_getitem in Hb.
  destruct (dict_find l [c]) as [[n | | x] |]; try discriminate;
    cbn in Hb; injection Hb as <-; reflexivity.
Qed.

Lemma one_slot_ISBN10_last : one_slot (lastCharMap ISBN10_attrs).
Proof. vm_compute. reflexivity. Qed.

(** The slots of the string [ISBN10.as13] builds around the body [y]. *)
Lemma as13_parse (y : pystr) :
  parse (str "978-" ++ y ++ str "*") UPC_firstCharMap UPC_lastCharMap
        UPC_otherCharMap
  = (ry <~ slots UPC_otherCharMap y ;;
     OK ([Some 9; Some 7; Some 8] ++ ry ++ [None])).
Proof.
  change (str "978-" ++ y ++ str "*")
    with ("9"%char :: (str "78-" ++ y) ++ [star]).
  rewrite parse_more.
  change (slot UPC_firstCharMap "9") with (@OK (list digit) [Some 9]).
  cbn [rbind].
  change (slots UPC_otherCharMap (str "78-" ++ y))
    with (a <~ slot UPC_otherCharMap "7" ;;
          r <~ (a <~ slot UPC_otherCharMap "8" ;;
                r <~ (a <~ slot UPC_otherCharMap "-" ;;
                      r <~ slots UPC_otherCharMap y ;; OK (a ++ r)) ;;
                OK (a ++ r)) ;;
          OK (a ++ r)).
  change (slot UPC_otherCharMap "7") with (@OK (list digit) [Some 7]).
  change (slot UPC_otherCharMap "8") with (@OK (list digit) [Some 8]).
  change (slot UPC_otherCharMap "-") with (@OK (list digit) []).
  cbn [rbind].
  destruct (slots UPC_otherCharMap y) as [ry |]; cbn [rbind app]; [| reflexivity].
  change (slot UPC_lastCharMap star) with (@OK (list digit) [None]).
  reflexivity.
Qed.

Lemma resolved_front (front bl pre rest : list digit) :
  count_None front = 0%nat -> length bl = 1%nat ->
  front ++ bl = pre ++ None :: rest ->
  pre = front /\ rest = [] /\ bl = [None].
Proof.
  intros Hc Hb Heq.
  destruct bl as [| x [| ? ?]]; try discriminate.
  destruct (exists_last (l := None :: rest)) as [rest' [z Hz]]; [discriminate |].
  rewrite Hz, app_assoc in Heq. apply app_inj_tail in Heq.
  destruct Heq as [Hfront ->].
  destruct rest' as [| d rest'].
  - cbn in Hz. injection Hz as <- <-. rewrite app_nil_r in Hfront. auto.
  - cbn in Hz. injection Hz as <- _. rewrite Hfront in Hc.
    rewrite count_None_app, count_None_cons_None in Hc. lia.
Qed.

Lemma EAN13_units : Forall (fun a => In a units10) EAN13_weights.
Proof.
  unfold EAN13_weights.
  repeat (apply Forall_cons; [cbn; tauto |]). apply Forall_nil.
Qed.

Lemma map_fixed {A} (g : A -> A) (x : list A) :
  (forall a, In a x -> g a = a) -> map g x = x.
Proof.
  induction x as [| a x IH]; intros H; [reflexivity |].
  cbn [map]. rewrite H by now left. f_equal. apply IH.
  intros b Hb. apply H. now right.
Qed.

Lemma upper_fixed (x : pystr) (c : ascii) :
  upper x = x -> In c x -> upper_char c = c.
Proof.
  induction x as [| a x IH]; [intros _ [] |].
  change (upper (a :: x)) with (upper_char a :: upper x).
  intros [= Ha Hx] [-> | Hin]; auto.
Qed.

(** The ISBN-13 [c13] that [as13] makes of the ISBN-10 [c]: its first
    three digits are 9, 7, 8, the next nine are the first nine digits of
    [c], and the last is the one digit of 0..9 that satisfies the EAN-13
    checksum; its string is the prefix, the string of [c] without its
    last character, and that digit. *)
Definition ISBN10_conversion (c c13 : instance) : Prop :=
  exists v,
    length (digits c) = 10%nat /\
    digits c13
    = [Some 9; Some 7; Some 8] ++ firstn 9 (digits c) ++ [Some v] /\
    0 <= v <= 9 /\ checkDigit c13 = Some v /\
    checksum EAN13_weights 10 (digits c13) = 0 /\
    (forall v',
        0 <= v' <= 9 ->
        checksum EAN13_weights 10
          ([Some 9; Some 7; Some 8] ++ firstn 9 (digits c) ++ [Some v']) = 0 ->
        v' = v) /\
    self_s c13
    = str "978-" ++ slice (self_s c) None (Some (-1)) ++ [digit_char v] /\
    self_type c13 = str "ISBN13" /\ bits c = bits c13.

Lemma separates_units10 (a : Z) : In a units10 -> separates 10 a = true.
Proof.
  cbn. intros [<- | [<- | [<- | [<- | []]]]]; vm_compute; reflexivity.
Qed.

Lemma ISBN10_post_conversion (s : pystr) (c : instance) :
  ISBN10_post s c ->
  exists c13, outcome (ISBN10_as13 c) (OK c13) /\ ISBN10_conversion c c13.
Proof.
  intros [o0 [o13 [b [Hinit [Hdec [Hout [H13 [Hbits ->]]]]]]]].
  exists o13. split; [exact Hout |].
  (* the normalized string of the ISBN-10 and its slots *)
  destruct (init_post_final ISBN10_attrs ISBN10_weights 11 10 10 10
              good_ISBN10_firstCharMap good_ISBN10_lastCharMap
              good_ISBN10_otherCharMap s o0 Hinit)
    as [ds1 [Hp1 [Hfinal [Hup [_ Hl1]]]]].
  unfold parse_with in Hp1.
  destruct (pystr_shape (self_s o0)) as [Hs0 | [[c0 Hs0] | [c0 [y [d Hs0]]]]];
    rewrite Hs0 in Hp1.
  { discriminate. }
  { rewrite parse_one in Hp1.
    destruct (slot _ c0) as [a |] eqn:Ha; cbn [rbind] in Hp1; [| discriminate].
    destruct (slot (lastCharMap ISBN10_attrs) c0) as [bl |] eqn:Hbl;
      cbn [rbind] in Hp1; [| discriminate].
    injection Hp1 as <-. rewrite length_app in Hl1.
    apply slot_length in Ha, Hbl. cbn in Hl1. lia. }
  rewrite parse_more in Hp1.
  destruct (slot (firstCharMap ISBN10_attrs) c0) as [a |] eqn:Ha;
    cbn [rbind] in Hp1; [| discriminate].
  destruct (slots (otherCharMap ISBN10_attrs) y) as [r |] eqn:Hr;
    cbn [rbind] in Hp1; [| discriminate].
  destruct (slot (lastCharMap ISBN10_attrs) d) as [bl |] eqn:Hbl;
    cbn [rbind] in Hp1; [| discriminate].
  injection Hp1 as <-.
  pose proof (one_slot_length _ _ _ one_slot_ISBN10_last Hbl) as Hbl1.
  assert (Hbody : slots UPC_otherCharMap (c0 :: y) = OK (a ++ r)).
  { cbn [slots].
    rewrite (submap_slot _ _ _ _ ISBN10_first_in_UPC_other Ha).
    now rewrite (submap_slots _ _ _ _ ISBN10_other_in_UPC_other Hr). }
  (* the ISBN-13 built by as13 *)
  destruct H13 as [[o' [Hinit' [Hdec' [Hlen' ->]]]] _].
  unfold ISBN10_as13_string in Hinit'. rewrite Hs0 in Hinit'.
  change (c0 :: y ++ [d]) with ((c0 :: y) ++ [d]) in Hinit'.
  rewrite slice_but_last in Hinit'.
  destruct Hinit' as [ds13 [i13 [Hp13 [Hl13 [Hres13 [Hs13 [_ [Hcd13 [_ [Hty _]]]]]]]]]].
  cbn [firstCharMap lastCharMap otherCharMap EAN13_attrs] in Hp13.
  rewrite as13_parse, Hbody in Hp13. cbn [rbind] in Hp13. injection Hp13 as <-.
  change (Some 9 :: Some 7 :: Some 8 :: (a ++ r) ++ [None])
    with ([Some 9; Some 7; Some 8] ++ (a ++ r) ++ [None]) in *.
  pose proof Hres13 as Hmod.
  apply resolution_mod10 in Hmod; [| exact EAN13_units | exact Hl13].
  destruct Hmod as [Hz13 [[Hc0 _] | [pre [rest [v [Hds [Hdo [-> [Hv [Hcp Hcr]]]]]]]]]].
  { rewrite !count_None_app in Hc0.
    change (count_None [None]) with 1%nat in Hc0. lia. }
  assert (Hfront : count_None (a ++ r) = 0%nat).
  { apply (f_equal count_None) in Hds.
    rewrite !count_None_app, !count_None_cons_None, Hcp, Hcr in Hds.
    change (count_None [Some 9; Some 7; Some 8]) with 0%nat in Hds.
    change (count_None []) with 0%nat in Hds.
    rewrite count_None_app. lia. }
  replace ([Some 9; Some 7; Some 8] ++ (a ++ r) ++ [None])
    with (([Some 9; Some 7; Some 8] ++ a ++ r) ++ None :: []) in Hds
    by (now rewrite <- !app_assoc).
  apply wildcard_unique in Hds; [| | exact Hcp].
  2:{ rewrite count_None_app. exact Hfront. }
  destruct Hds as [<- <-].
  (* the first nine digits of the ISBN-10 *)
  assert (Hnine : firstn 9 (digits o0) = a ++ r /\ length (digits o0) = 10%nat).
  { assert (Hlen9 : length (a ++ r) = 9%nat).
    { rewrite app_assoc, length_app, Hbl1 in Hl1. cbn in Hl1. lia. }
    rewrite app_assoc in Hfinal.
    inversion Hfinal as [Hc Hz Heq | pre0 rest0 Hdo0 Hcp0 Hcr0 Hno Heq].
    - rewrite Heq. split.
      + rewrite firstn_app, Hlen9, Nat.sub_diag.
        rewrite firstn_all2 by lia. cbn. apply app_nil_r.
      + rewrite length_app, Hlen9, Hbl1. reflexivity.
    - symmetry in Heq.
      apply resolved_front in Heq; [| exact Hfront | exact Hbl1].
      destruct Heq as [-> [-> _]]. rewrite Hdo0. split.
      + rewrite firstn_app, Hlen9, Nat.sub_diag.
        rewrite firstn_all2 by lia. cbn. apply app_nil_r.
      + rewrite length_app, Hlen9. reflexivity. }
  destruct Hnine as [Hnine Hlen10].
  exists v. cbn [digits checkDigit self_s self_type bits set_bits].
  rewrite Hdo, Hnine. repeat apply conj.
  - exact Hlen10.
  - now rewrite <- !app_assoc.
  - apply Hv.
  - apply Hv.
  - rewrite Hdo in Hcd13. rewrite getitem_last in Hcd13. now injection Hcd13.
  - rewrite Hdo in Hz13. exact Hz13.
  - intros v' Hv' Hz'. rewrite Hdo in Hz13. unfold checksum in Hz13, Hz'.
    replace ([Some 9; Some 7; Some 8] ++ (a ++ r) ++ [Some v'])
      with (([Some 9; Some 7; Some 8] ++ a ++ r) ++ Some v' :: []) in Hz'
      by (now rewrite <- !app_assoc).
    assert (Hlenw : S (length ([Some 9; Some 7; Some 8] ++ a ++ r) + length (@nil digit))
                    = length EAN13_weights).
    { rewrite <- Hl13, !length_app. cbn. lia. }
    rewrite weighted_sum_wildcard in Hz13, Hz' by auto.
    eapply unique_solution; [| exact Hv' | exact Hv | exact Hz' | exact Hz13].
    apply separates_units10, nth_In_units; [exact EAN13_units |]. lia.
  - rewrite Hs13, pystr_of_digit, re_sub_star_map by exact Hv.
    rewrite Hs0. change (c0 :: y ++ [d]) with ((c0 :: y) ++ [d]).
    rewrite slice_but_last.
    change (str "978-" ++ (c0 :: y) ++ str "*")
      with (str "978-" ++ (c0 :: y) ++ [star]).
    rewrite !map_app. f_equal. f_equal.
    apply map_fixed. intros x Hx. unfold subst_char.
    assert (Hux : upper_char x = x).
    { apply (upper_fixed (self_s o0)); [exact Hup |].
      rewrite Hs0. change (c0 :: y ++ [d]) with ((c0 :: y) ++ [d]).
      apply in_or_app. now left. }
    rewrite Hux. destruct (Ascii.eqb_spec x star) as [-> | _]; [| reflexivity].
    exfalso. apply In_star_count in Hx.
    rewrite <- (slots_count _ _ good_UPC_otherCharMap _ _ Hbody) in Hx. lia.
  - exact Hty.
  - cbn [bits set_bits] in Hbits. rewrite Hdo in Hbits. now symmetry.
Qed.

(** C5, as stated: the digits at positions 1 to 9 of the ISBN-13 are the
    digits 0 to 8 of the ISBN-10.  For ["0-9669553-0-7"] they are not,
    whether positions are counted from 0 or from 1: the prefix 978 takes
    three positions, and the nine digits stand at positions 3 to 11.  The
    two check digits, 7 and 9, differ. *)
Lemma ISBN10_as13_positions :
  exists c c13,
    ISBN10 (str "0-9669553-0-7") [] = (OK c, []) /\
    ISBN10_as13 c [] = (OK c13, []) /\
    slice (digits c) (Some 0) (Some 9)
    = map Some [0; 9; 6; 6; 9; 5; 5; 3; 0] /\
    slice (digits c13) (Some 1) (Some 10)
    = map Some [7; 8; 0; 9; 6; 6; 9; 5; 5] /\
    slice (digits c13) (Some 0) (Some 9)
    = map Some [9; 7; 8; 0; 9; 6; 6; 9; 5] /\
    slice (digits c13) (Some 3) (Some 12)
    = map Some [0; 9; 6; 6; 9; 5; 5; 3; 0] /\
    checkDigit c = Some 7 /\ checkDigit c13 = Some 9 /\
    self_s c13 = str "978-0-9669553-0-9".
Proof.
  do 2 eexists. split; [vm_compute; reflexivity |].
  split; [vm_compute; reflexivity |].
  repeat split; vm_compute; reflexivity.
Qed.

(** C5, amended.  For every successfully constructed ISBN-10 code,
    [as13] runs the ISBN-13 construction on ["978-"], the normalized
    string without its last character, and ["*"]; it succeeds, and the
    digits at positions 3 to 11 of the ISBN-13 are the digits 0 to 8 of
    the ISBN-10, after the prefix 9, 7, 8; the final check digit is the
    one digit that satisfies the EAN-13 checksum, whatever the check digit
    of the ISBN-10. *)
Theorem ISBN10_as13_digits (s : pystr) msgs c msgs' :
  ISBN10 s msgs = (OK c, msgs') ->
  ISBN10_as13 c
  = ISBN13 (str "978-" ++ slice (self_s c) None (Some (-1)) ++ str "*") /\
  exists c13,
    ISBN10_as13 c msgs' = (OK c13, msgs') /\ ISBN10_conversion c c13.
Proof.
  intros Hrun. split; [reflexivity |].
  destruct s as [| c0 s]; [discriminate |].
  assert (Hs : c0 :: s <> []) by discriminate.
  apply (hoare_run_OK _ _ _ _ _ _ (ISBN10_hoare _ Hs)) in Hrun.
  destruct (ISBN10_post_conversion _ _ Hrun) as [c13 [Hout Hconv]].
  exists c13. split; [| exact Hconv].
  rewrite Hout. cbn. now rewrite app_nil_r.
Qed.

Definition sample_ISBN10 : instance :=
  Eval vm_compute in returned (ISBN10 (str "0-9669553-0-7")).

Lemma ISBN10_as13_digits_witness :
  ISBN10_as13 sample_ISBN10
  = ISBN13 (str "978-" ++ slice (self_s sample_ISBN10) None (Some (-1))
            ++ str "*") /\
  exists c13,
    ISBN10_as13 sample_ISBN10 [] = (OK c13, []) /\
    ISBN10_conversion sample_ISBN10 c13.
Proof.
  apply (ISBN10_as13_digits (str "0-9669553-0-7") [] sample_ISBN10 []).
  vm_compute. reflexivity.
Defined.

(** * C3: the resolved wildcard and the second run *)

(** The instance [o] as a construction from the string [x] leaves it. *)
Definition regiven (o : instance) (x : pystr) : instance :=
  {| self_type := self_type o; self_label := self_label o;
     givenString := x; self_s := self_s o;
     digits := digits o; checkDigit := checkDigit o; bits := bits o |}.

(** The input [s] holds one wildcard slot, and the instance [o] holds in
    its place the one digit [v] of 0..9 that satisfies the checksum
    equation; the string of [o] is [s] in upper case with [v] for the
    star. *)
Definition resolved_wildcard (self : attrs) (w : list Z) (m : Z)
    (s : pystr) (o : instance) : Prop :=
  exists pre rest v,
    parse_with self s = OK (pre ++ None :: rest) /\
    count_None pre = 0%nat /\ count_None rest = 0%nat /\
    digits o = pre ++ Some v :: rest /\ 0 <= v <= 9 /\
    checksum w m (digits o) = 0 /\
    (forall v', 0 <= v' <= 9 ->
                checksum w m (pre ++ Some v' :: rest) = 0 -> v' = v) /\
    self_s o = re_sub_star (pystr_of_Z v) (upper s) /\
    ~ In star (self_s o) /\ count_None (digits o) = 0%nat.

Lemma resolution_count (w : list Z) (m : Z) ds i ds' :
  resolution w m ds i ds' -> (count_None ds <= 1)%nat.
Proof.
  intros H. destruct H as [Hc _ | pre rest v -> Hp Hr _ _ | pre rest -> Hp Hr _].
  - lia.
  - rewrite count_None_app, count_None_cons_None. lia.
  - rewrite count_None_app, count_None_cons_None. lia.
Qed.

Section Rerun.

Variable self : attrs.
Variables (w : list Z) (m : Z).
Variables hf hl ho : Z.
Hypothesis Hw : weights self = Some w.
Hypothesis Hm : magic self = Some m.
Hypothesis Hm0 : m <> 0.
Hypothesis Hf : good_map hf (firstCharMap self).
Hypothesis Hl : good_map hl (lastCharMap self).
Hypothesis Ho : good_map ho (otherCharMap self).

(** [ProductCode.__init__] on the normalized string of a resolved
    instance returns that instance. *)
Lemma init_rerun (s : pystr) (o : instance) :
  init_post self w m s o ->
  count_None (digits o) = 0%nat -> checksum w m (digits o) = 0 ->
  outcome (ProductCode_init self (self_s o)) (OK (regiven o (self_s o))).
Proof.
  intros Hpost Hc Hz.
  destruct (init_post_final self w m hf hl ho Hf Hl Ho s o Hpost)
    as [ds1 [Hp1 [Hfinal [Hup [_ Hl1]]]]].
  assert (Heq : ds1 = digits o).
  { inversion Hfinal as [| pre rest Hdo _ _ Hno]; [reflexivity |].
    exfalso. apply (Hno 9); [lia |]. now rewrite <- Hdo. }
  subst ds1.
  destruct Hpost as [ds0 [i [_ [_ [_ [_ [Hrc [Hcd [_ [Hty [Hlb Hbits]]]]]]]]]]].
  unfold ProductCode_init.
  eapply outcome_bind_OK with (a := digits o).
  { intros msgs. unfold try_except, lift. unfold parse_with in Hp1.
    rewrite Hp1. cbn. now rewrite app_nil_r. }
  eapply outcome_bind_OK with (a := (None, digits o)).
  { unfold resolveChecksum. rewrite Hc. cbn [Nat.eqb].
    eapply outcome_bind_OK; [now apply (remainder_OK self w m) |].
    fold (checksum w m (digits o)). rewrite Hz. cbn [Z.eqb].
    apply outcome_ret. }
  cbv beta iota.
  eapply outcome_bind_OK; [apply outcome_ret |]. rewrite Hup.
  eapply outcome_bind_OK; [exact Hrc |].
  eapply outcome_bind_OK; [apply outcome_lift_OK, Hcd |].
  unfold regiven. rewrite Hty, Hlb, Hbits. apply outcome_ret.
Qed.

(** One star in the input, and a checksum that holds: the scan found the
    one digit of 0..9 that solves the equation and put it in place of the
    star. *)
Lemma wildcard_generic (s : pystr) (o : instance) :
  init_post self w m s o -> (3 <= length w)%nat ->
  count_occ ascii_dec s star = 1%nat ->
  checksum w m (digits o) = 0 ->
  Forall (fun a => separates m a = true) w ->
  resolved_wildcard self w m s o.
Proof.
  intros [ds0 [i [Hp [Hlen [Hres [Hs _]]]]]] Hw3 Hstar Hz Hsep.
  unfold resolved_wildcard.
  assert (Hcount : count_None ds0 = 1%nat).
  { pose proof (parse_length _ _ _ _ _ Hp) as Hlong.
    rewrite Hlen in Hlong. specialize (Hlong Hw3).
    destruct (pystr_shape s) as [-> | [[c ->] | [c [y [d ->]]]]];
      try (cbn in Hlong; lia).
    rewrite <- Hstar. now apply (parse_count self hf hl ho). }
  remember (digits o) as dso eqn:Hdo.
  destruct Hres as [Hc _ | pre rest v -> Hcp Hcr Hv Hzv
                   | pre rest -> Hcp Hcr Hno].
  - lia.
  - exists pre, rest, v.
    assert (Hnostar : ~ In star (re_sub_star (pystr_of_Z v) (upper s))).
    { rewrite pystr_of_digit, re_sub_star_map by exact Hv.
      intros Hin. apply in_map_iff in Hin. destruct Hin as [c [Hc _]].
      now apply subst_char_star in Hc. }
    rewrite Hs.
    split; [exact Hp |]. split; [exact Hcp |]. split; [exact Hcr |].
    split; [reflexivity |]. split; [exact Hv |]. split; [exact Hz |].
    split; [| split; [reflexivity | split; [exact Hnostar |]]].
    + intros v' Hv' Hzv'. unfold checksum in Hzv, Hzv'.
      assert (Hlw : S (length pre + length rest) = length w).
      { rewrite <- Hlen, length_app. cbn [length]. lia. }
      rewrite weighted_sum_wildcard in Hzv, Hzv' by auto.
      eapply unique_solution; [| exact Hv' | exact Hv | exact Hzv' | exact Hzv].
      rewrite Forall_forall in Hsep. apply Hsep, nth_In. lia.
    + now rewrite count_None_app, Hcp, count_None_cons_Some.
  - exfalso. apply (Hno 9); [lia | exact Hz].
Qed.

End Rerun.

(** The rest of [EAN13.__init__] once [ProductCode.__init__] has
    returned the instance [o]. *)
Lemma EAN13_init_outcome (ty lb x : pystr) (o : instance) :
  outcome (ProductCode_init (EAN13_attrs ty lb) x) (OK o) ->
  Forall (decimal 9) (digits o) -> length (digits o) = 13%nat ->
  outcome (EAN13_init ty lb x) (OK (set_bits o (EAN13_symbol (digits o)))).
Proof.
  intros Hinit Hdec Hlen.
  assert (Hx : x <> []).
  { intros ->. specialize (Hinit []). rewrite ProductCode_init_nil in Hinit.
    discriminate. }
  pose proof (EAN13_init_hoare ty lb x Hx) as [r [Hr Hq]].
  assert (Hsome : exists c, r = OK c /\ c = set_bits o (EAN13_symbol (digits o))).
  { unfold EAN13_init, UPCA_init, UPC_init in Hr.
    specialize (Hr []). specialize (Hinit []). unfold bind at 1 in Hr.
    rewrite Hinit in Hr. cbn [emitted app] in Hr.
    destruct r as [c | e].
    - destruct Hq as [o0 [_ [_ [_ Hc]]]]. exists c. split; [reflexivity |].
      revert Hr. generalize (EAN13_symbol (digits o0)) as sym0.
      intros sym0 Hr. clear Hc.
      destruct (digits o) as [| d0 data] eqn:Hds; [discriminate |].
      inversion Hdec as [| ? ? [n0 [-> Hn0]] Hdata]; subst.
      destruct (EAN13PARITY_pattern n0 Hn0) as [pat [Hpat [Hpl Hpin]]].
      assert (Hcod : codable EAN13BITS data pat).
      { apply codable_decimal with (allowed := str "ABC"); auto.
        - apply EAN13BITS_code.
        - cbn in Hlen. lia. }
      rewrite getitem_0 in Hr. unfold lift at 1, bind at 1 in Hr.
      cbn [getitem_digit] in Hr. rewrite Hpat in Hr.
      unfold lift at 1, bind at 1 in Hr.
      unfold UPCA_setbits in Hr. rewrite slice_tail in Hr.
      rewrite (UPC_setbits_encode _ _ _ Hcod) in Hr.
      unfold lift at 1, bind at 1, ret in Hr.
      injection Hr as Hr. rewrite <- Hr. f_equal.
      cbn [EAN13_symbol]. rewrite Hpat.
      rewrite <- (firstn_skipn 6 data) in Hcod.
      rewrite <- (firstn_skipn 6 pat) in Hcod.
      assert (Hl6 : length (firstn 6 data) = length (firstn 6 pat)).
      { rewrite !length_firstn. cbn in Hlen. lia. }
      destruct (codable_app _ _ _ _ _ Hl6 Hcod) as [Hleft [Hright Heq]].
      rewrite !firstn_skipn in Heq. rewrite Heq.
      pose proof (encode_length _ _ _ Hleft) as Hll.
      rewrite length_firstn in Hll.
      replace (Init.Nat.min 6 (length data)) with 6%nat in Hll
        by (cbn in Hlen; lia).
      change (Some 0) with (Some (Z.of_nat 0)).
      change (Some 42) with (Some (Z.of_nat 42)).
      rewrite slice_from_to, slice_from by lia.
      set (L := encode EAN13BITS (firstn 6 data) (firstn 6 pat)) in *.
      set (R := encode EAN13BITS (skipn 6 data) (skipn 6 pat)) in *.
      change (skipn 0 (L ++ R)) with (L ++ R).
      change (42 - 0)%nat with 42%nat.
      rewrite firstn_app, skipn_app, Hll, Nat.sub_diag.
      rewrite firstn_all2, skipn_all2 by lia.
      change (firstn 0 R) with (@nil ascii). change (skipn 0 R) with R.
      now rewrite app_nil_r.
    - exfalso. clear Hq.
      destruct (digits o) as [| d0 data] eqn:Hds; [discriminate |].
      inversion Hdec as [| ? ? [n0 [-> Hn0]] Hdata]; subst.
      destruct (EAN13PARITY_pattern n0 Hn0) as [pat [Hpat [Hpl Hpin]]].
      assert (Hcod : codable EAN13BITS data pat).
      { apply codable_decimal with (allowed := str "ABC"); auto.
        - apply EAN13BITS_code.
        - cbn in Hlen. lia. }
      rewrite getitem_0 in Hr. unfold lift at 1, bind at 1 in Hr.
      cbn [getitem_digit] in Hr. rewrite Hpat in Hr.
      unfold lift at 1, bind at 1 in Hr.
      unfold UPCA_setbits in Hr. rewrite slice_tail in Hr.
      rewrite (UPC_setbits_encode _ _ _ Hcod) in Hr.
      unfold lift at 1, bind at 1, ret in Hr. discriminate. }
  destruct Hsome as [c [-> ->]]. exact Hr.
Qed.

Lemma ISMN_units : Forall (fun a => In a units10) ISMN_weights.
Proof.
  unfold ISMN_weights.
  repeat (apply Forall_cons; [cbn; tauto |]). apply Forall_nil.
Qed.

Lemma separates_mod10 (w : list Z) :
  Forall (fun a => In a units10) w ->
  Forall (fun a => separates 10 a = true) w.
Proof. apply Forall_impl. intros a. apply separates_units10. Qed.

(** 11 is prime: each weight 1..10 tells the candidates 0..9 apart. *)
Lemma separates_ISBN10 :
  Forall (fun a => separates 11 a = true) ISBN10_weights.
Proof.
  unfold ISBN10_weights.
  repeat (apply Forall_cons; [vm_compute; reflexivity |]). apply Forall_nil.
Qed.

Lemma EAN13_rerun (ty lb s : pystr) (o : instance) :
  EAN13_post ty lb s o -> count_occ ascii_dec s star = 1%nat ->
  resolved_wildcard (EAN13_attrs ty lb) EAN13_weights 10 s o /\
  outcome (EAN13_init ty lb (self_s o)) (OK (regiven o (self_s o))).
Proof.
  intros [o0 [Hinit [Hdec [Hlen ->]]]] Hstar.
  assert (Hz : checksum EAN13_weights 10 (digits o0) = 0).
  { destruct Hinit as [ds0 [i [_ [Hl [Hres _]]]]].
    now destruct (resolution_mod10 _ _ _ _ EAN13_units Hl Hres). }
  assert (Hcore : resolved_wildcard (EAN13_attrs ty lb) EAN13_weights 10 s o0).
  { apply (wildcard_generic (EAN13_attrs ty lb) EAN13_weights 10 9 9 9
             good_UPC_firstCharMap
             good_UPC_lastCharMap good_UPC_otherCharMap); auto.
    - cbn. lia.
    - apply separates_mod10, EAN13_units. }
  split; [exact Hcore |].
  assert (Hc : count_None (digits o0) = 0%nat).
  { destruct Hcore as [pre [rest [v H]]]. apply H. }
  assert (Hm0 : 10 <> 0) by discriminate.
  pose proof (init_rerun (EAN13_attrs ty lb) EAN13_weights 10 9 9 9
                eq_refl eq_refl Hm0 good_UPC_firstCharMap
                good_UPC_lastCharMap good_UPC_otherCharMap
                s o0 Hinit Hc Hz) as Hre.
  apply (EAN13_init_outcome ty lb _ _ Hre); [exact Hdec | exact Hlen].
Qed.

Lemma prefixed_rerun (ty lb p0 p1 p2 msg s : pystr) (o : instance) :
  EAN13_post ty lb s o -> count_occ ascii_dec s star = 1%nat ->
  resolved_wildcard (EAN13_attrs ty lb) EAN13_weights 10 s o /\
  outcome (prefixed ty lb p0 p1 p2 msg (self_s o))
          (if prefix_ok (self_s o) p0 p1 p2 then OK (regiven o (self_s o))
           else Raise (ProductCodeError (Some (ty ++ msg)))).
Proof.
  intros Hpost Hstar.
  destruct (EAN13_rerun _ _ _ _ Hpost Hstar) as [Hcore Hout].
  split; [exact Hcore |].
  apply prefixed_outcome; [| exact Hout].
  intros Hnil. rewrite Hnil in Hout. specialize (Hout []).
  rewrite EAN13_init_nil in Hout. discriminate.
Qed.

Lemma ISBN10_rerun (s : pystr) (c : instance) :
  ISBN10_post s c -> count_occ ascii_dec s star = 1%nat ->
  checksum ISBN10_weights 11 (digits c) = 0 ->
  resolved_wildcard ISBN10_attrs ISBN10_weights 11 s c /\
  outcome (ISBN10 (self_s c)) (OK (regiven c (self_s c))).
Proof.
  intros [o0 [o13 [b [Hinit [Hdec [Hout [H13 [Hbits ->]]]]]]]] Hstar Hz.
  cbn [digits set_bits] in Hz.
  assert (Hcore : resolved_wildcard ISBN10_attrs ISBN10_weights 11 s o0).
  { apply (wildcard_generic ISBN10_attrs ISBN10_weights 11 10 10 10
             good_ISBN10_firstCharMap
             good_ISBN10_lastCharMap good_ISBN10_otherCharMap); auto.
    - cbn. lia.
    - apply separates_ISBN10. }
  split; [exact Hcore |].
  assert (Hc : count_None (digits o0) = 0%nat).
  { destruct Hcore as [pre [rest [v H]]]. apply H. }
  assert (Hm0 : 11 <> 0) by discriminate.
  pose proof (init_rerun ISBN10_attrs ISBN10_weights 11 10 10 10
                eq_refl eq_refl Hm0 good_ISBN10_firstCharMap
                good_ISBN10_lastCharMap good_ISBN10_otherCharMap
                s o0 Hinit Hc Hz) as Hre.
  cbn [self_s set_bits]. unfold ISBN10.
  eapply outcome_bind_OK; [exact Hre |].
  eapply outcome_bind_OK; [exact Hout |].
  rewrite Hbits. cbn [getattr].
  eapply outcome_bind_OK; [apply outcome_ret |]. apply outcome_ret.
Qed.

Lemma ISMN_rerun (s : pystr) (c : instance) :
  ISMN_post s c -> count_occ ascii_dec s star = 1%nat ->
  resolved_wildcard ISMN_attrs ISMN_weights 10 s c /\
  outcome (ISMN (self_s c)) (OK (regiven c (self_s c))).
Proof.
  intros [o0 [o13 [b [Hinit [Hdec [Hout [H13 [Hbits ->]]]]]]]] Hstar.
  assert (Hz : checksum ISMN_weights 10 (digits o0) = 0).
  { destruct Hinit as [ds0 [i [_ [Hl [Hres _]]]]].
    now destruct (resolution_mod10 _ _ _ _ ISMN_units Hl Hres). }
  assert (Hcore : resolved_wildcard ISMN_attrs ISMN_weights 10 s o0).
  { apply (wildcard_generic ISMN_attrs ISMN_weights 10 9 9 9
             good_ISMN_firstCharMap
             good_ISMN_lastCharMap good_ISMN_otherCharMap); auto.
    - cbn. lia.
    - apply separates_mod10, ISMN_units. }
  split; [exact Hcore |].
  assert (Hc : count_None (digits o0) = 0%nat).
  { destruct Hcore as [pre [rest [v H]]]. apply H. }
  assert (Hm0 : 10 <> 0) by discriminate.
  pose proof (init_rerun ISMN_attrs ISMN_weights 10 9 9 9
                eq_refl eq_refl Hm0 good_ISMN_firstCharMap
                good_ISMN_lastCharMap good_ISMN_otherCharMap
                s o0 Hinit Hc Hz) as Hre.
  cbn [self_s set_bits]. unfold ISMN.
  eapply outcome_bind_OK; [exact Hre |].
  eapply outcome_bind_OK; [exact Hout |].
  rewrite Hbits. cbn [getattr].
  eapply outcome_bind_OK; [apply outcome_ret |]. apply outcome_ret.
Qed.

(** [UPC5] appends its own wildcard: an input with a star has two. *)
Lemma UPC5_no_star (s : pystr) (c : instance) :
  UPC5_post s c -> count_occ ascii_dec s star = 0%nat.
Proof.
  intros [o0 [[ds0 [i [Hp [Hl [Hres _]]]]] _]].
  pose proof (resolution_count _ _ _ _ _ Hres) as Hle.
  destruct (pystr_shape (s ++ str "*")) as [H | [[c0 H] | [c0 [y [d H]]]]].
  - destruct s; discriminate.
  - destruct s as [| a [| a' s']]; [reflexivity | discriminate | discriminate].
  - rewrite H in Hp.
    apply (parse_count UPC5_attrs 9 9 9 good_UPC5_firstCharMap
             good_UPC5_lastCharMap good_UPC5_otherCharMap) in Hp.
    rewrite <- H, count_occ_app_star in Hp.
    assert (H1 : count_occ ascii_dec (str "*") star = 1%nat)
      by (vm_compute; reflexivity).
    lia.
Qed.

(** The weights and the modulus of a format. *)
Definition weights_of (F : format) : list Z :=
  match weights (attrs_of F) with
  | Some w => w
  | None => []
  end.

Definition modulus_of (F : format) : Z :=
  match magic (attrs_of F) with
  | Some m => m
  | None => 0
  end.

(** What the constructor of [F] does with the normalized string of [c]:
    it returns [c] again, as given that string, unless the prefix check of
    [ISBN13] or [ISMN13], which reads the string it is given, refuses the
    resolved digits. *)
Definition rerun_result (F : format) (c : instance) : res instance :=
  let again := OK (regiven c (self_s c)) in
  match F with
  | F_ISBN13 =>
      if prefix_ok (self_s c) (str "9*") (str "7*") (str "89*") then again
      else Raise (ProductCodeError (Some ISBN13_prefix_error))
  | F_ISMN13 =>
      if prefix_ok (self_s c) (str "9*") (str "7*") (str "9*") then again
      else Raise (ProductCodeError (Some ISMN13_prefix_error))
  | _ => again
  end.

Definition resolved_once (F : format) (s : pystr) (c : instance) : Prop :=
  resolved_wildcard (attrs_of F) (weights_of F) (modulus_of F) s c /\
  outcome (construct F (self_s c)) (rerun_result F c).

(** C3, as stated: constructing again from the normalized string succeeds
    with the same digits.  ["*78-0-9669553-0-8"] has one wildcard and
    constructs as an ISBN-13: the prefix check passes the star, and the
    star resolves to 0.  The normalized string ["078-0-9669553-0-8"] does
    not construct: the prefix check, which reads the characters it is
    given, now finds 0 where it wants 9. *)
Lemma ISBN13_rerun_prefix :
  exists c,
    ISBN13 (str "*78-0-9669553-0-8") [] = (OK c, []) /\
    count_occ ascii_dec (str "*78-0-9669553-0-8") star = 1%nat /\
    digits c = map Some [0; 7; 8; 0; 9; 6; 6; 9; 5; 5; 3; 0; 8] /\
    self_s c = str "078-0-9669553-0-8" /\
    ISBN13 (self_s c) []
    = (Raise (ProductCodeError (Some ISBN13_prefix_error)),
       [ISBN13_prefix_error]).
Proof.
  eexists. split; [vm_compute; reflexivity |].
  split; [vm_compute; reflexivity |].
  split; [vm_compute; reflexivity |].
  split; vm_compute; reflexivity.
Qed.

(** C3, amended.  For every format and every input with exactly one
    wildcard that constructs successfully, with digits that satisfy the
    checksum equation where the format is ISBN-10 (its modulus is 11, and
    the scan of 0..9 can miss): the input has one wildcard slot, the
    digit in its place is the unique value of 0..9 that makes the weighted
    sum 0 modulo the modulus, the normalized string is the input in upper
    case with that digit for the star and holds no star, and no wildcard
    slot is left.  Constructing the same format from the normalized string
    returns the same instance (same digits, string, check digit and bit
    pattern) as given that string, except that [ISBN13] and [ISMN13] raise
    their prefix error when the normalized string does not begin with
    978 or 979 (for ISBN-13) or 979 (for ISMN-13). *)
Theorem wildcard_resolved_once (F : format) (s : pystr) msgs c msgs' :
  construct F s msgs = (OK c, msgs') ->
  count_occ ascii_dec s star = 1%nat ->
  (F = F_ISBN10 -> checksum ISBN10_weights 11 (digits c) = 0) ->
  resolved_once F s c.
Proof.
  intros Hrun Hstar Hz.
  assert (Hs : s <> []) by (intros ->; discriminate).
  destruct F; cbn [construct] in Hrun.
  - now apply (hoare_run_OK _ _ _ _ _ _ (UPCA_quiet s)) in Hrun.
  - apply (hoare_run_OK _ _ _ _ _ _ (EAN13_hoare s Hs)) in Hrun.
    exact (EAN13_rerun _ _ _ _ Hrun Hstar).
  - apply (hoare_run_OK _ _ _ _ _ _ (UPC5_hoare s)) in Hrun.
    apply UPC5_no_star in Hrun. lia.
  - apply (hoare_run_OK _ _ _ _ _ _ (ISBN10_hoare s Hs)) in Hrun.
    exact (ISBN10_rerun _ _ Hrun Hstar (Hz eq_refl)).
  - apply (hoare_run_OK _ _ _ _ _ _ (ISBN13_hoare s Hs)) in Hrun.
    destruct Hrun as [Hpost _].
    exact (prefixed_rerun _ _ (str "9*") (str "7*") (str "89*")
             (str ": must begin with 978 or 979") _ _ Hpost Hstar).
  - apply (hoare_run_OK _ _ _ _ _ _ (ISMN_hoare s Hs)) in Hrun.
    exact (ISMN_rerun _ _ Hrun Hstar).
  - apply (hoare_run_OK _ _ _ _ _ _ (ISMN13_hoare s Hs)) in Hrun.
    destruct Hrun as [Hpost _].
    exact (prefixed_rerun _ _ (str "9*") (str "7*") (str "9*")
             (str ": must begin with 979") _ _ Hpost Hstar).
Qed.

Definition sample_wildcard_ISBN10 : instance :=
  Eval vm_compute in returned (ISBN10 (str "0-9669553-0-*")).

Lemma wildcard_resolved_once_witness :
  resolved_once F_ISBN10 (str "0-9669553-0-*") sample_wildcard_ISBN10.
Proof.
  apply (wildcard_resolved_once F_ISBN10 (str "0-9669553-0-*") []
           sample_wildcard_ISBN10 []).
  - vm_compute. reflexivity.
  - vm_compute. reflexivity.
  - intros _. vm_compute. reflexivity.
Defined.

(** * Further properties: the character maps *)

Lemma pystr_eqb_eq (x y : pystr) : pystr_eqb x y = true <-> x = y.
Proof.
  unfold pystr_eqb. destruct (list_eq_dec ascii_dec x y); split; congruence.
Qed.

Lemma pystr_eqb_refl (x : pystr) : pystr_eqb x x = true.
Proof. now apply pystr_eqb_eq. Qed.

Lemma pystr_eqb_neq (x y : pystr) : x <> y -> pystr_eqb x y = false.
Proof.
  intros H. destruct (pystr_eqb x y) eqn:E; [| reflexivity].
  now apply pystr_eqb_eq in E.
Qed.

(** Look-up after [d[k] = v]. *)
Lemma dict_find_setitem {V} (d : dict V) (k : pystr) (v : V) (k' : pystr) :
  dict_find (dict_setitem d k v) k'
  = if pystr_eqb k k' then Some v else dict_find d k'.
Proof.
  unfold dict_setitem. cbn [dict_find].
  destruct (pystr_eqb k k') eqn:E; [reflexivity |].
  induction d as [| [a b] d IH]; [reflexivity |].
  cbn [filter fst dict_find].
  destruct (pystr_eqb a k) eqn:Ea; cbn [negb].
  - apply pystr_eqb_eq in Ea. subst a. now rewrite E.
  - cbn [dict_find]. now rewrite IH.
Qed.

Lemma dict_find_app {V} (d d' : dict V) (k : pystr) :
  dict_find (d ++ d') k
  = match dict_find d k with
    | Some v => Some v
    | None => dict_find d' k
    end.
Proof.
  induction d as [| [a b] d IH]; [reflexivity |].
  cbn [app dict_find]. now destruct (pystr_eqb a k).
Qed.

(** [for key in dict.keys(): rval[key] = dict[key]] over the bindings
    [l]: the last binding of a key wins, and a key [l] does not bind
    keeps what it had. *)
Lemma dict_find_update {V} (l : list (pystr * V)) :
  forall (d : dict V) (k : pystr),
    dict_find
      (fold_left (fun rval kv => dict_setitem rval (fst kv) (snd kv)) l d) k
    = match dict_find (rev l) k with
      | Some v => Some v
      | None => dict_find d k
      end.
Proof.
  induction l as [| [a b] l IH]; intros d k; [reflexivity |].
  cbn [fold_left rev fst snd]. rewrite IH, dict_find_app, dict_find_setitem.
  cbn [dict_find]. now destruct (dict_find (rev l) k), (pystr_eqb a k).
Qed.

Lemma fold_left_concat {A B} (f : A -> B -> A) (ll : list (list B)) :
  forall a, fold_left (fun a l => fold_left f l a) ll a
            = fold_left f (concat ll) a.
Proof.
  induction ll as [| l ll IH]; intros a; [reflexivity |].
  cbn [fold_left concat]. now rewrite IH, fold_left_app.
Qed.

(** What [makeCharMap] holds for a key that no dictionary binds: the
    value of a single decimal digit, and nothing else. *)
Definition digit_key (k : pystr) : option pyval :=
  match k with
  | [c] =>
      let n := nat_of_ascii c in
      if ((48 <=? n) && (n <=? 57))%nat
      then Some (PyInt (Z.of_nat (n - 48)))
      else None
  | _ => None
  end.

Definition same_value (a b : option pyval) : bool :=
  match a, b with
  | Some (PyInt x), Some (PyInt y) => x =? y
  | None, None => true
  | _, _ => false
  end.

Lemma same_value_eq (a b : option pyval) : same_value a b = true -> a = b.
Proof.
  destruct a as [[x | | x] |], b as [[y | | y] |]; cbn; try discriminate; auto.
  intros H. apply Z.eqb_eq in H. now subst.
Qed.

Lemma dict_find_key {V} (d : dict V) (k : pystr) (v : V) :
  dict_find d k = Some v -> In (k, v) d.
Proof.
  induction d as [| [a b] d IH]; cbn [dict_find]; [discriminate |].
  destruct (pystr_eqb a k) eqn:E.
  - apply pystr_eqb_eq in E. subst a. intros [= <-]. now left.
  - intros H. right. now apply IH.
Qed.

Lemma makeCharMap_digits (k : pystr) :
  dict_find (makeCharMap []) k = digit_key k.
Proof.
  destruct k as [| c [| c' k]].
  - reflexivity.
  - apply same_value_eq. revert c. apply forall_ascii.
    vm_compute. reflexivity.
  - cbn [digit_key].
    destruct (dict_find (makeCharMap []) (c :: c' :: k)) as [v |] eqn:E;
      [| reflexivity].
    apply dict_find_key in E. exfalso. revert E.
    assert (H : Forall (fun kv => length (fst kv) = 1%nat) (makeCharMap [])).
    { vm_compute. repeat (apply Forall_cons; [reflexivity |]).
      apply Forall_nil. }
    rewrite Forall_forall in H. intros E. now specialize (H _ E).
Qed.

(** X1.  Look-up in the map that [makeCharMap] builds: a key bound in
    the dictionaries has the value of its last binding; any other key has
    the value of the decimal digit it is, and is no key of the map when it
    is not a single digit. *)
Theorem makeCharMap_lookup (dicts : list charmap) (k : pystr) :
  dict_find (makeCharMap dicts) k
  = match dict_find (rev (concat dicts)) k with
    | Some v => Some v
    | None => digit_key k
    end.
Proof.
  rewrite <- makeCharMap_digits. unfold makeCharMap at 1.
  rewrite fold_left_concat, dict_find_update. reflexivity.
Qed.

(** * Further properties: how [ProductCode.__init__] fails *)

(** [re.search("--|  ",s)] *)
Definition doubled_separator (s : pystr) : bool :=
  substring_b (str "--") s || substring_b (str "  ") s.

Lemma prefix_b_map (p : pystr) (g : ascii -> ascii) (s : pystr) :
  (forall a c, In a p -> Ascii.eqb a (g c) = Ascii.eqb a c) ->
  prefix_b p (map g s) = prefix_b p s.
Proof.
  revert s. induction p as [| a p IH]; intros s H; [reflexivity |].
  destruct s as [| c s]; [reflexivity |]. cbn [map prefix_b].
  rewrite H by now left. f_equal. apply IH. intros b c' Hb. apply H. now right.
Qed.

Lemma substring_b_map (p : pystr) (g : ascii -> ascii) (s : pystr) :
  (forall a c, In a p -> Ascii.eqb a (g c) = Ascii.eqb a c) ->
  substring_b p (map g s) = substring_b p s.
Proof.
  intros H. induction s as [| c s IH]; [reflexivity |].
  cbn [map substring_b]. rewrite IH.
  change (g c :: map g s) with (map g (c :: s)).
  now rewrite prefix_b_map.
Qed.

(** Upper case and the digit put for the star neither make nor break a
    separator. *)
Lemma separator_upper (a c : ascii) :
  In a (str "- ") -> Ascii.eqb a (upper_char c) = Ascii.eqb a c.
Proof.
  intros Ha. revert c.
  assert (H : forallb (fun c => Bool.eqb (Ascii.eqb a (upper_char c))
                                         (Ascii.eqb a c)) all_ascii = true).
  { cbn in Ha. destruct Ha as [<- | [<- | []]]; vm_compute; reflexivity. }
  intros c. apply Bool.eqb_prop. exact (forall_ascii _ H c).
Qed.

Lemma separator_subst (v : Z) (a c : ascii) :
  0 <= v <= 9 -> In a (str "- ") ->
  Ascii.eqb a (subst_char (digit_char v) c) = Ascii.eqb a c.
Proof.
  intros Hv Ha. unfold subst_char.
  destruct (Ascii.eqb_spec (upper_char c) star) as [Hc | Hc].
  - apply upper_char_star in Hc. subst c.
    cbn in Ha. destruct Ha as [<- | [<- | []]]; digit_cases v; reflexivity.
  - now apply separator_upper.
Qed.

Lemma doubled_separator_upper (s : pystr) :
  doubled_separator (upper s) = doubled_separator s.
Proof.
  unfold doubled_separator. rewrite upper_map.
  rewrite !substring_b_map; [reflexivity | |];
    intros a c Ha; apply separator_upper; cbn in *; tauto.
Qed.

Lemma doubled_separator_subst (v : Z) (s : pystr) :
  0 <= v <= 9 ->
  doubled_separator (re_sub_star (pystr_of_Z v) (upper s))
  = doubled_separator s.
Proof.
  intros Hv. unfold doubled_separator.
  rewrite pystr_of_digit, re_sub_star_map by exact Hv.
  rewrite !substring_b_map; [reflexivity | |];
    intros a c Ha; apply separator_subst; cbn in *; tauto.
Qed.

Section Precise.

Variable self : attrs.
Variables (w : list Z) (m : Z).
Variables hf hl ho : Z.
Hypothesis Hw : weights self = Some w.
Hypothesis Hm : magic self = Some m.
Hypothesis Hm0 : m <> 0.
Hypothesis Hw0 : w <> [].
Hypothesis Hi2c :
  forall v, 0 <= v <= 9 -> outcome (int2char self v) (OK (pystr_of_Z v)).
Hypothesis Hf : good_map hf (firstCharMap self).
Hypothesis Hl : good_map hl (lastCharMap self).
Hypothesis Ho : good_map ho (otherCharMap self).

Definition checksum_error : pystr := type self ++ str ": checksum error".

Definition repeated_separator : pystr :=
  type self ++ str ": Repeated seperator".

(** The scan of [resolveChecksum] over the candidates [cands], when the
    number of slots is right: it raises nothing. *)
Lemma resolve_loop_outcome (pre rest : list digit) (cands : list Z) :
  count_None pre = 0%nat -> count_None rest = 0%nat ->
  S (length pre + length rest) = length w ->
  forall cur,
    outcome (resolve_loop self (pre ++ cur :: rest) (length pre) cands)
      (OK match find (fun v => checksum w m (pre ++ Some v :: rest) =? 0)
                     cands with
          | Some v => (Some v, pre ++ Some v :: rest)
          | None => (None, pre ++ last (map Some cands) cur :: rest)
          end).
Proof.
  intros Hp Hr Hlen. induction cands as [| i cands IH]; intros cur.
  - cbn [resolve_loop find map last]. apply outcome_ret.
  - cbn [resolve_loop find]. rewrite setitem_middle.
    eapply outcome_bind_OK.
    + apply (remainder_OK self w m Hw Hm Hm0).
      * rewrite length_app. cbn [length]. lia.
      * now rewrite count_None_app, Hp, count_None_cons_Some.
    + fold (checksum w m (pre ++ Some i :: rest)).
      destruct (checksum w m (pre ++ Some i :: rest) =? 0).
      * apply outcome_ret.
      * cbn [map]. rewrite last_cons. apply IH.
Qed.

Lemma resolveChecksum_wrong_number (ds : list digit) :
  (count_None ds <= 1)%nat -> length ds <> length w ->
  outcome (resolveChecksum self ds)
          (Raise (ProductCodeError (Some (wrong_number self)))).
Proof.
  intros Hc Hlen. unfold resolveChecksum.
  destruct (Nat.eqb_spec (count_None ds) 0) as [H0 | H0].
  - apply outcome_bind_Raise. now apply remainder_wrong_number with w.
  - destruct (Nat.eqb_spec (count_None ds) 1) as [H1 | H1]; [| lia].
    destruct (count_None_one ds H1) as [pre [rest [-> [_ [_ Hi]]]]].
    eapply outcome_bind_OK; [apply outcome_lift_OK, Hi |].
    cbn [range seq map resolve_loop]. apply outcome_bind_Raise.
    apply remainder_wrong_number with w; [exact Hw |].
    now rewrite setitem_length.
Qed.

Lemma resolveChecksum_checksum_error (ds : list digit) :
  count_None ds = 0%nat -> length ds = length w -> checksum w m ds <> 0 ->
  outcome (resolveChecksum self ds)
          (Raise (ProductCodeError (Some checksum_error))).
Proof.
  intros Hc Hlen Hz. unfold resolveChecksum. rewrite Hc. cbn [Nat.eqb].
  eapply outcome_bind_OK; [now apply (remainder_OK self w m) |].
  fold (checksum w m ds).
  destruct (Z.eqb_spec (checksum w m ds) 0); [contradiction |].
  apply outcome_raise_PCE.
Qed.

Lemma resolveChecksum_given (ds : list digit) :
  count_None ds = 0%nat -> length ds = length w -> checksum w m ds = 0 ->
  outcome (resolveChecksum self ds) (OK (None, ds)).
Proof.
  intros Hc Hlen Hz. unfold resolveChecksum. rewrite Hc. cbn [Nat.eqb].
  eapply outcome_bind_OK; [now apply (remainder_OK self w m) |].
  fold (checksum w m ds). rewrite Hz. cbn [Z.eqb]. apply outcome_ret.
Qed.

Lemma resolveChecksum_wildcard (ds : list digit) :
  count_None ds = 1%nat -> length ds = length w ->
  exists r, outcome (resolveChecksum self ds) (OK r).
Proof.
  intros Hc Hlen. unfold resolveChecksum. rewrite Hc. cbn [Nat.eqb].
  destruct (count_None_one ds Hc) as [pre [rest [-> [Hp [Hr Hi]]]]].
  eexists. eapply outcome_bind_OK; [apply outcome_lift_OK, Hi |].
  apply resolve_loop_outcome; auto.
  rewrite length_app in Hlen. cbn [length] in Hlen. lia.
Qed.

Lemma slot_has_key (mp : charmap) (c : ascii) (a : list digit) :
  slot mp c = OK a -> dict_has_key mp [c] = true.
Proof.
  unfold slot, dict_getitem, dict_has_key.
  destruct (dict_find mp [c]); [reflexivity | discriminate].
Qed.

Lemma realityCheck_loop_keys (y : pystr) (r : list digit) :
  slots (otherCharMap self) y = OK r ->
  forall msgs, realityCheck_loop self y msgs = msgs.
Proof.
  revert r. induction y as [| c y IH]; intros r Hr msgs; [reflexivity |].
  cbn [slots] in Hr.
  destruct (slot (otherCharMap self) c) as [a |] eqn:Hc; cbn in Hr;
    [| discriminate].
  destruct (slots (otherCharMap self) y) as [r' |]; cbn in Hr; [| discriminate].
  cbn [realityCheck_loop]. rewrite (slot_has_key _ _ _ Hc). cbn [negb append_if].
  now apply (IH r').
Qed.

(** [realityCheck] on a string that parses, with the right number of
    slots: of its six tests the last one only can fail. *)
Lemma realityCheck_outcome (ds : list digit) (x : pystr) (ds1 : list digit) :
  parse_with self x = OK ds1 -> length ds = length w ->
  outcome (realityCheck self ds x)
          (if doubled_separator x
           then Raise (ProductCodeError (Some repeated_separator))
           else OK tt).
Proof.
  intros Hp Hlen. unfold realityCheck. rewrite Hw. cbn [getattr].
  eapply outcome_bind_OK; [apply outcome_ret |].
  rewrite Hlen, Nat.ltb_irrefl. cbn [append_if].
  unfold parse_with in Hp.
  destruct (pystr_shape x) as [-> | [[c ->] | [c [y [d ->]]]]].
  - discriminate.
  - rewrite parse_one in Hp.
    destruct (slot (firstCharMap self) c) as [a |] eqn:Ha; cbn in Hp;
      [| discriminate].
    destruct (slot (lastCharMap self) c) as [b |] eqn:Hb; cbn in Hp;
      [| discriminate].
    unfold str_getitem at 1. rewrite getitem_0. cbn [rbind].
    eapply outcome_bind_OK; [apply outcome_lift_OK; reflexivity |].
    rewrite (slot_has_key _ _ _ Ha). cbn [negb append_if].
    unfold str_getitem. change [c] with ([] ++ [c]) at 1.
    rewrite getitem_last. cbn [rbind app].
    eapply outcome_bind_OK; [apply outcome_lift_OK; reflexivity |].
    rewrite (slot_has_key _ _ _ Hb). cbn [negb append_if].
    rewrite slice_interior_one. cbn [realityCheck_loop].
    fold (doubled_separator [c]).
    destruct (doubled_separator [c]); cbn [append_if app join].
    + apply outcome_raise_PCE.
    + apply outcome_ret.
  - rewrite parse_more in Hp.
    destruct (slot (firstCharMap self) c) as [a |] eqn:Ha; cbn in Hp;
      [| discriminate].
    destruct (slots (otherCharMap self) y) as [r |] eqn:Hr; cbn in Hp;
      [| discriminate].
    destruct (slot (lastCharMap self) d) as [b |] eqn:Hb; cbn in Hp;
      [| discriminate].
    unfold str_getitem at 1. rewrite getitem_0. cbn [rbind].
    eapply outcome_bind_OK; [apply outcome_lift_OK; reflexivity |].
    rewrite (slot_has_key _ _ _ Ha). cbn [negb append_if].
    unfold str_getitem.
    change (c :: y ++ [d]) with ((c :: y) ++ [d]) at 1.
    rewrite getitem_last. cbn [rbind].
    eapply outcome_bind_OK; [apply outcome_lift_OK; reflexivity |].
    rewrite (slot_has_key _ _ _ Hb). cbn [negb append_if].
    rewrite slice_interior, (realityCheck_loop_keys _ _ Hr).
    fold (doubled_separator (c :: y ++ [d])).
    destruct (doubled_separator (c :: y ++ [d])); cbn [append_if app join].
    + apply outcome_raise_PCE.
    + apply outcome_ret.
Qed.

(** How [ProductCode.__init__] fails on the string [s], in the order of
    its tests. *)
Inductive init_failure (s : pystr) : exn -> Prop :=
| fail_invalid k :
    parse_with self s = Raise (KeyError k) ->
    init_failure s (ProductCodeError (Some (invalid_here self k)))
| fail_too_many ds :
    parse_with self s = OK ds -> (2 <= count_None ds)%nat ->
    init_failure s (ProductCodeError (Some (too_many self)))
| fail_wrong_number ds :
    parse_with self s = OK ds -> (count_None ds <= 1)%nat ->
    length ds <> length w ->
    init_failure s (ProductCodeError (Some (wrong_number self)))
| fail_checksum ds :
    parse_with self s = OK ds -> count_None ds = 0%nat ->
    length ds = length w -> checksum w m ds <> 0 ->
    init_failure s (ProductCodeError (Some checksum_error))
| fail_separator ds :
    parse_with self s = OK ds -> (count_None ds <= 1)%nat ->
    length ds = length w ->
    (count_None ds = 0%nat -> checksum w m ds = 0) ->
    doubled_separator s = true ->
    init_failure s (ProductCodeError (Some repeated_separator)).

(** The strings [ProductCode.__init__] accepts: every character is a key
    of the map of its position, at most one slot is a wildcard, there
    are as many slots as weights, the checksum holds when no slot is a
    wildcard, and no separator is doubled. *)
Definition init_accepts (s : pystr) : Prop :=
  exists ds,
    parse_with self s = OK ds /\ (count_None ds <= 1)%nat /\
    length ds = length w /\
    (count_None ds = 0%nat -> checksum w m ds = 0) /\
    doubled_separator s = false.

Lemma init_parse_OK (s : pystr) (ds0 : list digit) :
  parse_with self s = OK ds0 ->
  outcome
    (try_except
       (lift (parse s (firstCharMap self) (lastCharMap self)
                    (otherCharMap self)))
       isKeyError
       (fun e =>
          match e with
          | KeyError k =>
              raise_ProductCodeError
                (Some (type self ++ str ": " ++ repr k ++ str " invalid here"))
          | _ => raise e
          end))
    (OK ds0).
Proof.
  intros Hp msgs. unfold try_except, lift. unfold parse_with in Hp.
  rewrite Hp. cbn. now rewrite app_nil_r.
Qed.

Lemma init_parse_Raise (s : pystr) (k : pystr) :
  parse_with self s = Raise (KeyError k) ->
  outcome (ProductCode_init self s)
          (Raise (ProductCodeError (Some (invalid_here self k)))).
Proof.
  intros Hp. unfold ProductCode_init. apply outcome_bind_Raise.
  intros msgs. unfold try_except, lift. unfold parse_with in Hp.
  rewrite Hp. cbn [isKeyError]. apply outcome_raise_PCE.
Qed.

Lemma init_resolve_Raise (s : pystr) (ds0 : list digit) (e : exn) :
  parse_with self s = OK ds0 ->
  outcome (resolveChecksum self ds0) (Raise e) ->
  outcome (ProductCode_init self s) (Raise e).
Proof.
  intros Hp He. unfold ProductCode_init.
  eapply outcome_bind_OK; [exact (init_parse_OK s ds0 Hp) |].
  now apply outcome_bind_Raise.
Qed.

(** Once [resolveChecksum] has returned, the constructor fails on a
    doubled separator and on nothing else. *)
Lemma init_after_resolve (s : pystr) (ds0 : list digit)
    (r : option Z * list digit) :
  s <> [] -> parse_with self s = OK ds0 ->
  outcome (resolveChecksum self ds0) (OK r) ->
  exists res,
    outcome (ProductCode_init self s) res /\
    if doubled_separator s
    then res = Raise (ProductCodeError (Some repeated_separator))
    else exists o, res = OK o.
Proof.
  intros Hs Hp Hout.
  destruct (hoare_outcome_OK _ _ _ _
              (resolveChecksum_hoare self w m Hw Hm Hm0 ds0) Hout)
    as [Hl0 Hres].
  destruct r as [i ds]. cbn [fst snd] in Hres.
  set (x := match i with
            | Some v => re_sub_star (pystr_of_Z v) (upper s)
            | None => upper s
            end).
  assert (Hlen : length ds = length w)
    by (rewrite (resolution_length _ _ _ _ _ Hres); exact Hl0).
  assert (Hx : (exists ds1, parse_with self x = OK ds1) /\
               doubled_separator x = doubled_separator s /\
               outcome match i with
                       | Some v => c <- int2char self v ;;
                                   ret (re_sub_star c (upper s))
                       | None => ret (upper s)
                       end (OK x)).
  { subst x. destruct i as [v |].
    - pose proof (resolution_Some _ _ _ _ _ Hres) as Hv. repeat split.
      + eexists. apply (parse_subst self hf hl ho Hf Hl Ho _ _ _ Hv Hp).
      + now apply doubled_separator_subst.
      + eapply outcome_bind_OK; [now apply Hi2c | apply outcome_ret].
    - repeat split.
      + eexists. apply (parse_upper self hf hl ho Hf Hl Ho _ _ Hp).
      + apply doubled_separator_upper.
      + apply outcome_ret. }
  destruct Hx as [[ds1 Hp1] [Hdx Hox]].
  pose proof (realityCheck_outcome ds x ds1 Hp1 Hlen) as Hrc.
  rewrite Hdx in Hrc.
  destruct (exists_last (l := ds)) as [y [d Hy]].
  { intros ->. destruct w; [congruence | discriminate]. }
  destruct (doubled_separator s).
  - eexists. split; [| reflexivity]. unfold ProductCode_init.
    eapply outcome_bind_OK; [exact (init_parse_OK s ds0 Hp) |].
    eapply outcome_bind_OK; [exact Hout |]. cbv beta iota.
    eapply outcome_bind_OK; [exact Hox |].
    apply outcome_bind_Raise. exact Hrc.
  - eexists. split; [| eexists; reflexivity]. unfold ProductCode_init.
    eapply outcome_bind_OK; [exact (init_parse_OK s ds0 Hp) |].
    eapply outcome_bind_OK; [exact Hout |]. cbv beta iota.
    eapply outcome_bind_OK; [exact Hox |].
    eapply outcome_bind_OK; [exact Hrc |].
    eapply outcome_bind_OK;
      [apply outcome_lift_OK; rewrite Hy; apply getitem_last |].
    apply outcome_ret.
Qed.

(** [ProductCode.__init__], with the test that makes it fail. *)
Lemma ProductCode_init_precise (s : pystr) :
  s <> [] ->
  hoare (ProductCode_init self s)
        (fun o => init_post self w m s o /\ init_accepts s)
        (init_failure s).
Proof.
  intros Hs.
  destruct (parse_with self s) as [ds0 | e] eqn:Hp.
  2:{ destruct (parse_Raise _ _ _ _ _ Hs Hp) as [k ->].
      exists (Raise (ProductCodeError (Some (invalid_here self k)))).
      split; [exact (init_parse_Raise s k Hp) | now apply fail_invalid]. }
  destruct (le_lt_dec 2 (count_None ds0)) as [H2 | H2].
  { exists (Raise (ProductCodeError (Some (too_many self)))).
    split; [exact (ProductCode_init_too_many self s ds0 Hp H2) |].
    now apply fail_too_many with ds0. }
  destruct (Nat.eq_dec (length ds0) (length w)) as [Hlen | Hlen].
  2:{ exists (Raise (ProductCodeError (Some (wrong_number self)))). split.
      - apply init_resolve_Raise with ds0; [exact Hp |].
        apply resolveChecksum_wrong_number; [lia | exact Hlen].
      - apply fail_wrong_number with ds0; auto. lia. }
  assert (Hgo : forall r,
             outcome (resolveChecksum self ds0) (OK r) ->
             (count_None ds0 = 0%nat -> checksum w m ds0 = 0) ->
             hoare (ProductCode_init self s)
                   (fun o => init_post self w m s o /\ init_accepts s)
                   (init_failure s)).
  { intros r Hr Hz.
    destruct (init_after_resolve s ds0 r Hs Hp Hr) as [res [Hres Hd]].
    exists res. split; [exact Hres |].
    destruct (doubled_separator s) eqn:Hdd.
    - subst res. apply fail_separator with ds0; auto. lia.
    - destruct Hd as [o ->]. split.
      + exact (hoare_outcome_OK _ _ _ _
                 (ProductCode_init_hoare self w m Hw Hm Hm0 Hw0 Hi2c s Hs)
                 Hres).
      + exists ds0. repeat split; auto. lia. }
  destruct (Nat.eq_dec (count_None ds0) 0) as [H0 | H0].
  - destruct (Z.eq_dec (checksum w m ds0) 0) as [Hz | Hz].
    + apply (Hgo (None, ds0)); [now apply resolveChecksum_given | auto].
    + exists (Raise (ProductCodeError (Some checksum_error))). split.
      * apply init_resolve_Raise with ds0; [exact Hp |].
        now apply resolveChecksum_checksum_error.
      * now apply fail_checksum with ds0.
  - assert (H1 : count_None ds0 = 1%nat) by lia.
    destruct (resolveChecksum_wildcard ds0 H1 Hlen) as [r Hr].
    apply (Hgo r Hr). intros H. lia.
Qed.

End Precise.

(** The tests of [ProductCode.__init__] exclude one another. *)
Lemma init_failure_fun (self : attrs) (w : list Z) (m : Z) (s : pystr)
    (e e' : exn) :
  init_failure self w m s e -> init_failure self w m s e' -> e = e'.
Proof.
  intros H H'.
  destruct H as [k Hp | ds Hp Hc | ds Hp Hc Hl | ds Hp Hc Hl Hz
                | ds Hp Hc Hl Hz Hd];
    destruct H' as [k' Hp' | ds' Hp' Hc' | ds' Hp' Hc' Hl' | ds' Hp' Hc' Hl' Hz'
                   | ds' Hp' Hc' Hl' Hz' Hd'];
    rewrite Hp in Hp'; try discriminate; injection Hp' as <-;
    try reflexivity; exfalso; try lia; try contradiction; auto.
Qed.

Lemma init_failure_not_accepts (self : attrs) (w : list Z) (m : Z)
    (s : pystr) (e : exn) :
  init_failure self w m s e -> init_accepts self w m s -> False.
Proof.
  intros H [ds' [Hp' [Hc' [Hl' [Hz' Hd']]]]].
  destruct H as [k Hp | ds Hp Hc | ds Hp Hc Hl | ds Hp Hc Hl Hz
                | ds Hp Hc Hl Hz Hd];
    rewrite Hp in Hp'; try discriminate; injection Hp' as <-;
    try lia; try contradiction; try congruence.
Qed.

(** ** The formats *)

(** The largest digit value in the maps of a format. *)
Definition digit_bound (F : format) : Z :=
  match F with
  | F_ISBN10 => 10
  | _ => 9
  end.

Lemma format_good_maps (F : format) :
  good_map (digit_bound F) (firstCharMap (attrs_of F)) /\
  good_map (digit_bound F) (lastCharMap (attrs_of F)) /\
  good_map (digit_bound F) (otherCharMap (attrs_of F)).
Proof. destruct F; repeat split; vm_compute; reflexivity. Qed.

Lemma format_int2char (F : format) (v : Z) :
  0 <= v <= 9 -> outcome (int2char (attrs_of F) v) (OK (pystr_of_Z v)).
Proof.
  intros Hv.
  destruct F; first [now apply ProductCode_int2char_digit
                    | now apply ISBN10_int2char_digit].
Qed.

Lemma format_weights (F : format) :
  F <> F_UPCA ->
  weights (attrs_of F) = Some (weights_of F) /\
  magic (attrs_of F) = Some (modulus_of F) /\
  modulus_of F <> 0 /\ weights_of F <> [].
Proof. destruct F; try congruence; intros _; repeat split; discriminate. Qed.

Lemma format_init_precise (F : format) (s : pystr) :
  F <> F_UPCA -> parsed_string F s <> [] ->
  hoare (ProductCode_init (attrs_of F) (parsed_string F s))
        (fun o =>
           init_post (attrs_of F) (weights_of F) (modulus_of F)
                     (parsed_string F s) o /\
           init_accepts (attrs_of F) (weights_of F) (modulus_of F)
                        (parsed_string F s))
        (init_failure (attrs_of F) (weights_of F) (modulus_of F)
                      (parsed_string F s)).
Proof.
  intros HF Hs.
  destruct (format_weights F HF) as [Hw [Hm [Hm0 Hw0]]].
  destruct (format_good_maps F) as [Hf [Hl Ho]].
  exact (ProductCode_init_precise (attrs_of F) (weights_of F) (modulus_of F)
           (digit_bound F) (digit_bound F) (digit_bound F)
           Hw Hm Hm0 Hw0 (format_int2char F) Hf Hl Ho _ Hs).
Qed.

(** An exception of [ProductCode.__init__] passes through the
    constructor of every class. *)
Lemma construct_init_Raise (F : format) (s : pystr) (e : exn) :
  outcome (ProductCode_init (attrs_of F) (parsed_string F s)) (Raise e) ->
  outcome (construct F s) (Raise e).
Proof.
  intros H. destruct F; cbn [construct attrs_of parsed_string] in *.
  - exact H.
  - unfold EAN13, EAN13_init. now apply outcome_bind_Raise.
  - unfold UPC5. now apply outcome_bind_Raise.
  - unfold ISBN10. now apply outcome_bind_Raise.
  - unfold ISBN13, EAN13_init. now do 2 apply outcome_bind_Raise.
  - unfold ISMN. now apply outcome_bind_Raise.
  - unfold ISMN13, EAN13_init. now do 2 apply outcome_bind_Raise.
Qed.

Lemma outcome_raise_run {A} (c : M A) (msg : pystr) (msgs : msgs_t) :
  outcome c (Raise (ProductCodeError (Some msg))) -> msg <> [] ->
  c msgs = (Raise (ProductCodeError (Some msg)), msgs ++ [msg]).
Proof.
  intros H Hm. rewrite H. destruct msg; [congruence | reflexivity].
Qed.

Lemma parse_OK_nonempty (s : pystr) (f l o : charmap) ds :
  parse s f l o = OK ds -> s <> [].
Proof. intros H ->. discriminate. Qed.

(** A test of [ProductCode.__init__] that fails makes the constructor of
    the class fail with the error of that test. *)
Lemma construct_init_failure (F : format) (s : pystr) (e : exn) :
  F <> F_UPCA -> parsed_string F s <> [] ->
  init_failure (attrs_of F) (weights_of F) (modulus_of F)
               (parsed_string F s) e ->
  outcome (construct F s) (Raise e).
Proof.
  intros HF Hs He. apply construct_init_Raise.
  destruct (format_init_precise F s HF Hs) as [r [Hr Hq]].
  destruct r as [o | e']; cbn [post] in Hq.
  - exfalso. destruct Hq as [_ Hacc].
    exact (init_failure_not_accepts _ _ _ _ _ He Hacc).
  - now rewrite (init_failure_fun _ _ _ _ _ _ He Hq).
Qed.

Lemma invalid_here_nonempty (self : attrs) (k : pystr) :
  invalid_here self k <> [].
Proof. unfold invalid_here. apply nonempty_app_r. discriminate. Qed.

(** X2.  A character that is no key of the map of its position ([parse]
    raises [KeyError]) makes the constructor of every class fail with the
    [ProductCodeError] whose message is the type, the [repr] of the
    character and ["invalid here"]; the message is appended to the shared
    list. *)
Theorem invalid_character (F : format) (s k : pystr) (msgs : msgs_t) :
  parse_slots F s = Raise (KeyError k) ->
  construct F s msgs
  = (Raise (ProductCodeError (Some (invalid_here (attrs_of F) k))),
     msgs ++ [invalid_here (attrs_of F) k]).
Proof.
  intros Hp. apply outcome_raise_run; [| apply invalid_here_nonempty].
  apply construct_init_Raise. now apply init_parse_Raise.
Qed.

Lemma invalid_character_witness :
  ISBN10 (str "0-9669553-0-x7") []
  = (Raise (ProductCodeError (Some (str "ISBN10: 'x' invalid here"))),
     [str "ISBN10: 'x' invalid here"]).
Proof.
  apply (invalid_character F_ISBN10 (str "0-9669553-0-x7") (str "x") []).
  vm_compute. reflexivity.
Defined.

(** X3.  In every class with weights, a string that parses to at most
    one wildcard and to a number of slots other than the number of
    weights fails with ["wrong number of digits"]: the count is tested by
    [remainder], before any checksum. *)
Theorem wrong_number_of_digits (F : format) (s : pystr) (ds : list digit)
    (msgs : msgs_t) :
  F <> F_UPCA -> parse_slots F s = OK ds -> (count_None ds <= 1)%nat ->
  length ds <> length (weights_of F) ->
  construct F s msgs
  = (Raise (ProductCodeError (Some (wrong_number (attrs_of F)))),
     msgs ++ [wrong_number (attrs_of F)]).
Proof.
  intros HF Hp Hc Hl.
  apply outcome_raise_run; [| apply nonempty_app_r; discriminate].
  apply construct_init_failure; [exact HF | |].
  - exact (parse_OK_nonempty _ _ _ _ _ Hp).
  - now apply fail_wrong_number with ds.
Qed.

Lemma wrong_number_of_digits_witness :
  EAN13 (str "0-9669553-0-*") []
  = (Raise (ProductCodeError (Some (str "EAN13: wrong number of digits"))),
     [str "EAN13: wrong number of digits"]).
Proof.
  apply (wrong_number_of_digits F_EAN13 (str "0-9669553-0-*")
           [Some 0; Some 9; Some 6; Some 6; Some 9; Some 5; Some 5; Some 3;
            Some 0; None] []).
  - discriminate.
  - vm_compute. reflexivity.
  - vm_compute. lia.
  - vm_compute. lia.
Defined.

(** X4.  In every class with weights, a string without wildcard that
    parses to the right number of slots and whose weighted sum is not 0
    modulo the modulus fails with ["checksum error"]. *)
Theorem checksum_mismatch (F : format) (s : pystr) (ds : list digit)
    (msgs : msgs_t) :
  F <> F_UPCA -> parse_slots F s = OK ds -> count_None ds = 0%nat ->
  length ds = length (weights_of F) ->
  checksum (weights_of F) (modulus_of F) ds <> 0 ->
  construct F s msgs
  = (Raise (ProductCodeError (Some (checksum_error (attrs_of F)))),
     msgs ++ [checksum_error (attrs_of F)]).
Proof.
  intros HF Hp Hc Hl Hz.
  apply outcome_raise_run; [| apply nonempty_app_r; discriminate].
  apply construct_init_failure; [exact HF | |].
  - exact (parse_OK_nonempty _ _ _ _ _ Hp).
  - now apply fail_checksum with ds.
Qed.

Lemma checksum_mismatch_witness :
  ISBN10 (str "0-9669553-0-8") []
  = (Raise (ProductCodeError (Some (str "ISBN10: checksum error"))),
     [str "ISBN10: checksum error"]).
Proof.
  apply (checksum_mismatch F_ISBN10 (str "0-9669553-0-8")
           [Some 0; Some 9; Some 6; Some 6; Some 9; Some 5; Some 5; Some 3;
            Some 0; Some 8] []).
  - discriminate.
  - vm_compute. reflexivity.
  - reflexivity.
  - reflexivity.
  - vm_compute. discriminate.
Defined.

(** X5.  In every class with weights, a string that passes the parse, the
    count of wildcards and of slots and the checksum, and that holds two
    dashes or two spaces in a row, fails in [realityCheck] with the one
    message ["Repeated seperator"]. *)
Theorem repeated_separator_rejected (F : format) (s : pystr)
    (ds : list digit) (msgs : msgs_t) :
  F <> F_UPCA -> parse_slots F s = OK ds -> (count_None ds <= 1)%nat ->
  length ds = length (weights_of F) ->
  (count_None ds = 0%nat ->
   checksum (weights_of F) (modulus_of F) ds = 0) ->
  doubled_separator (parsed_string F s) = true ->
  construct F s msgs
  = (Raise (ProductCodeError (Some (repeated_separator (attrs_of F)))),
     msgs ++ [repeated_separator (attrs_of F)]).
Proof.
  intros HF Hp Hc Hl Hz Hd.
  apply outcome_raise_run; [| apply nonempty_app_r; discriminate].
  apply construct_init_failure; [exact HF | |].
  - exact (parse_OK_nonempty _ _ _ _ _ Hp).
  - now apply fail_separator with ds.
Qed.

Lemma repeated_separator_rejected_witness :
  ISBN13 (str "978-0-9669553--0-*") []
  = (Raise (ProductCodeError (Some (str "ISBN13: Repeated seperator"))),
     [str "ISBN13: Repeated seperator"]).
Proof.
  apply (repeated_separator_rejected F_ISBN13 (str "978-0-9669553--0-*")
           [Some 9; Some 7; Some 8; Some 0; Some 9; Some 6; Some 6; Some 9;
            Some 5; Some 5; Some 3; Some 0; None] []).
  - discriminate.
  - vm_compute. reflexivity.
  - vm_compute. lia.
  - reflexivity.
  - vm_compute. discriminate.
  - vm_compute. reflexivity.
Defined.

(** * Further properties: the strings each class accepts *)

(** When the first step of a constructor has returned and the rest
    leaves the message list alone, the constructor returns: an error of
    its own would have left its message. *)
Lemma tail_returns {A B} (c : M A) (f : A -> M B) (Q : B -> Prop) (a : A) :
  hoare (bind c f) Q pce -> outcome c (OK a) ->
  (forall msgs, snd (f a msgs) = msgs) ->
  exists b, outcome (bind c f) (OK b) /\ Q b.
Proof.
  intros [r [Hr Hq]] Ha Hf. destruct r as [b | e].
  - now exists b.
  - exfalso. destruct Hq as [ch [x ->]]. specialize (Hr []). unfold bind in Hr.
    rewrite (Ha []) in Hr. cbn [emitted app] in Hr.
    specialize (Hf []). rewrite Hr in Hf. discriminate.
Qed.

Lemma EAN13_init_precise (ty lb s : pystr) :
  s <> [] ->
  hoare (EAN13_init ty lb s)
        (fun o => EAN13_post ty lb s o /\
                  init_accepts (EAN13_attrs ty lb) EAN13_weights 10 s)
        (init_failure (EAN13_attrs ty lb) EAN13_weights 10 s).
Proof.
  intros Hs.
  assert (Hm0 : 10 <> 0) by discriminate.
  assert (Hw0 : EAN13_weights <> []) by discriminate.
  destruct (ProductCode_init_precise (EAN13_attrs ty lb) EAN13_weights 10
              9 9 9 eq_refl eq_refl Hm0 Hw0 (ProductCode_int2char_digit ty)
              good_UPC_firstCharMap good_UPC_lastCharMap
              good_UPC_otherCharMap s Hs) as [r [Hr Hq]].
  destruct r as [o0 | e]; cbn [post] in Hq.
  - destruct Hq as [Hpost Hacc].
    destruct (hoare_outcome_OK _ _ _ _ (EAN13_base_hoare ty lb s Hs) Hr)
      as [_ [Hdec Hlen]].
    pose proof (EAN13_init_outcome ty lb s o0 Hr Hdec Hlen) as Hout.
    eexists. split; [exact Hout |]. split; [| exact Hacc].
    exact (hoare_outcome_OK _ _ _ _ (EAN13_init_hoare ty lb s Hs) Hout).
  - exists (Raise e). split; [| exact Hq].
    unfold EAN13_init, UPCA_init, UPC_init. now apply outcome_bind_Raise.
Qed.

(** The prefix test of [ISBN13] and [ISMN13]; [EAN13] has none. *)
Definition prefix_test (F : format) (s : pystr) : bool :=
  match F with
  | F_ISBN13 => prefix_ok s (str "9*") (str "7*") (str "89*")
  | F_ISMN13 => prefix_ok s (str "9*") (str "7*") (str "9*")
  | _ => true
  end.

Lemma EAN13_family_outcome (F : format) (s : pystr) :
  In F [F_EAN13; F_ISBN13; F_ISMN13] -> s <> [] ->
  exists r,
    outcome (construct F s) r /\
    match r with
    | OK c => init_accepts (attrs_of F) EAN13_weights 10 s /\
              prefix_test F s = true
    | Raise e =>
        init_failure (attrs_of F) EAN13_weights 10 s e \/
        init_accepts (attrs_of F) EAN13_weights 10 s /\
        prefix_test F s = false
    end.
Proof.
  intros HF Hs.
  assert (Hpre : forall ty lb p0 p1 p2 msg,
             exists r,
               outcome (prefixed ty lb p0 p1 p2 msg s) r /\
               match r with
               | OK c => init_accepts (EAN13_attrs ty lb) EAN13_weights 10 s /\
                         prefix_ok s p0 p1 p2 = true
               | Raise e =>
                   init_failure (EAN13_attrs ty lb) EAN13_weights 10 s e \/
                   init_accepts (EAN13_attrs ty lb) EAN13_weights 10 s /\
                   prefix_ok s p0 p1 p2 = false
               end).
  { intros ty lb p0 p1 p2 msg.
    destruct (EAN13_init_precise ty lb s Hs) as [r [Hr Hq]].
    destruct r as [o | e]; cbn [post] in Hq.
    - destruct Hq as [_ Hacc].
      pose proof (prefixed_outcome ty lb p0 p1 p2 msg s o Hs Hr) as Hout.
      eexists. split; [exact Hout |].
      destruct (prefix_ok s p0 p1 p2); auto.
    - exists (Raise e). split; [| now left].
      unfold prefixed. now apply outcome_bind_Raise. }
  cbn in HF. destruct HF as [<- | [<- | [<- | []]]].
  - destruct (EAN13_init_precise (str "EAN13") (str "EAN13") s Hs)
      as [r [Hr Hq]].
    exists r. split; [exact Hr |].
    destruct r as [o | e]; cbn [post] in Hq; [| now left].
    split; [apply Hq | reflexivity].
  - apply Hpre.
  - apply Hpre.
Qed.

(** X6.  The strings that [EAN13], [ISBN13] and [ISMN13] accept: the
    constructor returns exactly when every character is a key of the map
    of its position, at most one slot is a wildcard, there are 13 slots,
    the EAN-13 checksum holds when no slot is a wildcard, no separator is
    doubled, and the first three characters pass the prefix test of the
    class. *)
Theorem EAN13_family_accepted (F : format) (s : pystr) (msgs : msgs_t) :
  In F [F_EAN13; F_ISBN13; F_ISMN13] ->
  (exists c msgs', construct F s msgs = (OK c, msgs')) <->
  init_accepts (attrs_of F) EAN13_weights 10 s /\ prefix_test F s = true.
Proof.
  intros HF. destruct s as [| ch s].
  { split.
    - intros [c [msgs' H]]. exfalso.
      cbn in HF. destruct HF as [<- | [<- | [<- | []]]]; discriminate H.
    - intros [[ds [Hp _]] _]. discriminate Hp. }
  assert (Hs : ch :: s <> []) by discriminate.
  destruct (EAN13_family_outcome F _ HF Hs) as [r [Hr Hq]].
  split.
  - intros [c [msgs' H]]. rewrite Hr in H. destruct r as [o | e].
    + exact Hq.
    + discriminate H.
  - intros [Hacc Hpre]. destruct r as [o | e].
    + exists o, (msgs ++ []). apply Hr.
    + exfalso. destruct Hq as [Hq | [_ Hq]].
      * exact (init_failure_not_accepts _ _ _ _ _ Hq Hacc).
      * congruence.
Qed.

Lemma EAN13_family_accepted_witness :
  exists c msgs', ISBN13 (str "978-0-9669553-0-*") [] = (OK c, msgs').
Proof.
  apply (EAN13_family_accepted F_ISBN13 (str "978-0-9669553-0-*") []).
  - right. now left.
  - split; [| reflexivity].
    exists [Some 9; Some 7; Some 8; Some 0; Some 9; Some 6; Some 6; Some 9;
            Some 5; Some 5; Some 3; Some 0; None].
    split; [vm_compute; reflexivity |]. split; [vm_compute; lia |].
    split; [reflexivity |]. split; [| vm_compute; reflexivity].
    vm_compute. discriminate.
Defined.

(** A decimal digit character and its value. *)
Definition is_digit (c : ascii) : bool :=
  let n := nat_of_ascii c in ((48 <=? n) && (n <=? 57))%nat.

Definition digit_value (c : ascii) : Z := Z.of_nat (nat_of_ascii c - 48).

Lemma digit_slot (c : ascii) :
  is_digit c = true -> slot (makeCharMap []) c = OK [Some (digit_value c)].
Proof.
  revert c.
  assert (H : forallb
                (fun c => if is_digit c
                          then match slot (makeCharMap []) c with
                               | OK [Some n] => n =? digit_value c
                               | _ => false
                               end
                          else true) all_ascii = true)
    by (vm_compute; reflexivity).
  intros c Hc. pose proof (forall_ascii _ H c) as Hb. cbv beta in Hb.
  rewrite Hc in Hb.
  destruct (slot (makeCharMap []) c) as [[| [n |] [| ? ?]] |];
    try discriminate.
  apply Z.eqb_eq in Hb. now subst.
Qed.

Lemma digit_slots (y : pystr) :
  forallb is_digit y = true ->
  slots (makeCharMap []) y = OK (map (fun c => Some (digit_value c)) y).
Proof.
  induction y as [| c y IH]; [reflexivity |]. cbn [forallb].
  intros H. apply andb_prop in H. destruct H as [Hc Hy].
  cbn [slots]. rewrite (digit_slot c Hc), (IH Hy). reflexivity.
Qed.

Lemma is_digit_digit_char (v : Z) :
  0 <= v <= 9 -> is_digit (digit_char v) = true.
Proof. intros Hv. digit_cases v; reflexivity. Qed.

Lemma prefix_b_In (a : ascii) (p x : pystr) :
  prefix_b (a :: p) x = true -> In a x.
Proof.
  destruct x as [| b x]; cbn [prefix_b]; [discriminate |].
  intros H. apply andb_prop in H. destruct H as [H _].
  apply Ascii.eqb_eq in H. subst. now left.
Qed.

Lemma substring_b_In (a : ascii) (p x : pystr) :
  substring_b (a :: p) x = true -> In a x.
Proof.
  induction x as [| b x IH].
  - cbn. discriminate.
  - cbn [substring_b]. intros H. apply orb_prop in H. destruct H as [H | H].
    + now apply prefix_b_In in H.
    + right. now apply IH.
Qed.

Lemma doubled_separator_In (x : pystr) :
  doubled_separator x = true -> In "-"%char x \/ In " "%char x.
Proof.
  unfold doubled_separator. intros H. apply orb_prop in H.
  destruct H as [H | H]; apply substring_b_In in H; auto.
Qed.

Lemma count_None_digits (y : pystr) :
  count_None (map (fun c => Some (digit_value c)) y) = 0%nat.
Proof. induction y as [| c y IH]; [reflexivity | exact IH]. Qed.

(** The rest of [UPC5.__init__] raises no error of its own. *)
Lemma UPC5_returns (s : pystr) (o0 : instance) :
  outcome (ProductCode_init UPC5_attrs (s ++ str "*")) (OK o0) ->
  exists c, outcome (UPC5 s) (OK c).
Proof.
  intros Hinit.
  destruct (tail_returns (ProductCode_init UPC5_attrs (s ++ str "*"))
              _ (UPC5_post s) o0 (UPC5_hoare s) Hinit) as [c [Hc _]].
  - intros msgs. cbv beta. unfold bind, lift, ret.
    repeat match goal with
           | |- context [match ?x with _ => _ end] => destruct x
           end; reflexivity.
  - now exists c.
Qed.

(** X7.  The strings [UPC5] accepts are the strings of five decimal
    digits: no separator, no wildcard, no other length. *)
Theorem UPC5_accepted (s : pystr) (msgs : msgs_t) :
  (exists c msgs', UPC5 s msgs = (OK c, msgs')) <->
  length s = 5%nat /\ forallb is_digit s = true.
Proof.
  split.
  - intros [c [msgs' Hrun]].
    apply (hoare_run_OK _ _ _ _ _ _ (UPC5_hoare s)) in Hrun.
    apply UPC5_post_addon in Hrun.
    destruct Hrun as [d1 [d2 [d3 [d4 [d5 [v [p1 [p2 [p3 [p4 [p5 H]]]]]]]]]]].
    destruct H as [Hd [-> _]].
    split; [reflexivity |].
    inversion Hd as [| ? ? H1 Hd1]; subst.
    inversion Hd1 as [| ? ? H2 Hd2]; subst.
    inversion Hd2 as [| ? ? H3 Hd3]; subst.
    inversion Hd3 as [| ? ? H4 Hd4]; subst.
    inversion Hd4 as [| ? ? H5 Hd5]; subst.
    cbn [map forallb]. now rewrite !is_digit_digit_char.
  - intros [Hlen Hdig].
    destruct s as [| ch y]; [discriminate |].
    assert (Hp : parse_with UPC5_attrs ((ch :: y) ++ str "*")
                 = OK (map (fun c => Some (digit_value c)) (ch :: y)
                       ++ [None])).
    { unfold parse_with.
      change ((ch :: y) ++ str "*") with (ch :: y ++ [star]).
      rewrite parse_more.
      cbn [forallb] in Hdig. apply andb_prop in Hdig.
      destruct Hdig as [Hch Hy].
      change (firstCharMap UPC5_attrs) with (makeCharMap []).
      change (otherCharMap UPC5_attrs) with (makeCharMap []).
      rewrite (digit_slot ch Hch), (digit_slots y Hy). cbn [rbind].
      change (slot (lastCharMap UPC5_attrs) star) with (@OK (list digit) [None]).
      reflexivity. }
    assert (Hacc : init_accepts UPC5_attrs (weights_of F_UPC5)
                     (modulus_of F_UPC5) (parsed_string F_UPC5 (ch :: y))).
    { eexists. split; [exact Hp |].
      rewrite count_None_app, count_None_digits, length_app, length_map, Hlen.
      split; [cbn; lia |]. split; [reflexivity |].
      split; [cbn; intros H; discriminate H |].
      destruct (doubled_separator (parsed_string F_UPC5 (ch :: y))) eqn:Hd;
        [| reflexivity].
      exfalso. apply doubled_separator_In in Hd.
      cbn [parsed_string] in Hd. rewrite !in_app_iff in Hd.
      rewrite forallb_forall in Hdig.
      destruct Hd as [[Hd | Hd] | [Hd | Hd]].
      - apply Hdig in Hd. discriminate Hd.
      - cbn in Hd. destruct Hd as [Hd | []]. discriminate Hd.
      - apply Hdig in Hd. discriminate Hd.
      - cbn in Hd. destruct Hd as [Hd | []]. discriminate Hd. }
    assert (HF : F_UPC5 <> F_UPCA) by discriminate.
    assert (Hs : parsed_string F_UPC5 (ch :: y) <> []) by discriminate.
    destruct (format_init_precise F_UPC5 (ch :: y) HF Hs) as [r [Hr Hq]].
    destruct r as [o0 | e]; cbn [post] in Hq.
    + destruct (UPC5_returns (ch :: y) o0 Hr) as [c Hc].
      exists c, (msgs ++ []). apply Hc.
    + exfalso. exact (init_failure_not_accepts _ _ _ _ _ Hq Hacc).
Qed.

(** * Further properties: [UPCA], the exceptions, the invariants *)

Lemma resolveChecksum_AttributeError (self : attrs) (ds : list digit) :
  weights self = None -> (count_None ds <= 1)%nat ->
  outcome (resolveChecksum self ds) (Raise AttributeError).
Proof.
  intros Hw Hc. unfold resolveChecksum.
  destruct (Nat.eqb_spec (count_None ds) 0) as [H0 | H0].
  - apply outcome_bind_Raise. unfold remainder. rewrite Hw.
    apply outcome_getattr_None.
  - destruct (Nat.eqb_spec (count_None ds) 1) as [H1 | H1]; [| lia].
    destruct (count_None_one ds H1) as [pre [rest [-> [_ [_ Hi]]]]].
    eapply outcome_bind_OK; [apply outcome_lift_OK, Hi |].
    cbn [range seq map resolve_loop].
    apply outcome_bind_Raise. unfold remainder. rewrite Hw.
    apply outcome_getattr_None.
Qed.

(** X8.  [UPCA] cannot be constructed: its [__init__] sets no weights
    (the assignments are commented out), so a string that parses, with at
    most one wildcard, fails in [remainder] with [AttributeError], which
    is no [ProductCodeError] and leaves no message; and no string at all
    is accepted. *)
Theorem UPCA_unusable (s : pystr) (ds : list digit) (msgs : msgs_t) :
  parse_slots F_UPCA s = OK ds -> (count_None ds <= 1)%nat ->
  UPCA s msgs = (Raise AttributeError, msgs) /\
  forall s' msgs0 c msgs', UPCA s' msgs0 <> (OK c, msgs').
Proof.
  intros Hp Hc. split.
  - assert (H : outcome (UPCA s) (Raise AttributeError)).
    { unfold UPCA, UPCA_init, UPC_init.
      apply (init_resolve_Raise UPCA_attrs s ds); [exact Hp |].
      now apply resolveChecksum_AttributeError. }
    rewrite H. cbn [emitted]. now rewrite app_nil_r.
  - intros s' msgs0 c msgs' H.
    exact (hoare_run_OK _ _ _ _ _ _ (UPCA_quiet s') H).
Qed.

Lemma UPCA_unusable_witness :
  UPCA (str "036000291452") [] = (Raise AttributeError, []) /\
  forall s' msgs0 c msgs', UPCA s' msgs0 <> (OK c, msgs').
Proof.
  apply (UPCA_unusable (str "036000291452")
           (map Some [0; 3; 6; 0; 0; 0; 2; 9; 1; 4; 5; 2]) []).
  - vm_compute. reflexivity.
  - vm_compute. lia.
Defined.

Lemma construct_pce (F : format) (s : pystr) :
  F <> F_UPCA -> parsed_string F s <> [] ->
  hoare (construct F s) (fun _ => True) pce.
Proof.
  intros HF Hs. destruct F; cbn [construct parsed_string] in *.
  - congruence.
  - eapply hoare_conseq; [now apply EAN13_hoare | auto | auto].
  - eapply hoare_conseq; [apply UPC5_hoare | auto | auto].
  - eapply hoare_conseq; [now apply ISBN10_hoare | auto | auto].
  - eapply hoare_conseq; [now apply ISBN13_hoare | auto | auto].
  - eapply hoare_conseq; [now apply ISMN_hoare | auto | auto].
  - eapply hoare_conseq; [now apply ISMN13_hoare | auto | auto].
Qed.

(** X9.  On a non-empty string (for [UPC5], on every string) the
    constructor of a class with weights either returns, leaving the
    shared message list as it was, or raises a [ProductCodeError] with a
    non-empty message, which it appends to the list: no [KeyError],
    [IndexError], [TypeError] or other exception escapes, whatever the
    characters of the string. *)
Theorem only_ProductCodeError (F : format) (s : pystr) (msgs : msgs_t) :
  F <> F_UPCA -> parsed_string F s <> [] ->
  (exists c, construct F s msgs = (OK c, msgs)) \/
  (exists msg,
      msg <> [] /\
      construct F s msgs
      = (Raise (ProductCodeError (Some msg)), msgs ++ [msg])).
Proof.
  intros HF Hs. destruct (construct_pce F s HF Hs) as [r [Hr Hq]].
  destruct r as [c | e]; cbn [post] in Hq.
  - left. exists c. rewrite Hr. cbn [emitted]. now rewrite app_nil_r.
  - right. destruct Hq as [ch [x ->]]. exists (ch :: x).
    split; [discriminate | apply Hr].
Qed.

Lemma only_ProductCodeError_witness :
  (exists c, ISMN (str "M-345-24680-5") [] = (OK c, [])) \/
  (exists msg,
      msg <> [] /\
      ISMN (str "M-345-24680-5") []
      = (Raise (ProductCodeError (Some msg)), [] ++ [msg])).
Proof.
  apply (only_ProductCodeError F_ISMN (str "M-345-24680-5") []);
    discriminate.
Defined.

(** What every constructed instance satisfies. *)
Definition well_formed (F : format) (x : pystr) (c : instance) : Prop :=
  length (digits c) = length (weights_of F) /\
  Forall (decimal (digit_bound F)) (digits c) /\
  getitem (digits c) (-1) = OK (checkDigit c) /\
  givenString c = x /\
  self_type c = type (attrs_of F) /\ self_label c = label (attrs_of F) /\
  (F <> F_ISBN10 ->
   checksum (weights_of F) (modulus_of F) (digits c) = 0).

Lemma format_units (F : format) :
  F <> F_UPCA -> F <> F_ISBN10 ->
  Forall (fun a => In a units10) (weights_of F).
Proof.
  destruct F; try congruence; intros _ _.
  - exact EAN13_units.
  - exact UPC5_units.
  - exact EAN13_units.
  - exact ISMN_units.
  - exact EAN13_units.
Qed.

Lemma init_post_well_formed (F : format) (x : pystr) (o : instance) :
  F <> F_UPCA ->
  init_post (attrs_of F) (weights_of F) (modulus_of F) x o ->
  well_formed F x o.
Proof.
  intros HF [ds0 [i [Hp [Hl [Hres [_ [_ [Hcd [Hg [Hty [Hlb _]]]]]]]]]]].
  destruct (format_good_maps F) as [Hf [Hlm Ho]].
  assert (Hb : 9 <= digit_bound F) by (destruct F; cbn; lia).
  destruct (resolution_decimal _ _ _ _ _ _ Hb Hres
              (parse_bounded _ _ _ _ _ _ Hf Hlm Ho Hp)) as [Hdec _].
  repeat split; auto.
  - rewrite (resolution_length _ _ _ _ _ Hres). exact Hl.
  - intros H10.
    assert (Hm : modulus_of F = 10)
      by (destruct F; try congruence; reflexivity).
    rewrite Hm in *.
    now destruct (resolution_mod10 _ _ _ _ (format_units F HF H10) Hl Hres).
Qed.

Lemma well_formed_set_bits (F : format) (x : pystr) (o : instance) b :
  well_formed F x o -> well_formed F x (set_bits o b).
Proof. intros H. exact H. Qed.

Lemma well_formed_set_s (F : format) (x : pystr) (o : instance) y :
  well_formed F x o -> well_formed F x (set_s o y).
Proof. intros H. exact H. Qed.

(** X10.  What every constructed instance satisfies, whatever its class:
    it has as many digits as the class has weights, each a number from 0
    to 9 (to 10 for ISBN-10), none a wildcard; its check digit is its
    last digit; it keeps the string it was given ([UPC5] with its star);
    it has a bit pattern; the shared message list is as before; and, but
    for ISBN-10, its digits satisfy the checksum equation, since every
    weight of a modulus-10 class is prime to 10 and the scan of 0..9
    always finds the digit. *)
Theorem constructed_well_formed (F : format) (s : pystr) msgs c msgs' :
  construct F s msgs = (OK c, msgs') ->
  msgs' = msgs /\ well_formed F (parsed_string F s) c /\
  count_None (digits c) = 0%nat /\ exists b, bits c = Some b.
Proof.
  intros Hrun.
  assert (Hcount : forall hi ds, Forall (decimal hi) ds ->
                                 count_None ds = 0%nat).
  { intros hi ds H. induction H as [| d ds [n [-> _]] _ IH];
      [reflexivity | exact IH]. }
  destruct (hoare_OK _ _ _ _ _ _ (construct_quiet F s) Hrun) as [_ [-> _]].
  split; [reflexivity |].
  assert (Hwf : well_formed F (parsed_string F s) c /\
                exists b, bits c = Some b).
  { assert (Hs : F <> F_UPC5 -> s <> []).
    { intros _ ->. destruct F; discriminate Hrun. }
    destruct F; cbn [construct parsed_string] in *.
    - now apply (hoare_run_OK _ _ _ _ _ _ (UPCA_quiet s)) in Hrun.
    - apply (hoare_run_OK _ _ _ _ _ _
               (EAN13_hoare s (Hs ltac:(discriminate)))) in Hrun.
      destruct Hrun as [o [Hpost [_ [_ ->]]]]. split; [| now eexists].
      apply well_formed_set_bits.
      now apply (init_post_well_formed F_EAN13).
    - apply (hoare_run_OK _ _ _ _ _ _ (UPC5_hoare s)) in Hrun.
      destruct Hrun as [o [Hpost [_ [_ ->]]]]. split; [| now eexists].
      apply well_formed_set_bits, well_formed_set_s.
      now apply (init_post_well_formed F_UPC5).
    - apply (hoare_run_OK _ _ _ _ _ _
               (ISBN10_hoare s (Hs ltac:(discriminate)))) in Hrun.
      destruct Hrun as [o [o13 [b [Hpost [_ [_ [_ [_ ->]]]]]]]].
      split; [| now eexists].
      apply well_formed_set_bits.
      now apply (init_post_well_formed F_ISBN10).
    - apply (hoare_run_OK _ _ _ _ _ _
               (ISBN13_hoare s (Hs ltac:(discriminate)))) in Hrun.
      destruct Hrun as [[o [Hpost [_ [_ ->]]]] _]. split; [| now eexists].
      apply well_formed_set_bits.
      now apply (init_post_well_formed F_ISBN13).
    - apply (hoare_run_OK _ _ _ _ _ _
               (ISMN_hoare s (Hs ltac:(discriminate)))) in Hrun.
      destruct Hrun as [o [o13 [b [Hpost [_ [_ [_ [_ ->]]]]]]]].
      split; [| now eexists].
      apply well_formed_set_bits.
      now apply (init_post_well_formed F_ISMN).
    - apply (hoare_run_OK _ _ _ _ _ _
               (ISMN13_hoare s (Hs ltac:(discriminate)))) in Hrun.
      destruct Hrun as [[o [Hpost [_ [_ ->]]]] _]. split; [| now eexists].
      apply well_formed_set_bits.
      now apply (init_post_well_formed F_ISMN13). }
  destruct Hwf as [Hwf Hb]. split; [exact Hwf |]. split; [| exact Hb].
  destruct Hwf as [_ [Hdec _]]. exact (Hcount _ _ Hdec).
Qed.

Definition sample_ISMN : instance :=
  Eval vm_compute in returned (ISMN (str "M-345-24680-5")).

Lemma constructed_well_formed_witness :
  [] = @nil pystr /\ well_formed F_ISMN (str "M-345-24680-5") sample_ISMN /\
  count_None (digits sample_ISMN) = 0%nat /\
  exists b, bits sample_ISMN = Some b.
Proof.
  apply (constructed_well_formed F_ISMN (str "M-345-24680-5") []
           sample_ISMN []).
  vm_compute. reflexivity.
Defined.

(** * Further properties: ISMN and its EAN-13 form *)

Lemma ISMN_first_slot (c : ascii) (a : list digit) :
  slot (firstCharMap ISMN_attrs) c = OK a -> c = "M"%char /\ a = [Some 3].
Proof.
  revert c a.
  assert (H : forallb
                (fun c => match slot (firstCharMap ISMN_attrs) c with
                          | OK [Some n] => Ascii.eqb c "M" && (n =? 3)
                          | OK _ => false
                          | Raise _ => true
                          end) all_ascii = true)
    by (vm_compute; reflexivity).
  intros c a Ha. pose proof (forall_ascii _ H c) as Hb. cbv beta in Hb.
  rewrite Ha in Hb. destruct a as [| [n |] [| ? ?]]; try discriminate.
  apply andb_prop in Hb. destruct Hb as [Hc Hn].
  apply Ascii.eqb_eq in Hc. apply Z.eqb_eq in Hn. now subst.
Qed.

Lemma UPC_other_in_ISMN_other :
  submap UPC_otherCharMap (otherCharMap ISMN_attrs).
Proof. vm_compute. reflexivity. Qed.

Lemma one_slot_ISMN_last : one_slot (lastCharMap ISMN_attrs).
Proof. vm_compute. reflexivity. Qed.

(** The slots of the string [ISMN.as13] builds around the body [y]. *)
Lemma ISMN_as13_parse (y : pystr) :
  parse (str "979-0" ++ y ++ str "*") UPC_firstCharMap UPC_lastCharMap
        UPC_otherCharMap
  = (ry <~ slots UPC_otherCharMap y ;;
     OK ([Some 9; Some 7; Some 9; Some 0] ++ ry ++ [None])).
Proof.
  change (str "979-0" ++ y ++ str "*")
    with ("9"%char :: (str "79-0" ++ y) ++ [star]).
  rewrite parse_more.
  change (slot UPC_firstCharMap "9") with (@OK (list digit) [Some 9]).
  cbn [rbind].
  change (slots UPC_otherCharMap (str "79-0" ++ y))
    with (a <~ slot UPC_otherCharMap "7" ;;
          r <~ (a <~ slot UPC_otherCharMap "9" ;;
                r <~ (a <~ slot UPC_otherCharMap "-" ;;
                      r <~ (a <~ slot UPC_otherCharMap "0" ;;
                            r <~ slots UPC_otherCharMap y ;; OK (a ++ r)) ;;
                      OK (a ++ r)) ;;
                OK (a ++ r)) ;;
          OK (a ++ r)).
  change (slot UPC_otherCharMap "7") with (@OK (list digit) [Some 7]).
  change (slot UPC_otherCharMap "9") with (@OK (list digit) [Some 9]).
  change (slot UPC_otherCharMap "-") with (@OK (list digit) []).
  change (slot UPC_otherCharMap "0") with (@OK (list digit) [Some 0]).
  cbn [rbind].
  destruct (slots UPC_otherCharMap y) as [ry |]; cbn [rbind app];
    [| reflexivity].
  change (slot UPC_lastCharMap star) with (@OK (list digit) [None]).
  reflexivity.
Qed.

(** The maps of [UPC] know no space. *)
Lemma UPC_slots_no_space (y : pystr) (r : list digit) :
  slots UPC_otherCharMap y = OK r -> ~ In " "%char y.
Proof.
  revert r. induction y as [| c y IH]; intros r Hr; [intros [] |].
  cbn [slots] in Hr.
  destruct (slot UPC_otherCharMap c) as [a |] eqn:Hc; cbn [rbind] in Hr;
    [| discriminate].
  destruct (slots UPC_otherCharMap y) as [r' |]; cbn [rbind] in Hr;
    [| discriminate].
  intros [-> | Hin].
  - vm_compute in Hc. discriminate.
  - exact (IH r' eq_refl Hin).
Qed.

Lemma checksum_shift (x y : Z) : (x + 10 * y) mod 10 = x mod 10.
Proof. rewrite Z.mul_comm. apply Z_mod_plus_full. Qed.

(** The ISMN-13 [c13] that [as13] makes of the ISMN [c]: 9, 7, 9, 0 take
    the place of the 3 that stands for the M, the other digits are kept,
    the check digit included. *)
Definition ISMN_conversion (c c13 : instance) : Prop :=
  exists body cd,
    digits c = Some 3 :: body ++ [Some cd] /\ length body = 8%nat /\
    digits c13 = [Some 9; Some 7; Some 9; Some 0] ++ body ++ [Some cd] /\
    0 <= cd <= 9 /\
    checkDigit c = Some cd /\ checkDigit c13 = Some cd /\
    self_s c13
    = str "979-0" ++ slice (self_s c) (Some 1) (Some (-1))
      ++ [digit_char cd] /\
    self_type c13 = str "ISMN13" /\ bits c = bits c13 /\
    ~ In " "%char (self_s c).

Lemma decimal_count (hi : Z) (ds : list digit) :
  Forall (decimal hi) ds -> count_None ds = 0%nat.
Proof.
  intros H. induction H as [| d ds [n [-> _]] _ IH]; [reflexivity | exact IH].
Qed.

Lemma ISMN_post_conversion (s : pystr) (c : instance) :
  ISMN_post s c ->
  exists c13, outcome (ISMN_as13 c) (OK c13) /\ ISMN_conversion c c13.
Proof.
  intros [o0 [o13 [b [Hinit [Hdec [Hout [H13 [Hbits ->]]]]]]]].
  exists o13. split; [exact Hout |].
  pose proof (decimal_count _ _ Hdec) as Hc0.
  (* the checksum of the ISMN holds *)
  assert (Hz : checksum ISMN_weights 10 (digits o0) = 0).
  { destruct Hinit as [ds0 [i [_ [Hl [Hres _]]]]].
    now destruct (resolution_mod10 _ _ _ _ ISMN_units Hl Hres). }
  (* the normalized string of the ISMN and its slots *)
  destruct (init_post_final ISMN_attrs ISMN_weights 10 9 9 9
              good_ISMN_firstCharMap good_ISMN_lastCharMap
              good_ISMN_otherCharMap s o0 Hinit)
    as [ds1 [Hp1 [Hfinal [Hup [_ Hl1]]]]].
  assert (Heq : ds1 = digits o0).
  { inversion Hfinal as [| pre rest Hdo _ _ Hno]; [reflexivity |].
    exfalso. apply (Hno 9); [lia |]. now rewrite <- Hdo. }
  subst ds1. clear Hfinal. unfold parse_with in Hp1.
  destruct (pystr_shape (self_s o0)) as [Hs0 | [[c0 Hs0] | [c0 [y [d Hs0]]]]];
    rewrite Hs0 in Hp1.
  { discriminate. }
  { rewrite parse_one in Hp1.
    destruct (slot _ c0) as [a |] eqn:Ha; cbn [rbind] in Hp1; [| discriminate].
    destruct (slot (lastCharMap ISMN_attrs) c0) as [bl |] eqn:Hbl;
      cbn [rbind] in Hp1; [| discriminate].
    injection Hp1 as Hp1. rewrite <- Hp1, length_app in Hl1.
    apply slot_length in Ha, Hbl. cbn in Hl1. lia. }
  rewrite parse_more in Hp1.
  destruct (slot (firstCharMap ISMN_attrs) c0) as [a |] eqn:Ha;
    cbn [rbind] in Hp1; [| discriminate].
  destruct (slots (otherCharMap ISMN_attrs) y) as [r |] eqn:Hr;
    cbn [rbind] in Hp1; [| discriminate].
  destruct (slot (lastCharMap ISMN_attrs) d) as [bl |] eqn:Hbl;
    cbn [rbind] in Hp1; [| discriminate].
  injection Hp1 as Hp1.
  destruct (ISMN_first_slot _ _ Ha) as [-> ->].
  pose proof (one_slot_length _ _ _ one_slot_ISMN_last Hbl) as Hbl1.
  rewrite <- Hp1 in Hc0, Hl1, Hz, Hdec.
  rewrite !count_None_app in Hc0.
  assert (Hcr : count_None r = 0%nat) by lia.
  destruct bl as [| [cd |] [| ? ?]]; try discriminate.
  2:{ rewrite count_None_cons_None in Hc0. lia. }
  assert (Hcd : 0 <= cd <= 9).
  { rewrite !Forall_app in Hdec. destruct Hdec as [_ [_ Hdec]].
    inversion Hdec as [| ? ? [n [Hn1 Hn]] _].
    injection Hn1 as Hn1. lia. }
  assert (Hlr : length r = 8%nat).
  { rewrite !length_app in Hl1. cbn in Hl1. lia. }
  (* the ISMN-13 built by as13 *)
  destruct H13 as [[o' [Hinit' [Hdec' [Hlen' ->]]]] _].
  unfold ISMN_as13_string in Hinit'. rewrite Hs0 in Hinit'.
  rewrite slice_interior in Hinit'.
  destruct Hinit' as [ds13 [i13 [Hp13 [Hl13 [Hres13 [Hs13 [_ [Hcd13 [_ [Hty _]]]]]]]]]].
  cbn [firstCharMap lastCharMap otherCharMap EAN13_attrs] in Hp13.
  rewrite ISMN_as13_parse in Hp13.
  destruct (slots UPC_otherCharMap y) as [r' |] eqn:Hr';
    cbn [rbind] in Hp13; [| discriminate].
  pose proof (submap_slots _ _ _ _ UPC_other_in_ISMN_other Hr') as Hr''.
  rewrite Hr in Hr''. injection Hr'' as <-.
  injection Hp13 as <-.
  change (Some 9 :: Some 7 :: Some 9 :: Some 0 :: r ++ [None])
    with ([Some 9; Some 7; Some 9; Some 0] ++ r ++ [None]) in *.
  pose proof Hres13 as Hmod.
  apply resolution_mod10 in Hmod; [| exact EAN13_units | exact Hl13].
  destruct Hmod as [Hz13 [[Hc13 _] | [pre [rest [v [Hds [Hdo [-> [Hv [Hcp Hcrest]]]]]]]]]].
  { rewrite !count_None_app, count_None_cons_None in Hc13. lia. }
  replace ([Some 9; Some 7; Some 9; Some 0] ++ r ++ [None])
    with (([Some 9; Some 7; Some 9; Some 0] ++ r) ++ None :: []) in Hds
    by (now rewrite <- !app_assoc).
  apply wildcard_unique in Hds; [| | exact Hcp].
  2:{ rewrite count_None_app. exact Hcr. }
  destruct Hds as [<- <-].
  (* the two check digits agree *)
  assert (Hsame : v = cd).
  { assert (Hlenw : S (length ([Some 9; Some 7; Some 9; Some 0] ++ r)
                       + length (@nil digit)) = length EAN13_weights).
    { rewrite length_app, Hlr. reflexivity. }
    assert (Hz' : checksum EAN13_weights 10
                    (([Some 9; Some 7; Some 9; Some 0] ++ r) ++ [Some cd]) = 0).
    { unfold checksum in *.
      change EAN13_weights
        with ([1; 3; 1; 3] ++ [1; 3; 1; 3; 1; 3; 1; 3; 1]).
      change ISMN_weights with ([3] ++ [1; 3; 1; 3; 1; 3; 1; 3; 1]) in Hz.
      rewrite <- app_assoc.
      rewrite weighted_sum_app by reflexivity.
      change (Some 3 :: r ++ [Some cd]) with ([Some 3] ++ r ++ [Some cd]) in Hz.
      rewrite weighted_sum_app in Hz by reflexivity.
      cbn [weighted_sum] in Hz |- *.
      set (W := weighted_sum (r ++ [Some cd]) [1; 3; 1; 3; 1; 3; 1; 3; 1]) in *.
      transitivity ((3 * 3 + 0 + W) mod 10); [| exact Hz].
      rewrite <- (checksum_shift (3 * 3 + 0 + W) 3). f_equal. lia. }
    rewrite Hdo in Hz13. unfold checksum in Hz13, Hz'.
    rewrite weighted_sum_wildcard in Hz13, Hz' by auto.
    eapply unique_solution; [| exact Hv | exact Hcd | exact Hz13 | exact Hz'].
    apply separates_units10, nth_In_units; [exact EAN13_units |].
    rewrite length_app, Hlr. cbn. lia. }
  subst v.
  assert (Hy : ~ In " "%char y) by exact (UPC_slots_no_space _ _ Hr').
  exists r, cd. cbn [digits checkDigit self_s self_type bits set_bits].
  rewrite Hdo, <- Hp1.
  split; [reflexivity |]. split; [exact Hlr |].
  split; [now rewrite <- !app_assoc |]. split; [exact Hcd |].
  split.
  { destruct Hinit as [_ [_ [_ [_ [_ [_ [_ [Hcd0 _]]]]]]]].
    rewrite <- Hp1 in Hcd0.
    change ([Some 3] ++ r ++ [Some cd]) with ((Some 3 :: r) ++ [Some cd]) in Hcd0.
    rewrite getitem_last in Hcd0. now injection Hcd0. }
  split.
  { rewrite Hdo in Hcd13. rewrite getitem_last in Hcd13. now injection Hcd13. }
  split.
  { rewrite Hs13, pystr_of_digit, re_sub_star_map by exact Hcd.
    rewrite Hs0, slice_interior.
    change (str "979-0" ++ y ++ str "*") with (str "979-0" ++ y ++ [star]).
    rewrite !map_app. f_equal. f_equal.
    apply map_fixed. intros x Hx. unfold subst_char.
    assert (Hux : upper_char x = x).
    { apply (upper_fixed (self_s o0)); [exact Hup |].
      rewrite Hs0. right. apply in_or_app. now left. }
    rewrite Hux. destruct (Ascii.eqb_spec x star) as [-> | _]; [| reflexivity].
    exfalso. apply In_star_count in Hx.
    rewrite <- (slots_count _ _ good_UPC_otherCharMap _ _ Hr') in Hx. lia. }
  split; [exact Hty |].
  split.
  { cbn [bits set_bits] in Hbits. rewrite Hdo in Hbits. now symmetry. }
  rewrite Hs0. intros [Hin | Hin]; [discriminate Hin |].
  apply in_app_or in Hin. destruct Hin as [Hin | [-> | []]]; [now apply Hy |].
  vm_compute in Hbl. discriminate.
Qed.

(** The normalized string is the given string, character by character,
    with separators where they were. *)
Lemma init_post_separators (self : attrs) (w : list Z) (m : Z) (s : pystr)
    (o : instance) :
  init_post self w m s o ->
  exists g, self_s o = map g s /\
            forall a c, In a (str "- ") ->
                        Ascii.eqb a (g c) = Ascii.eqb a c.
Proof.
  intros [ds0 [i [_ [_ [Hres [Hs _]]]]]]. destruct i as [v |].
  - pose proof (resolution_Some _ _ _ _ _ Hres) as Hv.
    exists (subst_char (digit_char v)). split.
    + now rewrite Hs, pystr_of_digit, re_sub_star_map.
    + intros a c Ha. now apply separator_subst.
  - exists upper_char. split; [exact Hs |].
    intros a c Ha. now apply separator_upper.
Qed.

Lemma In_separator_map (g : ascii -> ascii) (a : ascii) (s : pystr) :
  (forall c, Ascii.eqb a (g c) = Ascii.eqb a c) ->
  In a s -> In a (map g s).
Proof.
  intros Hg Hin. apply in_map_iff. exists a. split; [| exact Hin].
  symmetry. apply Ascii.eqb_eq. rewrite Hg. apply Ascii.eqb_refl.
Qed.

(** X11.  For every constructed ISMN, [as13] succeeds, and the ISMN-13 it
    builds has the digits 9, 7, 9, 0 in place of the 3 that stands for
    the M, then the eight digits of the ISMN, then the same check digit:
    the value 3 of the M makes the two checksums agree.  Its string is
    ["979-0"], the ISMN without its first and last character, and the
    check digit. *)
Theorem ISMN_as13_check_digit (s : pystr) msgs c msgs' :
  ISMN s msgs = (OK c, msgs') ->
  exists c13,
    ISMN_as13 c msgs' = (OK c13, msgs') /\ ISMN_conversion c c13.
Proof.
  intros Hrun.
  destruct s as [| c0 s]; [discriminate |].
  assert (Hs : c0 :: s <> []) by discriminate.
  apply (hoare_run_OK _ _ _ _ _ _ (ISMN_hoare _ Hs)) in Hrun.
  destruct (ISMN_post_conversion _ _ Hrun) as [c13 [Hout Hconv]].
  exists c13. split; [| exact Hconv].
  rewrite Hout. cbn. now rewrite app_nil_r.
Qed.

Lemma ISMN_as13_check_digit_witness :
  exists c13,
    ISMN_as13 sample_ISMN [] = (OK c13, []) /\
    ISMN_conversion sample_ISMN c13.
Proof.
  apply (ISMN_as13_check_digit (str "M-345-24680-5") [] sample_ISMN []).
  vm_compute. reflexivity.
Defined.

(** X12.  No ISMN with a space is constructed: the interior map of
    [ISMN] lists the space as a separator, but the constructor builds
    the bit pattern through [as13], and the maps of [ISMN13] know no
    space. *)
Theorem ISMN_no_space (s : pystr) msgs c msgs' :
  ISMN s msgs = (OK c, msgs') -> count_occ ascii_dec s " "%char = 0%nat.
Proof.
  intros Hrun. apply count_occ_not_In.
  destruct s as [| c0 s]; [discriminate |].
  assert (Hs : c0 :: s <> []) by discriminate.
  apply (hoare_run_OK _ _ _ _ _ _ (ISMN_hoare _ Hs)) in Hrun.
  destruct (ISMN_post_conversion _ _ Hrun) as [c13 [_ Hconv]].
  destruct Hconv as [body [cd [_ [_ [_ [_ [_ [_ [_ [_ [_ Hns]]]]]]]]]]].
  destruct Hrun as [o0 [o13 [b [Hinit [_ [_ [_ [_ ->]]]]]]]].
  cbn [self_s set_bits] in Hns.
  destruct (init_post_separators _ _ _ _ _ Hinit) as [g [Hg Hsep]].
  intros Hin. apply Hns. rewrite Hg.
  apply In_separator_map; [| exact Hin].
  intros c. apply Hsep. right. now left.
Qed.

Lemma ISMN_no_space_witness :
  count_occ ascii_dec (str "M-345-24680-5") " "%char = 0%nat.
Proof.
  apply (ISMN_no_space (str "M-345-24680-5") [] sample_ISMN []).
  vm_compute. reflexivity.
Defined.

(** * Further properties: the dispatcher *)

Lemma hoare_cases_message {A} (c : M A) (Q : A -> Prop) (msgs : msgs_t) :
  hoare c Q pce ->
  (exists a, c msgs = (OK a, msgs) /\ Q a) \/
  (exists x, x <> [] /\
             c msgs = (Raise (ProductCodeError (Some x)), msgs ++ [x])).
Proof.
  intros [r [Hr Hq]]. destruct r as [a | e]; cbn in Hq.
  - left. exists a. split; [| exact Hq]. rewrite Hr. cbn. now rewrite app_nil_r.
  - right. destruct Hq as [ch [x ->]]. exists (ch :: x).
    split; [discriminate | apply Hr].
Qed.

(** The class [F] fails on [s] from the list [msgs] and leaves the
    message [x]. *)
Definition fails (F : format) (s : pystr) (msgs : msgs_t) (x : pystr) : Prop :=
  x <> [] /\
  construct F s msgs = (Raise (ProductCodeError (Some x)), msgs ++ [x]).

(** What [makeProductCode(s, forceISBN13)] does from the list [msgs]:
    the result of the first class that accepts [s], and in the shared
    list one message for every class that refused before. *)
Inductive dispatch (s : pystr) (forceISBN13 : bool) (msgs : msgs_t)
    : res instance * msgs_t -> Prop :=
| dispatch_ISBN13 c :
    ISBN13 s msgs = (OK c, msgs) ->
    dispatch s forceISBN13 msgs (OK c, msgs)
| dispatch_ISBN10 x1 c10 c13 :
    fails F_ISBN13 s msgs x1 ->
    ISBN10 s (msgs ++ [x1]) = (OK c10, msgs ++ [x1]) ->
    ISBN10_as13 c10 (msgs ++ [x1]) = (OK c13, msgs ++ [x1]) ->
    bits c10 = bits c13 ->
    dispatch s forceISBN13 msgs
             (OK (if forceISBN13 then c13 else c10), msgs ++ [x1])
| dispatch_ISMN x1 x2 c :
    fails F_ISBN13 s msgs x1 -> fails F_ISBN10 s (msgs ++ [x1]) x2 ->
    ISMN s (msgs ++ [x1; x2]) = (OK c, msgs ++ [x1; x2]) ->
    dispatch s forceISBN13 msgs (OK c, msgs ++ [x1; x2])
| dispatch_EAN13 x1 x2 x3 c :
    fails F_ISBN13 s msgs x1 -> fails F_ISBN10 s (msgs ++ [x1]) x2 ->
    fails F_ISMN s (msgs ++ [x1; x2]) x3 ->
    EAN13 s (msgs ++ [x1; x2; x3]) = (OK c, msgs ++ [x1; x2; x3]) ->
    dispatch s forceISBN13 msgs (OK c, msgs ++ [x1; x2; x3])
| dispatch_none x1 x2 x3 x4 :
    fails F_ISBN13 s msgs x1 -> fails F_ISBN10 s (msgs ++ [x1]) x2 ->
    fails F_ISMN s (msgs ++ [x1; x2]) x3 ->
    fails F_EAN13 s (msgs ++ [x1; x2; x3]) x4 ->
    dispatch s forceISBN13 msgs
             (Raise (ProductCodeError None), msgs ++ [x1; x2; x3; x4]).

Lemma ISBN10_post_bits (s : pystr) (c10 : instance) :
  ISBN10_post s c10 ->
  exists c13, (forall msgs, ISBN10_as13 c10 msgs = (OK c13, msgs)) /\
              bits c10 = bits c13.
Proof.
  intros [o0 [o13 [b [_ [_ [Hout [_ [Hb ->]]]]]]]]. exists o13. split.
  - intros msgs. change (ISBN10_as13 (set_bits o0 b)) with (ISBN10_as13 o0).
    rewrite Hout. cbn. now rewrite app_nil_r.
  - now rewrite Hb.
Qed.

Lemma makeProductCode_dispatch (s : pystr) (forceISBN13 : bool)
    (msgs : msgs_t) :
  s <> [] ->
  dispatch s forceISBN13 msgs (makeProductCode s forceISBN13 false msgs).
Proof.
  intros Hs. unfold makeProductCode, try_except, bind, ret.
  destruct (hoare_cases_message _ _ msgs (ISBN13_hoare s Hs))
    as [[c [Hc _]] | [x1 [Hx1 H1]]].
  { rewrite Hc. now apply dispatch_ISBN13. }
  rewrite H1. cbn [isProductCodeError].
  assert (F1 : fails F_ISBN13 s msgs x1) by (split; [exact Hx1 | exact H1]).
  destruct (hoare_cases_message _ _ (msgs ++ [x1]) (ISBN10_hoare s Hs))
    as [[c10 [H10 Hpost]] | [x2 [Hx2 H2]]].
  { rewrite H10. destruct (ISBN10_post_bits _ _ Hpost) as [c13 [H13 Hb]].
    destruct forceISBN13.
    - rewrite H13. now apply (dispatch_ISBN10 s true msgs x1 c10 c13).
    - now apply (dispatch_ISBN10 s false msgs x1 c10 c13). }
  rewrite H2. cbn [isProductCodeError].
  replace ((msgs ++ [x1]) ++ [x2]) with (msgs ++ [x1; x2]) in *
    by (now rewrite <- app_assoc).
  assert (F2 : fails F_ISBN10 s (msgs ++ [x1]) x2).
  { split; [exact Hx2 |]. cbn [construct]. rewrite H2.
    now rewrite <- app_assoc. }
  destruct (hoare_cases_message _ _ (msgs ++ [x1; x2]) (ISMN_hoare s Hs))
    as [[c [Hc _]] | [x3 [Hx3 H3]]].
  { rewrite Hc. now apply (dispatch_ISMN s forceISBN13 msgs x1 x2 c). }
  rewrite H3. cbn [isProductCodeError].
  replace ((msgs ++ [x1; x2]) ++ [x3]) with (msgs ++ [x1; x2; x3]) in *
    by (now rewrite <- app_assoc).
  assert (F3 : fails F_ISMN s (msgs ++ [x1; x2]) x3).
  { split; [exact Hx3 |]. cbn [construct]. rewrite H3.
    now rewrite <- app_assoc. }
  destruct (hoare_cases_message _ _ (msgs ++ [x1; x2; x3]) (EAN13_hoare s Hs))
    as [[c [Hc _]] | [x4 [Hx4 H4]]].
  { rewrite Hc. now apply (dispatch_EAN13 s forceISBN13 msgs x1 x2 x3 c). }
  rewrite H4. cbn [isProductCodeError].
  unfold raise_ProductCodeError, bind, ProductCodeError_init, raise.
  replace ((msgs ++ [x1; x2; x3]) ++ [x4]) with (msgs ++ [x1; x2; x3; x4]) in *
    by (now rewrite <- app_assoc).
  apply (dispatch_none s forceISBN13 msgs x1 x2 x3 x4); auto.
  split; [exact Hx4 |]. cbn [construct]. rewrite H4.
  now rewrite <- app_assoc.
Qed.

(** Two results of the dispatcher that differ at most in the form of an
    ISBN-10: the same message list, the same error, the same bit
    pattern, and either the same instance or an ISBN-10 and the ISBN-13
    its [as13] builds. *)
Definition same_symbol (r r' : res instance * msgs_t) : Prop :=
  snd r = snd r' /\
  match fst r, fst r' with
  | OK c, OK c' =>
      bits c = bits c' /\
      (c = c' \/
       self_type c' = str "ISBN10" /\ ISBN10_as13 c' (snd r) = (OK c, snd r))
  | Raise e, Raise e' => e = e'
  | _, _ => False
  end.

Lemma same_symbol_refl (r : res instance * msgs_t) : same_symbol r r.
Proof.
  split; [reflexivity |]. destruct (fst r); [| reflexivity].
  split; [reflexivity | now left].
Qed.

Lemma ISBN10_post_type (s : pystr) (c10 : instance) :
  ISBN10_post s c10 -> self_type c10 = str "ISBN10".
Proof.
  intros [o0 [o13 [b [Hinit [_ [_ [_ [_ ->]]]]]]]].
  destruct Hinit as [ds0 [i [_ [_ [_ [_ [_ [_ [_ [Hty _]]]]]]]]]]. exact Hty.
Qed.

(** X13.  The flag [forceISBN13] changes nothing but the form in which
    an ISBN-10 is returned: for every non-empty string, the dispatcher
    with and without the flag leaves the same message list, fails in the
    same cases with the same error, and returns instances with the same
    bit pattern, which are the same instance unless the string is an
    ISBN-10; then the one is the ISBN-10 and the other the ISBN-13 that
    its [as13] builds. *)
Theorem forceISBN13_same_symbol (s : pystr) (msgs : msgs_t) :
  s <> [] ->
  same_symbol (makeProductCode s true false msgs)
              (makeProductCode s false false msgs).
Proof.
  intros Hs. unfold makeProductCode, try_except, bind, ret.
  destruct (hoare_cases_message _ _ msgs (ISBN13_hoare s Hs))
    as [[c [Hc _]] | [x1 [Hx1 H1]]].
  { rewrite Hc. apply same_symbol_refl. }
  rewrite H1. cbn [isProductCodeError].
  destruct (hoare_cases_message _ _ (msgs ++ [x1]) (ISBN10_hoare s Hs))
    as [[c10 [H10 Hpost]] | [x2 [Hx2 H2]]].
  { rewrite H10. destruct (ISBN10_post_bits _ _ Hpost) as [c13 [H13 Hb]].
    rewrite H13. split; [reflexivity |]. cbn [fst snd].
    split; [now symmetry |]. right.
    split; [exact (ISBN10_post_type _ _ Hpost) | apply H13]. }
  rewrite H2. cbn [isProductCodeError]. apply same_symbol_refl.
Qed.

Lemma forceISBN13_same_symbol_witness :
  same_symbol (makeProductCode (str "0-9669553-0-7") true false [])
              (makeProductCode (str "0-9669553-0-7") false false []).
Proof.
  apply (forceISBN13_same_symbol (str "0-9669553-0-7") []). discriminate.
Defined.

(** X14.  When the dispatcher fails on a non-empty string, the error it
    raises carries no message of its own, and each of the four classes
    tried has left one message in the shared list, in the order ISBN-13,
    ISBN-10, ISMN, EAN-13; the text of the error, [str(e)], is the list
    as it was with these four messages after it, one per line. *)
Theorem dispatcher_failure (s : pystr) (forceISBN13 : bool)
    (msgs : msgs_t) (e : exn) (msgs' : msgs_t) :
  s <> [] ->
  makeProductCode s forceISBN13 false msgs = (Raise e, msgs') ->
  e = ProductCodeError None /\
  exists x1 x2 x3 x4,
    msgs' = msgs ++ [x1; x2; x3; x4] /\
    fails F_ISBN13 s msgs x1 /\ fails F_ISBN10 s (msgs ++ [x1]) x2 /\
    fails F_ISMN s (msgs ++ [x1; x2]) x3 /\
    fails F_EAN13 s (msgs ++ [x1; x2; x3]) x4 /\
    ProductCodeError_str e msgs'
    = (OK (join newline (msgs ++ [x1; x2; x3; x4])), msgs').
Proof.
  intros Hs Hrun. pose proof (makeProductCode_dispatch s forceISBN13 msgs Hs) as H.
  rewrite Hrun in H.
  inversion H as [| | | | x1 x2 x3 x4 F1 F2 F3 F4 He]; subst.
  split; [reflexivity |]. exists x1, x2, x3, x4.
  split; [reflexivity |]. split; [exact F1 |]. split; [exact F2 |].
  split; [exact F3 |]. split; [exact F4 | reflexivity].
Qed.

Lemma dispatcher_failure_witness :
  ProductCodeError None = ProductCodeError None /\
  exists x1 x2 x3 x4,
    [str "ISBN13: wrong number of digits";
     str "ISBN10: wrong number of digits";
     str "ISMN: '1' invalid here";
     str "EAN13: wrong number of digits"] = [] ++ [x1; x2; x3; x4] /\
    fails F_ISBN13 (str "1") [] x1 /\ fails F_ISBN10 (str "1") ([] ++ [x1]) x2 /\
    fails F_ISMN (str "1") ([] ++ [x1; x2]) x3 /\
    fails F_EAN13 (str "1") ([] ++ [x1; x2; x3]) x4 /\
    ProductCodeError_str (ProductCodeError None)
      [str "ISBN13: wrong number of digits";
       str "ISBN10: wrong number of digits";
       str "ISMN: '1' invalid here";
       str "EAN13: wrong number of digits"]
    = (OK (join newline ([] ++ [x1; x2; x3; x4])),
       [str "ISBN13: wrong number of digits";
        str "ISBN10: wrong number of digits";
        str "ISMN: '1' invalid here";
        str "EAN13: wrong number of digits"]).
Proof.
  apply (dispatcher_failure (str "1") true []).
  - discriminate.
  - vm_compute. reflexivity.
Defined.

(** X15.  When the dispatcher returns, the shared message list is as it
    was only if [ISBN13] itself accepted the string; otherwise the
    messages of the classes that refused it, one to three of them, stay
    in the list, although no error is reported. *)
Theorem dispatcher_success_messages (s : pystr) (forceISBN13 : bool)
    (msgs : msgs_t) (c : instance) (msgs' : msgs_t) :
  s <> [] ->
  makeProductCode s forceISBN13 false msgs = (OK c, msgs') ->
  msgs' = msgs /\ ISBN13 s msgs = (OK c, msgs) \/
  exists x1 l,
    fails F_ISBN13 s msgs x1 /\ msgs' = msgs ++ x1 :: l /\
    (length l <= 2)%nat /\ Forall (fun x => x <> []) l.
Proof.
  intros Hs Hrun. pose proof (makeProductCode_dispatch s forceISBN13 msgs Hs) as H.
  rewrite Hrun in H.
  inversion H as [c' Hc | x1 c10 c13 F1 H10 H13 Hb
                 | x1 x2 c' F1 F2 Hc | x1 x2 x3 c' F1 F2 F3 Hc |]; subst.
  - left. now split.
  - right. exists x1, []. split; [exact F1 |]. split; [reflexivity |].
    split; [cbn; lia | constructor].
  - right. exists x1, [x2]. split; [exact F1 |].
    split; [reflexivity |]. split; [cbn; lia |].
    constructor; [apply F2 | constructor].
  - right. exists x1, [x2; x3]. split; [exact F1 |].
    split; [reflexivity |]. split; [cbn; lia |].
    constructor; [apply F2 | constructor; [apply F3 | constructor]].
Qed.

Lemma dispatcher_success_messages_witness :
  exists c,
    makeProductCode (str "0-9669553-0-7") true false [] =
      (OK c, [str "ISBN13: wrong number of digits"]) /\
    ([str "ISBN13: wrong number of digits"] = [] /\
     ISBN13 (str "0-9669553-0-7") [] = (OK c, []) \/
     exists x1 l,
       fails F_ISBN13 (str "0-9669553-0-7") [] x1 /\
       [str "ISBN13: wrong number of digits"] = [] ++ x1 :: l /\
       (length l <= 2)%nat /\ Forall (fun x => x <> []) l).
Proof.
  eexists. split; [vm_compute; reflexivity |].
  eapply (dispatcher_success_messages (str "0-9669553-0-7") true []).
  - discriminate.
  - vm_compute. reflexivity.
Defined.

(** * Further properties: the symbol determines the digits *)

Lemma app_inj_length {A} (x x' y y' : list A) :
  length x = length x' -> x ++ y = x' ++ y' -> x = x' /\ y = y'.
Proof.
  revert x'. induction x as [| a x IH]; intros [| a' x'] Hl H;
    try discriminate; [auto |].
  cbn in H. injection H as -> H. cbn in Hl.
  destruct (IH x') as [-> ->]; auto.
Qed.

(** The digit and the parity whose code in the table is [b]. *)
Definition decode_block (bitchar : list (dict pystr)) (allowed : pystr)
    (b : pystr) : option (Z * ascii) :=
  find (fun np => pystr_eqb (bitcode bitchar (fst np) (snd np)) b)
       (list_prod (range 10) allowed).

(** Every code of the table is read back as its digit and parity: no two
    codes are the same. *)
Definition distinct_codes (bitchar : list (dict pystr)) (allowed : pystr)
    : bool :=
  forallb (fun np =>
             match decode_block bitchar allowed
                     (bitcode bitchar (fst np) (snd np)) with
             | Some (n, p) => (n =? fst np) && Ascii.eqb p (snd np)
             | None => false
             end)
          (list_prod (range 10) allowed).

Section Decode.

Variable bitchar : list (dict pystr).
Variable allowed : pystr.
Hypothesis Hlen :
  forall n p, 0 <= n <= 9 -> In p allowed ->
              length (bitcode bitchar n p) = 7%nat.
Hypothesis Hdistinct : distinct_codes bitchar allowed = true.

Lemma decode_bitcode (n : Z) (p : ascii) :
  0 <= n <= 9 -> In p allowed ->
  decode_block bitchar allowed (bitcode bitchar n p) = Some (n, p).
Proof.
  intros Hn Hp. unfold distinct_codes in Hdistinct.
  rewrite forallb_forall in Hdistinct.
  assert (Hin : In (n, p) (list_prod (range 10) allowed)).
  { apply in_prod; [apply range_spec; lia | exact Hp]. }
  specialize (Hdistinct _ Hin). cbn [fst snd] in Hdistinct.
  destruct (decode_block bitchar allowed (bitcode bitchar n p))
    as [[n' p'] |]; [| discriminate].
  apply andb_prop in Hdistinct. destruct Hdistinct as [H1 H2].
  apply Z.eqb_eq in H1. apply Ascii.eqb_eq in H2. now subst.
Qed.

Lemma bitcode_inj (n n' : Z) (p p' : ascii) :
  0 <= n <= 9 -> In p allowed -> 0 <= n' <= 9 -> In p' allowed ->
  bitcode bitchar n p = bitcode bitchar n' p' -> n = n' /\ p = p'.
Proof.
  intros Hn Hp Hn' Hp' H.
  pose proof (decode_bitcode n p Hn Hp) as H1.
  pose proof (decode_bitcode n' p' Hn' Hp') as H2.
  rewrite H in H1. rewrite H1 in H2. now injection H2.
Qed.

(** Two sequences of digits with the same codes are the same, and so
    are their parities. *)
Lemma encode_inj (ds : list digit) :
  forall (pp : pystr) (ds' : list digit) (pp' : pystr),
    Forall (decimal 9) ds -> Forall (decimal 9) ds' ->
    Forall (fun p => In p allowed) pp -> Forall (fun p => In p allowed) pp' ->
    length ds = length pp -> length ds' = length pp' ->
    length ds = length ds' ->
    encode bitchar ds pp = encode bitchar ds' pp' ->
    ds = ds' /\ pp = pp'.
Proof.
  induction ds as [| d ds IH]; intros pp ds' pp' Hd Hd' Hp Hp' Hl Hl' Hll He.
  - destruct ds'; [| discriminate]. destruct pp, pp'; try discriminate. auto.
  - destruct ds' as [| d' ds']; [discriminate |].
    destruct pp as [| p pp]; [discriminate |].
    destruct pp' as [| p' pp']; [discriminate |].
    inversion Hd as [| ? ? [n [-> Hn]] Hd1]; subst.
    inversion Hd' as [| ? ? [n' [-> Hn']] Hd1']; subst.
    inversion Hp as [| ? ? Hpa Hp1]; subst.
    inversion Hp' as [| ? ? Hpa' Hp1']; subst.
    cbn [encode] in He.
    apply app_inj_length in He.
    + destruct He as [Hb Hrest].
      destruct (bitcode_inj _ _ _ _ Hn Hpa Hn' Hpa' Hb) as [-> ->].
      cbn [length] in Hl, Hl', Hll.
      destruct (IH pp ds' pp' Hd1 Hd1' Hp1 Hp1') as [-> ->]; auto; lia.
    + rewrite !Hlen; auto.
Qed.

End Decode.

Lemma Forall_firstn {A} (P : A -> Prop) (n : nat) (l : list A) :
  Forall P l -> Forall P (firstn n l).
Proof.
  intros H. revert n. induction H as [| a l Ha _ IH]; intros [| n];
    cbn; constructor; auto.
Qed.

Lemma Forall_skipn {A} (P : A -> Prop) (n : nat) (l : list A) :
  Forall P l -> Forall P (skipn n l).
Proof.
  intros H. revert n. induction H as [| a l Ha Hl IH]; intros [| n];
    cbn; auto.
Qed.

Lemma EAN13BITS_length (n : Z) (p : ascii) :
  0 <= n <= 9 -> In p (str "ABC") ->
  length (bitcode EAN13BITS n p) = 7%nat.
Proof.
  intros Hn Hp.
  destruct (EAN13BITS_code n p Hn Hp) as [row [b [Hrow [Hb Hl]]]].
  unfold bitcode. now rewrite Hrow, Hb.
Qed.

Lemma EAN13BITS_distinct : distinct_codes EAN13BITS (str "ABC") = true.
Proof. vm_compute. reflexivity. Qed.

(** No two leading digits select the same parity pattern. *)
Lemma EAN13PARITY_inj (n n' : Z) (pat : pystr) :
  0 <= n <= 9 -> 0 <= n' <= 9 ->
  getitem EAN13PARITY n = OK pat -> getitem EAN13PARITY n' = OK pat ->
  n = n'.
Proof.
  intros Hn Hn' H H'. rewrite <- H' in H. clear H'.
  digit_cases n; digit_cases n'; try reflexivity;
    vm_compute in H; discriminate H.
Qed.

Lemma EAN13_symbol_inj (ds ds' : list digit) :
  Forall (decimal 9) ds -> length ds = 13%nat ->
  Forall (decimal 9) ds' -> length ds' = 13%nat ->
  EAN13_symbol ds = EAN13_symbol ds' -> ds = ds'.
Proof.
  intros Hd Hl Hd' Hl' H.
  destruct ds as [| d0 data]; [discriminate |].
  destruct ds' as [| d0' data']; [discriminate |].
  inversion Hd as [| ? ? [n [-> Hn]] Hdata]; subst.
  inversion Hd' as [| ? ? [n' [-> Hn']] Hdata']; subst.
  destruct (EAN13PARITY_pattern n Hn) as [pat [Hpat [Hpl Hpin]]].
  destruct (EAN13PARITY_pattern n' Hn') as [pat' [Hpat' [Hpl' Hpin']]].
  cbn [EAN13_symbol] in H. rewrite Hpat, Hpat' in H.
  cbn [length] in Hl, Hl'.
  assert (Hcod : forall (x : list digit) (px : pystr) (k : nat),
             Forall (decimal 9) x -> Forall (fun p => In p (str "ABC")) px ->
             length x = k -> length px = k ->
             length (encode EAN13BITS x px) = (7 * k)%nat).
  { intros x px k Hx Hpx Hlx Hlpx. rewrite <- Hlx. apply encode_length.
    apply codable_decimal with (allowed := str "ABC"); auto.
    - apply EAN13BITS_code.
    - lia. }
  assert (H6 : forall (A : Type) (l : list A),
             length l = 12%nat ->
             length (firstn 6 l) = 6%nat /\ length (skipn 6 l) = 6%nat).
  { intros A l Hl12. rewrite length_firstn, length_skipn, Hl12. split; reflexivity. }
  assert (Hld : length data = 12%nat) by lia.
  assert (Hld' : length data' = 12%nat) by lia.
  destruct (H6 _ data Hld) as [Hf Hs]. destruct (H6 _ data' Hld') as [Hf' Hs'].
  destruct (H6 _ pat Hpl) as [Hpf Hps]. destruct (H6 _ pat' Hpl') as [Hpf' Hps'].
  apply app_inv_head in H. apply app_inj_length in H.
  2:{ rewrite (Hcod _ _ 6%nat), (Hcod _ _ 6%nat);
        auto using Forall_firstn. }
  destruct H as [HL H]. apply app_inv_head in H. apply app_inv_tail in H.
  destruct (encode_inj EAN13BITS (str "ABC") EAN13BITS_length
              EAN13BITS_distinct (firstn 6 data) (firstn 6 pat)
              (firstn 6 data') (firstn 6 pat')) as [E1 E2];
    auto using Forall_firstn; try congruence.
  destruct (encode_inj EAN13BITS (str "ABC") EAN13BITS_length
              EAN13BITS_distinct (skipn 6 data) (skipn 6 pat)
              (skipn 6 data') (skipn 6 pat')) as [E3 E4];
    auto using Forall_skipn; try congruence.
  assert (Edata : data = data').
  { rewrite <- (firstn_skipn 6 data), <- (firstn_skipn 6 data').
    now rewrite E1, E3. }
  assert (Epat : pat = pat').
  { rewrite <- (firstn_skipn 6 pat), <- (firstn_skipn 6 pat').
    now rewrite E2, E4. }
  subst. f_equal. f_equal. now apply (EAN13PARITY_inj n n' pat').
Qed.

(** X16.  The symbol of an EAN-13 determines its digits: two codes of
    the EAN-13 family, of whatever class and from whatever strings,
    that have the same bit pattern have the same thirteen digits (no two
    digit and parity pairs share a 7-symbol code, and no two leading
    digits share a parity pattern). *)
Theorem EAN13_bits_determine_digits (F F' : format) (s s' : pystr)
    msgs msgs1 c c' msgs2 msgs3 :
  In F [F_EAN13; F_ISBN13; F_ISMN13] -> In F' [F_EAN13; F_ISBN13; F_ISMN13] ->
  construct F s msgs = (OK c, msgs2) ->
  construct F' s' msgs1 = (OK c', msgs3) ->
  bits c = bits c' -> digits c = digits c'.
Proof.
  intros HF HF' Hrun Hrun' Hb.
  assert (Hpost : forall G x m0 o m1,
             In G [F_EAN13; F_ISBN13; F_ISMN13] ->
             construct G x m0 = (OK o, m1) ->
             exists ty lb, EAN13_post ty lb x o).
  { intros G x m0 o m1 HG Hx.
    destruct x as [| ch x].
    { cbn in HG. destruct HG as [<- | [<- | [<- | []]]]; discriminate Hx. }
    assert (Hne : ch :: x <> []) by discriminate.
    cbn in HG. destruct HG as [<- | [<- | [<- | []]]]; cbn [construct] in Hx.
    - apply (hoare_run_OK _ _ _ _ _ _ (EAN13_hoare _ Hne)) in Hx. eauto.
    - apply (hoare_run_OK _ _ _ _ _ _ (ISBN13_hoare _ Hne)) in Hx.
      destruct Hx as [Hx _]. eauto.
    - apply (hoare_run_OK _ _ _ _ _ _ (ISMN13_hoare _ Hne)) in Hx.
      destruct Hx as [Hx _]. eauto. }
  destruct (Hpost _ _ _ _ _ HF Hrun) as [ty [lb [o [_ [Hd [Hl ->]]]]]].
  destruct (Hpost _ _ _ _ _ HF' Hrun') as [ty' [lb' [o' [_ [Hd' [Hl' ->]]]]]].
  cbn [bits digits set_bits] in *. injection Hb as Hb.
  now apply EAN13_symbol_inj.
Qed.

Lemma EAN13_bits_determine_digits_witness :
  digits sample_ISBN13
  = digits (returned (EAN13 (str "9780966955309"))).
Proof.
  apply (EAN13_bits_determine_digits F_ISBN13 F_EAN13
           (str "978-0-9669553-0-9") (str "9780966955309") [] []
           sample_ISBN13 (returned (EAN13 (str "9780966955309"))) [] []).
  - right. now left.
  - now left.
  - vm_compute. reflexivity.
  - vm_compute. reflexivity.
  - vm_compute. reflexivity.
Defined.

Lemma UPC5BITS_distinct : distinct_codes UPC5BITS (str "OE") = true.
Proof. vm_compute. reflexivity. Qed.

Lemma UPC5PARITY_allowed (v : Z) (p1 p2 p3 p4 p5 : ascii) :
  0 <= v <= 9 -> getitem UPC5PARITY v = OK [p1; p2; p3; p4; p5] ->
  Forall (fun p => In p (str "OE")) [p1; p2; p3; p4; p5].
Proof.
  intros Hv H. destruct (UPC5PARITY_pattern v Hv) as [pat [Hpat [_ Hin]]].
  rewrite H in Hpat. now injection Hpat as <-.
Qed.

(** X17.  The symbol of a five digit add-on determines its digits: two
    add-ons with the same bit pattern were built from the same
    string. *)
Theorem UPC5_bits_determine_digits (s s' : pystr) msgs msgs1 c c' msgs2 msgs3 :
  UPC5 s msgs = (OK c, msgs2) -> UPC5 s' msgs1 = (OK c', msgs3) ->
  bits c = bits c' -> s = s'.
Proof.
  intros Hrun Hrun' Hb.
  apply (hoare_run_OK _ _ _ _ _ _ (UPC5_hoare s)) in Hrun.
  apply (hoare_run_OK _ _ _ _ _ _ (UPC5_hoare s')) in Hrun'.
  apply UPC5_post_addon in Hrun, Hrun'.
  destruct Hrun as [d1 [d2 [d3 [d4 [d5 [v [p1 [p2 [p3 [p4 [p5 H]]]]]]]]]]].
  destruct H as [Hd [-> [_ [_ [_ [_ [Hpar [_ [Hbits _]]]]]]]]].
  destruct Hrun' as [e1 [e2 [e3 [e4 [e5 [v' [q1 [q2 [q3 [q4 [q5 H]]]]]]]]]]].
  destruct H as [He [-> [_ [_ [_ [_ [Hpar' [_ [Hbits' _]]]]]]]]].
  rewrite Hbits, Hbits' in Hb. injection Hb as Hb.
  inversion Hd as [| ? ? H1 Hd1]; subst.
  inversion Hd1 as [| ? ? H2 Hd2]; subst.
  inversion Hd2 as [| ? ? H3 Hd3]; subst.
  inversion Hd3 as [| ? ? H4 Hd4]; subst.
  inversion Hd4 as [| ? ? H5 Hd5]; subst.
  inversion Hd5 as [| ? ? Hv _]; subst.
  inversion He as [| ? ? G1 He1]; subst.
  inversion He1 as [| ? ? G2 He2]; subst.
  inversion He2 as [| ? ? G3 He3]; subst.
  inversion He3 as [| ? ? G4 He4]; subst.
  inversion He4 as [| ? ? G5 He5]; subst.
  inversion He5 as [| ? ? Hv' _]; subst.
  pose proof (UPC5PARITY_allowed _ _ _ _ _ _ Hv Hpar) as Hp.
  pose proof (UPC5PARITY_allowed _ _ _ _ _ _ Hv' Hpar') as Hq.
  inversion Hp as [| ? ? P1 Hp1]; subst.
  inversion Hp1 as [| ? ? P2 Hp2]; subst.
  inversion Hp2 as [| ? ? P3 Hp3]; subst.
  inversion Hp3 as [| ? ? P4 Hp4]; subst.
  inversion Hp4 as [| ? ? P5 _]; subst.
  inversion Hq as [| ? ? Q1 Hq1]; subst.
  inversion Hq1 as [| ? ? Q2 Hq2]; subst.
  inversion Hq2 as [| ? ? Q3 Hq3]; subst.
  inversion Hq3 as [| ? ? Q4 Hq4]; subst.
  inversion Hq4 as [| ? ? Q5 _]; subst.
  assert (Hstep : forall n p n' p' (x x' : pystr),
             0 <= n <= 9 -> In p (str "OE") ->
             0 <= n' <= 9 -> In p' (str "OE") ->
             bitcode UPC5BITS n p ++ x = bitcode UPC5BITS n' p' ++ x' ->
             n = n' /\ x = x').
  { intros n p n' p' x x' Hn Hpn Hn' Hpn' Hx.
    apply app_inj_length in Hx.
    - destruct Hx as [Hx ->]. split; [| reflexivity].
      now destruct (bitcode_inj UPC5BITS (str "OE") UPC5BITS_distinct
                      _ _ _ _ Hn Hpn Hn' Hpn' Hx).
    - now rewrite !UPC5_bitcode_length. }
  apply Hstep in Hb; auto. destruct Hb as [-> Hb].
  apply (app_inv_head (str "01")) in Hb.
  apply Hstep in Hb; auto. destruct Hb as [-> Hb].
  apply (app_inv_head (str "01")) in Hb.
  apply Hstep in Hb; auto. destruct Hb as [-> Hb].
  apply (app_inv_head (str "01")) in Hb.
  apply Hstep in Hb; auto. destruct Hb as [-> Hb].
  apply (app_inv_head (str "01")) in Hb.
  rewrite <- (app_nil_r (bitcode UPC5BITS d5 p5)) in Hb.
  rewrite <- (app_nil_r (bitcode UPC5BITS e5 q5)) in Hb.
  apply Hstep in Hb; auto. destruct Hb as [-> _]. reflexivity.
Qed.

Lemma UPC5_bits_determine_digits_witness : str "51595" = str "51595".
Proof.
  apply (UPC5_bits_determine_digits (str "51595") (str "51595") [] []
           sample_UPC5 sample_UPC5 [] []).
  - vm_compute. reflexivity.
  - vm_compute. reflexivity.
  - reflexivity.
Defined.

(** * Further properties: the text of a code *)

Lemma join_nil_concat (l : list pystr) : join [] l = concat l.
Proof.
  induction l as [| x l IH]; [reflexivity |].
  destruct l as [| y l]; [cbn; now rewrite app_nil_r |].
  change (join [] (x :: y :: l)) with (x ++ [] ++ join [] (y :: l)).
  rewrite IH. reflexivity.
Qed.

(** When the checksum of a constructed instance holds, its normalized
    string parses back to its digits. *)
Lemma init_post_parse_back (self : attrs) (w : list Z) (m : Z)
    (hf hl ho : Z) (s : pystr) (o : instance) :
  good_map hf (firstCharMap self) -> good_map hl (lastCharMap self) ->
  good_map ho (otherCharMap self) ->
  init_post self w m s o -> checksum w m (digits o) = 0 ->
  parse_with self (self_s o) = OK (digits o).
Proof.
  intros Hf Hl Ho Hpost Hz.
  destruct (init_post_final self w m hf hl ho Hf Hl Ho s o Hpost)
    as [ds1 [Hp1 [Hfinal _]]].
  inversion Hfinal as [Hc _ Heq | pre rest Hdo _ _ Hno Heq].
  - now rewrite Heq.
  - exfalso. apply (Hno 9); [lia |]. now rewrite <- Hdo.
Qed.

Definition not_dash (c : ascii) : bool := negb (Ascii.eqb c "-").

(** The text of one character's slots under a map of [UPC]. *)
Definition slot_text_ok (mp : charmap) (c : ascii) : bool :=
  match slot mp c with
  | OK a =>
      if (count_None a =? 0)%nat
      then pystr_eqb (concat (map str_digit a))
                     (if not_dash c then [c] else [])
      else true
  | Raise _ => true
  end.

Lemma slot_text (mp : charmap) (c : ascii) (a : list digit) :
  forallb (slot_text_ok mp) all_ascii = true ->
  slot mp c = OK a -> count_None a = 0%nat ->
  concat (map str_digit a) = if not_dash c then [c] else [].
Proof.
  intros H Ha Hc. pose proof (forall_ascii _ H c) as Hb.
  unfold slot_text_ok in Hb. rewrite Ha, Hc in Hb. cbn [Nat.eqb] in Hb.
  now apply pystr_eqb_eq.
Qed.

Lemma slots_text (mp : charmap) (y : pystr) (r : list digit) :
  forallb (slot_text_ok mp) all_ascii = true ->
  slots mp y = OK r -> count_None r = 0%nat ->
  concat (map str_digit r) = filter not_dash y.
Proof.
  intros H. revert r. induction y as [| c y IH]; intros r Hr Hc.
  - cbn in Hr. injection Hr as <-. reflexivity.
  - cbn [slots] in Hr.
    destruct (slot mp c) as [a |] eqn:Ha; cbn [rbind] in Hr; [| discriminate].
    destruct (slots mp y) as [r' |]; cbn [rbind] in Hr; [| discriminate].
    injection Hr as <-. rewrite count_None_app in Hc.
    rewrite map_app, concat_app, (slot_text mp c a H Ha) by lia.
    rewrite (IH r' eq_refl) by lia. cbn [filter].
    now destruct (not_dash c).
Qed.

Lemma UPC_first_text : forallb (slot_text_ok UPC_firstCharMap) all_ascii = true.
Proof. vm_compute. reflexivity. Qed.

Lemma UPC_last_text : forallb (slot_text_ok UPC_lastCharMap) all_ascii = true.
Proof. vm_compute. reflexivity. Qed.

Lemma UPC_other_text : forallb (slot_text_ok UPC_otherCharMap) all_ascii = true.
Proof. vm_compute. reflexivity. Qed.

(** A string of two characters or more that parses under the maps of
    [UPC] to digits only: without its dashes, it is the text of its
    digits. *)
Lemma UPC_parse_text (c : ascii) (y : pystr) (d : ascii) (ds : list digit) :
  parse (c :: y ++ [d]) UPC_firstCharMap UPC_lastCharMap UPC_otherCharMap
  = OK ds ->
  count_None ds = 0%nat ->
  concat (map str_digit ds) = filter not_dash (c :: y ++ [d]).
Proof.
  rewrite parse_more.
  destruct (slot UPC_firstCharMap c) as [a |] eqn:Ha; cbn [rbind];
    [| discriminate].
  destruct (slots UPC_otherCharMap y) as [r |] eqn:Hr; cbn [rbind];
    [| discriminate].
  destruct (slot UPC_lastCharMap d) as [b |] eqn:Hb; cbn [rbind];
    [| discriminate].
  intros [= <-] Hc. rewrite !count_None_app in Hc.
  rewrite !map_app, !concat_app.
  rewrite (slot_text _ _ _ UPC_first_text Ha) by lia.
  rewrite (slots_text _ _ _ UPC_other_text Hr) by lia.
  rewrite (slot_text _ _ _ UPC_last_text Hb) by lia.
  change (c :: y ++ [d]) with ([c] ++ y ++ [d]).
  rewrite !filter_app. cbn [filter].
  now destruct (not_dash c), (not_dash d).
Qed.

(** The text of an EAN-13: the label and the string in [repr], and the
    digits of the two halves, which with the leading digit are the
    string without its dashes. *)
Definition EAN13_text (F : format) (c : instance) : Prop :=
  exists d0,
    getitem (digits c) 0 = OK (Some d0) /\
    length (EAN13_leftDigits c) = 6%nat /\
    length (EAN13_rightDigits c) = 6%nat /\
    [digit_char d0] ++ EAN13_leftDigits c ++ EAN13_rightDigits c
    = filter not_dash (self_s c) /\
    ProductCode_repr c = label (attrs_of F) ++ str " " ++ self_s c /\
    EAN13_as13 c = c.

Lemma family_post (F : format) (s : pystr) msgs c msgs' :
  In F [F_EAN13; F_ISBN13; F_ISMN13] ->
  construct F s msgs = (OK c, msgs') ->
  EAN13_post (type (attrs_of F)) (label (attrs_of F)) s c.
Proof.
  intros HF Hrun. destruct s as [| ch s].
  { cbn in HF. destruct HF as [<- | [<- | [<- | []]]]; discriminate Hrun. }
  assert (Hne : ch :: s <> []) by discriminate.
  cbn in HF. destruct HF as [<- | [<- | [<- | []]]]; cbn [construct] in Hrun.
  - exact (hoare_run_OK _ _ _ _ _ _ (EAN13_hoare _ Hne) Hrun).
  - apply (hoare_run_OK _ _ _ _ _ _ (ISBN13_hoare _ Hne)) in Hrun.
    apply Hrun.
  - apply (hoare_run_OK _ _ _ _ _ _ (ISMN13_hoare _ Hne)) in Hrun.
    apply Hrun.
Qed.

(** X18.  The text of a constructed EAN-13, ISBN-13 or ISMN-13:
    [leftDigits] and [rightDigits] hold six characters each, the leading
    digit followed by the two is the normalized string without its
    dashes, [repr] is the label, a space and the normalized string, and
    [as13] is the code itself. *)
Theorem EAN13_text_of_digits (F : format) (s : pystr) msgs c msgs' :
  In F [F_EAN13; F_ISBN13; F_ISMN13] ->
  construct F s msgs = (OK c, msgs') ->
  EAN13_text F c.
Proof.
  intros HF Hrun.
  assert (Hlb : label (attrs_of F) <> []).
  { cbn in HF. destruct HF as [<- | [<- | [<- | []]]]; discriminate. }
  destruct (family_post F s msgs c msgs' HF Hrun)
    as [o [Hinit [Hdec [Hlen ->]]]].
  set (ty := type (attrs_of F)) in *. set (lb := label (attrs_of F)) in *.
  assert (Hz : checksum EAN13_weights 10 (digits o) = 0).
  { destruct Hinit as [ds0 [i [_ [Hl [Hres _]]]]].
    now destruct (resolution_mod10 _ _ _ _ EAN13_units Hl Hres). }
  pose proof (init_post_parse_back (EAN13_attrs ty lb) EAN13_weights 10
                9 9 9 s o good_UPC_firstCharMap good_UPC_lastCharMap
                good_UPC_otherCharMap Hinit Hz) as Hback.
  unfold parse_with in Hback. cbn [firstCharMap lastCharMap otherCharMap
                                    EAN13_attrs] in Hback.
  pose proof (decimal_count 9 _ Hdec) as Hc.
  assert (Hlong : (13 <= length (self_s o))%nat).
  { rewrite <- Hlen. apply (parse_length _ _ _ _ _ Hback). lia. }
  destruct (pystr_shape (self_s o)) as [Hs | [[c0 Hs] | [c0 [y [d Hs]]]]];
    [rewrite Hs in Hlong; cbn in Hlong; lia
    | rewrite Hs in Hlong; cbn in Hlong; lia |].
  rewrite Hs in Hback.
  pose proof (UPC_parse_text c0 y d _ Hback Hc) as Htext.
  rewrite <- Hs in Htext. clear Hback Hs Hlong.
  assert (Hlabel : self_label o = lb).
  { destruct Hinit as [ds0 [i [_ [_ [_ [_ [_ [_ [_ [_ [H _]]]]]]]]]]].
    exact H. }
  unfold EAN13_text, EAN13_leftDigits, EAN13_rightDigits, ProductCode_repr,
    EAN13_as13.
  cbn [digits self_s self_label set_bits]. fold lb. rewrite Hlabel.
  destruct (digits o) as [| d0 data] eqn:Hdo; [discriminate Hlen |].
  inversion Hdec as [| ? ? [n0 [-> Hn0]] Hdata]; subst.
  exists n0. split; [apply getitem_0 |].
  change (Some 1) with (Some (Z.of_nat 1)).
  change (Some 7) with (Some (Z.of_nat 7)).
  change (Some 13) with (Some (Z.of_nat 13)).
  rewrite !slice_from_to by lia. rewrite !join_nil_concat.
  change (skipn 1 (Some n0 :: data)) with data.
  change (skipn 7 (Some n0 :: data)) with (skipn 6 data).
  change (7 - 1)%nat with 6%nat. change (13 - 7)%nat with 6%nat.
  cbn [length] in Hlen. injection Hlen as Hlen.
  rewrite (firstn_all2 (n := 6) (skipn 6 data))
    by (rewrite length_skipn; lia).
  assert (Hone : forall l : list digit,
             Forall (decimal 9) l ->
             length (concat (map str_digit l)) = length l).
  { intros l Hl. induction Hl as [| x l [n [-> Hn]] _ IH]; [reflexivity |].
    cbn [map concat str_digit]. rewrite (pystr_of_digit n Hn).
    cbn [app length]. now rewrite IH. }
  split; [| split; [| split; [| split]]].
  - rewrite Hone by now apply Forall_firstn.
    rewrite length_firstn. lia.
  - rewrite Hone by now apply Forall_skipn.
    rewrite length_skipn. lia.
  - rewrite <- Htext. cbn [map concat str_digit].
    rewrite (pystr_of_digit n0 Hn0).
    rewrite <- concat_app, <- map_app, firstn_skipn. reflexivity.
  - destruct lb; [contradiction | reflexivity].
  - reflexivity.
Qed.

Lemma EAN13_text_of_digits_witness : EAN13_text F_ISBN13 sample_ISBN13.
Proof.
  apply (EAN13_text_of_digits F_ISBN13 (str "978-0-9669553-0-9") []
           sample_ISBN13 []).
  - right. now left.
  - vm_compute. reflexivity.
Defined.

(** * Further properties: the strings ISMN and ISBN10 accept *)

Lemma substring_b_cons (p : pystr) (c : ascii) (y : pystr) :
  substring_b p y = true -> substring_b p (c :: y) = true.
Proof. intros H. cbn [substring_b]. rewrite H. apply orb_true_r. Qed.

Lemma prefix_b_app (p y z : pystr) :
  prefix_b p y = true -> prefix_b p (y ++ z) = true.
Proof.
  revert y. induction p as [| a p IH]; intros y; [reflexivity |].
  destruct y as [| b y]; cbn [prefix_b app]; [discriminate |].
  intros H. apply andb_prop in H. destruct H as [-> H]. now apply IH.
Qed.

Lemma substring_b_app (p y z : pystr) :
  substring_b p y = true -> substring_b p (y ++ z) = true.
Proof.
  induction y as [| b y IH]; intros H.
  - cbn in H. rewrite orb_false_r in H.
    pose proof (prefix_b_app p [] z H) as K. cbn [app] in K |- *.
    destruct z; cbn [substring_b]; rewrite K; reflexivity.
  - cbn [substring_b] in H. cbn [app substring_b].
    apply orb_prop in H. destruct H as [H | H].
    + pose proof (prefix_b_app _ (b :: y) z H) as K. cbn [app] in K.
      now rewrite K.
    + rewrite (IH H). apply orb_true_r.
Qed.

(** Two equal separators in a row begin at no other character. *)
Lemma double_skip (a b : ascii) (y : pystr) :
  Ascii.eqb a b = false ->
  substring_b [a; a] (b :: y) = substring_b [a; a] y.
Proof. intros H. cbn [substring_b prefix_b]. now rewrite H. Qed.

Lemma double_skip_pair (a b : ascii) (y : pystr) :
  Ascii.eqb a b = false ->
  substring_b [a; a] (a :: b :: y) = substring_b [a; a] y.
Proof.
  intros H. cbn [substring_b prefix_b]. rewrite H.
  now rewrite !andb_false_r.
Qed.

Lemma double_last (a b : ascii) (x : pystr) :
  Ascii.eqb a b = false ->
  substring_b [a; a] (x ++ [b]) = substring_b [a; a] x.
Proof.
  intros H. induction x as [| c x IH].
  - cbn. now rewrite H.
  - cbn [app substring_b]. rewrite IH. f_equal.
    cbn [prefix_b]. f_equal.
    destruct x as [| e x]; cbn [app prefix_b]; [| reflexivity].
    rewrite H. reflexivity.
Qed.

Lemma doubled_inner (c0 : ascii) (y : pystr) (d : ascii) :
  doubled_separator (c0 :: y ++ [d]) = false ->
  doubled_separator y = false /\ doubled_separator (c0 :: y) = false.
Proof.
  unfold doubled_separator. intros H.
  apply orb_false_elim in H. destruct H as [H1 H2].
  assert (K : forall p, substring_b p (c0 :: y ++ [d]) = false ->
                        substring_b p y = false /\
                        substring_b p (c0 :: y) = false).
  { intros p Hp. split.
    - destruct (substring_b p y) eqn:E; [| reflexivity].
      rewrite <- Hp. symmetry.
      apply substring_b_cons, substring_b_app, E.
    - destruct (substring_b p (c0 :: y)) eqn:E; [| reflexivity].
      rewrite <- Hp. symmetry.
      exact (substring_b_app p (c0 :: y) [d] E). }
  destruct (K _ H1) as [-> ->], (K _ H2) as [-> ->]. now split.
Qed.

(** A class of the EAN-13 family returns, with its bits set, on every
    string that passes the tests. *)
Lemma family_returns (F : format) (t : pystr) :
  In F [F_EAN13; F_ISBN13; F_ISMN13] ->
  init_accepts (attrs_of F) EAN13_weights 10 t -> prefix_test F t = true ->
  exists o b, outcome (construct F t) (OK o) /\ bits o = Some b.
Proof.
  intros HF Hacc Hpre.
  assert (Ht : t <> []).
  { destruct Hacc as [ds [Hp _]]. exact (parse_OK_nonempty _ _ _ _ _ Hp). }
  destruct (EAN13_family_outcome F t HF Ht) as [r [Hr Hq]].
  destruct r as [o | e].
  - destruct (EAN13_post_bits _ _ _ _
                (family_post F t [] o _ HF (Hr []))) as [b Hb].
    now exists o, b.
  - exfalso. destruct Hq as [Hq | [_ Hq]].
    + exact (init_failure_not_accepts _ _ _ _ _ Hq Hacc).
    + congruence.
Qed.

(** The interior map of [ISMN] is the interior map of [UPC] with the
    space added. *)
Definition ISMN_other_char (c : ascii) : bool :=
  Ascii.eqb c " " || submap_char (otherCharMap ISMN_attrs) UPC_otherCharMap c.

Lemma ISMN_other_slot (c : ascii) (a : list digit) :
  slot (otherCharMap ISMN_attrs) c = OK a -> c <> " "%char ->
  slot UPC_otherCharMap c = OK a.
Proof.
  assert (H : forallb ISMN_other_char all_ascii = true)
    by (vm_compute; reflexivity).
  intros Ha Hc. pose proof (forall_ascii _ H c) as Hb.
  unfold ISMN_other_char in Hb.
  destruct (Ascii.eqb_spec c " ") as [-> | _]; [contradiction |].
  cbn [orb] in Hb. unfold submap_char in Hb.
  unfold slot, dict_getitem in *.
  destruct (dict_find (otherCharMap ISMN_attrs) [c]) as [v |];
    [| discriminate].
  destruct (dict_find UPC_otherCharMap [c]) as [v' |]; [| discriminate].
  clear H. cbn in *. injection Ha as <-. f_equal. now apply same_slot_append.
Qed.

Lemma ISMN_other_slots (y : pystr) (r : list digit) :
  slots (otherCharMap ISMN_attrs) y = OK r -> ~ In " "%char y ->
  slots UPC_otherCharMap y = OK r.
Proof.
  revert r. induction y as [| c y IH]; intros r Hr Hy; [exact Hr |].
  cbn [slots] in *.
  destruct (slot (otherCharMap ISMN_attrs) c) as [a |] eqn:Ha;
    cbn [rbind] in Hr; [| discriminate].
  destruct (slots (otherCharMap ISMN_attrs) y) as [r' |];
    cbn [rbind] in Hr; [| discriminate].
  rewrite (ISMN_other_slot c a Ha) by (intros ->; apply Hy; now left).
  rewrite (IH r' eq_refl) by (intros Hin; apply Hy; now right).
  exact Hr.
Qed.

(** The string of an ISMN that [ProductCode.__init__] accepted: the M,
    a body with eight digits, and the character of the check digit. *)
Lemma ISMN_init_body (s : pystr) (o0 : instance) :
  init_post ISMN_attrs ISMN_weights 10 s o0 ->
  Forall (decimal 9) (digits o0) ->
  exists y d r,
    self_s o0 = "M"%char :: y ++ [d] /\
    slots (otherCharMap ISMN_attrs) y = OK r /\
    count_None r = 0%nat /\ length r = 8%nat /\ d <> " "%char.
Proof.
  intros Hinit Hdec.
  pose proof (decimal_count _ _ Hdec) as Hc0.
  assert (Hz : checksum ISMN_weights 10 (digits o0) = 0).
  { destruct Hinit as [ds0 [i [_ [Hl [Hres _]]]]].
    now destruct (resolution_mod10 _ _ _ _ ISMN_units Hl Hres). }
  pose proof (init_post_parse_back ISMN_attrs ISMN_weights 10 9 9 9 s o0
                good_ISMN_firstCharMap good_ISMN_lastCharMap
                good_ISMN_otherCharMap Hinit Hz) as Hp1.
  assert (Hl1 : length (digits o0) = 10%nat).
  { destruct Hinit as [ds0 [i [_ [Hl [Hres _]]]]].
    now rewrite (resolution_length _ _ _ _ _ Hres). }
  unfold parse_with in Hp1.
  destruct (pystr_shape (self_s o0)) as [Hs0 | [[c0 Hs0] | [c0 [y [d Hs0]]]]];
    rewrite Hs0 in Hp1.
  { discriminate. }
  { rewrite parse_one in Hp1.
    destruct (slot _ c0) as [a |] eqn:Ha; cbn [rbind] in Hp1; [| discriminate].
    destruct (slot (lastCharMap ISMN_attrs) c0) as [bl |] eqn:Hbl;
      cbn [rbind] in Hp1; [| discriminate].
    injection Hp1 as Hp1. rewrite <- Hp1, length_app in Hl1.
    apply slot_length in Ha, Hbl. lia. }
  rewrite parse_more in Hp1.
  destruct (slot (firstCharMap ISMN_attrs) c0) as [a |] eqn:Ha;
    cbn [rbind] in Hp1; [| discriminate].
  destruct (slots (otherCharMap ISMN_attrs) y) as [r |] eqn:Hr;
    cbn [rbind] in Hp1; [| discriminate].
  destruct (slot (lastCharMap ISMN_attrs) d) as [bl |] eqn:Hbl;
    cbn [rbind] in Hp1; [| discriminate].
  injection Hp1 as Hp1.
  destruct (ISMN_first_slot _ _ Ha) as [-> ->].
  pose proof (one_slot_length _ _ _ one_slot_ISMN_last Hbl) as Hbl1.
  rewrite <- Hp1 in Hc0, Hl1. rewrite !count_None_app in Hc0.
  rewrite !length_app in Hl1. cbn [length] in Hl1.
  exists y, d, r. split; [exact Hs0 |]. split; [exact Hr |].
  split; [lia |]. split; [lia |].
  intros ->. vm_compute in Hbl. discriminate.
Qed.

Lemma ISMN_init_no_space (s : pystr) (o0 : instance) :
  init_post ISMN_attrs ISMN_weights 10 s o0 ->
  In " "%char (self_s o0) <-> In " "%char s.
Proof.
  intros Hinit.
  destruct (init_post_separators _ _ _ _ _ Hinit) as [g [Hg Hsep]].
  assert (Hsp : forall c, Ascii.eqb " " (g c) = Ascii.eqb " " c).
  { intros c. apply Hsep. right. now left. }
  rewrite Hg. split.
  - intros Hin. apply in_map_iff in Hin. destruct Hin as [c [Hc Hin]].
    assert (c = " "%char) as <-; [| exact Hin].
    symmetry. apply Ascii.eqb_eq. rewrite <- Hsp, Hc. apply Ascii.eqb_refl.
  - now apply In_separator_map.
Qed.

(** The string [ISMN.as13] builds from an accepted ISMN without space
    passes the tests of [ISMN13]. *)
Lemma ISMN_as13_accepts (y : pystr) (r : list digit) :
  slots (otherCharMap ISMN_attrs) y = OK r ->
  count_None r = 0%nat -> length r = 8%nat ->
  ~ In " "%char y -> doubled_separator y = false ->
  init_accepts (attrs_of F_ISMN13) EAN13_weights 10
               (str "979-0" ++ y ++ str "*").
Proof.
  intros Hr Hc Hl Hy Hd.
  exists ([Some 9; Some 7; Some 9; Some 0] ++ r ++ [None]).
  split; [| split; [| split; [| split]]].
  - unfold parse_with.
    cbn [attrs_of firstCharMap lastCharMap otherCharMap EAN13_attrs].
    rewrite ISMN_as13_parse, (ISMN_other_slots y r Hr Hy). reflexivity.
  - rewrite !count_None_app, Hc. cbn. lia.
  - rewrite !length_app, Hl. reflexivity.
  - rewrite !count_None_app, Hc. cbn. discriminate.
  - unfold doubled_separator in *.
    apply orb_false_elim in Hd. destruct Hd as [H1 H2].
    change (str "979-0" ++ y ++ str "*")
      with ("9"%char :: "7"%char :: "9"%char :: "-"%char :: "0"%char
            :: y ++ [star]).
    change (str "--") with ["-"%char; "-"%char].
    change (str "  ") with [" "%char; " "%char].
    rewrite 3!(double_skip "-") by reflexivity.
    rewrite (double_skip_pair "-") by reflexivity.
    rewrite (double_last "-") by reflexivity.
    rewrite 5!(double_skip " ") by reflexivity.
    rewrite (double_last " ") by reflexivity.
    change ["-"%char; "-"%char] with (str "--").
    change [" "%char; " "%char] with (str "  ").
    now rewrite H1, H2.
Qed.

Lemma ISMN_returns (s : pystr) (o0 o13 : instance) (b : pystr) :
  outcome (ProductCode_init ISMN_attrs s) (OK o0) ->
  outcome (ISMN_as13 o0) (OK o13) -> bits o13 = Some b ->
  outcome (ISMN s) (OK (set_bits o0 b)).
Proof.
  intros H0 H13 Hb. unfold ISMN.
  eapply outcome_bind_OK; [exact H0 |].
  eapply outcome_bind_OK; [exact H13 |].
  rewrite Hb. cbn [getattr].
  eapply outcome_bind_OK; [apply outcome_ret |]. apply outcome_ret.
Qed.

Lemma init_post_doubled (self : attrs) (w : list Z) (m : Z) (s : pystr)
    (o : instance) :
  init_post self w m s o ->
  doubled_separator (self_s o) = doubled_separator s.
Proof.
  intros Hinit.
  destruct (init_post_separators _ _ _ _ _ Hinit) as [g [Hg Hsep]].
  rewrite Hg. unfold doubled_separator.
  rewrite !substring_b_map; [reflexivity | |];
    intros a c Ha; apply Hsep; cbn in Ha |- *;
    destruct Ha as [<- | [<- | []]]; auto.
Qed.

Lemma ISMN_other_space (y : pystr) (r : list digit) :
  slots (otherCharMap ISMN_attrs) y = OK r -> In " "%char y ->
  slots UPC_otherCharMap y = Raise (KeyError (str " ")).
Proof.
  revert r. induction y as [| c y IH]; intros r Hr Hy; [destruct Hy |].
  cbn [slots] in *.
  destruct (slot (otherCharMap ISMN_attrs) c) as [a |] eqn:Ha;
    cbn [rbind] in Hr; [| discriminate].
  destruct (slots (otherCharMap ISMN_attrs) y) as [r' |];
    cbn [rbind] in Hr; [| discriminate].
  destruct (Ascii.eqb_spec c " ") as [-> | Hc]; [reflexivity |].
  rewrite (ISMN_other_slot c a Ha Hc). cbn [rbind].
  rewrite (IH r' eq_refl); [reflexivity |].
  destruct Hy as [Hy | Hy]; [congruence | exact Hy].
Qed.

(** What [ISMN] does with a non-empty string: the error of
    [ProductCode.__init__], or the error of [ISMN13] for a space, or an
    instance. *)
Lemma ISMN_outcome (s : pystr) :
  s <> [] ->
  exists r,
    outcome (ISMN s) r /\
    match r with
    | OK _ =>
        init_accepts ISMN_attrs ISMN_weights 10 s /\ ~ In " "%char s
    | Raise e =>
        init_failure ISMN_attrs ISMN_weights 10 s e \/
        init_accepts ISMN_attrs ISMN_weights 10 s /\ In " "%char s /\
        e = ProductCodeError (Some (str "ISMN13: ' ' invalid here"))
    end.
Proof.
  intros Hs.
  assert (HF : F_ISMN <> F_UPCA) by discriminate.
  destruct (format_init_precise F_ISMN _ HF Hs) as [r [Hr Hq]].
  cbn [attrs_of parsed_string] in Hr, Hq.
  change (weights_of F_ISMN) with ISMN_weights in Hq.
  change (modulus_of F_ISMN) with 10 in Hq.
  destruct r as [o0 | e]; cbn [post] in Hq.
  2:{ exists (Raise e). split; [| now left].
      unfold ISMN. now apply outcome_bind_Raise. }
  destruct Hq as [Hinit Hacc].
  assert (Hdec : Forall (decimal 9) (digits o0)).
  { apply (hoare_outcome_OK _ _ _ _ (ISMN_base_hoare _ Hs) Hr). }
  destruct (ISMN_init_body _ _ Hinit Hdec)
    as [y [d [rr [Hs0 [Hy [Hc [Hl Hd]]]]]]].
  assert (Hsp : In " "%char s <-> In " "%char y).
  { rewrite <- (ISMN_init_no_space _ _ Hinit), Hs0. split.
    - intros [Hin | Hin]; [discriminate Hin |].
      apply in_app_or in Hin. destruct Hin as [Hin | [Hin | []]];
        [exact Hin | congruence].
    - intros Hin. right. apply in_or_app. now left. }
  destruct (in_dec ascii_dec " "%char y) as [Hin | Hns].
  - exists (Raise (ProductCodeError (Some (str "ISMN13: ' ' invalid here")))).
    split; [| right; split; [exact Hacc | split; [now apply Hsp | reflexivity]]].
    unfold ISMN. eapply outcome_bind_OK; [exact Hr |].
    apply outcome_bind_Raise. unfold ISMN_as13.
    rewrite Hs0, slice_interior.
    apply (construct_init_Raise F_ISMN13 (str "979-0" ++ y ++ str "*")).
    apply (init_parse_Raise (attrs_of F_ISMN13) _ (str " ")).
    unfold parse_with.
    cbn [attrs_of parsed_string firstCharMap lastCharMap otherCharMap
         EAN13_attrs].
    rewrite ISMN_as13_parse, (ISMN_other_space y rr Hy Hin). reflexivity.
  - assert (Hdb : doubled_separator y = false).
    { apply (doubled_inner "M" y d).
      rewrite <- Hs0, (init_post_doubled _ _ _ _ _ Hinit).
      now destruct Hacc as [ds [_ [_ [_ [_ Hds]]]]]. }
    pose proof (ISMN_as13_accepts y rr Hy Hc Hl Hns Hdb) as Hacc13.
    destruct (family_returns F_ISMN13 _
                (or_intror (or_intror (or_introl eq_refl))) Hacc13 eq_refl)
      as [o13 [b [H13 Hb]]].
    exists (OK (set_bits o0 b)). split.
    + apply (ISMN_returns _ o0 o13 b Hr); [| exact Hb].
      unfold ISMN_as13. rewrite Hs0, slice_interior. exact H13.
    + split; [exact Hacc |]. intros Hin. now apply Hns, Hsp.
Qed.

(** X19.  The strings [ISMN] accepts: the constructor returns exactly
    when [ProductCode.__init__] accepts the string (an M, then digits,
    dashes, spaces and at most one star that make ten slots, a checksum
    that holds, no doubled separator) and the string holds no space. *)
Theorem ISMN_accepted (s : pystr) (msgs : msgs_t) :
  (exists c msgs', ISMN s msgs = (OK c, msgs')) <->
  init_accepts ISMN_attrs ISMN_weights 10 s /\
  count_occ ascii_dec s " "%char = 0%nat.
Proof.
  destruct s as [| ch s].
  { split.
    - intros [c [msgs' H]]. discriminate H.
    - intros [[ds [Hp _]] _]. discriminate Hp. }
  assert (Hs : ch :: s <> []) by discriminate.
  destruct (ISMN_outcome _ Hs) as [r [Hr Hq]].
  rewrite <- count_occ_not_In. split.
  - intros [c [msgs' Hrun]]. rewrite Hr in Hrun.
    destruct r as [o | e]; [exact Hq | discriminate Hrun].
  - intros [Hacc Hsp]. destruct r as [o | e].
    + exists o, (msgs ++ []). apply Hr.
    + exfalso. destruct Hq as [Hq | [_ [Hin _]]]; [| contradiction].
      exact (init_failure_not_accepts _ _ _ _ _ Hq Hacc).
Qed.

(** X20.  A string with a space that passes every test of [ISMN] itself
    fails in the conversion: the error is that of [ISMN13], the class
    [as13] constructs, for the space. *)
Theorem ISMN_space_error (s : pystr) (msgs : msgs_t) :
  init_accepts ISMN_attrs ISMN_weights 10 s -> In " "%char s ->
  ISMN s msgs
  = (Raise (ProductCodeError (Some (str "ISMN13: ' ' invalid here"))),
     msgs ++ [str "ISMN13: ' ' invalid here"]).
Proof.
  intros Hacc Hsp.
  assert (Hs : s <> []) by (intros ->; destruct Hsp).
  destruct (ISMN_outcome _ Hs) as [r [Hr Hq]].
  apply outcome_raise_run; [| discriminate].
  destruct r as [o | e].
  - destruct Hq as [_ Hq]. contradiction.
  - destruct Hq as [Hq | [_ [_ ->]]]; [| exact Hr].
    exfalso. exact (init_failure_not_accepts _ _ _ _ _ Hq Hacc).
Qed.

Lemma ISMN_space_error_witness :
  ISMN (str "M 345 24680 5") []
  = (Raise (ProductCodeError (Some (str "ISMN13: ' ' invalid here"))),
     [] ++ [str "ISMN13: ' ' invalid here"]).
Proof.
  apply (ISMN_space_error (str "M 345 24680 5") []).
  - exists [Some 3; Some 3; Some 4; Some 5; Some 2; Some 4; Some 6; Some 8;
            Some 0; Some 5].
    split; [vm_compute; reflexivity |]. split; [vm_compute; lia |].
    split; [reflexivity |]. split; [| vm_compute; reflexivity].
    intros _. vm_compute. reflexivity.
  - vm_compute. tauto.
Defined.

(** ** ISBN10 *)

(** A wildcard before the last slot has a solution among 0..9. *)
Definition solvable_inside (s : pystr) : Prop :=
  forall pre rest,
    parse_with ISBN10_attrs s = OK (pre ++ None :: rest) -> rest <> [] ->
    exists v, 0 <= v <= 9 /\
              checksum ISBN10_weights 11 (pre ++ Some v :: rest) = 0.

(** The slots of the normalized string of an ISBN-10: those of the
    instance, or, where the scan found no digit, those of the input with
    its star. *)
Lemma ISBN10_final_slots (s : pystr) (o0 : instance) :
  init_post ISBN10_attrs ISBN10_weights 11 s o0 ->
  exists c0 y d a r bl,
    self_s o0 = c0 :: y ++ [d] /\
    slot (firstCharMap ISBN10_attrs) c0 = OK a /\
    slots (otherCharMap ISBN10_attrs) y = OK r /\
    slot (lastCharMap ISBN10_attrs) d = OK bl /\
    length bl = 1%nat /\ length (a ++ r) = 9%nat /\
    (count_None (a ++ r ++ bl) = 0%nat /\
     (forall pre rest,
        parse_with ISBN10_attrs s = OK (pre ++ None :: rest) ->
        exists v, 0 <= v <= 9 /\
                  checksum ISBN10_weights 11 (pre ++ Some v :: rest) = 0) \/
     exists pre rest,
       parse_with ISBN10_attrs s = OK (pre ++ None :: rest) /\
       a ++ r ++ bl = pre ++ None :: rest /\
       count_None pre = 0%nat /\ count_None rest = 0%nat /\
       forall v, 0 <= v <= 9 ->
                 checksum ISBN10_weights 11 (pre ++ Some v :: rest) <> 0).
Proof.
  intros Hinit.
  assert (Hfin : exists ds1,
             parse_with ISBN10_attrs (self_s o0) = OK ds1 /\
             length ds1 = 10%nat /\
             (count_None ds1 = 0%nat /\
              (forall pre rest,
                 parse_with ISBN10_attrs s = OK (pre ++ None :: rest) ->
                 exists v, 0 <= v <= 9 /\
                   checksum ISBN10_weights 11 (pre ++ Some v :: rest) = 0) \/
              exists pre rest,
                parse_with ISBN10_attrs s = OK (pre ++ None :: rest) /\
                ds1 = pre ++ None :: rest /\
                count_None pre = 0%nat /\ count_None rest = 0%nat /\
                forall v, 0 <= v <= 9 ->
                  checksum ISBN10_weights 11 (pre ++ Some v :: rest) <> 0)).
  { destruct Hinit as [ds0 [i [Hp [Hlen [Hres [Hs _]]]]]].
    fold (parse_with ISBN10_attrs s) in Hp.
    destruct Hres as [Hc Hz | pre rest v -> Hcp Hcr Hv Hz
                     | pre rest -> Hcp Hcr Hno].
    - exists ds0. rewrite Hs. split; [| split; [exact Hlen | left]].
      + exact (parse_upper _ _ _ _ good_ISBN10_firstCharMap
                 good_ISBN10_lastCharMap good_ISBN10_otherCharMap _ _ Hp).
      + split; [exact Hc |]. intros pre rest Hp'. exfalso.
        rewrite Hp in Hp'. injection Hp' as ->.
        rewrite count_None_app, count_None_cons_None in Hc. lia.
    - exists (pre ++ Some v :: rest). rewrite Hs.
      split; [| split].
      + rewrite (parse_subst _ _ _ _ good_ISBN10_firstCharMap
                   good_ISBN10_lastCharMap good_ISBN10_otherCharMap
                   _ _ _ Hv Hp).
        now rewrite fill_wildcard.
      + rewrite length_app in *. exact Hlen.
      + left. split; [rewrite count_None_app, count_None_cons_Some; lia |].
        intros pre' rest' Hp'. rewrite Hp in Hp'. injection Hp' as Heq.
        assert (Hc' : count_None pre' = 0%nat).
        { assert (H : count_None (pre ++ None :: rest)
                      = count_None (pre' ++ None :: rest'))
            by now rewrite Heq.
          rewrite !count_None_app, !count_None_cons_None in H. lia. }
        destruct (wildcard_unique _ _ _ _ Heq Hcp Hc') as [<- <-].
        now exists v.
    - exists (pre ++ None :: rest). rewrite Hs.
      split; [| split; [exact Hlen | right]].
      + exact (parse_upper _ _ _ _ good_ISBN10_firstCharMap
                 good_ISBN10_lastCharMap good_ISBN10_otherCharMap _ _ Hp).
      + exists pre, rest. auto. }
  destruct Hfin as [ds1 [Hp1 [Hl1 Hcase]]].
  unfold parse_with in Hp1.
  destruct (pystr_shape (self_s o0)) as [Hs0 | [[c0 Hs0] | [c0 [y [d Hs0]]]]];
    rewrite Hs0 in Hp1.
  { discriminate. }
  { rewrite parse_one in Hp1.
    destruct (slot _ c0) as [a |] eqn:Ha; cbn [rbind] in Hp1; [| discriminate].
    destruct (slot (lastCharMap ISBN10_attrs) c0) as [bl |] eqn:Hbl;
      cbn [rbind] in Hp1; [| discriminate].
    injection Hp1 as Hp1. rewrite <- Hp1, length_app in Hl1.
    apply slot_length in Ha, Hbl. lia. }
  rewrite parse_more in Hp1.
  destruct (slot (firstCharMap ISBN10_attrs) c0) as [a |] eqn:Ha;
    cbn [rbind] in Hp1; [| discriminate].
  destruct (slots (otherCharMap ISBN10_attrs) y) as [r |] eqn:Hr;
    cbn [rbind] in Hp1; [| discriminate].
  destruct (slot (lastCharMap ISBN10_attrs) d) as [bl |] eqn:Hbl;
    cbn [rbind] in Hp1; [| discriminate].
  injection Hp1 as Hp1.
  pose proof (one_slot_length _ _ _ one_slot_ISBN10_last Hbl) as Hbl1.
  exists c0, y, d, a, r, bl. rewrite Hp1.
  split; [exact Hs0 |]. split; [exact Ha |]. split; [exact Hr |].
  split; [exact Hbl |]. split; [exact Hbl1 |]. split; [| exact Hcase].
  rewrite <- Hp1, !length_app in Hl1. rewrite length_app. lia.
Qed.

(** The slots of the string [ISBN10.as13] builds. *)
Lemma ISBN10_as13_slots (c0 : ascii) (y : pystr) (d : ascii)
    (a r : list digit) :
  slot (firstCharMap ISBN10_attrs) c0 = OK a ->
  slots (otherCharMap ISBN10_attrs) y = OK r ->
  parse (ISBN10_as13_string (c0 :: y ++ [d])) UPC_firstCharMap
        UPC_lastCharMap UPC_otherCharMap
  = OK ([Some 9; Some 7; Some 8] ++ (a ++ r) ++ [None]).
Proof.
  intros Ha Hr. unfold ISBN10_as13_string.
  change (c0 :: y ++ [d]) with ((c0 :: y) ++ [d]).
  rewrite slice_but_last, as13_parse. cbn [slots].
  rewrite (submap_slot _ _ _ _ ISBN10_first_in_UPC_other Ha).
  rewrite (submap_slots _ _ _ _ ISBN10_other_in_UPC_other Hr).
  reflexivity.
Qed.

(** The string [ISBN10.as13] builds passes the tests of [ISBN13] when
    the body holds no wildcard. *)
Lemma ISBN10_as13_accepts (c0 : ascii) (y : pystr) (d : ascii)
    (a r : list digit) :
  slot (firstCharMap ISBN10_attrs) c0 = OK a ->
  slots (otherCharMap ISBN10_attrs) y = OK r ->
  count_None (a ++ r) = 0%nat -> length (a ++ r) = 9%nat ->
  doubled_separator (c0 :: y ++ [d]) = false ->
  init_accepts (attrs_of F_ISBN13) EAN13_weights 10
               (ISBN10_as13_string (c0 :: y ++ [d])) /\
  prefix_test F_ISBN13 (ISBN10_as13_string (c0 :: y ++ [d])) = true.
Proof.
  intros Ha Hr Hc Hl Hd. split.
  - exists ([Some 9; Some 7; Some 8] ++ (a ++ r) ++ [None]).
    split; [| split; [| split; [| split]]].
    + unfold parse_with.
      cbn [attrs_of firstCharMap lastCharMap otherCharMap EAN13_attrs].
      now apply ISBN10_as13_slots.
    + rewrite !count_None_app, <- count_None_app, Hc. cbn. lia.
    + rewrite !length_app, <- length_app, Hl. reflexivity.
    + rewrite !count_None_app, <- count_None_app, Hc. cbn. discriminate.
    + destruct (doubled_inner _ _ _ Hd) as [Hy Hcy].
      unfold doubled_separator in *.
      apply orb_false_elim in Hy. destruct Hy as [H1 _].
      apply orb_false_elim in Hcy. destruct Hcy as [_ H2].
      assert (Hdash : Ascii.eqb "-" c0 = false).
      { destruct (Ascii.eqb_spec "-" c0) as [<- | _]; [| reflexivity].
        vm_compute in Ha. discriminate. }
      unfold ISBN10_as13_string.
      change (c0 :: y ++ [d]) with ((c0 :: y) ++ [d]).
      rewrite slice_but_last.
      change (str "978-" ++ (c0 :: y) ++ str "*")
        with ("9"%char :: "7"%char :: "8"%char :: "-"%char
              :: (c0 :: y) ++ [star]).
      change (str "--") with ["-"%char; "-"%char] in *.
      change (str "  ") with [" "%char; " "%char] in *.
      rewrite 4!(double_skip " ") by reflexivity.
      rewrite (double_last " ") by reflexivity.
      rewrite 3!(double_skip "-") by reflexivity.
      change ((c0 :: y) ++ [star]) with (c0 :: y ++ [star]).
      rewrite (double_skip_pair "-") by exact Hdash.
      rewrite (double_last "-") by reflexivity.
      now rewrite H1, H2.
  - reflexivity.
Qed.

Lemma ISBN10_returns (s : pystr) (o0 o13 : instance) (b : pystr) :
  outcome (ProductCode_init ISBN10_attrs s) (OK o0) ->
  outcome (ISBN10_as13 o0) (OK o13) -> bits o13 = Some b ->
  outcome (ISBN10 s) (OK (set_bits o0 b)).
Proof.
  intros H0 H13 Hb. unfold ISBN10.
  eapply outcome_bind_OK; [exact H0 |].
  eapply outcome_bind_OK; [exact H13 |].
  rewrite Hb. cbn [getattr].
  eapply outcome_bind_OK; [apply outcome_ret |]. apply outcome_ret.
Qed.

(** What [ISBN10] does with a non-empty string: the error of
    [ProductCode.__init__], or the error of [ISBN13] for a second
    wildcard, or an instance. *)
Lemma ISBN10_outcome (s : pystr) :
  s <> [] ->
  exists r,
    outcome (ISBN10 s) r /\
    match r with
    | OK _ =>
        init_accepts ISBN10_attrs ISBN10_weights 11 s /\ solvable_inside s
    | Raise e =>
        init_failure ISBN10_attrs ISBN10_weights 11 s e \/
        init_accepts ISBN10_attrs ISBN10_weights 11 s /\
        (exists pre rest,
            parse_with ISBN10_attrs s = OK (pre ++ None :: rest) /\
            rest <> [] /\
            forall v, 0 <= v <= 9 ->
              checksum ISBN10_weights 11 (pre ++ Some v :: rest) <> 0) /\
        e = ProductCodeError
              (Some (str "ISBN13: too many wildcard digits."))
    end.
Proof.
  intros Hs.
  assert (HF : F_ISBN10 <> F_UPCA) by discriminate.
  destruct (format_init_precise F_ISBN10 _ HF Hs) as [r0 [Hr0 Hq]].
  cbn [attrs_of parsed_string] in Hr0, Hq.
  change (weights_of F_ISBN10) with ISBN10_weights in Hq.
  change (modulus_of F_ISBN10) with 11 in Hq.
  destruct r0 as [o0 | e]; cbn [post] in Hq.
  2:{ exists (Raise e). split; [| now left].
      unfold ISBN10. now apply outcome_bind_Raise. }
  destruct Hq as [Hinit Hacc].
  destruct (ISBN10_final_slots _ _ Hinit)
    as [c0 [y [d [a [r [bl [Hs0 [Ha [Hr [Hbl [Hbl1 [Hlen Hcase]]]]]]]]]]]].
  assert (Hret : count_None (a ++ r) = 0%nat ->
                 exists c, outcome (ISBN10 s) (OK c)).
  { intros Hc.
    assert (Hd : doubled_separator (c0 :: y ++ [d]) = false).
    { rewrite <- Hs0, (init_post_doubled _ _ _ _ _ Hinit).
      now destruct Hacc as [ds [_ [_ [_ [_ Hds]]]]]. }
    destruct (ISBN10_as13_accepts c0 y d a r Ha Hr Hc Hlen Hd)
      as [Hacc13 Hpre13].
    destruct (family_returns F_ISBN13 _
                (or_intror (or_introl eq_refl)) Hacc13 Hpre13)
      as [o13 [b [H13 Hb]]].
    exists (set_bits o0 b).
    apply (ISBN10_returns _ o0 o13 b Hr0); [| exact Hb].
    unfold ISBN10_as13. rewrite Hs0. exact H13. }
  destruct Hcase as [[Hc Hsol] | [pre [rest [Hp [Heq [Hcp [Hcr Hno]]]]]]].
  { destruct Hret as [c Hc0].
    { rewrite app_assoc, count_None_app in Hc. lia. }
    exists (OK c). split; [exact Hc0 |]. split; [exact Hacc |].
    intros pre rest Hp _. exact (Hsol pre rest Hp). }
  destruct rest as [| x rest].
  - destruct Hret as [c Hc0].
    { destruct bl as [| z [| ? ?]]; try discriminate.
      rewrite app_assoc in Heq. apply app_inj_tail in Heq.
      destruct Heq as [-> _]. exact Hcp. }
    exists (OK c). split; [exact Hc0 |]. split; [exact Hacc |].
    intros pre' rest' Hp' Hrest'. exfalso.
    rewrite Hp in Hp'. injection Hp' as Hpp.
    assert (Hc' : count_None pre' = 0%nat).
    { assert (H : count_None (pre ++ [None])
                  = count_None (pre' ++ None :: rest'))
        by now rewrite Hpp.
      rewrite !count_None_app, !count_None_cons_None in H. lia. }
    destruct (wildcard_unique _ _ _ _ Hpp Hcp Hc') as [_ Hnil].
    now symmetry in Hnil.
  - exists (Raise (ProductCodeError
                     (Some (str "ISBN13: too many wildcard digits.")))).
    split.
    2:{ right. split; [exact Hacc |]. split; [| reflexivity].
        exists pre, (x :: rest). split; [exact Hp |].
        split; [discriminate | exact Hno]. }
    assert (Hfront : count_None (a ++ r) <> 0%nat).
    { intros Hc. rewrite app_assoc in Heq.
      destruct (resolved_front _ _ _ _ Hc Hbl1 Heq) as [_ [Hnil _]].
      discriminate Hnil. }
    unfold ISBN10. eapply outcome_bind_OK; [exact Hr0 |].
    apply outcome_bind_Raise. unfold ISBN10_as13.
    change (str "ISBN13: too many wildcard digits.")
      with (too_many (attrs_of F_ISBN13)).
    apply (construct_init_failure F_ISBN13); [discriminate | discriminate |].
    apply (fail_too_many _ _ _ _
             ([Some 9; Some 7; Some 8] ++ (a ++ r) ++ [None])).
    + unfold parse_with.
      cbn [attrs_of parsed_string firstCharMap lastCharMap otherCharMap
           EAN13_attrs].
      rewrite Hs0. exact (ISBN10_as13_slots c0 y d a r Ha Hr).
    + rewrite 2!count_None_app. change (count_None [None]) with 1%nat. lia.
Qed.

(** X21.  The strings [ISBN10] accepts: the constructor returns exactly
    when [ProductCode.__init__] accepts the string and a wildcard that
    stands before the last slot has a solution among 0..9.  (A wildcard
    in the last slot needs none: [as13] drops the last character.) *)
Theorem ISBN10_accepted (s : pystr) (msgs : msgs_t) :
  (exists c msgs', ISBN10 s msgs = (OK c, msgs')) <->
  init_accepts ISBN10_attrs ISBN10_weights 11 s /\ solvable_inside s.
Proof.
  destruct s as [| ch s].
  { split.
    - intros [c [msgs' H]]. discriminate H.
    - intros [[ds [Hp _]] _]. discriminate Hp. }
  assert (Hs : ch :: s <> []) by discriminate.
  destruct (ISBN10_outcome _ Hs) as [r [Hr Hq]].
  split.
  - intros [c [msgs' Hrun]]. rewrite Hr in Hrun.
    destruct r as [o | e]; [exact Hq | discriminate Hrun].
  - intros [Hacc Hsolv]. destruct r as [o | e].
    + exists o, (msgs ++ []). apply Hr.
    + exfalso.
      destruct Hq as [Hq | [_ [[pre [rest [Hp [Hrest Hno]]]] _]]].
      * exact (init_failure_not_accepts _ _ _ _ _ Hq Hacc).
      * destruct (Hsolv pre rest Hp Hrest) as [v [Hv Hz]].
        exact (Hno v Hv Hz).
Qed.

(** X22.  An ISBN-10 whose wildcard stands before the last slot and has
    no solution among 0..9 (its place would need an X) fails in the
    conversion: the star is still in the string [as13] builds, which
    adds a second one, and the error is that of [ISBN13]. *)
Theorem ISBN10_inner_wildcard_error (s : pystr) (msgs : msgs_t)
    (pre rest : list digit) :
  init_accepts ISBN10_attrs ISBN10_weights 11 s ->
  parse_with ISBN10_attrs s = OK (pre ++ None :: rest) -> rest <> [] ->
  (forall v, 0 <= v <= 9 ->
             checksum ISBN10_weights 11 (pre ++ Some v :: rest) <> 0) ->
  ISBN10 s msgs
  = (Raise (ProductCodeError
              (Some (str "ISBN13: too many wildcard digits."))),
     msgs ++ [str "ISBN13: too many wildcard digits."]).
Proof.
  intros Hacc Hp Hrest Hno.
  assert (Hs : s <> []) by exact (parse_OK_nonempty _ _ _ _ _ Hp).
  destruct (ISBN10_outcome _ Hs) as [r [Hr Hq]].
  apply outcome_raise_run; [| discriminate].
  destruct r as [o | e].
  - exfalso. destruct Hq as [_ Hsolv].
    destruct (Hsolv pre rest Hp Hrest) as [v [Hv Hz]]. exact (Hno v Hv Hz).
  - destruct Hq as [Hq | [_ [_ ->]]]; [| exact Hr].
    exfalso. exact (init_failure_not_accepts _ _ _ _ _ Hq Hacc).
Qed.

Lemma ISBN10_inner_wildcard_error_witness :
  ISBN10 (str "00000000*2") []
  = (Raise (ProductCodeError
              (Some (str "ISBN13: too many wildcard digits."))),
     [] ++ [str "ISBN13: too many wildcard digits."]).
Proof.
  apply (ISBN10_inner_wildcard_error (str "00000000*2") []
           [Some 0; Some 0; Some 0; Some 0; Some 0; Some 0; Some 0; Some 0]
           [Some 2]).
  - exists [Some 0; Some 0; Some 0; Some 0; Some 0; Some 0; Some 0; Some 0;
            None; Some 2].
    split; [vm_compute; reflexivity |]. split; [vm_compute; lia |].
    split; [reflexivity |]. split; [| vm_compute; reflexivity].
    vm_compute. discriminate.
  - vm_compute. reflexivity.
  - discriminate.
  - intros v Hv. digit_cases v; vm_compute; discriminate.
Defined.

(** * Further properties: every failure of a constructor *)

Definition prefix_error (F : format) : pystr :=
  match F with
  | F_ISBN13 => ISBN13_prefix_error
  | F_ISMN13 => ISMN13_prefix_error
  | _ => []
  end.

(** The strings the constructor of [F] returns on. *)
Definition accepted (F : format) (s : pystr) : Prop :=
  init_accepts (attrs_of F) (weights_of F) (modulus_of F)
               (parsed_string F s) /\
  prefix_test F s = true /\
  (F = F_ISBN10 -> solvable_inside s) /\
  (F = F_ISMN -> ~ In " "%char s).

(** The errors the constructor of [F] raises on [s]: one of the five of
    [ProductCode.__init__], the prefix error of [ISBN13] and [ISMN13],
    and the two errors of a conversion, which carry the name of the
    class [as13] constructs. *)
Inductive failure (F : format) (s : pystr) : exn -> Prop :=
| failure_init e :
    init_failure (attrs_of F) (weights_of F) (modulus_of F)
                 (parsed_string F s) e ->
    failure F s e
| failure_prefix :
    init_accepts (attrs_of F) (weights_of F) (modulus_of F)
                 (parsed_string F s) ->
    prefix_test F s = false ->
    failure F s (ProductCodeError (Some (prefix_error F)))
| failure_ISBN10_as13 pre rest :
    F = F_ISBN10 ->
    init_accepts ISBN10_attrs ISBN10_weights 11 s ->
    parse_with ISBN10_attrs s = OK (pre ++ None :: rest) -> rest <> [] ->
    (forall v, 0 <= v <= 9 ->
               checksum ISBN10_weights 11 (pre ++ Some v :: rest) <> 0) ->
    failure F s (ProductCodeError
                   (Some (str "ISBN13: too many wildcard digits.")))
| failure_ISMN_as13 :
    F = F_ISMN ->
    init_accepts ISMN_attrs ISMN_weights 10 s -> In " "%char s ->
    failure F s (ProductCodeError (Some (str "ISMN13: ' ' invalid here"))).

Lemma failure_not_accepted (F : format) (s : pystr) (e : exn) :
  failure F s e -> accepted F s -> False.
Proof.
  intros Hf [Hacc [Hpre [Hsolv Hsp]]].
  destruct Hf as [e Hf | _ Hf | pre rest -> _ Hp Hrest Hno | -> _ Hin].
  - exact (init_failure_not_accepts _ _ _ _ _ Hf Hacc).
  - congruence.
  - destruct (Hsolv eq_refl pre rest Hp Hrest) as [v [Hv Hz]].
    exact (Hno v Hv Hz).
  - exact (Hsp eq_refl Hin).
Qed.

Lemma failure_fun (F : format) (s : pystr) (e e' : exn) :
  failure F s e -> failure F s e' -> e = e'.
Proof.
  intros H H'.
  destruct H as [e Hf | Hacc Hpre | pre rest HF Hacc _ _ _ | HF Hacc _];
    destruct H' as [e' Hf' | Hacc' Hpre' | pre' rest' HF' Hacc' _ _ _
                   | HF' Hacc' _];
    try reflexivity; try congruence;
    try (subst F; discriminate);
    try (exfalso; subst F;
         first [exact (init_failure_not_accepts _ _ _ _ _ Hf Hacc')
               | exact (init_failure_not_accepts _ _ _ _ _ Hf' Hacc)]).
  - exact (init_failure_fun _ _ _ _ _ _ Hf Hf').
  - exfalso. exact (init_failure_not_accepts _ _ _ _ _ Hf Hacc').
  - exfalso. exact (init_failure_not_accepts _ _ _ _ _ Hf' Hacc).
Qed.

Lemma prefixed_family_outcome (F : format) (ty lb p0 p1 p2 msg s : pystr) :
  s <> [] ->
  attrs_of F = EAN13_attrs ty lb -> parsed_string F s = s ->
  weights_of F = EAN13_weights -> modulus_of F = 10 ->
  prefix_test F s = prefix_ok s p0 p1 p2 -> prefix_error F = ty ++ msg ->
  F <> F_ISBN10 -> F <> F_ISMN ->
  exists r,
    outcome (prefixed ty lb p0 p1 p2 msg s) r /\
    match r with
    | OK _ => accepted F s
    | Raise e => failure F s e
    end.
Proof.
  intros Hs Hat Hps Hw Hm Hpt Hpe H10 HM.
  assert (Hacc_eq : init_accepts (EAN13_attrs ty lb) EAN13_weights 10 s ->
                    init_accepts (attrs_of F) (weights_of F) (modulus_of F)
                                 (parsed_string F s))
    by now rewrite Hat, Hps, Hw, Hm.
  destruct (EAN13_init_precise ty lb s Hs) as [r [Hr Hq]].
  destruct r as [o | e]; cbn [post] in Hq.
  - destruct Hq as [_ Hacc].
    pose proof (prefixed_outcome ty lb p0 p1 p2 msg s o Hs Hr) as Hout.
    destruct (prefix_ok s p0 p1 p2) eqn:E.
    + exists (OK o). split; [exact Hout |].
      split; [now apply Hacc_eq |]. split; [congruence |].
      split; intros Hx; contradiction.
    + exists (Raise (ProductCodeError (Some (ty ++ msg)))).
      split; [exact Hout |]. rewrite <- Hpe.
      apply failure_prefix; [now apply Hacc_eq | congruence].
  - exists (Raise e). split.
    + unfold prefixed. now apply outcome_bind_Raise.
    + apply failure_init. now rewrite Hat, Hps, Hw, Hm.
Qed.

(** What the constructor of [F] does: it returns on the strings it
    accepts, and raises one of its errors on the others. *)
Lemma construct_outcome (F : format) (s : pystr) :
  F <> F_UPCA -> parsed_string F s <> [] ->
  exists r,
    outcome (construct F s) r /\
    match r with
    | OK _ => accepted F s
    | Raise e => failure F s e
    end.
Proof.
  intros HF Hs. destruct F; [contradiction | | | | | |].
  - cbn [parsed_string] in Hs.
    destruct (EAN13_init_precise (str "EAN13") (str "EAN13") s Hs)
      as [r [Hr Hq]].
    exists r. split; [exact Hr |].
    destruct r as [o | e]; cbn [post] in Hq.
    + split; [apply Hq |]. split; [reflexivity |].
      split; intros Hx; discriminate Hx.
    + apply failure_init. exact Hq.
  - destruct (format_init_precise F_UPC5 s HF Hs) as [r0 [Hr0 Hq]].
    destruct r0 as [o0 | e]; cbn [post] in Hq.
    + destruct (UPC5_returns s o0 Hr0) as [c Hc].
      exists (OK c). split; [exact Hc |].
      split; [apply Hq |]. split; [reflexivity |].
      split; intros Hx; discriminate Hx.
    + exists (Raise e). split; [| now apply failure_init].
      now apply construct_init_Raise.
  - cbn [parsed_string] in Hs.
    destruct (ISBN10_outcome s Hs) as [r [Hr Hq]].
    exists r. split; [exact Hr |].
    destruct r as [o | e].
    + destruct Hq as [Hacc Hsolv].
      split; [exact Hacc |]. split; [reflexivity |].
      split; [auto | intros Hx; discriminate Hx].
    + destruct Hq as [Hq | [Hacc [[pre [rest [Hp [Hrest Hno]]]] ->]]].
      * now apply failure_init.
      * now apply (failure_ISBN10_as13 _ _ pre rest).
  - cbn [parsed_string] in Hs. cbn [construct]. rewrite ISBN13_prefixed.
    apply prefixed_family_outcome; try reflexivity; try discriminate.
    exact Hs.
  - cbn [parsed_string] in Hs.
    destruct (ISMN_outcome s Hs) as [r [Hr Hq]].
    exists r. split; [exact Hr |].
    destruct r as [o | e].
    + destruct Hq as [Hacc Hsp].
      split; [exact Hacc |]. split; [reflexivity |].
      split; [intros Hx; discriminate Hx | auto].
    + destruct Hq as [Hq | [Hacc [Hin ->]]].
      * now apply failure_init.
      * now apply failure_ISMN_as13.
  - cbn [parsed_string] in Hs. cbn [construct]. rewrite ISMN13_prefixed.
    apply prefixed_family_outcome; try reflexivity; try discriminate.
    exact Hs.
Qed.

(** X23.  Every failure of a constructor.  On a string it can index,
    the constructor of a class with weights raises [e] exactly when [e]
    is one of: the five errors of [ProductCode.__init__] (a character
    that is invalid here, too many wildcard digits, wrong number of
    digits, checksum error, repeated separator), each on the strings
    that fail that test and pass the ones before it; the prefix error
    of [ISBN13] and [ISMN13]; the error of [ISBN13] for a second
    wildcard, from [ISBN10]; the error of [ISMN13] for a space, from
    [ISMN]. *)
Theorem constructor_failures (F : format) (s : pystr) (msgs : msgs_t)
    (e : exn) :
  F <> F_UPCA -> parsed_string F s <> [] ->
  (exists msgs', construct F s msgs = (Raise e, msgs')) <-> failure F s e.
Proof.
  intros HF Hs. destruct (construct_outcome F s HF Hs) as [r [Hr Hq]].
  split.
  - intros [msgs' Hrun]. rewrite Hr in Hrun.
    destruct r as [o | e0]; [discriminate Hrun |].
    injection Hrun as <- _. exact Hq.
  - intros Hf. destruct r as [o | e0].
    + exfalso. exact (failure_not_accepted _ _ _ Hf Hq).
    + rewrite (failure_fun _ _ _ _ Hf Hq). eexists. apply Hr.
Qed.

Lemma constructor_failures_witness :
  failure F_ISBN13 (str "078-0-9669553-0-8")
          (ProductCodeError (Some ISBN13_prefix_error)).
Proof.
  apply (constructor_failures F_ISBN13 (str "078-0-9669553-0-8") []);
    [discriminate | discriminate |].
  exists [ISBN13_prefix_error]. vm_compute. reflexivity.
Defined.

(** * Further properties: constructing again from the normalized string *)

Lemma EAN13_reconstructs (ty lb s : pystr) (o : instance) :
  EAN13_post ty lb s o ->
  outcome (EAN13_init ty lb (self_s o)) (OK (regiven o (self_s o))).
Proof.
  intros [o0 [Hinit [Hdec [Hlen ->]]]].
  assert (Hz : checksum EAN13_weights 10 (digits o0) = 0).
  { destruct Hinit as [ds0 [i [_ [Hl [Hres _]]]]].
    now destruct (resolution_mod10 _ _ _ _ EAN13_units Hl Hres). }
  assert (Hm0 : 10 <> 0) by discriminate.
  pose proof (init_rerun (EAN13_attrs ty lb) EAN13_weights 10 9 9 9
                eq_refl eq_refl Hm0 good_UPC_firstCharMap
                good_UPC_lastCharMap good_UPC_otherCharMap
                s o0 Hinit (decimal_count _ _ Hdec) Hz) as Hre.
  apply (EAN13_init_outcome ty lb _ _ Hre); [exact Hdec | exact Hlen].
Qed.

Lemma prefixed_reconstructs (ty lb p0 p1 p2 msg s : pystr) (o : instance) :
  EAN13_post ty lb s o ->
  outcome (prefixed ty lb p0 p1 p2 msg (self_s o))
          (if prefix_ok (self_s o) p0 p1 p2 then OK (regiven o (self_s o))
           else Raise (ProductCodeError (Some (ty ++ msg)))).
Proof.
  intros Hpost. pose proof (EAN13_reconstructs _ _ _ _ Hpost) as Hout.
  apply prefixed_outcome; [| exact Hout].
  intros Hnil. rewrite Hnil in Hout. specialize (Hout []).
  rewrite EAN13_init_nil in Hout. discriminate.
Qed.

Lemma ISBN10_reconstructs (s : pystr) (c : instance) :
  ISBN10_post s c -> checksum ISBN10_weights 11 (digits c) = 0 ->
  outcome (ISBN10 (self_s c)) (OK (regiven c (self_s c))).
Proof.
  intros [o0 [o13 [b [Hinit [Hdec [Hout [H13 [Hbits ->]]]]]]]] Hz.
  cbn [digits set_bits] in Hz.
  assert (Hm0 : 11 <> 0) by discriminate.
  pose proof (init_rerun ISBN10_attrs ISBN10_weights 11 10 10 10
                eq_refl eq_refl Hm0 good_ISBN10_firstCharMap
                good_ISBN10_lastCharMap good_ISBN10_otherCharMap
                s o0 Hinit (decimal_count _ _ Hdec) Hz) as Hre.
  cbn [self_s set_bits]. unfold ISBN10.
  eapply outcome_bind_OK; [exact Hre |].
  eapply outcome_bind_OK; [exact Hout |].
  rewrite Hbits. cbn [getattr].
  eapply outcome_bind_OK; [apply outcome_ret |]. apply outcome_ret.
Qed.

Lemma ISMN_reconstructs (s : pystr) (c : instance) :
  ISMN_post s c ->
  outcome (ISMN (self_s c)) (OK (regiven c (self_s c))).
Proof.
  intros [o0 [o13 [b [Hinit [Hdec [Hout [H13 [Hbits ->]]]]]]]].
  assert (Hz : checksum ISMN_weights 10 (digits o0) = 0).
  { destruct Hinit as [ds0 [i [_ [Hl [Hres _]]]]].
    now destruct (resolution_mod10 _ _ _ _ ISMN_units Hl Hres). }
  assert (Hm0 : 10 <> 0) by discriminate.
  pose proof (init_rerun ISMN_attrs ISMN_weights 10 9 9 9
                eq_refl eq_refl Hm0 good_ISMN_firstCharMap
                good_ISMN_lastCharMap good_ISMN_otherCharMap
                s o0 Hinit (decimal_count _ _ Hdec) Hz) as Hre.
  cbn [self_s set_bits]. unfold ISMN.
  eapply outcome_bind_OK; [exact Hre |].
  eapply outcome_bind_OK; [exact Hout |].
  rewrite Hbits. cbn [getattr].
  eapply outcome_bind_OK; [apply outcome_ret |]. apply outcome_ret.
Qed.

(** What the constructor of [F] returns for the normalized string of
    [c]: [c] with that string as [givenString]; for [UPC5], whose
    string is its input, [c] itself; for [ISBN13] and [ISMN13] the prefix
    is tested on the normalized string. *)
Definition reconstructed (F : format) (c : instance) : res instance :=
  match F with
  | F_UPC5 => OK c
  | _ => rerun_result F c
  end.

(** X24.  Constructing again from the normalized string.  For every
    instance [c] that a constructor returned, for whatever input, with
    or without wildcard, in whatever case (for [ISBN10]: when its digits
    satisfy the checksum), the same constructor on [c.s] returns an
    instance with the same type, label, string, digits, check digit and
    bits; [ISBN13] and [ISMN13] do so when [c.s] passes their prefix
    test, and raise their prefix error when it does not. *)
Theorem normalized_reconstructs (F : format) (s : pystr) msgs c msgs' :
  construct F s msgs = (OK c, msgs') ->
  (F = F_ISBN10 -> checksum ISBN10_weights 11 (digits c) = 0) ->
  outcome (construct F (self_s c)) (reconstructed F c).
Proof.
  intros Hrun Hz.
  destruct F; cbn [construct reconstructed rerun_result] in *.
  - now apply (hoare_run_OK _ _ _ _ _ _ (UPCA_quiet s)) in Hrun.
  - assert (Hs : s <> []) by (intros ->; discriminate).
    apply (hoare_run_OK _ _ _ _ _ _ (EAN13_hoare s Hs)) in Hrun.
    exact (EAN13_reconstructs _ _ _ _ Hrun).
  - destruct (UPC5_hoare s) as [r [Hr _]].
    destruct (outcome_run _ _ _ _ _ Hr Hrun) as [<- _].
    apply (hoare_run_OK _ _ _ _ _ _ (UPC5_hoare s)) in Hrun.
    apply UPC5_post_addon in Hrun.
    destruct Hrun as [d1 [d2 [d3 [d4 [d5 [v [p1 [p2 [p3 [p4 [p5 H]]]]]]]]]]].
    destruct H as [_ [_ [_ [_ [_ [_ [_ [Hsame _]]]]]]]].
    rewrite Hsame. exact Hr.
  - assert (Hs : s <> []) by (intros ->; discriminate).
    apply (hoare_run_OK _ _ _ _ _ _ (ISBN10_hoare s Hs)) in Hrun.
    exact (ISBN10_reconstructs _ _ Hrun (Hz eq_refl)).
  - assert (Hs : s <> []) by (intros ->; discriminate).
    apply (hoare_run_OK _ _ _ _ _ _ (ISBN13_hoare s Hs)) in Hrun.
    destruct Hrun as [Hpost _].
    exact (prefixed_reconstructs _ _ (str "9*") (str "7*") (str "89*")
             (str ": must begin with 978 or 979") _ _ Hpost).
  - assert (Hs : s <> []) by (intros ->; discriminate).
    apply (hoare_run_OK _ _ _ _ _ _ (ISMN_hoare s Hs)) in Hrun.
    exact (ISMN_reconstructs _ _ Hrun).
  - assert (Hs : s <> []) by (intros ->; discriminate).
    apply (hoare_run_OK _ _ _ _ _ _ (ISMN13_hoare s Hs)) in Hrun.
    destruct Hrun as [Hpost _].
    exact (prefixed_reconstructs _ _ (str "9*") (str "7*") (str "9*")
             (str ": must begin with 979") _ _ Hpost).
Qed.

Definition sample_lower_ISBN10 : instance :=
  Eval vm_compute in returned (ISBN10 (str "0-8044-2957-x")).

Lemma normalized_reconstructs_witness :
  ISBN10 (str "0-8044-2957-X") []
  = (OK (regiven sample_lower_ISBN10 (str "0-8044-2957-X")), [] ++ []).
Proof.
  refine (normalized_reconstructs F_ISBN10 (str "0-8044-2957-x") []
            sample_lower_ISBN10 [] _ _ []).
  - vm_compute. reflexivity.
  - intros _. vm_compute. reflexivity.
Defined.

(** * Further properties: the strings the dispatcher accepts *)

Lemma run_accepted (F : format) (s : pystr) msgs c msgs' :
  F <> F_UPCA -> parsed_string F s <> [] ->
  construct F s msgs = (OK c, msgs') -> accepted F s.
Proof.
  intros HF Hs Hrun. destruct (construct_outcome F s HF Hs) as [r [Hr Hq]].
  rewrite Hr in Hrun. destruct r as [o | e]; [exact Hq | discriminate Hrun].
Qed.

Lemma fails_not_accepted (F : format) (s : pystr) msgs x :
  F <> F_UPCA -> parsed_string F s <> [] ->
  fails F s msgs x -> accepted F s -> False.
Proof.
  intros HF Hs [_ Hrun] Hacc.
  destruct (construct_outcome F s HF Hs) as [r [Hr Hq]].
  rewrite Hr in Hrun. destruct r as [o | e]; [discriminate Hrun |].
  exact (failure_not_accepted _ _ _ Hq Hacc).
Qed.

(** X25.  The strings the dispatcher accepts: [makeProductCode] returns
    a code exactly on the strings that [ISBN10], [ISMN] or [EAN13]
    accepts.  [ISBN13], which it tries first, accepts no string that
    [EAN13] refuses: it decides the class of the result, not whether
    there is one. *)
Theorem dispatcher_accepts (s : pystr) (forceISBN13 : bool)
    (msgs : msgs_t) :
  s <> [] ->
  (exists c msgs', makeProductCode s forceISBN13 false msgs = (OK c, msgs'))
  <-> accepted F_ISBN10 s \/ accepted F_ISMN s \/ accepted F_EAN13 s.
Proof.
  intros Hs.
  pose proof (makeProductCode_dispatch s forceISBN13 msgs Hs) as H.
  split.
  - intros [c [msgs' Hrun]]. rewrite Hrun in H.
    inversion H as [c' H13 | x1 c10 c13 F1 H10 _ _ | x1 x2 c' F1 F2 HM
                   | x1 x2 x3 c' F1 F2 F3 HE |].
    + right. right.
      assert (HF : F_ISBN13 <> F_UPCA) by discriminate.
      destruct (run_accepted F_ISBN13 s _ _ _ HF Hs H13) as [Hacc _].
      split; [exact Hacc |]. split; [reflexivity |].
      split; intros Hx; discriminate Hx.
    + left. assert (HF : F_ISBN10 <> F_UPCA) by discriminate.
      exact (run_accepted F_ISBN10 s _ _ _ HF Hs H10).
    + right. left. assert (HF : F_ISMN <> F_UPCA) by discriminate.
      exact (run_accepted F_ISMN s _ _ _ HF Hs HM).
    + right. right. assert (HF : F_EAN13 <> F_UPCA) by discriminate.
      exact (run_accepted F_EAN13 s _ _ _ HF Hs HE).
  - intros Hacc.
    destruct (makeProductCode s forceISBN13 false msgs) as [r msgs'].
    destruct r as [c | e]; [now exists c, msgs' |].
    exfalso.
    inversion H as [| | | | x1 x2 x3 x4 F1 F2 F3 F4].
    destruct Hacc as [Hacc | [Hacc | Hacc]].
    + exact (fails_not_accepted F_ISBN10 s _ _ ltac:(discriminate) Hs F2 Hacc).
    + exact (fails_not_accepted F_ISMN s _ _ ltac:(discriminate) Hs F3 Hacc).
    + exact (fails_not_accepted F_EAN13 s _ _ ltac:(discriminate) Hs F4 Hacc).
Qed.

Lemma dispatcher_accepts_witness :
  exists c msgs',
    makeProductCode (str "M-345-24680-5") true false [] = (OK c, msgs').
Proof.
  apply (dispatcher_accepts (str "M-345-24680-5") true []); [discriminate |].
  right. left. apply (run_accepted F_ISMN _ [] sample_ISMN []);
    [discriminate | discriminate | vm_compute; reflexivity].
Defined.

(** * C7: two or more wildcards *)

(** C7, as stated: every input with two or more wildcards fails with the
    too-many-wildcards error, whatever its separators.  [parse] runs
    before the wildcards are counted: a string with two stars and a
    dash as its last character, or a letter, fails with the error of
    the parse, and so does every string with a star that [UPC5] is
    given, since its maps know the star in no position of the input. *)
Lemma two_wildcards_invalid_here :
  count_occ ascii_dec (str "*78-0-9669553-0-*-") star = 2%nat /\
  EAN13 (str "*78-0-9669553-0-*-") []
  = (Raise (ProductCodeError (Some (str "EAN13: '-' invalid here"))),
     [str "EAN13: '-' invalid here"]) /\
  EAN13 (str "*78-0-9669553-0-x*") []
  = (Raise (ProductCodeError (Some (str "EAN13: 'x' invalid here"))),
     [str "EAN13: 'x' invalid here"]) /\
  UPC5 (str "5*5*5") []
  = (Raise (ProductCodeError (Some (str "UPC5: '*' invalid here"))),
     [str "UPC5: '*' invalid here"]).
Proof. repeat split; vm_compute; reflexivity. Qed.

(** An input with two wildcards: two stars or more in the string, or
    two wildcard slots or more in its parse (the string ["*"] is read
    as first and as last character). *)
Definition two_wildcards (F : format) (s : pystr) : Prop :=
  (2 <= count_occ ascii_dec s star)%nat \/
  exists ds, parse_slots F s = OK ds /\ (2 <= count_None ds)%nat.

Lemma count_occ_one (c : ascii) : (count_occ ascii_dec [c] star <= 1)%nat.
Proof. cbn. destruct (ascii_dec c star); lia. Qed.

(** The parse of a string with two stars holds two wildcard slots. *)
Lemma two_wildcards_slots (F : format) (s : pystr) (ds : list digit) :
  two_wildcards F s -> parse_slots F s = OK ds ->
  (2 <= count_None ds)%nat.
Proof.
  intros [Hst | [ds' [Hp' Hc]]] Hp; [| congruence].
  destruct (format_good_maps F) as [Hf [Hl Ho]].
  assert (Hps : (2 <= count_occ ascii_dec (parsed_string F s) star)%nat).
  { destruct F; cbn [parsed_string]; try exact Hst.
    rewrite count_occ_app_star. lia. }
  unfold parse_slots in Hp.
  destruct (pystr_shape (parsed_string F s))
    as [E | [[c E] | [c [y [d E]]]]]; rewrite E in Hps, Hp.
  - cbn in Hps. lia.
  - pose proof (count_occ_one c). lia.
  - now rewrite (parse_count (attrs_of F) _ _ _ Hf Hl Ho c y d ds Hp).
Qed.

(** [UPC5] finds a wildcard in its own last slot only. *)
Lemma UPC5_parse_wildcards (s : pystr) (ds : list digit) :
  parse_slots F_UPC5 s = OK ds -> (count_None ds <= 1)%nat.
Proof.
  unfold parse_slots. cbn [parsed_string attrs_of firstCharMap lastCharMap
                           otherCharMap UPC5_attrs].
  destruct (pystr_shape (s ++ str "*")) as [E | [[c E] | [c [y [d E]]]]];
    rewrite E.
  - discriminate.
  - destruct s as [| c0 [| c1 s']]; try discriminate E.
    cbn in E. injection E as <-. intros H. vm_compute in H. discriminate H.
  - rewrite parse_more.
    destruct (slot (makeCharMap []) c) as [a |] eqn:Ha; cbn [rbind];
      [| discriminate].
    destruct (slots (makeCharMap []) y) as [r |] eqn:Hr; cbn [rbind];
      [| discriminate].
    destruct (slot (makeCharMap [[(str "*", PyNone)]]) d) as [b |] eqn:Hb;
      cbn [rbind]; [| discriminate].
    intros [= <-].
    destruct (digits_only_slot _ _ _ digits_only_makeCharMap Ha)
      as [n [_ [_ ->]]].
    destruct (digits_only_slots _ _ _ digits_only_makeCharMap Hr)
      as [ns [_ [_ ->]]].
    apply slot_length in Hb. rewrite !count_None_app.
    assert (Hns : count_None (map Some ns) = 0%nat)
      by (clear; induction ns; [reflexivity | assumption]).
    rewrite Hns.
    destruct b as [| [v |] [| ? ?]]; cbn in *; lia.
Qed.

(** C7, amended.  An input with two or more wildcards is never
    constructed, under any format: the constructor raises a
    [ProductCodeError] and appends its message to the shared list.  When
    every character is a key of the map of its position, the parse
    holds two or more wildcard slots and the error is the
    too-many-wildcards error of the format, whatever the length, the
    checksum and the separators in a row; when a character is not, the
    error is that of the parse, which runs first, for that character.
    [UPC5], whose maps know no star in the input, always fails in the
    parse. *)
Theorem too_many_wildcards (F : format) (s : pystr) (msgs : msgs_t) :
  two_wildcards F s ->
  (exists x,
      construct F s msgs
      = (Raise (ProductCodeError (Some x)), msgs ++ [x]) /\
      match parse_slots F s with
      | OK ds => (2 <= count_None ds)%nat /\ x = too_many (attrs_of F)
      | Raise e => exists k, e = KeyError k /\ x = invalid_here (attrs_of F) k
      end) /\
  (F = F_UPC5 -> exists k, parse_slots F s = Raise (KeyError k)) /\
  forall c msgs', construct F s msgs <> (OK c, msgs').
Proof.
  intros Htw.
  assert (Hne : parsed_string F s <> []).
  { destruct Htw as [Hst | [ds [Hp _]]].
    - intros E. destruct F; cbn [parsed_string] in E;
        try (rewrite E in Hst; cbn in Hst; lia).
      destruct s; discriminate E.
    - exact (parse_OK_nonempty _ _ _ _ _ Hp). }
  assert (Hcase :
            (exists ds, parse_slots F s = OK ds /\ (2 <= count_None ds)%nat) \/
            exists k, parse_slots F s = Raise (KeyError k)).
  { destruct (parse_slots F s) as [ds | e] eqn:Hp.
    - left. exists ds. split; [reflexivity |].
      exact (two_wildcards_slots F s ds Htw Hp).
    - right. destruct (parse_Raise _ _ _ _ _ Hne Hp) as [k ->]. now exists k. }
  assert (Hmain :
            exists x,
              construct F s msgs
              = (Raise (ProductCodeError (Some x)), msgs ++ [x]) /\
              match parse_slots F s with
              | OK ds => (2 <= count_None ds)%nat /\ x = too_many (attrs_of F)
              | Raise e =>
                  exists k, e = KeyError k /\ x = invalid_here (attrs_of F) k
              end).
  { destruct Hcase as [[ds [Hp Hc]] | [k Hp]]; rewrite Hp.
    - exists (too_many (attrs_of F)). split; [| now split].
      exact (parsed_wildcards_too_many F s ds msgs Hp Hc).
    - exists (invalid_here (attrs_of F) k). split; [| now exists k].
      apply outcome_raise_run; [| apply invalid_here_nonempty].
      apply construct_init_Raise. now apply init_parse_Raise. }
  split; [exact Hmain |]. split.
  - intros ->. destruct Hcase as [[ds [Hp Hc]] | Hk]; [| exact Hk].
    pose proof (UPC5_parse_wildcards s ds Hp). lia.
  - intros c msgs'. destruct Hmain as [x [Hrun _]]. rewrite Hrun.
    discriminate.
Qed.

Lemma too_many_wildcards_witness :
  exists x,
    EAN13 (str "*78-0-9669553-0-*") []
    = (Raise (ProductCodeError (Some x)), [] ++ [x]) /\
    match parse_slots F_EAN13 (str "*78-0-9669553-0-*") with
    | OK ds => (2 <= count_None ds)%nat /\ x = str "EAN13: too many wildcard digits."
    | Raise e => exists k, e = KeyError k /\ x = invalid_here (attrs_of F_EAN13) k
    end.
Proof.
  refine (proj1 (too_many_wildcards F_EAN13 (str "*78-0-9669553-0-*") [] _)).
  left. vm_compute. lia.
Defined.
